(** * Fund-longevity simulator

    A shallow embedding of the simulation engine of the personal finance
    simulator: [Asset::addCashReserve], [Asset::calculateN] and
    [Asset::initializeFromUserData] (asset.cpp), and the growth-curve
    generators of modelRecession.cpp.

    Conventions of the embedding.
    - [int] and [long int] are integers of 32 and 64 bits, carried in [Z];
      every arithmetic result is reduced with [wrap32] / [wrap64]
      (two's-complement wrap-around; C++ leaves signed overflow undefined).
    - [float] is IEEE-754 binary32, carried in [spec_float] with the
      operations of [SpecFloat] at precision 24 and maximal exponent 128;
      every operation rounds once, to nearest-even.
    - A [std::array] is a list; an index outside the list reads the
      default value and a write there is dropped (C++ leaves both
      undefined).  [dims_ok] states that every array has its declared size.
    - [DEBUG_PRINT] is 0, so the debug output is not part of the model.

    The file has two parts: the embedding (definitions only), then the
    lemmas and theorems about it. *)

From Stdlib Require Import ZArith Lia Bool List Ascii String DecimalString.
From Stdlib Require Import SpecFloat PrimFloat FloatOps.
From stdpp Require Import base option list.

Set Warnings "-inexact-float".
Local Open Scope Z_scope.

(** * Part I: the embedding *)

(** ** Machine integers *)

Definition wrap (w : Z) (z : Z) : Z :=
  (z + 2 ^ (w - 1)) mod 2 ^ w - 2 ^ (w - 1).

Definition wrap32 : Z -> Z := wrap 32.
Definition wrap64 : Z -> Z := wrap 64.

Definition INT_MIN : Z := - 2 ^ 31.
Definition INT_MAX : Z := 2 ^ 31 - 1.
Definition LONG_MIN : Z := - 2 ^ 63.
Definition LONG_MAX : Z := 2 ^ 63 - 1.

Definition in_int (z : Z) : Prop := INT_MIN <= z <= INT_MAX.
Definition in_long (z : Z) : Prop := LONG_MIN <= z <= LONG_MAX.

(** ** Single-precision floats *)

Definition prec : Z := 24.
Definition emax : Z := 128.

Definition float32 : Type := spec_float.

(** Rounding of a wider binary float to binary32 (the conversion of a
    [double] constant to [float]). *)
Definition round32 (x : spec_float) : float32 :=
  match x with
  | S754_finite s m e => binary_round prec emax s m e
  | _ => x
  end.

(** A decimal literal of the source: the literal is a [double], and is
    converted to [float] where it initialises or meets a [float]. *)
Definition lit (x : PrimFloat.float) : float32 := round32 (Prim2SF x).

(** Conversion of an integer ([int], [long int], [unsigned int]) to
    [float]. *)
Definition of_Z (z : Z) : float32 := binary_normalize prec emax z 0 false.

Definition fadd : float32 -> float32 -> float32 := SFadd prec emax.
Definition fsub : float32 -> float32 -> float32 := SFsub prec emax.
Definition fmul : float32 -> float32 -> float32 := SFmul prec emax.
Definition fdiv : float32 -> float32 -> float32 := SFdiv prec emax.
Definition fopp : float32 -> float32 := SFopp.
Definition fabs : float32 -> float32 := SFabs.
Definition flt : float32 -> float32 -> bool := SFltb.
Definition fle : float32 -> float32 -> bool := SFleb.
Definition feq : float32 -> float32 -> bool := SFeqb.

Definition fzero : float32 := S754_zero false.
Definition fone : float32 := of_Z 1.

(** The integer part of a finite float, rounded toward zero. *)
Definition trunc (x : float32) : option Z :=
  match x with
  | S754_zero _ => Some 0
  | S754_finite s m e =>
      Some (cond_Zopp s
              (match e with
               | Z0 => Zpos m
               | Zpos p => Zpos m * 2 ^ Zpos p
               | Zneg p => Zpos m / 2 ^ Zpos p
               end))
  | _ => None
  end.

(** Conversion of a [float] to a signed integer of the range [lo .. hi].
    C++ defines it (truncation) when the integer part fits; for the other
    inputs, which C++ leaves undefined, the model takes the result of the
    AArch64 conversion instruction: 0 for a NaN and the nearest bound
    otherwise. *)
Definition to_signed (lo hi : Z) (x : float32) : Z :=
  match x with
  | S754_nan => 0
  | S754_infinity s => if s then lo else hi
  | _ => match trunc x with
         | Some z => Z.max lo (Z.min hi z)
         | None => 0
         end
  end.

Definition to_long : float32 -> Z := to_signed LONG_MIN LONG_MAX.
Definition to_int : float32 -> Z := to_signed INT_MIN INT_MAX.

Definition is_finite (x : float32) : bool :=
  match x with
  | S754_zero _ | S754_finite _ _ _ => true
  | _ => false
  end.

(** A well-formed binary32 value: a finite value is in canonical form. *)
Definition valid (x : float32) : bool := valid_binary prec emax x.

(** ** constants.h *)

Definition MAX_YEARS : nat := 50.
Definition MAX_ACCOUNTS : nat := 4.
Definition CASH_RESERVE : Z := 0.
Definition INDIVIDUAL_INDEX : nat := 0.
Definition ROTH_INDEX : nat := 1.
Definition IRA_INDEX : nat := 2.
Definition R401K_INDEX : nat := 3.

(** ** Arrays *)

(** [a[i]] *)
Definition get1 {A : Type} (d : A) (a : list A) (i : nat) : A :=
  default d (a !! i).

(** [a[c][i]] *)
Definition get2 {A : Type} (d : A) (a : list (list A)) (c i : nat) : A :=
  default d (a !! c ≫= fun row => row !! i).

(** [a[c][i] = x] *)
Definition set2 {A : Type} (a : list (list A)) (c i : nat) (x : A)
  : list (list A) :=
  alter (fun row => <[i := x]> row) c a.

Definition dims2 {A : Type} (a : list (list A)) (rows cols : nat) : Prop :=
  length a = rows /\ Forall (fun row => length row = cols) a.

(** ** The simulation state (class [Asset], asset.h) *)

Record Asset : Type := mkAsset {
  fundLongevity_ : Z;
  cashReserve_ : Z;
  growthRate_ : list (list float32);
  name_ : list string;
  yearsTillRetirement_ : Z;
  yearsTillWithdrawal_ : Z;
  yearsTillPension_ : Z;
  takehomeIncome_ : Z;
  contributionRoth_ : Z;
  contributionIra_ : Z;
  contributionR401k_ : Z;
  pensionEstimate_ : Z;
  value_ : list (list Z);
  availability_ : list (list bool);
  expense_ : list Z;
  distribution_ : list (list Z);
  growthRateAvg_ : list float32;
  inflation_ : list float32
}.

(** Assignment to one data member. *)

Definition set_fundLongevity_ (x : Z) (a : Asset) : Asset :=
  mkAsset x (cashReserve_ a) (growthRate_ a) (name_ a)
    (yearsTillRetirement_ a) (yearsTillWithdrawal_ a) (yearsTillPension_ a)
    (takehomeIncome_ a) (contributionRoth_ a) (contributionIra_ a)
    (contributionR401k_ a) (pensionEstimate_ a) (value_ a) (availability_ a)
    (expense_ a) (distribution_ a) (growthRateAvg_ a) (inflation_ a).

Definition set_cashReserve_ (x : Z) (a : Asset) : Asset :=
  mkAsset (fundLongevity_ a) x (growthRate_ a) (name_ a)
    (yearsTillRetirement_ a) (yearsTillWithdrawal_ a) (yearsTillPension_ a)
    (takehomeIncome_ a) (contributionRoth_ a) (contributionIra_ a)
    (contributionR401k_ a) (pensionEstimate_ a) (value_ a) (availability_ a)
    (expense_ a) (distribution_ a) (growthRateAvg_ a) (inflation_ a).

Definition set_growthRate_ (x : list (list float32)) (a : Asset) : Asset :=
  mkAsset (fundLongevity_ a) (cashReserve_ a) x (name_ a)
    (yearsTillRetirement_ a) (yearsTillWithdrawal_ a) (yearsTillPension_ a)
    (takehomeIncome_ a) (contributionRoth_ a) (contributionIra_ a)
    (contributionR401k_ a) (pensionEstimate_ a) (value_ a) (availability_ a)
    (expense_ a) (distribution_ a) (growthRateAvg_ a) (inflation_ a).

Definition set_name_ (x : list string) (a : Asset) : Asset :=
  mkAsset (fundLongevity_ a) (cashReserve_ a) (growthRate_ a) x
    (yearsTillRetirement_ a) (yearsTillWithdrawal_ a) (yearsTillPension_ a)
    (takehomeIncome_ a) (contributionRoth_ a) (contributionIra_ a)
    (contributionR401k_ a) (pensionEstimate_ a) (value_ a) (availability_ a)
    (expense_ a) (distribution_ a) (growthRateAvg_ a) (inflation_ a).

Definition set_yearsTillRetirement_ (x : Z) (a : Asset) : Asset :=
  mkAsset (fundLongevity_ a) (cashReserve_ a) (growthRate_ a) (name_ a) x
    (yearsTillWithdrawal_ a) (yearsTillPension_ a) (takehomeIncome_ a)
    (contributionRoth_ a) (contributionIra_ a) (contributionR401k_ a)
    (pensionEstimate_ a) (value_ a) (availability_ a) (expense_ a)
    (distribution_ a) (growthRateAvg_ a) (inflation_ a).

Definition set_takehomeIncome_ (x : Z) (a : Asset) : Asset :=
  mkAsset (fundLongevity_ a) (cashReserve_ a) (growthRate_ a) (name_ a)
    (yearsTillRetirement_ a) (yearsTillWithdrawal_ a) (yearsTillPension_ a)
    x (contributionRoth_ a) (contributionIra_ a) (contributionR401k_ a)
    (pensionEstimate_ a) (value_ a) (availability_ a) (expense_ a)
    (distribution_ a) (growthRateAvg_ a) (inflation_ a).

Definition set_contributionRoth_ (x : Z) (a : Asset) : Asset :=
  mkAsset (fundLongevity_ a) (cashReserve_ a) (growthRate_ a) (name_ a)
    (yearsTillRetirement_ a) (yearsTillWithdrawal_ a) (yearsTillPension_ a)
    (takehomeIncome_ a) x (contributionIra_ a) (contributionR401k_ a)
    (pensionEstimate_ a) (value_ a) (availability_ a) (expense_ a)
    (distribution_ a) (growthRateAvg_ a) (inflation_ a).

Definition set_contributionIra_ (x : Z) (a : Asset) : Asset :=
  mkAsset (fundLongevity_ a) (cashReserve_ a) (growthRate_ a) (name_ a)
    (yearsTillRetirement_ a) (yearsTillWithdrawal_ a) (yearsTillPension_ a)
    (takehomeIncome_ a) (contributionRoth_ a) x (contributionR401k_ a)
    (pensionEstimate_ a) (value_ a) (availability_ a) (expense_ a)
    (distribution_ a) (growthRateAvg_ a) (inflation_ a).

Definition set_contributionR401k_ (x : Z) (a : Asset) : Asset :=
  mkAsset (fundLongevity_ a) (cashReserve_ a) (growthRate_ a) (name_ a)
    (yearsTillRetirement_ a) (yearsTillWithdrawal_ a) (yearsTillPension_ a)
    (takehomeIncome_ a) (contributionRoth_ a) (contributionIra_ a) x
    (pensionEstimate_ a) (value_ a) (availability_ a) (expense_ a)
    (distribution_ a) (growthRateAvg_ a) (inflation_ a).

Definition set_value_ (x : list (list Z)) (a : Asset) : Asset :=
  mkAsset (fundLongevity_ a) (cashReserve_ a) (growthRate_ a) (name_ a)
    (yearsTillRetirement_ a) (yearsTillWithdrawal_ a) (yearsTillPension_ a)
    (takehomeIncome_ a) (contributionRoth_ a) (contributionIra_ a)
    (contributionR401k_ a) (pensionEstimate_ a) x (availability_ a)
    (expense_ a) (distribution_ a) (growthRateAvg_ a) (inflation_ a).

Definition set_availability_ (x : list (list bool)) (a : Asset) : Asset :=
  mkAsset (fundLongevity_ a) (cashReserve_ a) (growthRate_ a) (name_ a)
    (yearsTillRetirement_ a) (yearsTillWithdrawal_ a) (yearsTillPension_ a)
    (takehomeIncome_ a) (contributionRoth_ a) (contributionIra_ a)
    (contributionR401k_ a) (pensionEstimate_ a) (value_ a) x (expense_ a)
    (distribution_ a) (growthRateAvg_ a) (inflation_ a).

Definition set_expense_ (x : list Z) (a : Asset) : Asset :=
  mkAsset (fundLongevity_ a) (cashReserve_ a) (growthRate_ a) (name_ a)
    (yearsTillRetirement_ a) (yearsTillWithdrawal_ a) (yearsTillPension_ a)
    (takehomeIncome_ a) (contributionRoth_ a) (contributionIra_ a)
    (contributionR401k_ a) (pensionEstimate_ a) (value_ a) (availability_ a)
    x (distribution_ a) (growthRateAvg_ a) (inflation_ a).

Definition set_distribution_ (x : list (list Z)) (a : Asset) : Asset :=
  mkAsset (fundLongevity_ a) (cashReserve_ a) (growthRate_ a) (name_ a)
    (yearsTillRetirement_ a) (yearsTillWithdrawal_ a) (yearsTillPension_ a)
    (takehomeIncome_ a) (contributionRoth_ a) (contributionIra_ a)
    (contributionR401k_ a) (pensionEstimate_ a) (value_ a) (availability_ a)
    (expense_ a) x (growthRateAvg_ a) (inflation_ a).

Definition set_growthRateAvg_ (x : list float32) (a : Asset) : Asset :=
  mkAsset (fundLongevity_ a) (cashReserve_ a) (growthRate_ a) (name_ a)
    (yearsTillRetirement_ a) (yearsTillWithdrawal_ a) (yearsTillPension_ a)
    (takehomeIncome_ a) (contributionRoth_ a) (contributionIra_ a)
    (contributionR401k_ a) (pensionEstimate_ a) (value_ a) (availability_ a)
    (expense_ a) (distribution_ a) x (inflation_ a).

Definition set_inflation_ (x : list float32) (a : Asset) : Asset :=
  mkAsset (fundLongevity_ a) (cashReserve_ a) (growthRate_ a) (name_ a)
    (yearsTillRetirement_ a) (yearsTillWithdrawal_ a) (yearsTillPension_ a)
    (takehomeIncome_ a) (contributionRoth_ a) (contributionIra_ a)
    (contributionR401k_ a) (pensionEstimate_ a) (value_ a) (availability_ a)
    (expense_ a) (distribution_ a) (growthRateAvg_ a) x.

(** Element reads, with the value an unwritten cell of a fresh [Asset]
    holds as default. *)

Definition value_at (a : Asset) (c i : nat) : Z := get2 0 (value_ a) c i.
Definition distribution_at (a : Asset) (c i : nat) : Z :=
  get2 0 (distribution_ a) c i.
Definition availability_at (a : Asset) (c i : nat) : bool :=
  get2 false (availability_ a) c i.
Definition growthRate_at (a : Asset) (c i : nat) : float32 :=
  get2 fzero (growthRate_ a) c i.
Definition expense_at (a : Asset) (i : nat) : Z := get1 0 (expense_ a) i.
Definition inflation_at (a : Asset) (i : nat) : float32 :=
  get1 fzero (inflation_ a) i.
Definition growthRateAvg_at (a : Asset) (c : nat) : float32 :=
  get1 fzero (growthRateAvg_ a) c.

(** Every array of the state has its declared size. *)
Definition dims_ok (a : Asset) : Prop :=
  dims2 (growthRate_ a) MAX_ACCOUNTS MAX_YEARS /\
  length (name_ a) = MAX_ACCOUNTS /\
  dims2 (value_ a) MAX_ACCOUNTS MAX_YEARS /\
  dims2 (availability_ a) MAX_ACCOUNTS MAX_YEARS /\
  length (expense_ a) = MAX_YEARS /\
  dims2 (distribution_ a) MAX_ACCOUNTS MAX_YEARS /\
  length (growthRateAvg_ a) = MAX_ACCOUNTS /\
  length (inflation_ a) = MAX_YEARS.

(** ** asset.cpp *)

Definition getFundLongevity (a : Asset) : Z := fundLongevity_ a.

Definition getCashReserve (a : Asset) : Z := cashReserve_ a.

(** [Asset::addCashReserve]: the returned flag and the state after the
    call. *)
Definition addCashReserve (cash : Z) (asset_num n_year : nat) (a : Asset)
  : bool * Asset :=
  if value_at a asset_num n_year >? cash then
    let a1 := set_cashReserve_ (wrap32 (cashReserve_ a + cash)) a in
    (true,
     set_value_
       (set2 (value_ a1) asset_num n_year
          (wrap64 (value_at a1 asset_num n_year - cash))) a1)
  else (false, a).

Definition clearCashReserve (a : Asset) : Asset := set_cashReserve_ 0 a.

(** *** [Asset::calculateN], one block of the loop body at a time *)

(** Lines 68-76: the year of retirement stops income and contributions. *)
Definition retire (i : nat) (a : Asset) : Asset :=
  if Z.of_nat i =? yearsTillRetirement_ a then
    set_contributionR401k_ 0
      (set_contributionIra_ 0
         (set_contributionRoth_ 0 (set_takehomeIncome_ 0 a)))
  else a.

(** [expense_[i] -= cashReserve_; clearCashReserve();] *)
Definition useCashReserve (i : nat) (a : Asset) : Asset :=
  clearCashReserve
    (set_expense_
       (<[i := wrap64 (expense_at a i - cashReserve_ a)]> (expense_ a)) a).

(** Lines 86-112: use or replenish the cash reserve. *)
Definition cashPolicy (i : nat) (a : Asset) : Asset :=
  if (0 <? i)%nat
     && flt (growthRate_at a INDIVIDUAL_INDEX (i - 1)) (of_Z 0)
     && (cashReserve_ a >? 0)
  then useCashReserve i a
  else if (0 <? i)%nat
          && flt (of_Z 0) (growthRate_at a INDIVIDUAL_INDEX (i - 1))
          && (cashReserve_ a =? 0)
  then snd (addCashReserve CASH_RESERVE INDIVIDUAL_INDEX i a)
  else a.

(** Lines 115-122. *)
Definition distributable_total (i : nat) (a : Asset) : Z :=
  fold_left
    (fun total c =>
       if availability_at a c i then wrap64 (total + value_at a c i)
       else total)
    (seq 0 MAX_ACCOUNTS) 0.

(** Lines 127-128. *)
Definition net_expense (i : nat) (a : Asset) : Z :=
  Z.max (wrap64 (expense_at a i - takehomeIncome_ a)) 0.

Definition contribution_individual (i : nat) (a : Asset) : Z :=
  Z.max (wrap64 (takehomeIncome_ a - expense_at a i)) 0.

(** Lines 130-149: the shortfall check; [None] is the [break]. *)
Definition shortfall (i : nat) (net total : Z) (a : Asset) : option Asset :=
  if net >? total then
    if net <? wrap64 (total + cashReserve_ a) then Some (useCashReserve i a)
    else None
  else Some a.

(** Line 151. *)
Definition distribution_percentage (net total : Z) : float32 :=
  fdiv (of_Z net) (of_Z total).

(** Lines 166-187: the body of the loop over the accounts. *)
Definition distribute_account (i : nat) (pct : float32) (a : Asset) (c : nat)
  : Asset :=
  let a1 :=
    set_distribution_
      (set2 (distribution_ a) c i
         (if availability_at a c i
          then to_long (fmul (of_Z (value_at a c i)) pct)
          else 0)) a in
  if (i + 1 <? MAX_YEARS)%nat then
    set_value_
      (set2 (value_ a1) c (i + 1)
         (to_long
            (fmul (of_Z (wrap64 (value_at a1 c i - distribution_at a1 c i)))
               (fadd (of_Z 1) (growthRate_at a1 c i))))) a1
  else a1.

(** Lines 164-196. *)
Definition distribute (i : nat) (pct : float32) (a : Asset) : Asset :=
  fold_left (distribute_account i pct) (seq 0 MAX_ACCOUNTS) a.

(** [value_[c][i + 1] += x] *)
Definition add_value (c i : nat) (x : Z) (a : Asset) : Asset :=
  set_value_ (set2 (value_ a) c (i + 1) (wrap64 (value_at a c (i + 1) + x))) a.

(** [x * (1 + inflation_[i])], stored in a [long int]. *)
Definition inflate (i : nat) (a : Asset) (x : Z) : Z :=
  to_long (fmul (of_Z x) (fadd (of_Z 1) (inflation_at a i))).

(** Lines 200-217: contributions before retirement. *)
Definition contribute (i : nat) (contribution : Z) (a : Asset) : Asset :=
  if (Z.of_nat i <? yearsTillRetirement_ a) && (i + 1 <? MAX_YEARS)%nat then
    let a1 := add_value INDIVIDUAL_INDEX i contribution a in
    let a2 := add_value ROTH_INDEX i (contributionRoth_ a1) a1 in
    let a3 := add_value IRA_INDEX i (contributionIra_ a2) a2 in
    let a4 := add_value R401K_INDEX i (contributionR401k_ a3) a3 in
    let a5 := set_contributionRoth_ (inflate i a4 (contributionRoth_ a4)) a4 in
    let a6 := set_contributionIra_ (inflate i a5 (contributionIra_ a5)) a5 in
    let a7 :=
      set_contributionR401k_ (inflate i a6 (contributionR401k_ a6)) a6 in
    set_takehomeIncome_ (inflate i a7 (takehomeIncome_ a7)) a7
  else a.

(** Lines 220-222. *)
Definition inflate_expense (i : nat) (a : Asset) : Asset :=
  if (i + 1 <? MAX_YEARS)%nat then
    set_expense_ (<[(i + 1)%nat := inflate i a (expense_at a i)]> (expense_ a)) a
  else a.

(** Lines 226-229; [cashReserve_] is an [int]. *)
Definition inflate_reserve (i : nat) (a : Asset) : Asset :=
  if cashReserve_ a >? 0 then
    set_cashReserve_
      (to_int (fmul (of_Z (cashReserve_ a)) (fadd (of_Z 1) (inflation_at a i))))
      a
  else a.

(** The part of the body after the shortfall check (lines 151-229);
    [net] and [contribution] were computed before the check. *)
Definition after_check (i : nat) (net total contribution : Z) (a : Asset)
  : Asset :=
  inflate_reserve i
    (inflate_expense i
       (contribute i contribution
          (distribute i (distribution_percentage net total) a))).

(** The state when the shortfall check of year [i] is reached. *)
Definition before_check (i : nat) (a : Asset) : Asset :=
  cashPolicy i (retire i a).

(** One pass through the loop body: the loop goes on to the next year
    with a new state, or leaves by [break]. *)
Inductive step : Type :=
| Continue (a : Asset)
| Break (a : Asset).

Definition year_body (i : nat) (a : Asset) : step :=
  let a1 := before_check i a in
  let total := distributable_total i a1 in
  let net := net_expense i a1 in
  let contribution := contribution_individual i a1 in
  match shortfall i net total a1 with
  | None => Break a1
  | Some a2 => Continue (after_check i net total contribution a2)
  end.

(** [for (; i < MAX_YEARS; i++)] with [remaining = MAX_YEARS - i] years
    left; the result is the value of [i] and the state at the exit. *)
Fixpoint year_loop (remaining : nat) (i : nat) (a : Asset) : nat * Asset :=
  match remaining with
  | O => (i, a)
  | S remaining' =>
      match year_body i a with
      | Break a' => (i, a')
      | Continue a' => year_loop remaining' (S i) a'
      end
  end.

Definition calculateN (a : Asset) : Asset :=
  let '(i, a') := year_loop MAX_YEARS 0 a in
  set_fundLongevity_ (Z.of_nat i) a'.

(** The profile read from the configuration file (userDataLoading.h). *)
Record UserData : Type := mkUserData {
  name : list string;
  value : list Z;
  rate : list float32;
  initialExpense : Z;
  takehomeIncome : Z;
  contributionRoth : Z;
  contributionIra : Z;
  contributionR401k : Z;
  initialInflation : float32;
  yearsTillRetirement : Z
}.

Definition set_availability_at (c i : nat) (b : bool) (a : Asset) : Asset :=
  set_availability_ (set2 (availability_ a) c i b) a.

(** Lines 246-251: the body of the first loop over the accounts. *)
Definition init_account (user : UserData) (a : Asset) (c : nat) : Asset :=
  let a1 := set_name_ (<[c := get1 EmptyString (name user) c]> (name_ a)) a in
  let a2 := set_value_ (set2 (value_ a1) c 0 (get1 0 (value user) c)) a1 in
  let a3 :=
    set_growthRateAvg_
      (<[c := get1 fzero (rate user) c]> (growthRateAvg_ a2)) a2 in
  set_distribution_ (set2 (distribution_ a3) c 0 0) a3.

(** Lines 268-280: the body of the inner loop of the second loop. *)
Definition init_year_account (user : UserData) (i : nat) (a : Asset) (c : nat)
  : Asset :=
  let a1 := set_value_ (set2 (value_ a) c i (value_at a c 0)) a in
  let a2 :=
    set_distribution_ (set2 (distribution_ a1) c i (distribution_at a1 c 0))
      a1 in
  let a3 :=
    set_availability_at INDIVIDUAL_INDEX i
      (availability_at a2 INDIVIDUAL_INDEX 0) a2 in
  if Z.of_nat i <? yearsTillRetirement user then
    let a4 :=
      set_availability_at ROTH_INDEX i (availability_at a3 ROTH_INDEX 0) a3 in
    let a5 :=
      set_availability_at IRA_INDEX i (availability_at a4 IRA_INDEX 0) a4 in
    set_availability_at R401K_INDEX i (availability_at a5 R401K_INDEX 0) a5
  else
    set_availability_at R401K_INDEX i true
      (set_availability_at IRA_INDEX i true
         (set_availability_at ROTH_INDEX i true a3)).

(** Lines 266-284: the body of the second loop. *)
Definition init_year (user : UserData) (a : Asset) (i : nat) : Asset :=
  let a1 := fold_left (init_year_account user i) (seq 0 MAX_ACCOUNTS) a in
  let a2 := set_expense_ (<[i := expense_at a1 0]> (expense_ a1)) a1 in
  set_inflation_ (<[i := inflation_at a2 0]> (inflation_ a2)) a2.

(** Lines 243-264: the scalars and year 0. *)
Definition init_year0 (user : UserData) (a : Asset) : Asset :=
  let a1 := set_cashReserve_ 0 (set_fundLongevity_ 0 a) in
  let a2 := fold_left (init_account user) (seq 0 MAX_ACCOUNTS) a1 in
  let a3 := set_expense_ (<[0%nat := initialExpense user]> (expense_ a2)) a2 in
  let a4 := set_takehomeIncome_ (takehomeIncome user) a3 in
  let a5 := set_contributionRoth_ (contributionRoth user) a4 in
  let a6 := set_contributionIra_ (contributionIra user) a5 in
  let a7 := set_contributionR401k_ (contributionR401k user) a6 in
  let a8 := set_yearsTillRetirement_ (yearsTillRetirement user) a7 in
  let a9 :=
    set_inflation_ (<[0%nat := initialInflation user]> (inflation_ a8)) a8 in
  let a10 := set_availability_at INDIVIDUAL_INDEX 0 true a9 in
  let a11 := set_availability_at ROTH_INDEX 0 false a10 in
  let a12 := set_availability_at IRA_INDEX 0 false a11 in
  let a13 := set_availability_at R401K_INDEX 0 false a12 in
  let a14 := clearCashReserve a13 in
  snd (addCashReserve CASH_RESERVE INDIVIDUAL_INDEX 0 a14).

Definition initializeFromUserData (user : UserData) (a : Asset) : Asset :=
  fold_left (init_year user) (seq 1 (MAX_YEARS - 1)) (init_year0 user a).

(** [Asset::Asset()].  The constructor leaves [yearsTillWithdrawal_],
    [yearsTillPension_] and [pensionEstimate_] unset; no function of the
    engine reads them, and the model gives them 0. *)
Definition Asset_ctor : Asset :=
  mkAsset 0 0 (replicate MAX_ACCOUNTS (replicate MAX_YEARS (of_Z 0)))
    (replicate MAX_ACCOUNTS EmptyString) 0 0 0 0 0 0 0 0
    (replicate MAX_ACCOUNTS (replicate MAX_YEARS 0))
    (replicate MAX_ACCOUNTS (replicate MAX_YEARS false))
    (replicate MAX_YEARS 0)
    (replicate MAX_ACCOUNTS (replicate MAX_YEARS 0))
    (replicate MAX_ACCOUNTS (of_Z 0)) (replicate MAX_YEARS (of_Z 0)).

(** ** modelRecession.h *)

(** [enum class ModelOption : int]: any [int] can be cast to it. *)
Definition ModelOption : Type := Z.
Definition CONSTANT : ModelOption := 0.
Definition PREDEFINED_YEAR0_LOSS : ModelOption := 1.
Definition RECESSION_RANDOMIZED : ModelOption := 2.

Definition STOCK_GROWTH_AVG : float32 := lit 0.113.
Definition STOCK_AVG_SPAN : float32 := lit 0.2.
Definition STOCK_AVG_SPAN_HALF : float32 := fdiv STOCK_AVG_SPAN (of_Z 2).
Definition RECESSION_MIN : float32 := lit (-0.45).
Definition RECESSION_MAX : float32 := lit (-0.15).

Definition RECESSION_START_MOD : Z := 1.
Definition RECESSION_INT_MIN : Z := 8.
Definition RECESSION_INT_MAX : Z := 11.
Definition RECOVERY_INT_MIN : Z := 1.
Definition RECOVERY_INT_MAX : Z := 4.

Definition RECESSION_YEAR0_LOSS : list float32 :=
  map lit
    [-0.426; 0.1187; 0.213; 0.213; 0.0906842;
     0.232684; 0.242684; 0.132684; 0.146684; 0.114684;
     0.0826842; 0.110684; -0.237; 0.1185; 0.1185;
     0.0926842; 0.176684; 0.138684; 0.200684; 0.218684;
     0.140684; 0.122684; 0.0726842; 0.0706842; 0.220684;
     0.190684; -0.312; 0.156; 0.156; 0.144684;
     0.0786842; 0.150684; 0.148684; 0.136684; 0.218684;
     0.0526842; 0.236684; -0.321; 0.136684; 0.1605;
     0.1605; 0.246684; 0.232684; 0.240684; 0.124684;
     0.0926842; 0.242684; 0.236684; 0.130684; 0.216684]%float.

Definition RANDOM_NUM_MIN : Z := 1.
Definition RANDOM_NUM_MAX : Z := 100.

(** ** modelRecession.cpp *)

(** Conversion of an [int] to [unsigned int] and to [size_t], as the
    comparisons of an [int] with an unsigned value do. *)
Definition to_unsigned (z : Z) : Z := z mod 2 ^ 32.
Definition to_size_t (z : Z) : Z := z mod 2 ^ 64.

Definition scenarioPredefinedYear0Loss (growth_common : list float32)
  : list float32 :=
  fold_left
    (fun g n => <[n := get1 (of_Z 0) RECESSION_YEAR0_LOSS n]> g)
    (seq 0 (length growth_common)) growth_common.

(** The random source.  [rnd k] is the result of the [k]-th call of
    [distribution(generator)] after the generator was seeded; the
    distribution is uniform on [RANDOM_NUM_MIN .. RANDOM_NUM_MAX]. *)
Definition draws_ok (rnd : nat -> Z) : Prop :=
  forall k, RANDOM_NUM_MIN <= rnd k <= RANDOM_NUM_MAX.

(** The variables of [scenarioRecessionRandomized] that the loops change,
    and the number of draws made so far. *)
Record rr_state : Type := mk_rr {
  rr_growth : list float32;
  rr_n : Z;
  rr_years_sum : Z;
  rr_drawn : nat
}.

(** Lines 80-82: the growth rate of a recession year, from one draw. *)
Definition recession_rate (d : Z) : float32 :=
  let recession_range := fsub RECESSION_MAX RECESSION_MIN in
  let rand_normalized := fdiv (of_Z d) (of_Z RANDOM_NUM_MAX) in
  fadd RECESSION_MIN (fmul rand_normalized recession_range).

(** Line 85. *)
Definition half_rebound (d : Z) : float32 :=
  fdiv (fopp (recession_rate d)) (of_Z 2).

(** Lines 79-113: one pass through the body of the [while] loop; the
    flag is [true] when the pass ends in a [break]. *)
Definition recession_pass (rnd : nat -> Z) (st : rr_state) : rr_state * bool :=
  let n := rr_n st in
  let k := rr_drawn st in
  let g1 := <[Z.to_nat n := recession_rate (rnd k)]> (rr_growth st) in
  let s1 := wrap32 (rr_years_sum st + 1) in
  let recovery_y_range := wrap32 (RECOVERY_INT_MAX - RECOVERY_INT_MIN) in
  let recovery_y :=
    wrap32 (RECOVERY_INT_MIN + Z.rem (rnd (k + 1)%nat) recovery_y_range) in
  if to_unsigned (wrap32 (n + recovery_y)) >=? Z.of_nat MAX_YEARS then
    (mk_rr g1 n s1 (k + 2), true)
  else
    let n1 := wrap32 (n + recovery_y) in
    let g2 := <[Z.to_nat n1 := half_rebound (rnd k)]> g1 in
    let s2 := wrap32 (s1 + 1) in
    if to_unsigned (wrap32 (n1 + 1)) >=? Z.of_nat MAX_YEARS then
      (mk_rr g2 n1 s2 (k + 2), true)
    else
      let n2 := wrap32 (n1 + 1) in
      let g3 := <[Z.to_nat n2 := half_rebound (rnd k)]> g2 in
      let s3 := wrap32 (s2 + 1) in
      let recession_y_range := wrap32 (RECESSION_INT_MAX - RECESSION_INT_MIN) in
      let recession_y :=
        wrap32
          (RECESSION_INT_MIN + Z.rem (rnd (k + 2)%nat) recession_y_range) in
      (mk_rr g3 (wrap32 (n2 + recession_y)) s3 (k + 3), false).

(** Lines 78-115: the [while] loop, run for at most [fuel] passes;
    [None] when the passes do not suffice. *)
Fixpoint recession_loop (fuel : nat) (rnd : nat -> Z) (st : rr_state)
  : option rr_state :=
  if to_size_t (rr_n st) <? Z.of_nat (length (rr_growth st)) then
    match fuel with
    | O => None
    | S fuel' =>
        let '(st', broke) := recession_pass rnd st in
        if broke then Some st' else recession_loop fuel' rnd st'
    end
  else Some st.

(** Line 122. *)
Definition remaining_growth_avg (rr_years : Z) : float32 :=
  fdiv (fmul STOCK_GROWTH_AVG (of_Z (Z.of_nat MAX_YEARS)))
    (of_Z (to_unsigned (Z.of_nat MAX_YEARS - rr_years))).

(** Lines 127-128: the growth rate of an ordinary year, from one draw. *)
Definition ordinary_rate (rr_years : Z) (d : Z) : float32 :=
  fadd (fsub (remaining_growth_avg rr_years) STOCK_AVG_SPAN_HALF)
    (fmul (fdiv (of_Z d) (of_Z RANDOM_NUM_MAX)) STOCK_AVG_SPAN).

(** Lines 124-135: the body of the last loop; the state is the curve and
    the number of draws made. *)
Definition fill_year (rnd : nat -> Z) (rr_years : Z)
    (st : list float32 * nat) (n : nat) : list float32 * nat :=
  let '(g, k) := st in
  if feq (get1 (of_Z 0) g n) (of_Z 0) then
    (<[n := ordinary_rate rr_years (rnd k)]> g, S k)
  else (g, k).

(** The most passes the [while] loop can make: every pass that does not
    leave the loop moves [n] forward. *)
Definition recession_fuel : nat := MAX_YEARS.

Definition scenarioRecessionRandomized (rnd : nat -> Z)
    (growth_common : list float32) : option (list float32) :=
  let g0 :=
    fold_left (fun g n => <[n := of_Z 0]> g)
      (seq 0 (length growth_common)) growth_common in
  let recession_y := wrap32 (to_unsigned (rnd 0%nat) mod RECESSION_START_MOD) in
  match recession_loop recession_fuel rnd (mk_rr g0 recession_y 0 1) with
  | None => None
  | Some st =>
      Some (fst (fold_left (fill_year rnd (rr_years_sum st))
                   (seq 0 (length (rr_growth st)))
                   (rr_growth st, rr_drawn st)))
  end.

Definition set_growthRate_at (c n : nat) (x : float32) (a : Asset) : Asset :=
  set_growthRate_ (set2 (growthRate_ a) c n x) a.

(** Lines 147-151. *)
Definition populate_constant (a : Asset) : Asset :=
  fold_left
    (fun a c =>
       fold_left (fun a n => set_growthRate_at c n (growthRateAvg_at a c) a)
         (seq 0 MAX_YEARS) a)
    (seq 0 MAX_ACCOUNTS) a.

(** Lines 173-175. *)
Definition guessed_stock_ratio (a : Asset) (c : nat) : float32 :=
  let ratio := fdiv (growthRateAvg_at a c) STOCK_GROWTH_AVG in
  if fle ratio (lit 1.0) then ratio else lit 1.0.

(** Lines 172-179. *)
Definition scale_growth (growth_common : list float32) (a : Asset) : Asset :=
  fold_left
    (fun a c =>
       let ratio := guessed_stock_ratio a c in
       fold_left
         (fun a n =>
            set_growthRate_at c n (fmul (get1 (of_Z 0) growth_common n) ratio) a)
         (seq 0 (length growth_common)) a)
    (seq 0 MAX_ACCOUNTS) a.

(** The line written to [std::cerr] in the [default] case. *)
Definition unrecognized_message : string :=
  "ERROR: Fund growth moodel option not recognized!".

(** [Asset::populateGrowthCurves] returns nothing; its effects are the
    new state and the lines written to [std::cerr].  The result is [None]
    only when the randomized scenario runs out of passes. *)
Definition populateGrowthCurves (rnd : nat -> Z) (opt : ModelOption)
    (a : Asset) : option (Asset * list string) :=
  let growth_common := replicate MAX_YEARS (of_Z 0) in
  let switch : option (Asset * list float32 * list string) :=
    if opt =? CONSTANT then Some (populate_constant a, growth_common, [])
    else if opt =? PREDEFINED_YEAR0_LOSS then
      Some (a, scenarioPredefinedYear0Loss growth_common, [])
    else if opt =? RECESSION_RANDOMIZED then
      match scenarioRecessionRandomized rnd growth_common with
      | Some g => Some (a, g, [])
      | None => None
      end
    else Some (a, growth_common, [unrecognized_message]) in
  match switch with
  | None => None
  | Some (a1, common, err) =>
      if negb (opt =? CONSTANT) then Some (scale_growth common a1, err)
      else Some (a1, err)
  end.

(** ** personalFinSim.cpp *)

(** One iteration of the loop of [runSim]: the fund longevity stored in
    [results], with the state and the lines written to [std::cerr]. *)
Definition runSim_iteration (rnd : nat -> Z) (user : UserData)
    (opt : ModelOption) (myAsset : Asset) : option (Z * Asset * list string) :=
  let a1 := initializeFromUserData user myAsset in
  match populateGrowthCurves rnd opt a1 with
  | None => None
  | Some (a2, err) =>
      let a3 := calculateN a2 in
      Some (getFundLongevity a3, a3, err)
  end.

(** ** Predicates and reference states of the statements *)

(** What [calculateN] does not write: the account names, the
    availability flags, the growth rates and their averages, the
    inflation rates, the year of retirement, and the year-0 value of
    every account. *)
Definition same_inputs (a a' : Asset) : Prop :=
  name_ a' = name_ a /\
  availability_ a' = availability_ a /\
  growthRate_ a' = growthRate_ a /\
  growthRateAvg_ a' = growthRateAvg_ a /\
  inflation_ a' = inflation_ a /\
  yearsTillRetirement_ a' = yearsTillRetirement_ a /\
  forall c, value_at a' c 0 = value_at a c 0.

(** The loop of [calculateN], started in state [a0], is at the head of
    its body for year [i] in state [a]. *)
Inductive reaches (a0 : Asset) : nat -> Asset -> Prop :=
| reaches_first : reaches a0 0 a0
| reaches_next i a a' :
    reaches a0 i a -> (i < MAX_YEARS)%nat -> year_body i a = Continue a' ->
    reaches a0 (S i) a'.

(** The closed form of the specification for a run without growth,
    inflation, income and contributions: the years the initial total
    pays for, capped at the horizon. *)
Definition total_initial_value (a : Asset) : Z :=
  fold_left (fun s c => s + value_at a c 0) (seq 0 MAX_ACCOUNTS) 0.

Definition closed_form_longevity (a : Asset) : Z :=
  Z.min (total_initial_value a / expense_at a 0) (Z.of_nat MAX_YEARS).

(** The premises of that closed form: no growth, no inflation, no income
    and no contributions. *)
Definition no_growth_no_income (a : Asset) : Prop :=
  (forall c i, growthRate_at a c i = of_Z 0) /\
  (forall i, inflation_at a i = of_Z 0) /\
  takehomeIncome_ a = 0 /\
  contributionRoth_ a = 0 /\ contributionIra_ a = 0 /\
  contributionR401k_ a = 0.

(** *** States of the unit tests (tests/test_asset.cpp) *)

(** [myAsset.value_[c][0] = VALUE[c]] for the four accounts. *)
Definition set_initial_values (v : list Z) (a : Asset) : Asset :=
  fold_left
    (fun a c => set_value_ (set2 (value_ a) c 0 (get1 0 v c)) a)
    (seq 0 MAX_ACCOUNTS) a.

(** [myAsset.availability_[c][y] = true] for every account and year. *)
Definition all_available (a : Asset) : Asset :=
  set_availability_ (replicate MAX_ACCOUNTS (replicate MAX_YEARS true)) a.

(** The availability the tests with a retirement year [r] set up: the
    Individual account from year 0 (an account the test leaves alone
    keeps the [false] of the constructor), every account from year [r]. *)
Definition available_from (r : nat) (a : Asset) : Asset :=
  set_availability_
    (replicate MAX_YEARS true
     :: replicate 3 (replicate r false ++ replicate (MAX_YEARS - r) true)) a.

Definition set_expense0 (y : Z) (a : Asset) : Asset :=
  set_expense_ (<[0%nat := y]> (expense_ a)) a.

(** [ConstantNoGrowthModel], after [populateGrowthCurves(CONSTANT)]:
    four accounts of 12,500, expense 1,000. *)
Definition ConstantNoGrowthModel : Asset :=
  all_available
    (set_initial_values [12500; 12500; 12500; 12500]
       (set_expense0 1000 Asset_ctor)).

(** The same set-up with four accounts of 1 and an expense of 3. *)
Definition small_accounts : Asset :=
  all_available
    (set_initial_values [1; 1; 1; 1] (set_expense0 3 Asset_ctor)).

(** [MaxLongevityNoGrowthModel]. *)
Definition MaxLongevityNoGrowthModel : Asset :=
  available_from 1
    (set_initial_values [0; 0; 0; 245000]
       (set_expense0 5000
          (set_yearsTillRetirement_ 1 (set_takehomeIncome_ 5000 Asset_ctor)))).

(** [AddCashReserveSuccess], before the call. *)
Definition AddCashReserveSuccess : Asset :=
  set_initial_values [501; 0; 0; 0] Asset_ctor.

(** An Individual account of [v], available in year 0, out of which a
    reserve of [r] was taken by [addCashReserve], and an expense [y]. *)
Definition with_reserve (v r y : Z) : Asset :=
  snd (addCashReserve r INDIVIDUAL_INDEX 0
         (set_availability_at INDIVIDUAL_INDEX 0 true
            (set_initial_values [v; 0; 0; 0] (set_expense0 y Asset_ctor)))).

(** A stream of draws: every draw is 50. *)
Definition rnd_const : nat -> Z := fun _ => 50.

(** The availability flags [initializeFromUserData] relies on when it
    copies year 0 into the later years: the array has its size, the
    Individual account is available in year 0 and the other three
    accounts are not. *)
Definition year0_flags (a : Asset) : Prop :=
  dims2 (availability_ a) MAX_ACCOUNTS MAX_YEARS /\
  availability_at a INDIVIDUAL_INDEX 0 = true /\
  availability_at a ROTH_INDEX 0 = false /\
  availability_at a IRA_INDEX 0 = false /\
  availability_at a R401K_INDEX 0 = false.

(** The flag [initializeFromUserData] gives account [c] in a year
    [i >= 1]. *)
Definition later_flag (user : UserData) (c i : nat) : bool :=
  if (c =? INDIVIDUAL_INDEX)%nat then true
  else negb (Z.of_nat i <? yearsTillRetirement user).

(** A profile of four accounts of 12,500 without growth, inflation,
    income or contributions and with retirement in year 0. *)
Definition plain_user : UserData :=
  mkUserData ["Individual"; "Roth"; "IRA"; "401k"]%string
    [12500; 12500; 12500; 12500] [of_Z 0; of_Z 0; of_Z 0; of_Z 0]
    1000 0 0 0 0 (of_Z 0) 0.

(** ** Further predicates of the statements *)

(** The shortfall check of year [i] fails in state [a]: the net expense
    exceeds the distributable total and is not below that total plus the
    cash reserve. *)
Definition depleted_in (i : nat) (a : Asset) : Prop :=
  let a1 := before_check i a in
  net_expense i a1 > distributable_total i a1 /\
  net_expense i a1 >= wrap64 (distributable_total i a1 + cashReserve_ a1).

(** The recurring income and contributions are all zero. *)
Definition no_income (a : Asset) : Prop :=
  takehomeIncome_ a = 0 /\ contributionRoth_ a = 0 /\
  contributionIra_ a = 0 /\ contributionR401k_ a = 0.

(** A growth rate that the randomized scenario may give a year: a finite
    number not below [RECESSION_MIN] that, when negative, is at most
    [RECESSION_MAX]. *)
Definition rate_ok (x : float32) : bool :=
  is_finite x && fle RECESSION_MIN x
  && (negb (flt x (of_Z 0)) || fle x RECESSION_MAX).

(** The list [f 0; ...; f (n - 1)], and the array of [rows] such lists. *)
Definition tabulate {A : Type} (n : nat) (f : nat -> A) : list A :=
  map f (seq 0 n).

Definition tabulate2 {A : Type} (rows cols : nat) (f : nat -> nat -> A)
  : list (list A) :=
  tabulate rows (fun c => tabulate cols (f c)).

(** The year-0 value of account [c] after the call
    [addCashReserve(CASH_RESERVE, INDIVIDUAL_INDEX, 0)] of
    [initializeFromUserData]. *)
Definition year0_value (user : UserData) (c : nat) : Z :=
  let v := get1 0 (value user) c in
  if (c =? INDIVIDUAL_INDEX)%nat && (v >? CASH_RESERVE)
  then wrap64 (v - CASH_RESERVE) else v.

(** The state [initializeFromUserData] leaves, written out: the growth
    rates and the three data members without a source in [UserData] are
    those of the state before. *)
Definition initialized (user : UserData) (a : Asset) : Asset :=
  mkAsset 0 0 (growthRate_ a)
    (tabulate MAX_ACCOUNTS (get1 EmptyString (name user)))
    (yearsTillRetirement user) (yearsTillWithdrawal_ a) (yearsTillPension_ a)
    (takehomeIncome user) (contributionRoth user) (contributionIra user)
    (contributionR401k user) (pensionEstimate_ a)
    (tabulate2 MAX_ACCOUNTS MAX_YEARS (fun c _ => year0_value user c))
    (tabulate2 MAX_ACCOUNTS MAX_YEARS
       (fun c i =>
          match i with
          | O => (c =? INDIVIDUAL_INDEX)%nat
          | S _ => later_flag user c i
          end))
    (tabulate MAX_YEARS (fun _ => initialExpense user))
    (tabulate2 MAX_ACCOUNTS MAX_YEARS (fun _ _ => 0))
    (tabulate MAX_ACCOUNTS (get1 fzero (rate user)))
    (tabulate MAX_YEARS (fun _ => initialInflation user)).

(** The data members that the loop over the years of
    [initializeFromUserData] (lines 266-284) does not write. *)
Definition kept_by_years (a : Asset) :=
  (fundLongevity_ a, cashReserve_ a, growthRate_ a, name_ a,
   yearsTillRetirement_ a, yearsTillWithdrawal_ a, yearsTillPension_ a,
   takehomeIncome_ a, contributionRoth_ a, contributionIra_ a,
   contributionR401k_ a, pensionEstimate_ a, growthRateAvg_ a).

(** The data members declared in asset.h that no member function
    assigns. *)
Definition unassigned_members (a : Asset) : Z * Z * Z :=
  (yearsTillWithdrawal_ a, yearsTillPension_ a, pensionEstimate_ a).

(** ** personalFinSim.cpp: [runSim] and the bins *)

Definition ITERATIONS : nat := 1000.
Definition RESULT_BINS_WIDTH : Z := 10.

(** [MAX_YEARS / RESULT_BINS_WIDTH + 1] *)
Definition BINS_COUNT : nat :=
  Z.to_nat (Z.of_nat MAX_YEARS / RESULT_BINS_WIDTH + 1).

(** [bin_index = results[iter] / RESULT_BINS_WIDTH]: the division is one
    of [unsigned int], its quotient is stored in an [int]. *)
Definition bin_of (result : Z) : Z :=
  wrap32 (to_unsigned result / RESULT_BINS_WIDTH).

(** [resultsBins[bin_index]++] on an array of [unsigned int]; an index
    outside the array has no defined effect, the model drops the write. *)
Definition count_result (bins : list Z) (result : Z) : list Z :=
  let bin_index := bin_of result in
  if (0 <=? bin_index) && (bin_index <? Z.of_nat (length bins)) then
    <[Z.to_nat bin_index :=
        to_unsigned (get1 0 bins (Z.to_nat bin_index) + 1)]> bins
  else bins.

(** Lines 40-49 of [groupResultsAndDisplay]: the counts it goes on to
    print. *)
Definition resultsBins (results : list Z) : list Z :=
  fold_left (fun bins iter => count_result bins (get1 0 results iter))
    (seq 0 ITERATIONS) (replicate BINS_COUNT 0).

(** Lines 98-109: the loop of [runSim] with [iters] iterations left from
    iteration [iter]; iteration [k] draws from its own generator
    [rnd k].  The result is the array of results, the state and the
    lines written to [std::cerr]. *)
Fixpoint runSim_loop (iters iter : nat) (rnd : nat -> nat -> Z)
    (user : UserData) (opt : ModelOption) (myAsset : Asset) (results : list Z)
  : option (list Z * Asset * list string) :=
  match iters with
  | O => Some (results, myAsset, [])
  | S iters' =>
      match runSim_iteration (rnd iter) user opt myAsset with
      | None => None
      | Some (longevity, a, err) =>
          match
            runSim_loop iters' (S iter) rnd user opt a
              (<[iter := longevity]> results)
          with
          | None => None
          | Some (results', a', errs) => Some (results', a', err ++ errs)
          end
      end
  end.

(** What [runSim] reports: the counts of the bins, or one fund
    longevity. *)
Inductive summary : Type :=
| Binned (bins : list Z)
| Simple (longevity : Z).

(** [runSim], lines 83-121.  [results] is the array as declared, not
    initialized.  With an option that is not a key of [modelOptionMap]
    the summary dereferences [end()]; the model gives [None] there. *)
Definition runSim (rnd : nat -> nat -> Z) (user : UserData)
    (opt : ModelOption) (results : list Z) : option (summary * list string) :=
  let num_iterations :=
    if opt =? RECESSION_RANDOMIZED then ITERATIONS else 1%nat in
  match runSim_loop num_iterations 0 rnd user opt Asset_ctor results with
  | None => None
  | Some (results', myAsset, err) =>
      if opt =? RECESSION_RANDOMIZED then
        Some (Binned (resultsBins results'), err)
      else if (opt =? CONSTANT) || (opt =? PREDEFINED_YEAR0_LOSS) then
        Some (Simple (getFundLongevity myAsset), err)
      else None
  end.

(** The number of iterations whose result falls into bin [b]. *)
Definition runs_in_bin (results : list Z) (b : nat) : nat :=
  length
    (filter (fun iter => get1 0 results iter / RESULT_BINS_WIDTH = Z.of_nat b)
       (seq 0 ITERATIONS)).

(** ** userDataLoading.cpp: [userDataWithinBounds] *)

Definition MAX_ROTH_CONTRIBUTION : Z := 100000.
Definition MAX_IRA_CONTRIBUTION : Z := 100000.
Definition MAX_R401K_CONTRIBUTION : Z := 100000.
Definition MAX_AVG_INFLATION : float32 := lit 0.3.
Definition MAX_AVG_GROWTH : float32 := lit 0.3.

(** [std::cout << n] for an [unsigned int]. *)
Definition decimal (n : Z) : string :=
  NilZero.string_of_uint (N.to_uint (Z.to_N n)).

(** [std::cout << x] for the two [float] constants, both 0.3. *)
Definition shown_0_3 : string := "0.3".

(** An [int] compared with an [unsigned int] bound: [x < 0 || x > bound]. *)
Definition outside (x bound : Z) : bool :=
  (x <? 0) || (to_unsigned x >? bound).

(** A [float] compared with 0 and a [float] bound. *)
Definition outside_float (x bound : float32) : bool :=
  flt x (of_Z 0) || flt bound x.

(** [if (bad) { outOfBounds++; std::cerr << line << std::endl; }] on the
    count and the lines written so far. *)
Definition report (bad : bool) (line : string) (st : Z * list string)
  : Z * list string :=
  if bad then (to_unsigned (fst st + 1), snd st ++ [line]) else st.

(** Lines 136-149: the body of the loop over the accounts. *)
Definition account_bounds (user : UserData) (st : Z * list string) (c : nat)
  : Z * list string :=
  let st1 :=
    report (get1 0 (value user) c <? 0)
      ("ERROR: starting value for " ++ get1 EmptyString (name user) c
       ++ " must be non-negative")%string st in
  report (outside_float (get1 fzero (rate user) c) MAX_AVG_GROWTH)
    ("ERROR: growth rate for " ++ get1 EmptyString (name user) c
     ++ " must be within [0, " ++ shown_0_3 ++ "]")%string st1.

(** [userDataWithinBounds], lines 133-209.  The header of [src/] does not
    declare the data members [pensionEstimate], [yearsTillWithdrawal]
    and [yearsTillPension] that the function reads; they are arguments
    here.  The result is the flag, the lines on [std::cerr] and the
    lines on [std::cout]. *)
Definition userDataWithinBounds (user : UserData)
    (pensionEstimate yearsTillWithdrawal yearsTillPension : Z)
  : bool * list string * list string :=
  let st0 := fold_left (account_bounds user) (seq 0 MAX_ACCOUNTS) (0, []) in
  let st1 :=
    report (initialExpense user <? 0)
      "ERROR: current annual expense must be non-negative" st0 in
  let st2 :=
    report (takehomeIncome user <? 0)
      "ERROR: current takehome income must be non-negative" st1 in
  let st3 :=
    report (outside (contributionRoth user) MAX_ROTH_CONTRIBUTION)
      ("ERROR: Roth contribution " ++ " must be non-negative and less than "
       ++ decimal MAX_ROTH_CONTRIBUTION)%string st2 in
  let st4 :=
    report (outside (contributionIra user) MAX_IRA_CONTRIBUTION)
      ("ERROR: IRA contribution " ++ " must be non-negative and less than "
       ++ decimal MAX_IRA_CONTRIBUTION)%string st3 in
  let st5 :=
    report (outside (contributionR401k user) MAX_R401K_CONTRIBUTION)
      ("ERROR: IRA contribution " ++ " must be non-negative and less than "
       ++ decimal MAX_R401K_CONTRIBUTION)%string st4 in
  let st6 :=
    report (pensionEstimate <? 0)
      "ERROR: pension estimate must be non-negative" st5 in
  let st7 :=
    report (outside_float (initialInflation user) MAX_AVG_INFLATION)
      ("ERROR: inflation must be within [0, " ++ shown_0_3 ++ "]")%string
      st6 in
  let st8 :=
    report (outside (yearsTillRetirement user) (Z.of_nat MAX_YEARS))
      ("ERROR: years till retirement must be within [0, "
       ++ decimal (Z.of_nat MAX_YEARS) ++ "]")%string st7 in
  let st9 :=
    report (outside yearsTillWithdrawal (Z.of_nat MAX_YEARS))
      ("ERROR: years till withdrawal must be within [0, "
       ++ decimal (Z.of_nat MAX_YEARS) ++ "]")%string st8 in
  let st10 :=
    report (outside yearsTillPension (Z.of_nat MAX_YEARS))
      ("ERROR: years till pension must be within [0, "
       ++ decimal (Z.of_nat MAX_YEARS) ++ "]")%string st9 in
  let outOfBounds := fst st10 in
  (outOfBounds =? 0, snd st10,
   if negb (outOfBounds =? 0) then
     [("Please correct these " ++ decimal outOfBounds
       ++ " out-of-bounds number(s) in your user_profile.ini file.")%string]
   else []).

(** The bounds [userDataWithinBounds] tests, as the tests are written:
    a [float] that is neither below 0 nor above its bound. *)
Definition within_bounds (user : UserData)
    (pensionEstimate yearsTillWithdrawal yearsTillPension : Z) : Prop :=
  (forall c, (c < MAX_ACCOUNTS)%nat ->
     0 <= get1 0 (value user) c /\
     outside_float (get1 fzero (rate user) c) MAX_AVG_GROWTH = false) /\
  0 <= initialExpense user /\
  0 <= takehomeIncome user /\
  outside (contributionRoth user) MAX_ROTH_CONTRIBUTION = false /\
  outside (contributionIra user) MAX_IRA_CONTRIBUTION = false /\
  outside (contributionR401k user) MAX_R401K_CONTRIBUTION = false /\
  0 <= pensionEstimate /\
  outside_float (initialInflation user) MAX_AVG_INFLATION = false /\
  outside (yearsTillRetirement user) (Z.of_nat MAX_YEARS) = false /\
  outside yearsTillWithdrawal (Z.of_nat MAX_YEARS) = false /\
  outside yearsTillPension (Z.of_nat MAX_YEARS) = false.

(** The numbers out of bounds: how many of the tests of
    [userDataWithinBounds] a profile fails, two tests for each account
    and ten for the other numbers. *)
Definition account_out_of_bounds (user : UserData) (c : nat) : nat :=
  (Nat.b2n (get1 0 (value user) c <? 0)%Z
   + Nat.b2n (outside_float (get1 fzero (rate user) c) MAX_AVG_GROWTH))%nat.

Definition out_of_bounds (user : UserData)
    (pensionEstimate yearsTillWithdrawal yearsTillPension : Z) : nat :=
  (fold_right Nat.add 0
     (map (account_out_of_bounds user) (seq 0 MAX_ACCOUNTS))
   + Nat.b2n (initialExpense user <? 0)%Z
   + Nat.b2n (takehomeIncome user <? 0)%Z
   + Nat.b2n (outside (contributionRoth user) MAX_ROTH_CONTRIBUTION)
   + Nat.b2n (outside (contributionIra user) MAX_IRA_CONTRIBUTION)
   + Nat.b2n (outside (contributionR401k user) MAX_R401K_CONTRIBUTION)
   + Nat.b2n (pensionEstimate <? 0)%Z
   + Nat.b2n (outside_float (initialInflation user) MAX_AVG_INFLATION)
   + Nat.b2n (outside (yearsTillRetirement user) (Z.of_nat MAX_YEARS))
   + Nat.b2n (outside yearsTillWithdrawal (Z.of_nat MAX_YEARS))
   + Nat.b2n (outside yearsTillPension (Z.of_nat MAX_YEARS)))%nat.

(** The count [outOfBounds] is the number [n] of lines written to
    [std::cerr] so far. *)
Definition counted (st : Z * list string) (n : nat) : Prop :=
  fst st = Z.of_nat n /\ length (snd st) = n /\ (n <= 100)%nat.

(** The profile [user] with another IRA contribution, and with another
    401(k) contribution. *)
Definition with_contributionIra (x : Z) (user : UserData) : UserData :=
  mkUserData (name user) (value user) (rate user) (initialExpense user)
    (takehomeIncome user) (contributionRoth user) x (contributionR401k user)
    (initialInflation user) (yearsTillRetirement user).

Definition with_contributionR401k (x : Z) (user : UserData) : UserData :=
  mkUserData (name user) (value user) (rate user) (initialExpense user)
    (takehomeIncome user) (contributionRoth user) (contributionIra user) x
    (initialInflation user) (yearsTillRetirement user).

(** ** userDataLoading.cpp: [trim] *)

(** A [std::string_view] is the list of its characters. *)
Definition space : ascii := " "%char.

(** [s[i] == ' '] *)
Definition is_space_at (s : list ascii) (i : nat) : bool :=
  match s !! i with
  | Some c => Ascii.eqb c space
  | None => false
  end.

(** [while ((start < end) && (s[start] == ' ')) start++;] for at most
    [fuel] passes. *)
Fixpoint trim_front (fuel : nat) (s : list ascii) (start end_ : nat)
  : nat :=
  match fuel with
  | O => start
  | S fuel' =>
      if (start <? end_)%nat && is_space_at s start
      then trim_front fuel' s (S start) end_
      else start
  end.

(** [while ((end > start) && (s[end] == ' ')) end--;] for at most [fuel]
    passes. *)
Fixpoint trim_back (fuel : nat) (s : list ascii) (start end_ : nat)
  : nat :=
  match fuel with
  | O => end_
  | S fuel' =>
      if (start <? end_)%nat && is_space_at s end_
      then trim_back fuel' s start (end_ - 1)
      else end_
  end.

(** [trim], lines 42-53.  For the empty string [s.size() - 1] wraps
    around and [s[0]] is read outside the string; the model gives [None]
    there.  Each loop makes fewer passes than the string has
    characters. *)
Definition trim (s : list ascii) : option (list ascii) :=
  match s with
  | [] => None
  | _ :: _ =>
      let end0 := (length s - 1)%nat in
      let start := trim_front (length s) s 0 end0 in
      let end_ := trim_back (length s) s start end0 in
      Some (take (end_ - start + 1) (drop start s))
  end.

(** ** clparser.cpp *)

Definition USERDATA_DIR : string := "data/".
Definition USERDATA_FILE_ENDING : string := "_profile.ini".

(** The file of the profile of [user]. *)
Definition profile_file (user : string) : string :=
  (USERDATA_DIR ++ user ++ USERDATA_FILE_ENDING)%string.

(** [ClArgs::filename] as the struct initializes it. *)
Definition default_filename : string := profile_file "demo".

(** The lines [displayWelcomeMsg] writes to [std::cout]. *)
Definition welcome : list string :=
  [""; "================================================";
   "       Personal Finance Simulator v0.1";
   "   (for personal use only; no advice implied)";
   "================================================"; "";
   "Usage: ./build/pfsim --user <name>";
   "Example: ./build/pfsim --user demo";
   "See README for more information such as adding ";
   "your own user profile."; ""]%string.

(** How [clArgParser] ends: it returns with [params.filename] set, or it
    calls [exit]. *)
Inductive parsed : Type :=
| Returns (filename : string)
| Exits (code : Z).

Section ClArgParser.

(** [std::regex_match(name, valid_user_regex)] and
    [std::filesystem::exists(filename)]. *)
Variable valid_user : string -> bool.
Variable file_exists : string -> bool.

(** What an argument that does not start a [--user <name>] pair does. *)
Definition other_argument (arg : string) : parsed * list string * list string :=
  if String.eqb arg "--help" then (Exits 0, welcome, [])
  else (Exits 1, [], [("Unknown option: " ++ arg)%string]).

(** The loop of lines 47-66 over the arguments after [argv[0]]; the
    result is how the loop ends (returning stands for reaching the end
    of the arguments), and the lines it writes to [std::cout] and
    [std::cerr]. *)
Fixpoint parse_arguments (args : list string) (filename : string)
  : parsed * list string * list string :=
  match args with
  | [] => (Returns filename, [], [])
  | arg :: rest =>
      match rest with
      | name :: rest' =>
          if String.eqb arg "--user" then
            if negb (valid_user name) then
              (Exits 1, [],
               [("ERROR: Invalid user name. "
                 ++ "Only letters, digits, dashes (-), and underscores (_) allowed.")
                %string])
            else parse_arguments rest' (profile_file name)
          else other_argument arg
      | [] => other_argument arg
      end
  end.

(** [clArgParser], lines 44-75, on a freshly constructed [ClArgs]. *)
Definition clArgParser (args : list string)
  : parsed * list string * list string :=
  match parse_arguments args default_filename with
  | (Returns filename, cout, cerr) =>
      if negb (file_exists filename) then
        (Exits 1, welcome ++ cout,
         cerr ++ [("File " ++ filename ++ " not found! "
                   ++ "Check spelling or create file and try again.")%string])
      else (Returns filename, welcome ++ cout, cerr)
  | (Exits code, cout, cerr) => (Exits code, welcome ++ cout, cerr)
  end.

End ClArgParser.

(** The arguments [--user n1 --user n2 ...] for the names of [names]. *)
Definition user_arguments (names : list string) : list string :=
  concat (map (fun n => ["--user"; n]%string) names).

(** A float that is not on the other side of zero: it is a zero, it is
    not a number, or its sign bit is [s]. *)
Definition on_side (s : bool) (x : float32) : Prop :=
  match x with
  | S754_nan | S754_zero _ => True
  | S754_infinity s' | S754_finite s' _ _ => s' = s
  end.


(** The recurring amounts of the state: the take-home income and the
    three contributions. *)
Definition income_members (a : Asset) : Z * Z * Z * Z :=
  (takehomeIncome_ a, contributionRoth_ a, contributionIra_ a,
   contributionR401k_ a).

(** What the contribution step of a year before retirement adds to the
    next-year value of account [c]; [a1] is the state at the shortfall
    check. *)
Definition contribution_to (i : nat) (a1 : Asset) (c : nat) : Z :=
  if (c =? INDIVIDUAL_INDEX)%nat then contribution_individual i a1
  else if (c =? ROTH_INDEX)%nat then contributionRoth_ a1
  else if (c =? IRA_INDEX)%nat then contributionIra_ a1
  else if (c =? R401K_INDEX)%nat then contributionR401k_ a1
  else 0.

(** A profile with growth: four accounts of 12,500 with average growth
    rates of 5, 7, 7 and 20 per cent, an expense of 1,000, an inflation
    of 3 per cent and retirement in year 0. *)
Definition growing_user : UserData :=
  mkUserData ["Individual"; "Roth"; "IRA"; "401k"]%string
    [12500; 12500; 12500; 12500] [lit 0.05; lit 0.07; lit 0.07; lit 0.2]
    1000 0 0 0 0 (lit 0.03) 0.

(** ** The closed form: the run with every withdrawal within bounds *)

(** The total of the accounts' values of year [i]. *)
Definition total_value (i : nat) (a : Asset) : Z :=
  fold_left (fun s c => s + value_at a c i) (seq 0 MAX_ACCOUNTS) 0.

(** What the accounts withdraw in year [i]. *)
Definition withdrawn (i : nat) (a : Asset) : Z :=
  fold_left (fun s c => s + distribution_at a c i) (seq 0 MAX_ACCOUNTS) 0.

(** Year [i] took the state [a] at the head of the loop body to [a']:
    no account withdraws less than 0 or more than it holds, and the
    withdrawals add up to no more than the year's expense. *)
Definition within_values (i : nat) (a a' : Asset) : bool :=
  forallb
    (fun c =>
       (0 <=? distribution_at a' c i)
       && (distribution_at a' c i <=? value_at a c i))
    (seq 0 MAX_ACCOUNTS)
  && (withdrawn i a' <=? expense_at a i).

(** The withdrawals of year [i] add up to the year's expense: nothing is
    lost to the truncation of the accounts' shares. *)
Definition paid_in_full (i : nat) (a a' : Asset) : bool :=
  withdrawn i a' =? expense_at a i.

(** [check] holds of every year whose body the loop runs to its end,
    from year [i] in state [a] on, with [remaining] years left. *)
Fixpoint every_year (check : nat -> Asset -> Asset -> bool)
    (remaining i : nat) (a : Asset) : bool :=
  match remaining with
  | O => true
  | S remaining' =>
      match year_body i a with
      | Break _ => true
      | Continue a' => check i a a' && every_year check remaining' (S i) a'
      end
  end.

(** Every account is available in every year. *)
Definition always_available (a : Asset) : Prop :=
  forall c i, (c < MAX_ACCOUNTS)%nat -> (i < MAX_YEARS)%nat ->
    availability_at a c i = true.

(** Amounts a [float] holds exactly: every account starts with at least
    0 and less than [2 ^ 24], and the expense is positive and less than
    [2 ^ 24]. *)
Definition small_amounts (a : Asset) : Prop :=
  (forall c, (c < MAX_ACCOUNTS)%nat -> 0 <= value_at a c 0 < 2 ^ 24) /\
  0 < expense_at a 0 < 2 ^ 24.

(** What holds at the head of year [i] of a run without growth,
    inflation, income and reserve, of initial total [T0] and expense
    [E], whose withdrawals stayed within the values so far. *)
Definition closed_form_invariant (T0 E : Z) (i : nat) (a : Asset) : Prop :=
  dims_ok a /\ no_growth_no_income a /\ cashReserve_ a = 0 /\
  always_available a /\
  ((i < MAX_YEARS)%nat ->
   expense_at a i = E /\
   (forall c, (c < MAX_ACCOUNTS)%nat -> 0 <= value_at a c i < 2 ^ 24) /\
   T0 - Z.of_nat i * E <= total_value i a).

(** Four accounts of [v], each available in every year, and an expense
    of [y]: the set-up of [ConstantNoGrowthModel] with other amounts. *)
Definition equal_accounts (v y : Z) : Asset :=
  all_available (set_initial_values [v; v; v; v] (set_expense0 y Asset_ctor)).

(** ** [calculateN] with every array access checked *)

(** An access [a[i]] or [a[c][i]] outside the array, which C++ leaves
    undefined, gives [None]. *)
Definition read1 {A : Type} (a : list A) (i : nat) : option A := a !! i.

Definition read2 {A : Type} (a : list (list A)) (c i : nat) : option A :=
  a !! c ≫= fun row => row !! i.

Definition write1 {A : Type} (a : list A) (i : nat) (x : A)
  : option (list A) :=
  if (i <? length a)%nat then Some (<[i := x]> a) else None.

Definition write2 {A : Type} (a : list (list A)) (c i : nat) (x : A)
  : option (list (list A)) :=
  a !! c ≫= fun row =>
    if (i <? length row)%nat then Some (set2 a c i x) else None.

(** The blocks of [addCashReserve] and [calculateN] once more, in the
    order in which the code evaluates them; a block gives [None] when
    one of its accesses is outside an array. *)

Definition addCashReserve_checked (cash : Z) (asset_num n_year : nat)
    (a : Asset) : option (bool * Asset) :=
  read2 (value_ a) asset_num n_year ≫= fun v =>
  if v >? cash then
    let a1 := set_cashReserve_ (wrap32 (cashReserve_ a + cash)) a in
    read2 (value_ a1) asset_num n_year ≫= fun v1 =>
    write2 (value_ a1) asset_num n_year (wrap64 (v1 - cash)) ≫= fun val =>
    Some (true, set_value_ val a1)
  else Some (false, a).

Definition useCashReserve_checked (i : nat) (a : Asset) : option Asset :=
  read1 (expense_ a) i ≫= fun e =>
  write1 (expense_ a) i (wrap64 (e - cashReserve_ a)) ≫= fun ex =>
  Some (clearCashReserve (set_expense_ ex a)).

(** Lines 86-112.  [growthRate_[INDIVIDUAL_INDEX][i - 1]] is read only
    when [i > 0]: [&&] evaluates its right operand only when the left
    one holds. *)
Definition cashPolicy_checked (i : nat) (a : Asset) : option Asset :=
  if (0 <? i)%nat then
    read2 (growthRate_ a) INDIVIDUAL_INDEX (i - 1) ≫= fun g =>
    if flt g (of_Z 0) && (cashReserve_ a >? 0)
    then useCashReserve_checked i a
    else if flt (of_Z 0) g && (cashReserve_ a =? 0)
    then addCashReserve_checked CASH_RESERVE INDIVIDUAL_INDEX i a
           ≫= fun r : bool * Asset => Some (snd r)
    else Some a
  else Some a.

Definition distributable_total_checked (i : nat) (a : Asset) : option Z :=
  fold_left
    (fun (total : option Z) (c : nat) =>
       total ≫= fun t =>
       read2 (availability_ a) c i ≫= fun available : bool =>
       if available
       then read2 (value_ a) c i ≫= fun v => Some (wrap64 (t + v))
       else Some t)
    (seq 0 MAX_ACCOUNTS) (Some 0).

Definition net_expense_checked (i : nat) (a : Asset) : option Z :=
  read1 (expense_ a) i ≫= fun e =>
  Some (Z.max (wrap64 (e - takehomeIncome_ a)) 0).

Definition contribution_individual_checked (i : nat) (a : Asset) : option Z :=
  read1 (expense_ a) i ≫= fun e =>
  Some (Z.max (wrap64 (takehomeIncome_ a - e)) 0).

(** The result inside is [None] for the [break]. *)
Definition shortfall_checked (i : nat) (net total : Z) (a : Asset)
  : option (option Asset) :=
  if net >? total then
    if net <? wrap64 (total + cashReserve_ a)
    then useCashReserve_checked i a ≫= fun a' => Some (Some a')
    else Some None
  else Some (Some a).

Definition distribute_account_checked (i : nat) (pct : float32) (a : Asset)
    (c : nat) : option Asset :=
  read2 (availability_ a) c i ≫= fun available : bool =>
  (if available
   then read2 (value_ a) c i ≫= fun v => Some (to_long (fmul (of_Z v) pct))
   else Some 0) ≫= fun d =>
  write2 (distribution_ a) c i d ≫= fun dist =>
  let a1 := set_distribution_ dist a in
  if (i + 1 <? MAX_YEARS)%nat then
    read2 (value_ a1) c i ≫= fun v =>
    read2 (distribution_ a1) c i ≫= fun d1 =>
    read2 (growthRate_ a1) c i ≫= fun g =>
    write2 (value_ a1) c (i + 1)
      (to_long (fmul (of_Z (wrap64 (v - d1))) (fadd (of_Z 1) g)))
      ≫= fun val =>
    Some (set_value_ val a1)
  else Some a1.

Definition distribute_checked (i : nat) (pct : float32) (a : Asset)
  : option Asset :=
  fold_left
    (fun (s : option Asset) (c : nat) =>
       s ≫= fun b => distribute_account_checked i pct b c)
    (seq 0 MAX_ACCOUNTS) (Some a).

Definition add_value_checked (c i : nat) (x : Z) (a : Asset) : option Asset :=
  read2 (value_ a) c (i + 1) ≫= fun v =>
  write2 (value_ a) c (i + 1) (wrap64 (v + x)) ≫= fun val =>
  Some (set_value_ val a).

Definition inflate_checked (i : nat) (a : Asset) (x : Z) : option Z :=
  read1 (inflation_ a) i ≫= fun r =>
  Some (to_long (fmul (of_Z x) (fadd (of_Z 1) r))).

Definition contribute_checked (i : nat) (contribution : Z) (a : Asset)
  : option Asset :=
  if (Z.of_nat i <? yearsTillRetirement_ a) && (i + 1 <? MAX_YEARS)%nat then
    add_value_checked INDIVIDUAL_INDEX i contribution a ≫= fun a1 =>
    add_value_checked ROTH_INDEX i (contributionRoth_ a1) a1 ≫= fun a2 =>
    add_value_checked IRA_INDEX i (contributionIra_ a2) a2 ≫= fun a3 =>
    add_value_checked R401K_INDEX i (contributionR401k_ a3) a3 ≫= fun a4 =>
    inflate_checked i a4 (contributionRoth_ a4) ≫= fun x5 =>
    let a5 := set_contributionRoth_ x5 a4 in
    inflate_checked i a5 (contributionIra_ a5) ≫= fun x6 =>
    let a6 := set_contributionIra_ x6 a5 in
    inflate_checked i a6 (contributionR401k_ a6) ≫= fun x7 =>
    let a7 := set_contributionR401k_ x7 a6 in
    inflate_checked i a7 (takehomeIncome_ a7) ≫= fun x8 =>
    Some (set_takehomeIncome_ x8 a7)
  else Some a.

Definition inflate_expense_checked (i : nat) (a : Asset) : option Asset :=
  if (i + 1 <? MAX_YEARS)%nat then
    read1 (expense_ a) i ≫= fun e =>
    inflate_checked i a e ≫= fun x =>
    write1 (expense_ a) (i + 1) x ≫= fun ex =>
    Some (set_expense_ ex a)
  else Some a.

Definition inflate_reserve_checked (i : nat) (a : Asset) : option Asset :=
  if cashReserve_ a >? 0 then
    read1 (inflation_ a) i ≫= fun r =>
    Some (set_cashReserve_
            (to_int (fmul (of_Z (cashReserve_ a)) (fadd (of_Z 1) r))) a)
  else Some a.

Definition year_body_checked (i : nat) (a : Asset) : option step :=
  cashPolicy_checked i (retire i a) ≫= fun a1 =>
  distributable_total_checked i a1 ≫= fun total =>
  net_expense_checked i a1 ≫= fun net =>
  contribution_individual_checked i a1 ≫= fun contribution =>
  shortfall_checked i net total a1 ≫= fun s : option Asset =>
  match s with
  | None => Some (Break a1)
  | Some a2 =>
      distribute_checked i (distribution_percentage net total) a2 ≫= fun d =>
      contribute_checked i contribution d ≫= fun b =>
      inflate_expense_checked i b ≫= fun e =>
      inflate_reserve_checked i e ≫= fun r =>
      Some (Continue r)
  end.

Fixpoint year_loop_checked (remaining : nat) (i : nat) (a : Asset)
  : option (nat * Asset) :=
  match remaining with
  | O => Some (i, a)
  | S remaining' =>
      year_body_checked i a ≫= fun s : step =>
      match s with
      | Break a' => Some (i, a')
      | Continue a' => year_loop_checked remaining' (S i) a'
      end
  end.

Definition calculateN_checked (a : Asset) : option Asset :=
  year_loop_checked MAX_YEARS 0 a ≫= fun r : nat * Asset =>
  Some (set_fundLongevity_ (Z.of_nat (fst r)) (snd r)).

(** * Part II: properties *)

(** ** Machine integers *)

Lemma wrap64_id z : in_long z -> wrap64 z = z.
Proof.
  unfold in_long, LONG_MIN, LONG_MAX, wrap64, wrap. intros H.
  rewrite Z.mod_small; lia.
Qed.

Lemma wrap32_id z : in_int z -> wrap32 z = z.
Proof.
  unfold in_int, INT_MIN, INT_MAX, wrap32, wrap. intros H.
  rewrite Z.mod_small; lia.
Qed.

Lemma wrap64_range z : in_long (wrap64 z).
Proof.
  unfold in_long, LONG_MIN, LONG_MAX, wrap64, wrap.
  pose proof (Z.mod_pos_bound (z + 2 ^ (64 - 1)) (2 ^ 64) ltac:(lia)). lia.
Qed.

(** ** Arrays *)

Section ArrayFacts.
Context {A : Type}.
Implicit Types (a : list (list A)) (d x : A) (c i : nat).

Lemma get1_insert_eq d (l : list A) i x :
  (i < length l)%nat -> get1 d (<[i := x]> l) i = x.
Proof. intros H. unfold get1. by rewrite list_lookup_insert_eq. Qed.

Lemma get1_insert_ne d (l : list A) i j x :
  i ≠ j -> get1 d (<[i := x]> l) j = get1 d l j.
Proof. intros H. unfold get1. by rewrite list_lookup_insert_ne. Qed.

Lemma get2_set2_ne d a c i c' i' x :
  c ≠ c' \/ i ≠ i' -> get2 d (set2 a c i x) c' i' = get2 d a c' i'.
Proof.
  intros H. unfold get2, set2.
  destruct (decide (c = c')) as [-> | Hc].
  - rewrite list_lookup_alter_eq. destruct (a !! c') as [row |]; simpl; [| done].
    rewrite list_lookup_insert_ne; [done | by destruct H].
  - by rewrite list_lookup_alter_ne.
Qed.

Lemma dims2_lookup a rows cols c :
  dims2 a rows cols -> (c < rows)%nat ->
  exists row, a !! c = Some row /\ length row = cols.
Proof.
  intros [Hr Hc] Hlt.
  destruct (lookup_lt_is_Some_2 a c ltac:(lia)) as [row Hrow].
  exists row. split; [done |].
  rewrite Forall_lookup in Hc. eauto.
Qed.

Lemma get2_set2_eq d a rows cols c i x :
  dims2 a rows cols -> (c < rows)%nat -> (i < cols)%nat ->
  get2 d (set2 a c i x) c i = x.
Proof.
  intros Hd Hc Hi. destruct (dims2_lookup _ _ _ _ Hd Hc) as (row & Hrow & Hlen).
  unfold get2, set2. rewrite list_lookup_alter_eq, Hrow. simpl.
  rewrite list_lookup_insert_eq; [done | lia].
Qed.

Lemma dims2_set2 a rows cols c i x :
  dims2 a rows cols -> dims2 (set2 a c i x) rows cols.
Proof.
  intros [Hr Hc]. split.
  - unfold set2. by rewrite length_alter.
  - unfold set2. rewrite Forall_lookup in Hc. apply Forall_lookup.
    intros k row Hk. rewrite list_lookup_alter in Hk.
    case_decide as Hck.
    + subst k. destruct (a !! c) as [row0 |] eqn:E; simplify_eq/=.
      rewrite length_insert. eauto.
    + eauto.
Qed.

Lemma dims2_replicate rows cols x :
  dims2 (replicate rows (replicate cols x)) rows cols.
Proof.
  split; [by rewrite length_replicate |].
  apply Forall_forall. intros row Hrow.
  apply elem_of_replicate in Hrow as [-> _]. by rewrite length_replicate.
Qed.

End ArrayFacts.

(** ** [addCashReserve] *)

(** C5.  For an account and a year inside the arrays, [addCashReserve]
    returns [true] exactly when the account's value of that year strictly
    exceeds [cash].  On success the reserve has grown by [cash] and that
    value has shrunk by [cash] (the two results being representable, as
    C++ requires of signed arithmetic), every other value cell and every
    other data member being unchanged; on failure the state is unchanged.
    The function is total: it returns on every input. *)
Theorem addCashReserve_spec (cash : Z) (asset_num n_year : nat) (a : Asset) :
  dims2 (value_ a) MAX_ACCOUNTS MAX_YEARS ->
  (asset_num < MAX_ACCOUNTS)%nat ->
  (n_year < MAX_YEARS)%nat ->
  in_int (cashReserve_ a + cash) ->
  in_long (value_at a asset_num n_year - cash) ->
  exists (ok : bool) (a' : Asset),
    addCashReserve cash asset_num n_year a = (ok, a') /\
    (ok = true <-> value_at a asset_num n_year > cash) /\
    (ok = true ->
     cashReserve_ a' = cashReserve_ a + cash /\
     value_at a' asset_num n_year = value_at a asset_num n_year - cash /\
     (forall c i, c ≠ asset_num \/ i ≠ n_year ->
                  value_at a' c i = value_at a c i) /\
     set_value_ (value_ a) (set_cashReserve_ (cashReserve_ a) a') = a) /\
    (ok = false -> a' = a).
Proof.
  intros Hdims Hc Hi Hres Hval. unfold addCashReserve.
  destruct (value_at a asset_num n_year >? cash) eqn:Hgt.
  - apply Z.gtb_gt in Hgt. eexists true, _. split; [reflexivity |].
    split; [tauto |]. split; [| discriminate]. intros _. cbn.
    rewrite (wrap32_id _ Hres).
    change (value_at (set_cashReserve_ (cashReserve_ a + cash) a) asset_num n_year)
      with (value_at a asset_num n_year).
    rewrite (wrap64_id _ Hval).
    split; [reflexivity |]. unfold value_at. cbn. split; [| split].
    + by rewrite (get2_set2_eq _ _ _ _ _ _ _ Hdims Hc Hi).
    + intros c i Hne. apply get2_set2_ne. destruct Hne; [left | right]; congruence.
    + by destruct a.
  - eexists false, a. split; [reflexivity |].
    split; [| split; [discriminate | reflexivity]].
    split; [discriminate |]. intros Hgt'. apply Z.gtb_gt in Hgt'. congruence.
Qed.

(** The hypotheses of [addCashReserve_spec] hold for the call of the
    unit test [AddCashReserveSuccess]: 500 out of an account of 501. *)
Lemma addCashReserve_spec_witness :
  exists a' : Asset,
    addCashReserve 500 INDIVIDUAL_INDEX 0 AddCashReserveSuccess = (true, a') /\
    cashReserve_ a' = cashReserve_ AddCashReserveSuccess + 500.
Proof.
  destruct (addCashReserve_spec 500 INDIVIDUAL_INDEX 0 AddCashReserveSuccess)
    as (ok & a' & Hcall & Hiff & Hok & _).
  - vm_compute. repeat (first [split | reflexivity | constructor]).
  - unfold INDIVIDUAL_INDEX, MAX_ACCOUNTS. lia.
  - unfold MAX_YEARS. lia.
  - vm_compute. split; discriminate.
  - vm_compute. split; discriminate.
  - assert (Hgt : ok = true) by (apply Hiff; vm_compute; reflexivity).
    subst ok. exists a'. split; [exact Hcall |].
    destruct (Hok eq_refl) as (Hres & _). exact Hres.
Defined.

(** ** The frame of [calculateN] *)

Lemma same_inputs_refl a : same_inputs a a.
Proof. by repeat split. Qed.

Lemma same_inputs_trans a b c :
  same_inputs a b -> same_inputs b c -> same_inputs a c.
Proof.
  intros (?&?&?&?&?&?&Hv) (?&?&?&?&?&?&Hv').
  repeat split; try congruence; intros k; by rewrite Hv', Hv.
Qed.

(** A write to a later year leaves year 0 alone. *)
Lemma same_inputs_set_value a c i x :
  (0 < i)%nat -> same_inputs a (set_value_ (set2 (value_ a) c i x) a).
Proof.
  intros Hi. repeat split. intros k. unfold value_at. cbn.
  apply get2_set2_ne. right. lia.
Qed.

Lemma same_inputs_retire i a : same_inputs a (retire i a).
Proof. unfold retire. destruct (_ =? _); by repeat split. Qed.

Lemma same_inputs_useCashReserve i a : same_inputs a (useCashReserve i a).
Proof. by repeat split. Qed.

Lemma same_inputs_addCashReserve cash c i a :
  (0 < i)%nat -> same_inputs a (snd (addCashReserve cash c i a)).
Proof.
  intros Hi. unfold addCashReserve. destruct (_ >? _); cbn [snd].
  - eapply same_inputs_trans;
      [| apply (same_inputs_set_value _ c i _ Hi)]. by repeat split.
  - apply same_inputs_refl.
Qed.

Lemma same_inputs_cashPolicy i a : same_inputs a (cashPolicy i a).
Proof.
  unfold cashPolicy. destruct (0 <? i)%nat eqn:Hi; cbn [andb].
  - apply Nat.ltb_lt in Hi.
    destruct (flt _ _ && _); [apply same_inputs_useCashReserve |].
    destruct (flt _ _ && _); [| apply same_inputs_refl].
    by apply same_inputs_addCashReserve.
  - apply same_inputs_refl.
Qed.

Lemma same_inputs_before_check i a : same_inputs a (before_check i a).
Proof.
  eapply same_inputs_trans;
    [apply same_inputs_retire | apply same_inputs_cashPolicy].
Qed.

Lemma same_inputs_shortfall i net total a a' :
  shortfall i net total a = Some a' -> same_inputs a a'.
Proof.
  unfold shortfall. intros H.
  destruct (net >? total); [destruct (net <? _) |]; simplify_eq.
  - apply same_inputs_useCashReserve.
  - apply same_inputs_refl.
Qed.

Lemma same_inputs_distribute_account i pct a c :
  same_inputs a (distribute_account i pct a c).
Proof.
  unfold distribute_account. destruct (i + 1 <? MAX_YEARS)%nat.
  - eapply same_inputs_trans;
      [| apply same_inputs_set_value; lia]. by repeat split.
  - by repeat split.
Qed.

Lemma same_inputs_fold {B : Type} (f : Asset -> B -> Asset) (l : list B) :
  (forall a b, same_inputs a (f a b)) ->
  forall a, same_inputs a (fold_left f l a).
Proof.
  intros Hf. induction l as [| b l IH]; intros a; cbn.
  - apply same_inputs_refl.
  - eapply same_inputs_trans; [apply Hf | apply IH].
Qed.

Lemma same_inputs_distribute i pct a : same_inputs a (distribute i pct a).
Proof.
  apply same_inputs_fold. intros. apply same_inputs_distribute_account.
Qed.

Lemma same_inputs_add_value c i x a : same_inputs a (add_value c i x a).
Proof. apply same_inputs_set_value. lia. Qed.

Lemma same_inputs_contribute i x a : same_inputs a (contribute i x a).
Proof.
  unfold contribute. destruct (_ && _); [| apply same_inputs_refl].
  set (a1 := add_value INDIVIDUAL_INDEX i x a).
  set (a2 := add_value ROTH_INDEX i (contributionRoth_ a1) a1).
  set (a3 := add_value IRA_INDEX i (contributionIra_ a2) a2).
  set (a4 := add_value R401K_INDEX i (contributionR401k_ a3) a3).
  assert (H4 : same_inputs a a4).
  { apply (same_inputs_trans _ a1); [apply same_inputs_add_value |].
    apply (same_inputs_trans _ a2); [apply same_inputs_add_value |].
    apply (same_inputs_trans _ a3); apply same_inputs_add_value. }
  clearbody a4. cbv zeta. exact H4.
Qed.

Lemma same_inputs_inflate_expense i a : same_inputs a (inflate_expense i a).
Proof. unfold inflate_expense. destruct (_ <? _)%nat; by repeat split. Qed.

Lemma same_inputs_inflate_reserve i a : same_inputs a (inflate_reserve i a).
Proof. unfold inflate_reserve. destruct (_ >? _); by repeat split. Qed.

Lemma same_inputs_after_check i net total x a :
  same_inputs a (after_check i net total x a).
Proof.
  unfold after_check.
  eapply same_inputs_trans; [apply same_inputs_distribute |].
  eapply same_inputs_trans; [apply same_inputs_contribute |].
  eapply same_inputs_trans;
    [apply same_inputs_inflate_expense | apply same_inputs_inflate_reserve].
Qed.

Lemma same_inputs_year_body i a :
  match year_body i a with
  | Continue a' | Break a' => same_inputs a a'
  end.
Proof.
  unfold year_body.
  destruct (shortfall _ _ _ _) as [a2 |] eqn:Hs.
  - eapply same_inputs_trans; [apply same_inputs_before_check |].
    eapply same_inputs_trans;
      [eapply same_inputs_shortfall, Hs | apply same_inputs_after_check].
  - apply same_inputs_before_check.
Qed.

Lemma same_inputs_year_loop remaining :
  forall i a, same_inputs a (snd (year_loop remaining i a)).
Proof.
  induction remaining as [| k IH]; intros i a; cbn.
  - apply same_inputs_refl.
  - pose proof (same_inputs_year_body i a) as Hb.
    destruct (year_body i a) as [a' | a']; cbn; [| done].
    eapply same_inputs_trans; [exact Hb | apply IH].
Qed.

(** C10.  [calculateN] leaves unchanged the account names, the
    availability flags, the growth rates, the average growth rates, the
    inflation rates, the year of retirement, and the year-0 value of
    every account. *)
Theorem calculateN_frame (a : Asset) :
  name_ (calculateN a) = name_ a /\
  availability_ (calculateN a) = availability_ a /\
  growthRate_ (calculateN a) = growthRate_ a /\
  growthRateAvg_ (calculateN a) = growthRateAvg_ a /\
  inflation_ (calculateN a) = inflation_ a /\
  yearsTillRetirement_ (calculateN a) = yearsTillRetirement_ a /\
  forall c, value_at (calculateN a) c 0 = value_at a c 0.
Proof.
  pose proof (same_inputs_year_loop MAX_YEARS 0 a) as H.
  unfold calculateN. destruct (year_loop MAX_YEARS 0 a) as [i a'].
  exact H.
Qed.

(** ** The shortfall check of [calculateN] *)

Lemma reaches_year_loop a0 i a :
  reaches a0 i a -> (i <= MAX_YEARS)%nat ->
  year_loop MAX_YEARS 0 a0 = year_loop (MAX_YEARS - i) i a.
Proof.
  induction 1 as [| i a a' _ IH Hi Hbody]; intros Hle.
  - by rewrite Nat.sub_0_r.
  - rewrite IH by lia.
    replace (MAX_YEARS - i)%nat with (S (MAX_YEARS - S i)) by lia.
    cbn [year_loop]. by rewrite Hbody.
Qed.

Lemma year_loop_break a0 i a a1 :
  reaches a0 i a -> (i < MAX_YEARS)%nat -> year_body i a = Break a1 ->
  calculateN a0 = set_fundLongevity_ (Z.of_nat i) a1.
Proof.
  intros Hr Hi Hb. unfold calculateN.
  rewrite (reaches_year_loop _ _ _ Hr) by lia.
  replace (MAX_YEARS - i)%nat with (S (MAX_YEARS - S i)) by lia.
  cbn [year_loop]. by rewrite Hb.
Qed.

(** The shortfall check as the code has it (lines 130-149).  In a year
    [i] the loop reaches, when the net expense exceeds the distributable
    total: if it is strictly below the distributable total plus the cash
    reserve, the reserve is subtracted from the year's expense and
    cleared, and the loop goes on with the rest of the body; at or above
    that sum the loop is left at once and [fundLongevity_] is [i]. *)
Theorem shortfall_check (a0 : Asset) (i : nat) (a : Asset) :
  reaches a0 i a ->
  (i < MAX_YEARS)%nat ->
  let a1 := before_check i a in
  let total := distributable_total i a1 in
  let net := net_expense i a1 in
  net > total ->
  (net < wrap64 (total + cashReserve_ a1) ->
   let a2 := useCashReserve i a1 in
   cashReserve_ a2 = 0 /\
   expense_ a2 = <[i := wrap64 (expense_at a1 i - cashReserve_ a1)]> (expense_ a1) /\
   year_body i a =
     Continue (after_check i net total (contribution_individual i a1) a2) /\
   reaches a0 (S i) (after_check i net total (contribution_individual i a1) a2))
  /\
  (net >= wrap64 (total + cashReserve_ a1) ->
   year_body i a = Break a1 /\
   calculateN a0 = set_fundLongevity_ (Z.of_nat i) a1 /\
   fundLongevity_ (calculateN a0) = Z.of_nat i).
Proof.
  intros Hr Hi a1 total net Hgt.
  assert (Hgtb : (net >? total) = true) by (apply Z.gtb_gt; lia).
  split.
  - intros Hlt a2.
    assert (Hbody : year_body i a =
              Continue (after_check i net total (contribution_individual i a1) a2)).
    { unfold year_body, shortfall. fold a1. fold total. fold net.
      rewrite Hgtb. rewrite (proj2 (Z.ltb_lt _ _) Hlt). reflexivity. }
    split; [reflexivity |]. split; [reflexivity |].
    split; [exact Hbody |].
    eapply reaches_next; [exact Hr | exact Hi | exact Hbody].
  - intros Hge.
    assert (Hbody : year_body i a = Break a1).
    { unfold year_body, shortfall. fold a1. fold total. fold net.
      rewrite Hgtb. rewrite (proj2 (Z.ltb_ge _ _)) by lia. reflexivity. }
    split; [exact Hbody |].
    pose proof (year_loop_break _ _ _ _ Hr Hi Hbody) as Hc.
    split; [exact Hc |]. rewrite Hc. reflexivity.
Qed.

(** The hypotheses of [shortfall_check] hold in year 0 of a run that
    starts with an account of 500, a reserve of 500 and an expense of
    900: the reserve is used. *)
Lemma shortfall_check_witness :
  exists a', year_body 0 (with_reserve 1000 500 900) = Continue a'.
Proof.
  destruct (shortfall_check (with_reserve 1000 500 900) 0
              (with_reserve 1000 500 900)) as [Hdrain _].
  - apply reaches_first.
  - unfold MAX_YEARS. lia.
  - vm_compute. reflexivity.
  - destruct Hdrain as (_ & _ & Hbody & _).
    + vm_compute. reflexivity.
    + eexists. exact Hbody.
Defined.

(** C1.  The check at equality.  An Individual account of 1,000 out of
    which [addCashReserve] took a reserve of 500, and an expense of
    1,000: in year 0 the net expense, 1,000, exceeds the distributable
    total, 500, and equals the total plus the reserve, the case the
    comment of the branch describes as covered by the cash reserve.
    The test of line 132 is strict, so the loop is left and
    [fundLongevity_] is 0, with the reserve unused.  The test of line
    130 accepts equality: the same 1,000 held in the account alone pays
    for year 0.  One below equality (an expense of 999) the reserve is
    used, but the withdrawal is computed from the net expense of before
    the reserve was subtracted, and the account of 500 is charged 999. *)
Theorem shortfall_breaks_at_equality :
  (let a := with_reserve 1000 500 1000 in
   let a1 := before_check 0 a in
   value_at a INDIVIDUAL_INDEX 0 = 500 /\ cashReserve_ a = 500 /\
   expense_at a 0 = 1000 /\
   net_expense 0 a1 = 1000 /\ distributable_total 0 a1 = 500 /\
   cashReserve_ a1 = 500 /\
   net_expense 0 a1 > distributable_total 0 a1 /\
   net_expense 0 a1 <= distributable_total 0 a1 + cashReserve_ a1 /\
   year_body 0 a = Break a1 /\
   fundLongevity_ (calculateN a) = 0 /\
   cashReserve_ (calculateN a) = 500 /\
   expense_at (calculateN a) 0 = 1000) /\
  (let b := with_reserve 1000 0 1000 in
   let b1 := before_check 0 b in
   value_at b INDIVIDUAL_INDEX 0 = 1000 /\ cashReserve_ b = 0 /\
   net_expense 0 b1 = 1000 /\ distributable_total 0 b1 = 1000 /\
   (exists b', year_body 0 b = Continue b') /\
   fundLongevity_ (calculateN b) = 1) /\
  (let c := with_reserve 1000 500 999 in
   exists c',
     year_body 0 c = Continue c' /\
     cashReserve_ c' = 0 /\ expense_at c' 0 = 499 /\
     distribution_at c' INDIVIDUAL_INDEX 0 = 999 /\
     value_at c' INDIVIDUAL_INDEX 0 = 500 /\
     value_at c' INDIVIDUAL_INDEX 1 = -499).
Proof.
  split; [| split].
  - vm_compute. split_and!; try reflexivity. discriminate.
  - cbv zeta. split_and!; try (vm_compute; reflexivity).
    eexists. vm_compute. reflexivity.
  - cbv zeta. eexists. split; [vm_compute; reflexivity |].
    vm_compute. by split_and!.
Qed.

(** C4.  The percentage after the reserve was used.  An Individual
    account of 1,000 out of which [addCashReserve] took a reserve of
    500, and an expense of 999: year 0 passes the shortfall check
    through the branch that uses the reserve, which subtracts the
    reserve from [expense_[0]] but leaves the net expense computed
    before at 999.  The distribution percentage is
    [float(999) / float(500)], about 1.998 and not a fraction of 1, and
    the available account withdraws 999 from its value of 500. *)
Theorem percentage_above_one :
  let a := with_reserve 1000 500 999 in
  let a1 := before_check 0 a in
  let net := net_expense 0 a1 in
  let total := distributable_total 0 a1 in
  net = 999 /\ total = 500 /\ cashReserve_ a1 = 500 /\
  (exists a2,
     shortfall 0 net total a1 = Some a2 /\
     expense_at a2 0 = 499 /\ cashReserve_ a2 = 0 /\
     net_expense 0 a2 = 499) /\
  distribution_percentage net total = S754_finite false 16760439 (-23) /\
  flt (lit 1.0) (distribution_percentage net total) = true /\
  exists a',
    year_body 0 a = Continue a' /\
    availability_at a' INDIVIDUAL_INDEX 0 = true /\
    value_at a' INDIVIDUAL_INDEX 0 = 500 /\
    distribution_at a' INDIVIDUAL_INDEX 0 = 999 /\
    value_at a' INDIVIDUAL_INDEX 1 = -499.
Proof.
  cbv zeta.
  split; [vm_compute; reflexivity |]. split; [vm_compute; reflexivity |].
  split; [vm_compute; reflexivity |]. split.
  { eexists. split; [vm_compute; reflexivity |]. vm_compute. by split_and!. }
  split; [vm_compute; reflexivity |]. split; [vm_compute; reflexivity |].
  eexists. split; [vm_compute; reflexivity |]. vm_compute. by split_and!.
Qed.

(** ** Array sizes are kept *)

Lemma dims_ok_set_value a c i x :
  dims_ok a -> dims_ok (set_value_ (set2 (value_ a) c i x) a).
Proof.
  intros (?&?&?&?&?&?&?&?). unfold dims_ok. cbn.
  split_and!; try done; by apply dims2_set2.
Qed.

Lemma dims_ok_set_distribution a c i x :
  dims_ok a -> dims_ok (set_distribution_ (set2 (distribution_ a) c i x) a).
Proof.
  intros (?&?&?&?&?&?&?&?). unfold dims_ok. cbn.
  split_and!; try done; by apply dims2_set2.
Qed.

Lemma dims_ok_set_expense a i x :
  dims_ok a -> dims_ok (set_expense_ (<[i := x]> (expense_ a)) a).
Proof.
  intros (?&?&?&?&?&?&?&?). unfold dims_ok. cbn.
  split_and!; try done. by rewrite length_insert.
Qed.

Lemma dims_ok_retire i a : dims_ok a -> dims_ok (retire i a).
Proof. unfold retire. by destruct (_ =? _). Qed.

Lemma dims_ok_useCashReserve i a : dims_ok a -> dims_ok (useCashReserve i a).
Proof. intros H. apply (dims_ok_set_expense a i _ H). Qed.

Lemma dims_ok_addCashReserve cash c i a :
  dims_ok a -> dims_ok (snd (addCashReserve cash c i a)).
Proof.
  intros H. unfold addCashReserve. destruct (_ >? _); cbn [snd]; [| done].
  exact (dims_ok_set_value (set_cashReserve_ _ a) c i _ H).
Qed.

Lemma dims_ok_cashPolicy i a : dims_ok a -> dims_ok (cashPolicy i a).
Proof.
  intros H. unfold cashPolicy.
  destruct (_ && _ && _); [by apply dims_ok_useCashReserve |].
  destruct (_ && _ && _); [by apply dims_ok_addCashReserve | done].
Qed.

Lemma dims_ok_before_check i a : dims_ok a -> dims_ok (before_check i a).
Proof. intros H. by apply dims_ok_cashPolicy, dims_ok_retire. Qed.

Lemma dims_ok_shortfall i net total a a' :
  shortfall i net total a = Some a' -> dims_ok a -> dims_ok a'.
Proof.
  unfold shortfall. intros Hs H.
  destruct (net >? total); [destruct (net <? _) |]; simplify_eq; [| done].
  by apply dims_ok_useCashReserve.
Qed.

Lemma dims_ok_distribute_account i pct a c :
  dims_ok a -> dims_ok (distribute_account i pct a c).
Proof.
  intros H. unfold distribute_account.
  pose proof (dims_ok_set_distribution a c i
    (if availability_at a c i then to_long (fmul (of_Z (value_at a c i)) pct)
     else 0) H) as H1.
  destruct (i + 1 <? MAX_YEARS)%nat; [| exact H1].
  apply (dims_ok_set_value _ c (i + 1) _ H1).
Qed.

(** ** The loop over the accounts (lines 164-196) *)

(** What the pass for account [c] writes for that account. *)
Lemma distribute_account_self i pct a c :
  dims_ok a -> (c < MAX_ACCOUNTS)%nat -> (i < MAX_YEARS)%nat ->
  let a' := distribute_account i pct a c in
  distribution_at a' c i =
    (if availability_at a c i then to_long (fmul (of_Z (value_at a c i)) pct)
     else 0) /\
  value_at a' c i = value_at a c i /\
  ((i + 1 < MAX_YEARS)%nat ->
   value_at a' c (i + 1) =
     to_long
       (fmul (of_Z (wrap64 (value_at a c i - distribution_at a' c i)))
          (fadd (of_Z 1) (growthRate_at a c i)))).
Proof.
  intros Hd Hc Hi. destruct Hd as (_&_&Hv&_&_&Hdist&_&_).
  unfold distribute_account.
  set (d := if availability_at a c i then _ else 0).
  assert (Hread : get2 0 (set2 (distribution_ a) c i d) c i = d)
    by (by eapply get2_set2_eq).
  destruct (i + 1 <? MAX_YEARS)%nat eqn:Hi1; cbv zeta; unfold value_at, distribution_at; cbn.
  - apply Nat.ltb_lt in Hi1. rewrite Hread.
    split; [done |]. split.
    + apply get2_set2_ne. right. lia.
    + intros _. by erewrite get2_set2_eq.
  - apply Nat.ltb_ge in Hi1. rewrite Hread.
    split; [done |]. split; [done | lia].
Qed.

(** The pass for another account leaves the cells of account [c], the
    availability flags and the growth rates alone. *)
Lemma distribute_account_other i pct a c0 c :
  c0 ≠ c ->
  let a' := distribute_account i pct a c0 in
  (forall j, value_at a' c j = value_at a c j) /\
  (forall j, distribution_at a' c j = distribution_at a c j) /\
  availability_ a' = availability_ a /\
  growthRate_ a' = growthRate_ a.
Proof.
  intros Hne. unfold distribute_account.
  destruct (i + 1 <? MAX_YEARS)%nat; cbv zeta;
    unfold value_at, distribution_at; cbn;
    (split; [| split; [| done]]); intros j;
    rewrite ?get2_set2_ne by (by left); done.
Qed.

Lemma distribute_fold_other i pct l c :
  c ∉ l ->
  forall a,
    let a' := fold_left (distribute_account i pct) l a in
    (forall j, value_at a' c j = value_at a c j) /\
    (forall j, distribution_at a' c j = distribution_at a c j).
Proof.
  induction l as [| c0 l IH]; intros Hnot a; cbn; [done |].
  apply not_elem_of_cons in Hnot as [Hne Hnot].
  destruct (IH Hnot (distribute_account i pct a c0)) as [Hv Hd].
  destruct (distribute_account_other i pct a c0 c ltac:(done)) as (Hv0&Hd0&_).
  split; intros j.
  - by rewrite Hv, Hv0.
  - by rewrite Hd, Hd0.
Qed.

Lemma distribute_fold_fields i pct l :
  forall a,
    let a' := fold_left (distribute_account i pct) l a in
    availability_ a' = availability_ a /\ growthRate_ a' = growthRate_ a.
Proof.
  induction l as [| c0 l IH]; intros a; cbn; [done |].
  destruct (IH (distribute_account i pct a c0)) as [Ha Hg].
  rewrite Ha, Hg. unfold distribute_account.
  by destruct (i + 1 <? MAX_YEARS)%nat.
Qed.

Lemma distribute_fold_self i pct l c :
  NoDup l -> c ∈ l -> (c < MAX_ACCOUNTS)%nat -> (i < MAX_YEARS)%nat ->
  forall a, dims_ok a ->
    let a' := fold_left (distribute_account i pct) l a in
    distribution_at a' c i =
      (if availability_at a c i
       then to_long (fmul (of_Z (value_at a c i)) pct) else 0) /\
    value_at a' c i = value_at a c i /\
    ((i + 1 < MAX_YEARS)%nat ->
     value_at a' c (i + 1) =
       to_long
         (fmul (of_Z (wrap64 (value_at a c i - distribution_at a' c i)))
            (fadd (of_Z 1) (growthRate_at a c i)))).
Proof.
  intros Hnd Hin Hc Hi.
  induction l as [| c0 l IH]; intros a Hd; [by apply elem_of_nil in Hin |].
  apply NoDup_cons in Hnd as [Hc0 Hnd]. cbn [fold_left].
  destruct (decide (c0 = c)) as [-> | Hne].
  - destruct (distribute_fold_other i pct l c Hc0 (distribute_account i pct a c))
      as [Hv Hdist].
    destruct (distribute_account_self i pct a c Hd Hc Hi) as (H1&H2&H3).
    cbv zeta. rewrite !Hv, !Hdist. split; [done |]. split; [done |].
    intros Hi1. rewrite (H3 Hi1). done.
  - apply elem_of_cons in Hin as [-> | Hin]; [done |].
    destruct (distribute_account_other i pct a c0 c Hne) as (Hv0&Hd0&Ha0&Hg0).
    destruct (IH Hnd Hin (distribute_account i pct a c0)
                (dims_ok_distribute_account i pct a c0 Hd)) as (H1&H2&H3).
    assert (Hav : availability_at (distribute_account i pct a c0) c i
                  = availability_at a c i)
      by (unfold availability_at; by rewrite Ha0).
    assert (Hgr : growthRate_at (distribute_account i pct a c0) c i
                  = growthRate_at a c i)
      by (unfold growthRate_at; by rewrite Hg0).
    cbv zeta. rewrite Hav, Hgr, !Hv0 in *.
    split; [done |]. split; [done |]. exact H3.
Qed.

Lemma NoDup_accounts : NoDup (seq 0 MAX_ACCOUNTS).
Proof. apply NoDup_seq. Qed.

Lemma elem_of_accounts c : (c < MAX_ACCOUNTS)%nat -> c ∈ seq 0 MAX_ACCOUNTS.
Proof. intros H. apply elem_of_seq. lia. Qed.

(** The state after the loop over the accounts, for account [c]. *)
Lemma distribute_spec i pct a c :
  dims_ok a -> (c < MAX_ACCOUNTS)%nat -> (i < MAX_YEARS)%nat ->
  let a' := distribute i pct a in
  distribution_at a' c i =
    (if availability_at a c i
     then to_long (fmul (of_Z (value_at a c i)) pct) else 0) /\
  value_at a' c i = value_at a c i /\
  availability_at a' c i = availability_at a c i /\
  growthRate_at a' c i = growthRate_at a c i /\
  ((i + 1 < MAX_YEARS)%nat ->
   value_at a' c (i + 1) =
     to_long
       (fmul (of_Z (wrap64 (value_at a' c i - distribution_at a' c i)))
          (fadd (of_Z 1) (growthRate_at a' c i)))).
Proof.
  intros Hd Hc Hi. unfold distribute.
  destruct (distribute_fold_self i pct _ c NoDup_accounts
              (elem_of_accounts c Hc) Hc Hi a Hd) as (H1&H2&H3).
  destruct (distribute_fold_fields i pct (seq 0 MAX_ACCOUNTS) a) as [Ha Hg].
  cbv zeta. unfold availability_at, growthRate_at in *. rewrite Ha, Hg.
  split; [done |]. split; [done |]. split; [done |]. split; [done |].
  intros Hi1. rewrite (H3 Hi1). by rewrite H2.
Qed.

Lemma inflate_tail_value i a c j :
  value_at (inflate_reserve i (inflate_expense i a)) c j = value_at a c j.
Proof.
  unfold inflate_reserve, inflate_expense.
  destruct (i + 1 <? MAX_YEARS)%nat; by destruct (_ >? _).
Qed.

(** The array sizes of a concrete state. *)
Ltac dims_tac :=
  vm_compute; repeat (first [split | reflexivity | constructor]).

(** C2.  In a year [i] with [i + 1 < MAX_YEARS] whose body runs to its
    end, the loop over the accounts leaves every account [c] with
    [value_[c][i+1] = (value_[c][i] - distribution_[c][i]) * (1 +
    growthRate_[c][i])], the product being the single-precision one,
    stored in a [long int].  [d] is the state after that loop; the
    contribution step that follows adds to these values only while
    [i < yearsTillRetirement_]. *)
Theorem growth_projection (i : nat) (a a' : Asset) (c : nat) :
  dims_ok a ->
  (c < MAX_ACCOUNTS)%nat ->
  (i + 1 < MAX_YEARS)%nat ->
  year_body i a = Continue a' ->
  exists d : Asset,
    a' = inflate_reserve i
           (inflate_expense i
              (contribute i (contribution_individual i (before_check i a)) d))
    /\ value_at d c (i + 1) =
         to_long
           (fmul (of_Z (wrap64 (value_at d c i - distribution_at d c i)))
              (fadd (of_Z 1) (growthRate_at d c i)))
    /\ (yearsTillRetirement_ a <= Z.of_nat i ->
        value_at a' c (i + 1) = value_at d c (i + 1)).
Proof.
  intros Hd Hc Hi Hbody. unfold year_body in Hbody.
  set (a1 := before_check i a) in *.
  set (total := distributable_total i a1) in *.
  set (net := net_expense i a1) in *.
  destruct (shortfall i net total a1) as [a2 |] eqn:Hs; [| discriminate].
  injection Hbody as <-.
  set (d := distribute i (distribution_percentage net total) a2).
  assert (Hd2 : dims_ok a2).
  { eapply dims_ok_shortfall; [exact Hs |]. by apply dims_ok_before_check. }
  exists d. split; [reflexivity |]. split.
  - destruct (distribute_spec i (distribution_percentage net total) a2 c
                Hd2 Hc ltac:(lia)) as (_&_&_&_&H). apply H. exact Hi.
  - intros Hret. unfold after_check. fold d. rewrite inflate_tail_value.
    assert (Hy : yearsTillRetirement_ d = yearsTillRetirement_ a).
    { pose proof (same_inputs_before_check i a) as (_&_&_&_&_&H1&_).
      pose proof (same_inputs_shortfall _ _ _ _ _ Hs) as (_&_&_&_&_&H2&_).
      pose proof (same_inputs_distribute i (distribution_percentage net total) a2)
        as (_&_&_&_&_&H3&_).
      fold a1 in H1. fold d in H3. congruence. }
    unfold contribute. rewrite Hy.
    by rewrite (proj2 (Z.ltb_ge _ _) Hret).
Qed.

(** The hypotheses of [growth_projection] hold in year 0 of
    [ConstantNoGrowthModel], where the Individual account goes from
    12,500 to 12,250. *)
Lemma growth_projection_witness :
  exists d : Asset,
    value_at d INDIVIDUAL_INDEX 1 =
      to_long
        (fmul
           (of_Z (wrap64 (value_at d INDIVIDUAL_INDEX 0
                          - distribution_at d INDIVIDUAL_INDEX 0)))
           (fadd (of_Z 1) (growthRate_at d INDIVIDUAL_INDEX 0))).
Proof.
  destruct (growth_projection 0 ConstantNoGrowthModel
              (match year_body 0 ConstantNoGrowthModel with
               | Continue x | Break x => x
               end) INDIVIDUAL_INDEX) as (d & _ & H & _).
  - dims_tac.
  - unfold MAX_ACCOUNTS, INDIVIDUAL_INDEX. lia.
  - unfold MAX_YEARS. lia.
  - vm_compute. reflexivity.
  - exists d. exact H.
Defined.

(** ** The closed form for a run without growth and income *)

Lemma get2_replicate_default {A : Type} (d : A) rows cols c i :
  get2 d (replicate rows (replicate cols d)) c i = d.
Proof.
  unfold get2. destruct (replicate rows (replicate cols d) !! c) as [row |] eqn:E;
    [| done].
  apply lookup_replicate in E as [-> _]. cbn.
  destruct (replicate cols d !! i) as [x |] eqn:E'; [| done].
  by apply lookup_replicate in E' as [-> _].
Qed.

Lemma get1_replicate_default {A : Type} (d : A) n i :
  get1 d (replicate n d) i = d.
Proof.
  unfold get1. destruct (replicate n d !! i) as [x |] eqn:E; [| done].
  by apply lookup_replicate in E as [-> _].
Qed.

Lemma no_growth_no_income_ctor a :
  growthRate_ a = growthRate_ Asset_ctor ->
  inflation_ a = inflation_ Asset_ctor ->
  takehomeIncome_ a = 0 -> contributionRoth_ a = 0 ->
  contributionIra_ a = 0 -> contributionR401k_ a = 0 ->
  no_growth_no_income a.
Proof.
  intros Hg Hi ? ? ? ?. unfold no_growth_no_income.
  split_and!; try done.
  - intros c i. unfold growthRate_at. rewrite Hg.
    apply (get2_replicate_default (of_Z 0)).
  - intros i. unfold inflation_at. rewrite Hi.
    apply (get1_replicate_default (of_Z 0)).
Qed.

(** The profile of the unit test [ConstantNoGrowthModel] (four accounts
    of 12,500, each available in every year, an expense of 1,000, no
    growth, inflation, income, contribution or reserve): [calculateN]
    gives [min (50000 / 1000) MAX_YEARS = 50]. *)
Theorem closed_form_reference_profile :
  no_growth_no_income ConstantNoGrowthModel /\
  total_initial_value ConstantNoGrowthModel = 50000 /\
  expense_at ConstantNoGrowthModel 0 = 1000 /\
  fundLongevity_ (calculateN ConstantNoGrowthModel)
    = closed_form_longevity ConstantNoGrowthModel /\
  closed_form_longevity ConstantNoGrowthModel = 50.
Proof.
  split; [by apply no_growth_no_income_ctor |].
  vm_compute. by split_and!.
Qed.

(** The closed form fails in general: four accounts of 1, each
    available in every year, and an expense of 3 pay for
    [floor (4 / 3) = 1] year by the closed form, but every account's
    share of the expense, 0.75, is truncated to 0, nothing is withdrawn,
    and [calculateN] reports 50 years. *)
Lemma closed_form_counterexample :
  no_growth_no_income small_accounts /\
  closed_form_longevity small_accounts = 1 /\
  fundLongevity_ (calculateN small_accounts) = 50 /\
  (forall c, (c < MAX_ACCOUNTS)%nat ->
     distribution_at (calculateN small_accounts) c 0 = 0).
Proof.
  split; [by apply no_growth_no_income_ctor |].
  split; [by vm_compute |]. split; [by vm_compute |].
  intros c Hc. unfold MAX_ACCOUNTS in Hc.
  destruct c as [| [| [| [| c]]]]; try lia; by vm_compute.
Qed.

(** *** The unit tests of the repository hold in the embedding *)

(** [AssetTest.AddCashReserveSuccess]. *)
Example test_AddCashReserveSuccess :
  let '(added, a) := addCashReserve 500 INDIVIDUAL_INDEX 0 AddCashReserveSuccess in
  added = true /\ getCashReserve a = 500.
Proof. by vm_compute. Qed.

(** [AssetTest.AddCashReserveFail]. *)
Example test_AddCashReserveFail :
  fst (addCashReserve 500 INDIVIDUAL_INDEX 0
         (set_initial_values [400; 0; 0; 0] Asset_ctor)) = false.
Proof. by vm_compute. Qed.

(** [AssetTest.MaxLongevityNoGrowthModel]: the longevity, and the values
    and distributions of the first and of the last year. *)
Example test_MaxLongevityNoGrowthModel :
  let a := calculateN MaxLongevityNoGrowthModel in
  getFundLongevity a = Z.of_nat MAX_YEARS /\
  map (fun c => value_at a c 0) [0; 1; 2; 3]%nat = [0; 0; 0; 245000] /\
  map (fun c => distribution_at a c 0) [0; 1; 2; 3]%nat = [0; 0; 0; 0] /\
  map (fun c => value_at a c 49) [0; 1; 2; 3]%nat = [0; 0; 0; 5000] /\
  map (fun c => distribution_at a c 49) [0; 1; 2; 3]%nat = [0; 0; 0; 5000].
Proof. vm_compute. by split_and!. Qed.

(** ** [initializeFromUserData]: the availability flags *)

Lemma availability_init_accounts user l :
  forall a, availability_ (fold_left (init_account user) l a) = availability_ a.
Proof. induction l as [| c l IH]; intros a; cbn; [done | by rewrite IH]. Qed.

Lemma availability_at_set_eq a c i b :
  dims2 (availability_ a) MAX_ACCOUNTS MAX_YEARS ->
  (c < MAX_ACCOUNTS)%nat -> (i < MAX_YEARS)%nat ->
  availability_at (set_availability_at c i b a) c i = b.
Proof. intros. unfold availability_at. cbn. by eapply get2_set2_eq. Qed.

Lemma availability_at_set_ne a c i b c' i' :
  c ≠ c' \/ i ≠ i' ->
  availability_at (set_availability_at c i b a) c' i' = availability_at a c' i'.
Proof. intros. unfold availability_at. cbn. by apply get2_set2_ne. Qed.

Lemma dims_set_availability_at a c i b :
  dims2 (availability_ a) MAX_ACCOUNTS MAX_YEARS ->
  dims2 (availability_ (set_availability_at c i b a)) MAX_ACCOUNTS MAX_YEARS.
Proof. intros. cbn. by apply dims2_set2. Qed.

(** Rewriting of a read of the flags after writes of flags. *)
Ltac flags :=
  repeat first
    [ rewrite availability_at_set_eq
        by (repeat apply dims_set_availability_at;
            first [assumption | unfold MAX_ACCOUNTS, MAX_YEARS; lia])
    | rewrite availability_at_set_ne
        by (first [left; lia | right; lia]) ].

(** One pass of the inner loop in a year [i >= 1]. *)
Lemma init_year_account_flags user i a c :
  year0_flags a -> (1 <= i < MAX_YEARS)%nat ->
  let a' := init_year_account user i a c in
  year0_flags a' /\
  (forall c', (c' < MAX_ACCOUNTS)%nat ->
     availability_at a' c' i = later_flag user c' i) /\
  (forall c' j, j ≠ i -> availability_at a' c' j = availability_at a c' j).
Proof.
  intros (Hd & H0 & H1 & H2 & H3) Hi. unfold init_year_account.
  set (a2 := set_distribution_ _ _).
  assert (Hd2 : dims2 (availability_ a2) MAX_ACCOUNTS MAX_YEARS) by exact Hd.
  assert (Hf2 : forall c' j, availability_at a2 c' j = availability_at a c' j)
    by done.
  clearbody a2. unfold MAX_ACCOUNTS, MAX_YEARS in *.
  unfold INDIVIDUAL_INDEX, ROTH_INDEX, IRA_INDEX, R401K_INDEX in *.
  destruct (Z.of_nat i <? yearsTillRetirement user) eqn:Hret; cbv zeta.
  - split; [| split].
    + split; [by repeat apply dims_set_availability_at |].
      flags. rewrite !Hf2. done.
    + intros c' Hc'. unfold later_flag, INDIVIDUAL_INDEX. rewrite Hret.
      destruct c' as [| [| [| [| c']]]]; try lia; cbn [Nat.eqb negb];
        flags; rewrite ?Hf2; done.
    + intros c' j Hj. flags. by rewrite Hf2.
  - split; [| split].
    + split; [by repeat apply dims_set_availability_at |].
      flags. rewrite !Hf2. done.
    + intros c' Hc'. unfold later_flag, INDIVIDUAL_INDEX. rewrite Hret.
      destruct c' as [| [| [| [| c']]]]; try lia; cbn [Nat.eqb negb];
        flags; rewrite ?Hf2; done.
    + intros c' j Hj. flags. by rewrite Hf2.
Qed.

Lemma init_year_accounts_keep user i l :
  (1 <= i < MAX_YEARS)%nat ->
  forall a, year0_flags a ->
    let a' := fold_left (init_year_account user i) l a in
    year0_flags a' /\
    (forall c' j, j ≠ i -> availability_at a' c' j = availability_at a c' j).
Proof.
  intros Hi. induction l as [| c l IH]; intros a Ha; cbn; [done |].
  destruct (init_year_account_flags user i a c Ha Hi) as (Ha1 & _ & Hf1).
  destruct (IH _ Ha1) as (Ha' & Hf'). split; [done |].
  intros c' j Hj. by rewrite Hf', Hf1.
Qed.

(** One pass of the loop over the years. *)
Lemma init_year_flags user i a :
  year0_flags a -> (1 <= i < MAX_YEARS)%nat ->
  let a' := init_year user a i in
  year0_flags a' /\
  (forall c', (c' < MAX_ACCOUNTS)%nat ->
     availability_at a' c' i = later_flag user c' i) /\
  (forall c' j, j ≠ i -> availability_at a' c' j = availability_at a c' j).
Proof.
  intros Ha Hi. unfold init_year.
  change (seq 0 MAX_ACCOUNTS) with ([0; 1; 2] ++ [3])%nat.
  rewrite fold_left_app. cbn [fold_left].
  set (a0 := init_year_account user i (init_year_account user i
               (init_year_account user i a 0%nat) 1%nat) 2%nat).
  destruct (init_year_accounts_keep user i [0; 1; 2]%nat Hi a Ha) as (Ha0 & Hf0).
  cbn [fold_left] in Ha0, Hf0. fold a0 in Ha0, Hf0.
  destruct (init_year_account_flags user i a0 3%nat Ha0 Hi) as (Ha1 & He1 & Hf1).
  cbv zeta. split; [exact Ha1 |]. split; [exact He1 |].
  intros c' j Hj.
  change (availability_at (init_year_account user i a0 3%nat) c' j
          = availability_at a c' j).
  by rewrite Hf1, Hf0.
Qed.

Lemma init_years_flags user l :
  (forall y, y ∈ l -> (1 <= y < MAX_YEARS)%nat) ->
  forall a, year0_flags a ->
    let a' := fold_left (init_year user) l a in
    year0_flags a' /\
    (forall y c', y ∈ l -> (c' < MAX_ACCOUNTS)%nat ->
       availability_at a' c' y = later_flag user c' y) /\
    (forall c' j, j ∉ l -> availability_at a' c' j = availability_at a c' j).
Proof.
  induction l as [| y l IH]; intros Hl a Ha; cbn [fold_left].
  - split; [done |]. split; [| done]. intros y c' Hy. by apply elem_of_nil in Hy.
  - assert (Hy : (1 <= y < MAX_YEARS)%nat) by (apply Hl; left).
    destruct (init_year_flags user y a Ha Hy) as (Ha1 & He1 & Hf1).
    destruct (IH (fun z Hz => Hl z (list_elem_of_further _ _ _ Hz)) _ Ha1)
      as (Ha' & He' & Hf').
    cbv zeta. split; [exact Ha' |]. split.
    + intros z c' Hz Hc'. destruct (decide (z ∈ l)) as [Hzl | Hzl].
      * by apply He'.
      * apply elem_of_cons in Hz as [-> | Hz]; [| done].
        rewrite Hf' by done. by apply He1.
    + intros c' j Hj. apply not_elem_of_cons in Hj as [Hjy Hjl].
      rewrite Hf' by done. by apply Hf1.
Qed.

Lemma availability_scalars a x1 x2 x3 x4 x5 x6 x7 :
  availability_
    (set_inflation_ x1
       (set_yearsTillRetirement_ x2
          (set_contributionR401k_ x3
             (set_contributionIra_ x4
                (set_contributionRoth_ x5
                   (set_takehomeIncome_ x6 (set_expense_ x7 a)))))))
  = availability_ a.
Proof. reflexivity. Qed.

Lemma availability_addCashReserve cash c i a :
  availability_ (snd (addCashReserve cash c i a)) = availability_ a.
Proof. unfold addCashReserve. by destruct (_ >? _). Qed.

Lemma availability_clearCashReserve a :
  availability_ (clearCashReserve a) = availability_ a.
Proof. reflexivity. Qed.

Lemma year0_flags_ext a b :
  availability_ b = availability_ a -> year0_flags a -> year0_flags b.
Proof.
  unfold year0_flags, availability_at. intros ->. done.
Qed.

Lemma year0_flags_written a :
  dims2 (availability_ a) MAX_ACCOUNTS MAX_YEARS ->
  year0_flags
    (set_availability_at R401K_INDEX 0 false
       (set_availability_at IRA_INDEX 0 false
          (set_availability_at ROTH_INDEX 0 false
             (set_availability_at INDIVIDUAL_INDEX 0 true a)))).
Proof.
  intros Hd. unfold MAX_ACCOUNTS, MAX_YEARS in *.
  unfold INDIVIDUAL_INDEX, ROTH_INDEX, IRA_INDEX, R401K_INDEX.
  split; [by repeat apply dims_set_availability_at |].
  unfold INDIVIDUAL_INDEX, ROTH_INDEX, IRA_INDEX, R401K_INDEX.
  flags. by split_and!.
Qed.

(** The state before the loop over the years. *)
Lemma init_year0_flags user a : dims_ok a -> year0_flags (init_year0 user a).
Proof.
  intros Hd. unfold init_year0. cbv zeta.
  eapply year0_flags_ext; [apply availability_addCashReserve |].
  eapply year0_flags_ext; [apply availability_clearCashReserve |].
  apply year0_flags_written.
  rewrite availability_scalars, availability_init_accounts.
  by destruct Hd as (_&_&_&Hd&_).
Qed.

(** C9.  After [initializeFromUserData], in every year the Individual
    account is available; the Roth, IRA and 401k accounts are not
    available in year 0, whatever [yearsTillRetirement] is, and in a year
    [i >= 1] they are available exactly when [i >= yearsTillRetirement]. *)
Theorem initializeFromUserData_availability
    (user : UserData) (a : Asset) (i : nat) :
  dims_ok a ->
  (i < MAX_YEARS)%nat ->
  let a' := initializeFromUserData user a in
  availability_at a' INDIVIDUAL_INDEX i = true /\
  forall c, c = ROTH_INDEX \/ c = IRA_INDEX \/ c = R401K_INDEX ->
    (i = 0%nat -> availability_at a' c i = false) /\
    ((1 <= i)%nat ->
     (availability_at a' c i = true <-> yearsTillRetirement user <= Z.of_nat i)).
Proof.
  intros Hd Hi. pose proof (init_year0_flags user a Hd) as H15.
  unfold initializeFromUserData.
  set (a15 := init_year0 user a) in *. clearbody a15.
  destruct (init_years_flags user (seq 1 (MAX_YEARS - 1))
              ltac:(intros y Hy; apply elem_of_seq in Hy; unfold MAX_YEARS in *; lia)
              a15 H15) as (_ & He & Hf).
  cbv zeta in He, Hf.
  set (a' := fold_left (init_year user) (seq 1 (MAX_YEARS - 1)) a15) in *.
  clearbody a'. destruct H15 as (_ & H0 & H1 & H2 & H3).
  destruct (decide (i = 0%nat)) as [-> | Hne].
  - assert (Hnot : 0%nat ∉ seq 1 (MAX_YEARS - 1))
      by (rewrite elem_of_seq; lia).
    split; [by rewrite Hf |].
    intros c Hc. split; [| lia]. intros _. rewrite Hf by done.
    by destruct Hc as [-> | [-> | ->]].
  - assert (Hin : i ∈ seq 1 (MAX_YEARS - 1))
      by (rewrite elem_of_seq; unfold MAX_YEARS in *; lia).
    split; [by rewrite (He i) by (done || (unfold MAX_ACCOUNTS, INDIVIDUAL_INDEX; lia)) |].
    intros c Hc. split; [lia |]. intros _.
    rewrite (He i c Hin)
      by (unfold MAX_ACCOUNTS, ROTH_INDEX, IRA_INDEX, R401K_INDEX in *; lia).
    unfold later_flag.
    replace (c =? INDIVIDUAL_INDEX)%nat with false
      by (by destruct Hc as [-> | [-> | ->]]).
    rewrite negb_true_iff, Z.ltb_ge. done.
Qed.

(** The hypotheses of [initializeFromUserData_availability] hold for a
    freshly constructed [Asset] and year 3. *)
Lemma initializeFromUserData_availability_witness :
  availability_at (initializeFromUserData plain_user Asset_ctor)
    INDIVIDUAL_INDEX 3 = true.
Proof.
  destruct (initializeFromUserData_availability plain_user Asset_ctor 3)
    as [H _].
  - dims_tac.
  - unfold MAX_YEARS. lia.
  - exact H.
Defined.

(** With retirement in year 0 the three retirement accounts are still
    closed in year 0 and open from year 1. *)
Example availability_retired_at_start :
  let a := initializeFromUserData plain_user Asset_ctor in
  map (fun c => availability_at a c 0) [0; 1; 2; 3]%nat
    = [true; false; false; false] /\
  map (fun c => availability_at a c 1) [0; 1; 2; 3]%nat
    = [true; true; true; true].
Proof. by vm_compute. Qed.

(** ** [populateGrowthCurves]: the scaling of the common curve *)

Lemma set_growthRate_set x y a :
  set_growthRate_ x (set_growthRate_ y a) = set_growthRate_ x a.
Proof. by destruct a. Qed.

Lemma set_growthRate_same a : set_growthRate_ (growthRate_ a) a = a.
Proof. by destruct a. Qed.

Lemma growthRateAvg_set_growthRate x a :
  growthRateAvg_ (set_growthRate_ x a) = growthRateAvg_ a.
Proof. reflexivity. Qed.

Lemma growthRate_at_set_eq a c n x :
  dims2 (growthRate_ a) MAX_ACCOUNTS MAX_YEARS ->
  (c < MAX_ACCOUNTS)%nat -> (n < MAX_YEARS)%nat ->
  growthRate_at (set_growthRate_at c n x a) c n = x.
Proof. intros. unfold growthRate_at. cbn. by eapply get2_set2_eq. Qed.

Lemma growthRate_at_set_ne a c n x c' n' :
  c ≠ c' \/ n ≠ n' ->
  growthRate_at (set_growthRate_at c n x a) c' n' = growthRate_at a c' n'.
Proof. intros. unfold growthRate_at. cbn. by apply get2_set2_ne. Qed.

(** A loop that writes [g n] to [growthRate_[c][n]] for the years [n] of
    [l] changes no other data member and no other cell. *)
Lemma write_row_spec (g : nat -> float32) (c : nat) (l : list nat) :
  forall a,
    let a' := fold_left (fun a n => set_growthRate_at c n (g n) a) l a in
    set_growthRate_ (growthRate_ a) a' = a /\
    (dims2 (growthRate_ a) MAX_ACCOUNTS MAX_YEARS ->
     dims2 (growthRate_ a') MAX_ACCOUNTS MAX_YEARS) /\
    (forall c' n, c' ≠ c \/ n ∉ l ->
       growthRate_at a' c' n = growthRate_at a c' n) /\
    (dims2 (growthRate_ a) MAX_ACCOUNTS MAX_YEARS ->
     forall n, n ∈ l -> (c < MAX_ACCOUNTS)%nat -> (n < MAX_YEARS)%nat ->
       growthRate_at a' c n = g n).
Proof.
  induction l as [| n0 l IH]; intros a; cbn [fold_left].
  - split; [apply set_growthRate_same |]. split; [done |]. split; [done |].
    intros _ n Hn. by apply elem_of_nil in Hn.
  - destruct (IH (set_growthRate_at c n0 (g n0) a)) as (Hs & Hd & Hf & He).
    cbv zeta.
    set (a' := fold_left _ l _) in *. clearbody a'.
    assert (Hd1 : dims2 (growthRate_ a) MAX_ACCOUNTS MAX_YEARS ->
              dims2 (growthRate_ (set_growthRate_at c n0 (g n0) a))
                MAX_ACCOUNTS MAX_YEARS)
      by (intros H; by apply dims2_set2).
    split; [| split; [| split]].
    + rewrite <- (set_growthRate_set _ (growthRate_ (set_growthRate_at c n0 (g n0) a))).
      rewrite Hs. by destruct a.
    + auto.
    + intros c' n Hne. rewrite Hf.
      * apply growthRate_at_set_ne.
        destruct Hne as [Hne | Hne]; [left; congruence |].
        apply not_elem_of_cons in Hne as [Hne _]. right. congruence.
      * destruct Hne as [Hne | Hne]; [by left |].
        apply not_elem_of_cons in Hne as [_ Hne]. by right.
    + intros Hdims n Hn Hc Hlt. destruct (decide (n ∈ l)) as [Hin | Hnot].
      * by apply He; auto.
      * apply elem_of_cons in Hn as [-> | Hn]; [| done].
        rewrite Hf by (by right). by apply growthRate_at_set_eq.
Qed.

Lemma guessed_stock_ratio_ext a b c :
  growthRateAvg_ b = growthRateAvg_ a ->
  guessed_stock_ratio b c = guessed_stock_ratio a c.
Proof.
  intros H. unfold guessed_stock_ratio, growthRateAvg_at. by rewrite H.
Qed.

Lemma growthRateAvg_kept a a' :
  set_growthRate_ (growthRate_ a) a' = a ->
  growthRateAvg_ a' = growthRateAvg_ a.
Proof.
  intros H. by rewrite <- H, growthRateAvg_set_growthRate.
Qed.

(** The loop of lines 172-179 over the accounts of [lc]. *)
Lemma scale_rows_spec (common : list float32) (lc : list nat) :
  NoDup lc ->
  forall a,
    let a' :=
      fold_left
        (fun a c =>
           let ratio := guessed_stock_ratio a c in
           fold_left
             (fun a n =>
                set_growthRate_at c n (fmul (get1 (of_Z 0) common n) ratio) a)
             (seq 0 (length common)) a)
        lc a in
    set_growthRate_ (growthRate_ a) a' = a /\
    (dims2 (growthRate_ a) MAX_ACCOUNTS MAX_YEARS ->
     dims2 (growthRate_ a') MAX_ACCOUNTS MAX_YEARS) /\
    (forall c n, c ∉ lc -> growthRate_at a' c n = growthRate_at a c n) /\
    (dims2 (growthRate_ a) MAX_ACCOUNTS MAX_YEARS ->
     forall c n, c ∈ lc -> (c < MAX_ACCOUNTS)%nat ->
       (n < length common)%nat -> (n < MAX_YEARS)%nat ->
       growthRate_at a' c n
         = fmul (get1 (of_Z 0) common n) (guessed_stock_ratio a c)).
Proof.
  induction lc as [| c0 lc IH]; intros Hnd a; cbn [fold_left].
  - split; [apply set_growthRate_same |]. split; [done |]. split; [done |].
    intros _ c n Hc. by apply elem_of_nil in Hc.
  - apply NoDup_cons in Hnd as [Hc0 Hnd].
    set (g := fun n => fmul (get1 (of_Z 0) common n) (guessed_stock_ratio a c0)).
    destruct (write_row_spec g c0 (seq 0 (length common)) a)
      as (Hs1 & Hd1 & Hf1 & He1).
    cbv zeta in Hs1, Hd1, Hf1, He1. cbv zeta.
    change (fold_left
              (fun a1 n =>
                 set_growthRate_at c0 n
                   (fmul (get1 (of_Z 0) common n) (guessed_stock_ratio a c0)) a1)
              (seq 0 (length common)) a)
      with (fold_left (fun a1 n => set_growthRate_at c0 n (g n) a1)
              (seq 0 (length common)) a).
    set (a1 := fold_left (fun a1 n => set_growthRate_at c0 n (g n) a1)
                 (seq 0 (length common)) a) in *.
    clearbody a1.
    destruct (IH Hnd a1) as (Hs & Hd & Hf & He). cbv zeta in Hs, Hd, Hf, He.
    set (a' := fold_left _ lc a1) in *. clearbody a'.
    pose proof (growthRateAvg_kept _ _ Hs1) as Havg.
    split; [| split; [| split]].
    + rewrite <- (set_growthRate_set _ (growthRate_ a1)). by rewrite Hs.
    + auto.
    + intros c n Hc. apply not_elem_of_cons in Hc as [Hne Hc].
      rewrite Hf by done. apply Hf1. by left.
    + intros Hdims c n Hc Hlt Hn Hn'. destruct (decide (c ∈ lc)) as [Hin | Hnot].
      * rewrite He by auto. by rewrite (guessed_stock_ratio_ext a a1 c Havg).
      * apply elem_of_cons in Hc as [-> | Hc]; [| done].
        rewrite Hf by done. rewrite He1; auto.
        apply elem_of_seq. lia.
Qed.

Lemma scale_growth_spec (common : list float32) (a : Asset) :
  dims2 (growthRate_ a) MAX_ACCOUNTS MAX_YEARS ->
  length common = MAX_YEARS ->
  set_growthRate_ (growthRate_ a) (scale_growth common a) = a /\
  dims2 (growthRate_ (scale_growth common a)) MAX_ACCOUNTS MAX_YEARS /\
  forall c n, (c < MAX_ACCOUNTS)%nat -> (n < MAX_YEARS)%nat ->
    growthRate_at (scale_growth common a) c n
      = fmul (get1 (of_Z 0) common n) (guessed_stock_ratio a c).
Proof.
  intros Hd Hlen.
  destruct (scale_rows_spec common (seq 0 MAX_ACCOUNTS) NoDup_accounts a)
    as (Hs & Hd' & _ & He).
  split; [exact Hs |]. split; [by apply Hd' |].
  intros c n Hc Hn. apply He; auto using elem_of_accounts. lia.
Qed.

(** ** [populateGrowthCurves] with an unrecognized option *)

Lemma fmul_zero_finite (r : float32) :
  is_finite r = true -> feq (fmul (of_Z 0) r) (of_Z 0) = true.
Proof. by destruct r as [[] | [] | | [] m e]. Qed.

(** C6, as the code has it.  With an option that is none of the three
    scenarios, [populateGrowthCurves] writes one line to [std::cerr] and
    returns as it does for a recognized option: it hands the caller no
    failure.  It changes no data member but [growthRate_], whose every
    cell becomes the product of the zero of the unpopulated common curve
    and the account's stock ratio, a zero whenever that ratio is
    finite. *)
Theorem unrecognized_option
    (rnd : nat -> Z) (opt : ModelOption) (a : Asset) :
  opt <> CONSTANT ->
  opt <> PREDEFINED_YEAR0_LOSS ->
  opt <> RECESSION_RANDOMIZED ->
  dims_ok a ->
  exists a' : Asset,
    populateGrowthCurves rnd opt a = Some (a', [unrecognized_message]) /\
    set_growthRate_ (growthRate_ a) a' = a /\
    forall c n, (c < MAX_ACCOUNTS)%nat -> (n < MAX_YEARS)%nat ->
      growthRate_at a' c n = fmul (of_Z 0) (guessed_stock_ratio a c) /\
      (is_finite (guessed_stock_ratio a c) = true ->
       feq (growthRate_at a' c n) (of_Z 0) = true).
Proof.
  intros H0 H1 H2 Hd. unfold populateGrowthCurves.
  rewrite (proj2 (Z.eqb_neq _ _) H0), (proj2 (Z.eqb_neq _ _) H1),
    (proj2 (Z.eqb_neq _ _) H2). cbn [negb].
  destruct (scale_growth_spec (replicate MAX_YEARS (of_Z 0)) a)
    as (Hs & _ & He).
  { by destruct Hd as (Hd&_). }
  { apply length_replicate. }
  eexists. split; [reflexivity |]. split; [exact Hs |].
  intros c n Hc Hn. rewrite (He c n Hc Hn), get1_replicate_default.
  split; [reflexivity |]. apply fmul_zero_finite.
Qed.

(** The hypotheses of [unrecognized_option] hold for the option 7 and a
    freshly constructed [Asset]. *)
Lemma unrecognized_option_witness :
  exists a' : Asset,
    populateGrowthCurves rnd_const 7 Asset_ctor
      = Some (a', [unrecognized_message]).
Proof.
  destruct (unrecognized_option rnd_const 7 Asset_ctor) as (a' & H & _).
  - discriminate.
  - discriminate.
  - discriminate.
  - dims_tac.
  - exists a'. exact H.
Defined.

(** The claim that the caller is handed a distinct failure does not
    hold: for a freshly constructed [Asset], the option 7 and the option
    [CONSTANT] leave the same state, and an iteration of [runSim] with
    the option 7 goes on to [calculateN] and stores the same fund
    longevity, 50, as the run with constant zero growth; the one trace
    of the unrecognized option is the line on [std::cerr]. *)
Lemma unrecognized_option_counterexample :
  (exists a' : Asset,
     populateGrowthCurves rnd_const 7 Asset_ctor
       = Some (a', [unrecognized_message]) /\
     populateGrowthCurves rnd_const CONSTANT Asset_ctor = Some (a', [])) /\
  (exists a' : Asset,
     runSim_iteration rnd_const plain_user 7 Asset_ctor
       = Some (50, a', [unrecognized_message]) /\
     runSim_iteration rnd_const plain_user CONSTANT Asset_ctor
       = Some (50, a', [])).
Proof.
  split; vm_compute; eexists; split; reflexivity.
Qed.

(** ** The randomized recession scenario *)

Lemma draw_cases (P : Z -> bool) :
  forallb P (map Z.of_nat (seq 1 100)) = true ->
  forall d, RANDOM_NUM_MIN <= d <= RANDOM_NUM_MAX -> P d = true.
Proof.
  intros Hall d Hd. unfold RANDOM_NUM_MIN, RANDOM_NUM_MAX in Hd.
  rewrite forallb_forall in Hall. apply Hall.
  apply in_map_iff. exists (Z.to_nat d). split; [lia |].
  apply in_seq. lia.
Qed.

(** Every draw gives a recession rate in the interval
    [RECESSION_MIN .. RECESSION_MAX], which is negative. *)
Lemma recession_rate_range d :
  RANDOM_NUM_MIN <= d <= RANDOM_NUM_MAX ->
  fle RECESSION_MIN (recession_rate d) = true /\
  fle (recession_rate d) RECESSION_MAX = true /\
  flt (recession_rate d) (of_Z 0) = true /\
  feq (recession_rate d) (of_Z 0) = false.
Proof.
  intros Hd.
  pose proof (draw_cases
    (fun d => fle RECESSION_MIN (recession_rate d)
              && fle (recession_rate d) RECESSION_MAX
              && flt (recession_rate d) (of_Z 0)
              && negb (feq (recession_rate d) (of_Z 0)))
    ltac:(vm_compute; reflexivity) d Hd) as H.
  cbv beta in H. rewrite !andb_true_iff, negb_true_iff in H. tauto.
Qed.

Lemma wrap32_small z : - 2 ^ 31 <= z < 2 ^ 31 -> wrap32 z = z.
Proof. intros H. apply wrap32_id. unfold in_int, INT_MIN, INT_MAX. lia. Qed.

Lemma to_unsigned_small z : 0 <= z < 2 ^ 32 -> to_unsigned z = z.
Proof. intros H. unfold to_unsigned. by apply Z.mod_small. Qed.

Lemma to_size_t_small z : 0 <= z < 2 ^ 64 -> to_size_t z = z.
Proof. intros H. unfold to_size_t. by apply Z.mod_small. Qed.

Lemma rem3_range d : 0 <= d -> 0 <= Z.rem d 3 < 3.
Proof. intros H. apply Z.rem_bound_pos; lia. Qed.

(** One pass of the [while] loop from a year [n] of the curve: the
    years before [n] are kept, year [n] gets the recession rate of the
    pass, and a pass that does not leave the loop moves [n] forward. *)
Lemma recession_pass_spec rnd st :
  draws_ok rnd ->
  0 <= rr_n st < Z.of_nat MAX_YEARS ->
  length (rr_growth st) = MAX_YEARS ->
  let st' := fst (recession_pass rnd st) in
  length (rr_growth st') = MAX_YEARS /\
  (forall j, (j < Z.to_nat (rr_n st))%nat ->
     get1 (of_Z 0) (rr_growth st') j = get1 (of_Z 0) (rr_growth st) j) /\
  get1 (of_Z 0) (rr_growth st') (Z.to_nat (rr_n st))
    = recession_rate (rnd (rr_drawn st)) /\
  (snd (recession_pass rnd st) = false ->
   rr_n st < rr_n st' <= rr_n st + 14).
Proof.
  intros Hrnd Hn Hlen. unfold recession_pass. unfold MAX_YEARS in *.
  cbv zeta. destruct st as [g n s k]. cbn [rr_growth rr_n rr_years_sum rr_drawn] in *.
  pose proof (Hrnd (k + 1)%nat) as Hd1. pose proof (Hrnd (k + 2)%nat) as Hd2.
  unfold RANDOM_NUM_MIN, RANDOM_NUM_MAX in Hd1, Hd2.
  change (wrap32 (RECOVERY_INT_MAX - RECOVERY_INT_MIN)) with 3.
  change (wrap32 (RECESSION_INT_MAX - RECESSION_INT_MIN)) with 3.
  unfold RECOVERY_INT_MIN, RECESSION_INT_MIN.
  pose proof (rem3_range (rnd (k + 1)%nat) ltac:(lia)) as Hr1.
  pose proof (rem3_range (rnd (k + 2)%nat) ltac:(lia)) as Hr2.
  set (r1 := Z.rem (rnd (k + 1)%nat) 3) in *.
  set (r2 := Z.rem (rnd (k + 2)%nat) 3) in *.
  rewrite (wrap32_small (1 + r1)) by lia.
  rewrite (wrap32_small (n + (1 + r1))) by lia.
  rewrite (to_unsigned_small (n + (1 + r1))) by lia.
  change (Z.of_nat 50) with 50.
  assert (Hw : forall (x : float32) (i : nat),
             (i < 50)%nat -> get1 (of_Z 0) (<[i := x]> g) i = x)
    by (intros; apply get1_insert_eq; lia).
  destruct (n + (1 + r1) >=? 50) eqn:Hb1; cbn [fst snd rr_growth rr_n].
  { rewrite length_insert. split; [done |]. split.
    - intros j Hj. apply get1_insert_ne. lia.
    - split; [apply Hw; lia | discriminate]. }
  rewrite Z.geb_leb, Z.leb_gt in Hb1.
  rewrite (wrap32_small (n + (1 + r1) + 1)) by lia.
  rewrite (to_unsigned_small (n + (1 + r1) + 1)) by lia.
  destruct (n + (1 + r1) + 1 >=? 50) eqn:Hb2; cbn [fst snd rr_growth rr_n].
  { rewrite !length_insert. split; [done |]. split.
    - intros j Hj. rewrite !get1_insert_ne by lia. done.
    - split; [| discriminate]. rewrite get1_insert_ne by lia. apply Hw. lia. }
  rewrite Z.geb_leb, Z.leb_gt in Hb2.
  rewrite (wrap32_small (8 + r2)) by lia.
  rewrite (wrap32_small (n + (1 + r1) + 1 + (8 + r2))) by lia.
  rewrite !length_insert. split; [done |]. split.
  - intros j Hj. rewrite !get1_insert_ne by lia. done.
  - split; [| intros _; lia]. rewrite !get1_insert_ne by lia. apply Hw. lia.
Qed.

(** With draws in range, [MAX_YEARS - n] passes suffice: the loop ends
    by its own test or by a [break]. *)
Lemma recession_loop_spec rnd :
  draws_ok rnd ->
  forall fuel st,
    0 <= rr_n st < 2 ^ 31 ->
    length (rr_growth st) = MAX_YEARS ->
    Z.of_nat MAX_YEARS <= rr_n st + Z.of_nat fuel ->
    exists st',
      recession_loop fuel rnd st = Some st' /\
      length (rr_growth st') = MAX_YEARS /\
      (forall j, (j < Z.to_nat (rr_n st))%nat ->
         get1 (of_Z 0) (rr_growth st') j = get1 (of_Z 0) (rr_growth st) j) /\
      (rr_n st < Z.of_nat MAX_YEARS ->
       get1 (of_Z 0) (rr_growth st') (Z.to_nat (rr_n st))
         = recession_rate (rnd (rr_drawn st))).
Proof.
  intros Hrnd. induction fuel as [| fuel IH]; intros st Hn Hlen Hfuel.
  - exists st. cbn [recession_loop].
    rewrite to_size_t_small, Hlen by lia.
    rewrite (proj2 (Z.ltb_ge _ _)) by lia.
    split; [done |]. split; [done |]. split; [done | lia].
  - cbn [recession_loop]. rewrite to_size_t_small, Hlen by lia.
    destruct (rr_n st <? Z.of_nat MAX_YEARS) eqn:Hlt.
    + apply Z.ltb_lt in Hlt.
      destruct (recession_pass_spec rnd st Hrnd ltac:(lia) Hlen)
        as (Hlen' & Hkeep & Hrate & Hnext).
      destruct (recession_pass rnd st) as [st1 broke]. cbn [fst snd] in *.
      destruct broke.
      * exists st1. split; [done |]. split; [done |]. split; [done |]. done.
      * specialize (Hnext eq_refl). unfold MAX_YEARS in *.
        destruct (IH st1 ltac:(lia) Hlen' ltac:(lia))
          as (st' & Hloop & Hlen'' & Hkeep' & _).
        exists st'. split; [done |]. split; [done |]. split.
        -- intros j Hj. rewrite Hkeep' by lia. by apply Hkeep.
        -- intros _. rewrite Hkeep' by lia. done.
    + apply Z.ltb_ge in Hlt. exists st.
      split; [done |]. split; [done |]. split; [done | lia].
Qed.

(** The last loop leaves a year alone whose rate is not zero. *)
Lemma fill_years_keep rnd rr (l : list nat) :
  forall (g : list float32) (k : nat) (j : nat),
    feq (get1 (of_Z 0) g j) (of_Z 0) = false ->
    get1 (of_Z 0) (fst (fold_left (fill_year rnd rr) l (g, k))) j
      = get1 (of_Z 0) g j.
Proof.
  induction l as [| n l IH]; intros g k j Hj; cbn [fold_left]; [done |].
  unfold fill_year at 2.
  destruct (feq (get1 (of_Z 0) g n) (of_Z 0)) eqn:Hn.
  - assert (Hne : n ≠ j) by (intros ->; congruence).
    rewrite IH by (by rewrite get1_insert_ne).
    by apply get1_insert_ne.
  - by apply IH.
Qed.

Lemma fill_years_length rnd rr (l : list nat) :
  forall (g : list float32) (k : nat),
    length (fst (fold_left (fill_year rnd rr) l (g, k))) = length g.
Proof.
  induction l as [| n l IH]; intros g k; cbn [fold_left]; [done |].
  unfold fill_year at 2.
  destruct (feq (get1 (of_Z 0) g n) (of_Z 0)); rewrite IH; [| done].
  apply length_insert.
Qed.

Lemma clear_curve_length (l : list nat) :
  forall g : list float32,
    length (fold_left (fun g n => <[n := of_Z 0]> g) l g) = length g.
Proof.
  induction l as [| n l IH]; intros g; cbn [fold_left]; [done |].
  rewrite IH. apply length_insert.
Qed.

(** C8.  Whatever the random source draws (every draw being one of
    1..100, as the distribution promises), the index of the first
    recession year, a draw modulo [RECESSION_START_MOD = 1], is 0; the
    scenario returns a curve, and [growth_common[0]] is the recession
    rate of the second draw, a value of the interval
    [RECESSION_MIN .. RECESSION_MAX] and negative. *)
Theorem first_recession_at_year_0
    (rnd : nat -> Z) (growth_common : list float32) :
  draws_ok rnd ->
  length growth_common = MAX_YEARS ->
  wrap32 (to_unsigned (rnd 0%nat) mod RECESSION_START_MOD) = 0 /\
  exists g : list float32,
    scenarioRecessionRandomized rnd growth_common = Some g /\
    length g = MAX_YEARS /\
    get1 (of_Z 0) g 0 = recession_rate (rnd 1%nat) /\
    fle RECESSION_MIN (get1 (of_Z 0) g 0) = true /\
    fle (get1 (of_Z 0) g 0) RECESSION_MAX = true /\
    flt (get1 (of_Z 0) g 0) (of_Z 0) = true.
Proof.
  intros Hrnd Hlen.
  assert (H0 : wrap32 (to_unsigned (rnd 0%nat) mod RECESSION_START_MOD) = 0)
    by (unfold RECESSION_START_MOD; by rewrite Z.mod_1_r).
  split; [exact H0 |]. unfold scenarioRecessionRandomized. rewrite H0.
  set (g0 := fold_left _ _ growth_common).
  assert (Hlen0 : length g0 = MAX_YEARS)
    by (subst g0; by rewrite clear_curve_length).
  clearbody g0.
  destruct (recession_loop_spec rnd Hrnd recession_fuel (mk_rr g0 0 0 1))
    as (st & Hloop & Hlen' & _ & Hrate).
  { cbn. lia. }
  { exact Hlen0. }
  { cbn. unfold recession_fuel. lia. }
  rewrite Hloop. cbn [rr_n rr_drawn] in Hrate.
  specialize (Hrate ltac:(unfold MAX_YEARS; lia)).
  change (Z.to_nat 0) with 0%nat in Hrate.
  destruct (recession_rate_range (rnd 1%nat) (Hrnd 1%nat))
    as (Hmin & Hmax & Hneg & Hnz).
  eexists. split; [reflexivity |].
  rewrite fill_years_length, fill_years_keep by (by rewrite Hrate).
  rewrite Hrate. by split_and!.
Qed.

(** The hypotheses of [first_recession_at_year_0] hold for the source
    that always draws 50 and the zeroed curve of [populateGrowthCurves]. *)
Lemma first_recession_at_year_0_witness :
  exists g : list float32,
    scenarioRecessionRandomized rnd_const (replicate MAX_YEARS (of_Z 0))
      = Some g /\
    get1 (of_Z 0) g 0 = recession_rate 50.
Proof.
  destruct (first_recession_at_year_0 rnd_const (replicate MAX_YEARS (of_Z 0)))
    as (_ & g & Hg & _ & H0 & _).
  - intros k. unfold rnd_const, RANDOM_NUM_MIN, RANDOM_NUM_MAX. lia.
  - reflexivity.
  - exists g. split; [exact Hg | exact H0].
Defined.

(** ** [calculateN]: the fund longevity *)

Lemma year_loop_index remaining :
  forall i a,
    (i <= fst (year_loop remaining i a) <= i + remaining)%nat.
Proof.
  induction remaining as [| k IH]; intros i a; cbn [year_loop]; [cbn; lia |].
  destruct (year_body i a) as [a' | a']; [| cbn; lia].
  specialize (IH (S i) a'). lia.
Qed.

(** X1.  The fund longevity [calculateN] stores lies between 0 and
    [MAX_YEARS]. *)
Theorem calculateN_longevity_range (a : Asset) :
  0 <= fundLongevity_ (calculateN a) <= Z.of_nat MAX_YEARS.
Proof.
  pose proof (year_loop_index MAX_YEARS 0 a) as H. unfold calculateN.
  destruct (year_loop MAX_YEARS 0 a) as [i a']. cbn in *. lia.
Qed.

Lemma year_body_break i a a1 :
  year_body i a = Break a1 -> a1 = before_check i a /\ depleted_in i a.
Proof.
  unfold year_body, shortfall, depleted_in. cbv zeta.
  set (b := before_check i a). set (total := distributable_total i b).
  set (net := net_expense i b).
  destruct (net >? total) eqn:Hgt; [| discriminate].
  destruct (net <? wrap64 (total + cashReserve_ b)) eqn:Hlt; [discriminate |].
  intros [= <-]. apply Z.gtb_gt in Hgt. apply Z.ltb_ge in Hlt.
  split; [reflexivity |]. lia.
Qed.

Lemma year_loop_cases a0 remaining :
  forall i a,
    reaches a0 i a -> (i + remaining = MAX_YEARS)%nat ->
    (exists j aj,
       reaches a0 j aj /\ (j < MAX_YEARS)%nat /\
       year_body j aj = Break (snd (year_loop remaining i a)) /\
       fst (year_loop remaining i a) = j) \/
    (fst (year_loop remaining i a) = MAX_YEARS /\
     reaches a0 MAX_YEARS (snd (year_loop remaining i a))).
Proof.
  induction remaining as [| k IH]; intros i a Hr Hi; cbn [year_loop].
  - right. cbn. replace i with MAX_YEARS in Hr by lia. split; [lia | done].
  - destruct (year_body i a) as [a' | a'] eqn:Hb.
    + apply IH; [| lia]. eapply reaches_next; [exact Hr | lia | exact Hb].
    + left. exists i, a. cbn. split; [done |]. split; [lia |]. done.
Qed.

(** X2.  [calculateN] ends in one of two ways.  Either some year [i]
    below [MAX_YEARS] is reached in which the shortfall check fails, and
    the fund longevity is [i]; or year [MAX_YEARS] is reached, every
    year's body having run to its end, and the fund longevity is
    [MAX_YEARS]. *)
Theorem calculateN_longevity_cases (a0 : Asset) :
  (exists i a,
     reaches a0 i a /\ (i < MAX_YEARS)%nat /\ depleted_in i a /\
     calculateN a0 = set_fundLongevity_ (Z.of_nat i) (before_check i a)) \/
  (exists a,
     reaches a0 MAX_YEARS a /\
     calculateN a0 = set_fundLongevity_ (Z.of_nat MAX_YEARS) a).
Proof.
  destruct (year_loop_cases a0 MAX_YEARS 0 a0 (reaches_first a0) eq_refl)
    as [(j & aj & Hr & Hj & Hb & Hfst) | (Hfst & Hr)];
    unfold calculateN;
    destruct (year_loop MAX_YEARS 0 a0) as [L a']; cbn [fst snd] in *.
  - left. exists j, aj. destruct (year_body_break _ _ _ Hb) as [-> Hdep].
    subst L. done.
  - right. exists a'. subst L. done.
Qed.

(** ** The cash reserve while [CASH_RESERVE] is 0 *)

Lemma set2_same {A : Type} (d : A) (m : list (list A)) c i :
  set2 m c i (get2 d m c i) = m.
Proof.
  unfold set2, get2. apply list_eq. intros k.
  rewrite list_lookup_alter. case_decide as Hk; [subst k |]; [| done].
  destruct (m !! c) as [row |] eqn:Hrow; [| done]. cbn. f_equal.
  destruct (row !! i) as [x |] eqn:Hx; cbn.
  - by apply list_insert_id.
  - apply list_insert_ge. by apply lookup_ge_None.
Qed.

(** X3.  A call of [addCashReserve] with the amount 0, as every call of
    the engine is while [CASH_RESERVE] is 0, leaves the state as it is,
    whatever flag it returns. *)
Theorem addCashReserve_zero (asset_num n_year : nat) (a : Asset) :
  in_int (cashReserve_ a) ->
  in_long (value_at a asset_num n_year) ->
  snd (addCashReserve CASH_RESERVE asset_num n_year a) = a.
Proof.
  intros Hr Hv. unfold addCashReserve, CASH_RESERVE.
  destruct (value_at a asset_num n_year >? 0); cbn [snd]; [| done].
  rewrite Z.add_0_r, (wrap32_id _ Hr).
  change (value_at (set_cashReserve_ (cashReserve_ a) a) asset_num n_year)
    with (value_at a asset_num n_year).
  rewrite Z.sub_0_r, (wrap64_id _ Hv).
  change (value_ (set_cashReserve_ (cashReserve_ a) a)) with (value_ a).
  unfold value_at. rewrite set2_same. by destruct a.
Qed.

Lemma addCashReserve_zero_witness :
  snd (addCashReserve CASH_RESERVE INDIVIDUAL_INDEX 0 AddCashReserveSuccess)
    = AddCashReserveSuccess.
Proof.
  apply addCashReserve_zero.
  - vm_compute. split; discriminate.
  - vm_compute. split; discriminate.
Defined.

Lemma distributable_total_in_long i a : in_long (distributable_total i a).
Proof.
  unfold distributable_total.
  assert (H : forall l z, in_long z ->
            in_long (fold_left
                       (fun total c =>
                          if availability_at a c i
                          then wrap64 (total + value_at a c i) else total) l z)).
  { induction l as [| c l IH]; intros z Hz; cbn [fold_left]; [done |].
    apply IH. destruct (availability_at a c i); [apply wrap64_range | done]. }
  apply H. unfold in_long, LONG_MIN, LONG_MAX. lia.
Qed.

Lemma cashReserve_retire i a : cashReserve_ (retire i a) = cashReserve_ a.
Proof. unfold retire. by destruct (_ =? _). Qed.

Lemma expense_retire i a : expense_ (retire i a) = expense_ a.
Proof. unfold retire. by destruct (_ =? _). Qed.

Lemma cashPolicy_no_reserve i a :
  cashReserve_ a = 0 ->
  cashReserve_ (cashPolicy i a) = 0 /\ expense_ (cashPolicy i a) = expense_ a.
Proof.
  intros H0. unfold cashPolicy. rewrite H0. cbn [Z.gtb Z.compare].
  rewrite andb_false_r.
  destruct (_ && _ && _); [| done].
  unfold addCashReserve. destruct (_ >? _); cbn [snd]; [| done].
  cbn. by rewrite H0.
Qed.

Lemma before_check_no_reserve i a :
  cashReserve_ a = 0 ->
  cashReserve_ (before_check i a) = 0 /\
  expense_ (before_check i a) = expense_ a.
Proof.
  intros H0. unfold before_check.
  destruct (cashPolicy_no_reserve i (retire i a)) as [H1 H2].
  { by rewrite cashReserve_retire. }
  by rewrite H1, H2, expense_retire.
Qed.

Lemma shortfall_no_reserve i a :
  cashReserve_ a = 0 ->
  shortfall i (net_expense i a) (distributable_total i a) a
    = if net_expense i a >? distributable_total i a then None else Some a.
Proof.
  intros H0. unfold shortfall. rewrite H0, Z.add_0_r.
  rewrite (wrap64_id _ (distributable_total_in_long i a)).
  destruct (_ >? _) eqn:Hgt; [| done].
  apply Z.gtb_gt in Hgt. by rewrite (proj2 (Z.ltb_ge _ _)) by lia.
Qed.

Lemma cashReserve_after_check i net total x a :
  cashReserve_ a = 0 -> cashReserve_ (after_check i net total x a) = 0.
Proof.
  intros H0. unfold after_check, inflate_reserve.
  set (b := inflate_expense i _).
  assert (Hb : cashReserve_ b = 0).
  { subst b. unfold inflate_expense.
    assert (Hc : cashReserve_
                   (contribute i x (distribute i (distribution_percentage net total) a))
                 = 0).
    { unfold contribute.
      assert (Hd : cashReserve_ (distribute i (distribution_percentage net total) a) = 0).
      { unfold distribute. generalize (seq 0 MAX_ACCOUNTS). intros l.
        revert a H0. induction l as [| c l IH]; intros a H0; cbn [fold_left]; [done |].
        apply IH. unfold distribute_account. by destruct (_ <? _)%nat. }
      by destruct (_ && _). }
    by destruct (_ <? _)%nat. }
  clearbody b. rewrite Hb. done.
Qed.

(** X4.  While the reserve is 0 it stays 0.  In every year the loop
    reaches from a state with an empty reserve, the reserve is still
    empty and the cash-reserve policy leaves the expenses alone; the
    year's body runs to its end exactly when the net expense does not
    exceed the distributable total; and [calculateN] ends with an empty
    reserve. *)
Theorem reserve_stays_empty (a0 : Asset) (i : nat) (a : Asset) :
  cashReserve_ a0 = 0 ->
  reaches a0 i a ->
  cashReserve_ a = 0 /\
  expense_ (before_check i a) = expense_ a /\
  ((exists a', year_body i a = Continue a') <->
   net_expense i (before_check i a)
     <= distributable_total i (before_check i a)) /\
  cashReserve_ (calculateN a0) = 0.
Proof.
  intros H0 Hr.
  assert (Hstep : forall j b,
            cashReserve_ b = 0 ->
            match year_body j b with
            | Continue b' | Break b' => cashReserve_ b' = 0
            end).
  { intros j b Hb. unfold year_body.
    destruct (before_check_no_reserve j b Hb) as [H1 _].
    rewrite (shortfall_no_reserve j _ H1).
    destruct (_ >? _); [done |]. by apply cashReserve_after_check. }
  assert (Ha : cashReserve_ a = 0).
  { induction Hr as [| j b b' _ IH _ Hb]; [done |].
    specialize (Hstep j b IH). by rewrite Hb in Hstep. }
  destruct (before_check_no_reserve i a Ha) as [H1 H2].
  split; [exact Ha |]. split; [exact H2 |]. split.
  - unfold year_body. rewrite (shortfall_no_reserve i _ H1).
    destruct (_ >? _) eqn:Hgt.
    + apply Z.gtb_gt in Hgt. split; [intros [a' [=]] | lia].
    + split; [| eauto]. intros _.
      destruct (Z.gtb_spec (net_expense i (before_check i a))
                  (distributable_total i (before_check i a))); [done | lia].
  - assert (Hloop : forall remaining j b,
              cashReserve_ b = 0 ->
              cashReserve_ (snd (year_loop remaining j b)) = 0).
    { induction remaining as [| k IH]; intros j b Hb; cbn [year_loop]; [done |].
      specialize (Hstep j b Hb).
      destruct (year_body j b) as [b' | b']; [by apply IH | done]. }
    specialize (Hloop MAX_YEARS 0%nat a0 H0). unfold calculateN.
    by destruct (year_loop MAX_YEARS 0 a0).
Qed.

Lemma reserve_stays_empty_witness :
  cashReserve_ (calculateN ConstantNoGrowthModel) = 0.
Proof.
  destruct (reserve_stays_empty ConstantNoGrowthModel 0 ConstantNoGrowthModel)
    as (_ & _ & _ & H).
  - reflexivity.
  - apply reaches_first.
  - exact H.
Defined.

(** ** [calculateN]: retirement *)

Lemma no_income_retire i a :
  no_income a \/ Z.of_nat i = yearsTillRetirement_ a -> no_income (retire i a).
Proof.
  unfold retire. intros [H | H].
  - by destruct (_ =? _).
  - by rewrite (proj2 (Z.eqb_eq _ _) H).
Qed.

Lemma no_income_cashPolicy i a : no_income a -> no_income (cashPolicy i a).
Proof.
  intros H. unfold cashPolicy.
  destruct (_ && _ && _); [done |].
  destruct (_ && _ && _); [| done].
  unfold addCashReserve. by destruct (_ >? _).
Qed.

Lemma no_income_shortfall i net total a a' :
  shortfall i net total a = Some a' -> no_income a -> no_income a'.
Proof.
  unfold shortfall. intros Hs H.
  destruct (net >? total); [destruct (net <? _) |]; by simplify_eq.
Qed.

Lemma no_income_distribute i pct a :
  no_income a -> no_income (distribute i pct a).
Proof.
  unfold distribute. generalize (seq 0 MAX_ACCOUNTS). intros l. revert a.
  induction l as [| c l IH]; intros a H; cbn [fold_left]; [done |].
  apply IH. unfold distribute_account. by destruct (_ <? _)%nat.
Qed.

Lemma no_income_after_check i net total x a :
  yearsTillRetirement_ a <= Z.of_nat i ->
  no_income a -> no_income (after_check i net total x a).
Proof.
  intros Hy H. unfold after_check.
  set (d := distribute i (distribution_percentage net total) a).
  assert (Hd : no_income d) by (by apply no_income_distribute).
  assert (Hyd : yearsTillRetirement_ d = yearsTillRetirement_ a).
  { by pose proof (same_inputs_distribute i (distribution_percentage net total) a)
      as (_&_&_&_&_&?&_). }
  clearbody d. unfold contribute. rewrite Hyd.
  rewrite (proj2 (Z.ltb_ge _ _) Hy). cbn [andb].
  unfold inflate_reserve, inflate_expense.
  destruct (_ <? _)%nat; by destruct (_ >? _).
Qed.

Lemma no_income_year_body i a a' :
  yearsTillRetirement_ a <= Z.of_nat i ->
  no_income a \/ Z.of_nat i = yearsTillRetirement_ a ->
  no_income (before_check i a) /\
  (year_body i a = Continue a' -> no_income a').
Proof.
  intros Hy H.
  assert (H1 : no_income (before_check i a))
    by (by apply no_income_cashPolicy, no_income_retire).
  split; [exact H1 |]. unfold year_body.
  destruct (shortfall _ _ _ _) as [a2 |] eqn:Hs; [| discriminate].
  intros [= <-].
  assert (H2 : no_income a2) by (by eapply no_income_shortfall).
  apply no_income_after_check; [| done].
  pose proof (same_inputs_before_check i a) as (_&_&_&_&_&Hy1&_).
  pose proof (same_inputs_shortfall _ _ _ _ _ Hs) as (_&_&_&_&_&Hy2&_).
  lia.
Qed.

Lemma reaches_yearsTillRetirement a0 i a :
  reaches a0 i a -> yearsTillRetirement_ a = yearsTillRetirement_ a0.
Proof.
  induction 1 as [| j b b' _ IH _ Hb]; [done |].
  pose proof (same_inputs_year_body j b) as H. rewrite Hb in H.
  destruct H as (_&_&_&_&_&H&_). congruence.
Qed.

(** X5.  Retirement is final.  When the year of retirement is not
    negative, in every year the loop reaches from the year of retirement
    on, the shortfall check sees no income and no contributions, and in
    every later year they are zero from the start of the body. *)
Theorem income_stops_at_retirement (a0 : Asset) (i : nat) (a : Asset) :
  reaches a0 i a ->
  0 <= yearsTillRetirement_ a0 <= Z.of_nat i ->
  no_income (before_check i a) /\
  (yearsTillRetirement_ a0 < Z.of_nat i -> no_income a).
Proof.
  intros Hr. induction Hr as [| j b b' Hr IH Hj Hb]; intros Hy.
  - split; [| lia].
    apply (no_income_year_body 0 a0 a0); [lia |]. right. lia.
  - pose proof (reaches_yearsTillRetirement _ _ _ Hr) as Hyb.
    pose proof (reaches_yearsTillRetirement _ _ _
                  (reaches_next _ _ _ _ Hr Hj Hb)) as Hyb'.
    destruct (decide (yearsTillRetirement_ a0 = Z.of_nat (S j))) as [He | Hne].
    + split; [| lia].
      apply (no_income_year_body (S j) b' b'); [lia |]. right. congruence.
    + assert (Hb' : no_income b').
      { destruct (no_income_year_body j b b') as [_ H]; [lia | | by apply H].
        destruct (decide (yearsTillRetirement_ a0 = Z.of_nat j)) as [He | Hne'];
          [right; congruence |].
        left. apply IH; lia. }
      split; [| done].
      apply (no_income_year_body (S j) b' b'); [lia | by left].
Qed.

Lemma income_stops_at_retirement_witness :
  no_income (before_check 1 (match year_body 0 MaxLongevityNoGrowthModel with
                             | Continue x | Break x => x
                             end)).
Proof.
  destruct (income_stops_at_retirement MaxLongevityNoGrowthModel 1
              (match year_body 0 MaxLongevityNoGrowthModel with
               | Continue x | Break x => x
               end)) as [H _].
  - apply (reaches_next _ 0 MaxLongevityNoGrowthModel).
    + apply reaches_first.
    + unfold MAX_YEARS. lia.
    + vm_compute. reflexivity.
  - vm_compute. split; discriminate.
  - exact H.
Defined.

(** ** [calculateN]: the withdrawals of a year *)

Lemma distribution_after_loop i x d :
  distribution_ (inflate_reserve i (inflate_expense i (contribute i x d)))
    = distribution_ d.
Proof.
  unfold inflate_reserve, inflate_expense, contribute.
  destruct (_ && _); destruct (_ <? _)%nat; by destruct (_ >? _).
Qed.

Lemma shortfall_cells i net total a a' :
  shortfall i net total a = Some a' ->
  value_ a' = value_ a /\ availability_ a' = availability_ a.
Proof.
  unfold shortfall. intros Hs.
  destruct (net >? total); [destruct (net <? _) |]; by simplify_eq.
Qed.

(** X6.  In a year whose body runs to its end, an account that is not
    available withdraws nothing, and an available account withdraws its
    value times the distribution percentage, the single-precision product
    truncated to a [long int]. *)
Theorem distribution_rule (i : nat) (a a' : Asset) (c : nat) :
  dims_ok a ->
  (c < MAX_ACCOUNTS)%nat ->
  (i < MAX_YEARS)%nat ->
  year_body i a = Continue a' ->
  let a1 := before_check i a in
  distribution_at a' c i =
    if availability_at a c i
    then to_long
           (fmul (of_Z (value_at a1 c i))
              (distribution_percentage (net_expense i a1)
                 (distributable_total i a1)))
    else 0.
Proof.
  intros Hd Hc Hi Hbody a1. unfold year_body in Hbody. fold a1 in Hbody.
  destruct (shortfall _ _ _ a1) as [a2 |] eqn:Hs; [| discriminate].
  injection Hbody as <-.
  assert (Hd2 : dims_ok a2).
  { eapply dims_ok_shortfall; [exact Hs |]. by apply dims_ok_before_check. }
  destruct (shortfall_cells _ _ _ _ _ Hs) as [Hv Ha].
  pose proof (same_inputs_before_check i a) as (_&Ha1&_). fold a1 in Ha1.
  unfold after_check, distribution_at. rewrite distribution_after_loop.
  destruct (distribute_spec i
              (distribution_percentage (net_expense i a1)
                 (distributable_total i a1)) a2 c Hd2 Hc Hi) as (H&_).
  unfold distribution_at in H. rewrite H.
  unfold availability_at, value_at. by rewrite Ha, Ha1, Hv.
Qed.

Lemma distribution_rule_witness :
  distribution_at
    (match year_body 0 ConstantNoGrowthModel with
     | Continue x | Break x => x
     end) ROTH_INDEX 0 = 250.
Proof.
  rewrite (distribution_rule 0 ConstantNoGrowthModel _ ROTH_INDEX).
  - vm_compute. reflexivity.
  - dims_tac.
  - unfold MAX_ACCOUNTS, ROTH_INDEX. lia.
  - unfold MAX_YEARS. lia.
  - vm_compute. reflexivity.
Defined.

(** ** [calculateN]: the array sizes *)

Lemma dims_ok_distribute i pct a : dims_ok a -> dims_ok (distribute i pct a).
Proof.
  unfold distribute. generalize (seq 0 MAX_ACCOUNTS). intros l. revert a.
  induction l as [| c l IH]; intros a H; cbn [fold_left]; [done |].
  by apply IH, dims_ok_distribute_account.
Qed.

Lemma dims_ok_add_value c i x a : dims_ok a -> dims_ok (add_value c i x a).
Proof. apply dims_ok_set_value. Qed.

Lemma dims_ok_set_takehomeIncome x a :
  dims_ok a -> dims_ok (set_takehomeIncome_ x a).
Proof. done. Qed.

Lemma dims_ok_set_contributionRoth x a :
  dims_ok a -> dims_ok (set_contributionRoth_ x a).
Proof. done. Qed.

Lemma dims_ok_set_contributionIra x a :
  dims_ok a -> dims_ok (set_contributionIra_ x a).
Proof. done. Qed.

Lemma dims_ok_set_contributionR401k x a :
  dims_ok a -> dims_ok (set_contributionR401k_ x a).
Proof. done. Qed.

Lemma dims_ok_contribute i x a : dims_ok a -> dims_ok (contribute i x a).
Proof.
  intros H. unfold contribute. destruct (_ && _); [| done]. cbv zeta.
  apply dims_ok_set_takehomeIncome, dims_ok_set_contributionR401k,
    dims_ok_set_contributionIra, dims_ok_set_contributionRoth.
  by repeat apply dims_ok_add_value.
Qed.

Lemma dims_ok_inflate_expense i a : dims_ok a -> dims_ok (inflate_expense i a).
Proof.
  intros H. unfold inflate_expense. destruct (_ <? _)%nat; [| done].
  by apply dims_ok_set_expense.
Qed.

Lemma dims_ok_inflate_reserve i a : dims_ok a -> dims_ok (inflate_reserve i a).
Proof. intros H. unfold inflate_reserve. by destruct (_ >? _). Qed.

Lemma dims_ok_year_body i a :
  dims_ok a ->
  match year_body i a with Continue a' | Break a' => dims_ok a' end.
Proof.
  intros H. unfold year_body.
  pose proof (dims_ok_before_check i a H) as H1.
  destruct (shortfall _ _ _ _) as [a2 |] eqn:Hs; [| done].
  unfold after_check.
  by apply dims_ok_inflate_reserve, dims_ok_inflate_expense,
    dims_ok_contribute, dims_ok_distribute, (dims_ok_shortfall _ _ _ _ _ Hs).
Qed.

Lemma dims_ok_year_loop (remaining : nat) :
  forall i a, dims_ok a -> dims_ok (snd (year_loop remaining i a)).
Proof.
  induction remaining as [| k IH]; intros i a Ha; cbn [year_loop]; [done |].
  pose proof (dims_ok_year_body i a Ha) as H.
  destruct (year_body i a) as [a' | a']; [by apply IH | done].
Qed.

Lemma dims_ok_calculateN a : dims_ok a -> dims_ok (calculateN a).
Proof.
  intros Ha. pose proof (dims_ok_year_loop MAX_YEARS 0 a Ha) as H.
  unfold calculateN. by destruct (year_loop MAX_YEARS 0 a).
Qed.

(** ** The growth curves *)

(** A loop that writes [f n] to the entries [n] of [l]. *)
Lemma fold_inserts_spec {A : Type} (f : nat -> A) (l : list nat) :
  forall g : list A,
    let g' := fold_left (fun g n => <[n := f n]> g) l g in
    length g' = length g /\
    forall k, g' !! k = if decide (k ∈ l /\ (k < length g)%nat)
                        then Some (f k) else g !! k.
Proof.
  induction l as [| n l IH]; intros g; cbn [fold_left].
  - split; [done |]. intros k. case_decide as H; [| done].
    destruct H as [H _]. by apply elem_of_nil in H.
  - destruct (IH (<[n := f n]> g)) as [Hlen Hk]. cbv zeta.
    rewrite length_insert in Hlen, Hk. split; [done |]. intros k.
    rewrite Hk. destruct (decide (k ∈ l /\ (k < length g)%nat)) as [[H1 H2] | H].
    + rewrite decide_True; [done |]. split; [by right | done].
    + destruct (decide (k = n /\ (k < length g)%nat)) as [[-> H2] | H'].
      * rewrite list_lookup_insert_eq by done.
        rewrite decide_True; [done |]. split; [by left | done].
      * destruct (decide (k = n)) as [-> | Hne].
        -- assert (Hge : (length g <= n)%nat) by (apply Nat.nlt_ge; tauto).
           rewrite list_insert_ge by done.
           rewrite decide_False; [done |]. lia.
        -- rewrite list_lookup_insert_ne by done.
           rewrite decide_False; [done |]. intros [Hin Hlt].
           apply elem_of_cons in Hin as [-> | Hin]; tauto.
Qed.

Lemma scenarioPredefinedYear0Loss_eq (growth_common : list float32) :
  length growth_common = MAX_YEARS ->
  scenarioPredefinedYear0Loss growth_common = RECESSION_YEAR0_LOSS.
Proof.
  intros Hlen. unfold scenarioPredefinedYear0Loss.
  destruct (fold_inserts_spec (fun n => get1 (of_Z 0) RECESSION_YEAR0_LOSS n)
              (seq 0 (length growth_common)) growth_common) as [Hl Hk].
  cbv zeta in Hl, Hk. apply list_eq. intros k. rewrite Hk.
  destruct (decide (k < MAX_YEARS)%nat) as [Hlt | Hge].
  - rewrite decide_True by (rewrite elem_of_seq; lia).
    unfold get1.
    destruct (lookup_lt_is_Some_2 RECESSION_YEAR0_LOSS k Hlt) as [x ->]. done.
  - rewrite decide_False by lia.
    rewrite !(proj2 (lookup_ge_None _ _)); [done | | lia].
    change (length RECESSION_YEAR0_LOSS) with MAX_YEARS. lia.
Qed.

(** X8.  [scenarioPredefinedYear0Loss] turns every curve of [MAX_YEARS]
    entries into the table [RECESSION_YEAR0_LOSS]: the curve has a loss
    in year 0, and what it held before has no effect. *)
Theorem scenarioPredefinedYear0Loss_copies (growth_common : list float32) :
  length growth_common = MAX_YEARS ->
  scenarioPredefinedYear0Loss growth_common = RECESSION_YEAR0_LOSS /\
  flt (get1 (of_Z 0) (scenarioPredefinedYear0Loss growth_common) 0) (of_Z 0)
    = true.
Proof.
  intros Hlen. rewrite scenarioPredefinedYear0Loss_eq by done.
  split; [done | by vm_compute].
Qed.

Lemma scenarioPredefinedYear0Loss_copies_witness :
  scenarioPredefinedYear0Loss (replicate MAX_YEARS (of_Z 0))
    = RECESSION_YEAR0_LOSS.
Proof. apply scenarioPredefinedYear0Loss_copies. reflexivity. Defined.

(** The stock ratio is at most 1.0 (line 175). *)
Lemma guessed_stock_ratio_le_one a c :
  fle (guessed_stock_ratio a c) (lit 1.0) = true.
Proof.
  unfold guessed_stock_ratio.
  destruct (fle (fdiv (growthRateAvg_at a c) STOCK_GROWTH_AVG) (lit 1.0)) eqn:H;
    [exact H | by vm_compute].
Qed.

Lemma write_row_running (c : nat) (l : list nat) :
  forall a,
    fold_left (fun a n => set_growthRate_at c n (growthRateAvg_at a c) a) l a
    = fold_left
        (fun a' n => set_growthRate_at c n (growthRateAvg_at a c) a') l a.
Proof.
  induction l as [| n l IH]; intros a; cbn [fold_left]; [done |].
  rewrite IH. done.
Qed.

(** The loop of lines 147-151 over the accounts of [lc] and the years
    of [ly]. *)
Lemma constant_rows_spec (ly lc : list nat) :
  NoDup lc ->
  forall a,
    let a' :=
      fold_left
        (fun a c =>
           fold_left
             (fun a n => set_growthRate_at c n (growthRateAvg_at a c) a) ly a)
        lc a in
    set_growthRate_ (growthRate_ a) a' = a /\
    (dims2 (growthRate_ a) MAX_ACCOUNTS MAX_YEARS ->
     dims2 (growthRate_ a') MAX_ACCOUNTS MAX_YEARS) /\
    (forall c n, c ∉ lc -> growthRate_at a' c n = growthRate_at a c n) /\
    (dims2 (growthRate_ a) MAX_ACCOUNTS MAX_YEARS ->
     forall c n, c ∈ lc -> (c < MAX_ACCOUNTS)%nat -> n ∈ ly ->
       (n < MAX_YEARS)%nat -> growthRate_at a' c n = growthRateAvg_at a c).
Proof.
  induction lc as [| c0 lc IH]; intros Hnd a; cbn [fold_left].
  - split; [apply set_growthRate_same |]. split; [done |]. split; [done |].
    intros _ c n Hc. by apply elem_of_nil in Hc.
  - apply NoDup_cons in Hnd as [Hc0 Hnd].
    rewrite write_row_running.
    set (g := fun _ : nat => growthRateAvg_at a c0).
    destruct (write_row_spec g c0 ly a) as (Hs1 & Hd1 & Hf1 & He1).
    cbv zeta in Hs1, Hd1, Hf1, He1. cbv zeta.
    change (fold_left
              (fun a' n => set_growthRate_at c0 n (growthRateAvg_at a c0) a')
              ly a)
      with (fold_left (fun a1 n => set_growthRate_at c0 n (g n) a1) ly a).
    set (a1 := fold_left (fun a1 n => set_growthRate_at c0 n (g n) a1) ly a)
      in *.
    clearbody a1.
    destruct (IH Hnd a1) as (Hs & Hd & Hf & He). cbv zeta in Hs, Hd, Hf, He.
    set (a' := fold_left _ lc a1) in *. clearbody a'.
    pose proof (growthRateAvg_kept _ _ Hs1) as Havg.
    split; [| split; [| split]].
    + rewrite <- (set_growthRate_set _ (growthRate_ a1)). by rewrite Hs.
    + auto.
    + intros c n Hc. apply not_elem_of_cons in Hc as [Hne Hc].
      rewrite Hf by done. apply Hf1. by left.
    + intros Hdims c n Hc Hlt Hn Hn'. destruct (decide (c ∈ lc)) as [Hin | Hnot].
      * rewrite He by auto. unfold growthRateAvg_at. by rewrite Havg.
      * apply elem_of_cons in Hc as [-> | Hc]; [| done].
        rewrite Hf by done. by rewrite He1.
Qed.

Lemma populate_constant_spec (a : Asset) :
  dims2 (growthRate_ a) MAX_ACCOUNTS MAX_YEARS ->
  set_growthRate_ (growthRate_ a) (populate_constant a) = a /\
  dims2 (growthRate_ (populate_constant a)) MAX_ACCOUNTS MAX_YEARS /\
  forall c n, (c < MAX_ACCOUNTS)%nat -> (n < MAX_YEARS)%nat ->
    growthRate_at (populate_constant a) c n = growthRateAvg_at a c.
Proof.
  intros Hd.
  destruct (constant_rows_spec (seq 0 MAX_YEARS) (seq 0 MAX_ACCOUNTS)
              NoDup_accounts a) as (Hs & Hd' & _ & He).
  split; [exact Hs |]. split; [by apply Hd' |]. intros c n Hc Hn.
  apply He; auto using elem_of_accounts.
  apply elem_of_seq. lia.
Qed.

(** X9.  With the option [CONSTANT], [populateGrowthCurves] gives every
    account in every year that account's average growth rate, writes
    nothing to [std::cerr] and changes no other data member. *)
Theorem populate_constant_curves (rnd : nat -> Z) (a : Asset) :
  dims_ok a ->
  exists a' : Asset,
    populateGrowthCurves rnd CONSTANT a = Some (a', []) /\
    set_growthRate_ (growthRate_ a) a' = a /\
    forall c n, (c < MAX_ACCOUNTS)%nat -> (n < MAX_YEARS)%nat ->
      growthRate_at a' c n = growthRateAvg_at a c.
Proof.
  intros Hd. destruct (populate_constant_spec a) as (Hs & _ & He);
    [by destruct Hd as (Hd&_) |].
  exists (populate_constant a). done.
Qed.

Lemma populate_constant_curves_witness :
  exists a' : Asset,
    populateGrowthCurves rnd_const CONSTANT Asset_ctor = Some (a', []).
Proof.
  destruct (populate_constant_curves rnd_const Asset_ctor) as (a' & H & _).
  - dims_tac.
  - exists a'. exact H.
Defined.

(** X10.  With the option [PREDEFINED_YEAR0_LOSS], the growth rate of
    an account in a year is that year's entry of the table
    [RECESSION_YEAR0_LOSS] times the account's stock ratio; the ratio is
    the account's average growth rate over [STOCK_GROWTH_AVG] when that
    is at most 1.0, and 1.0 otherwise.  Nothing is written to
    [std::cerr] and no other data member changes. *)
Theorem populate_predefined_curves (rnd : nat -> Z) (a : Asset) :
  dims_ok a ->
  exists a' : Asset,
    populateGrowthCurves rnd PREDEFINED_YEAR0_LOSS a = Some (a', []) /\
    set_growthRate_ (growthRate_ a) a' = a /\
    forall c n, (c < MAX_ACCOUNTS)%nat -> (n < MAX_YEARS)%nat ->
      growthRate_at a' c n
        = fmul (get1 (of_Z 0) RECESSION_YEAR0_LOSS n) (guessed_stock_ratio a c)
      /\ fle (guessed_stock_ratio a c) (lit 1.0) = true.
Proof.
  intros Hd. unfold populateGrowthCurves.
  change (PREDEFINED_YEAR0_LOSS =? CONSTANT) with false.
  change (PREDEFINED_YEAR0_LOSS =? PREDEFINED_YEAR0_LOSS) with true.
  cbn [negb]. cbv iota.
  rewrite scenarioPredefinedYear0Loss_eq by apply length_replicate.
  destruct (scale_growth_spec RECESSION_YEAR0_LOSS a) as (Hs & _ & He);
    [by destruct Hd as (Hd&_) | reflexivity |].
  eexists. split; [reflexivity |]. split; [exact Hs |].
  intros c n Hc Hn. split; [by apply He | apply guessed_stock_ratio_le_one].
Qed.

Lemma populate_predefined_curves_witness :
  exists a' : Asset,
    populateGrowthCurves rnd_const PREDEFINED_YEAR0_LOSS Asset_ctor
      = Some (a', []).
Proof.
  destruct (populate_predefined_curves rnd_const Asset_ctor) as (a' & H & _).
  - dims_tac.
  - exists a'. exact H.
Defined.


(** ** The passes of the randomized scenario *)

Lemma range_cases (P : Z -> bool) (lo : Z) (n : nat) :
  forallb P (map (fun i => lo + Z.of_nat i) (seq 0 n)) = true ->
  forall x, lo <= x < lo + Z.of_nat n -> P x = true.
Proof.
  intros Hall x Hx. rewrite forallb_forall in Hall. apply Hall.
  apply in_map_iff. exists (Z.to_nat (x - lo)). split; [lia |].
  apply in_seq. lia.
Qed.

Lemma recession_rate_ok d :
  RANDOM_NUM_MIN <= d <= RANDOM_NUM_MAX -> rate_ok (recession_rate d) = true.
Proof. apply (draw_cases (fun d => rate_ok (recession_rate d))). by vm_compute. Qed.

Lemma half_rebound_ok d :
  RANDOM_NUM_MIN <= d <= RANDOM_NUM_MAX -> rate_ok (half_rebound d) = true.
Proof. apply (draw_cases (fun d => rate_ok (half_rebound d))). by vm_compute. Qed.

(** An ordinary year gets a positive rate when between 1 and 15 years
    went to recessions and rebounds. *)
Lemma ordinary_rate_ok rr d :
  1 <= rr <= 15 ->
  RANDOM_NUM_MIN <= d <= RANDOM_NUM_MAX ->
  rate_ok (ordinary_rate rr d) = true /\
  flt (of_Z 0) (ordinary_rate rr d) = true /\
  feq (ordinary_rate rr d) (of_Z 0) = false.
Proof.
  intros Hrr Hd.
  pose proof (range_cases
    (fun rr => forallb
       (fun d => rate_ok (ordinary_rate rr d)
                 && flt (of_Z 0) (ordinary_rate rr d)
                 && negb (feq (ordinary_rate rr d) (of_Z 0)))
       (map Z.of_nat (seq 1 100))) 1 15 ltac:(by vm_compute) rr ltac:(lia)) as H.
  cbv beta in H.
  pose proof (draw_cases _ H d Hd) as H'. cbv beta in H'.
  apply andb_true_iff in H' as [H' H3]. apply andb_true_iff in H' as [H1 H2].
  apply negb_true_iff in H3. done.
Qed.

(** One pass of the [while] loop, with the wrap-around of the [int]
    arithmetic resolved. *)
Lemma recession_pass_shape rnd st :
  draws_ok rnd ->
  0 <= rr_n st < Z.of_nat MAX_YEARS ->
  0 <= rr_years_sum st < 2 ^ 31 - 3 ->
  let n := rr_n st in
  let k := rr_drawn st in
  let r := 1 + Z.rem (rnd (k + 1)%nat) 3 in
  let q := 8 + Z.rem (rnd (k + 2)%nat) 3 in
  let g1 := <[Z.to_nat n := recession_rate (rnd k)]> (rr_growth st) in
  let g2 := <[Z.to_nat (n + r) := half_rebound (rnd k)]> g1 in
  let g3 := <[Z.to_nat (n + r + 1) := half_rebound (rnd k)]> g2 in
  1 <= r <= 3 /\ 8 <= q <= 10 /\
  recession_pass rnd st =
    if n + r >=? Z.of_nat MAX_YEARS then
      (mk_rr g1 n (rr_years_sum st + 1) (k + 2), true)
    else if n + r + 1 >=? Z.of_nat MAX_YEARS then
      (mk_rr g2 (n + r) (rr_years_sum st + 2) (k + 2), true)
    else
      (mk_rr g3 (n + r + 1 + q) (rr_years_sum st + 3) (k + 3), false).
Proof.
  intros Hrnd Hn Hs. unfold recession_pass. unfold MAX_YEARS in *.
  cbv zeta. destruct st as [g n s k].
  cbn [rr_growth rr_n rr_years_sum rr_drawn] in *.
  pose proof (Hrnd (k + 1)%nat) as Hd1. pose proof (Hrnd (k + 2)%nat) as Hd2.
  unfold RANDOM_NUM_MIN, RANDOM_NUM_MAX in Hd1, Hd2.
  change (wrap32 (RECOVERY_INT_MAX - RECOVERY_INT_MIN)) with 3.
  change (wrap32 (RECESSION_INT_MAX - RECESSION_INT_MIN)) with 3.
  unfold RECOVERY_INT_MIN, RECESSION_INT_MIN.
  pose proof (rem3_range (rnd (k + 1)%nat) ltac:(lia)) as Hr1.
  pose proof (rem3_range (rnd (k + 2)%nat) ltac:(lia)) as Hr2.
  set (r1 := Z.rem (rnd (k + 1)%nat) 3) in *.
  set (r2 := Z.rem (rnd (k + 2)%nat) 3) in *.
  split; [lia |]. split; [lia |].
  rewrite (wrap32_small (1 + r1)) by lia.
  rewrite (wrap32_small (n + (1 + r1))) by lia.
  rewrite (to_unsigned_small (n + (1 + r1))) by lia.
  rewrite (wrap32_small (s + 1)) by lia.
  change (Z.of_nat 50) with 50.
  destruct (n + (1 + r1) >=? 50) eqn:Hb1; [done |].
  rewrite Z.geb_leb, Z.leb_gt in Hb1.
  rewrite (wrap32_small (n + (1 + r1) + 1)) by lia.
  rewrite (to_unsigned_small (n + (1 + r1) + 1)) by lia.
  rewrite (wrap32_small (s + 1 + 1)) by lia.
  replace (s + 1 + 1) with (s + 2) by lia.
  destruct (n + (1 + r1) + 1 >=? 50) eqn:Hb2; [done |].
  rewrite Z.geb_leb, Z.leb_gt in Hb2.
  rewrite (wrap32_small (8 + r2)) by lia.
  rewrite (wrap32_small (n + (1 + r1) + 1 + (8 + r2))) by lia.
  rewrite (wrap32_small (s + 2 + 1)) by lia.
  replace (s + 2 + 1) with (s + 3) by lia. done.
Qed.

(** X11.  A pass of the [while] loop of [scenarioRecessionRandomized]
    that does not end in a [break]: the recession year [n] gets the
    recession rate of the pass, the years [n + r] and [n + r + 1] with
    [r] one of 1, 2, 3 get half the rebound, the next recession year is
    [q] years after the second rebound year with [q] one of 8, 9, 10
    (so 10 to 14 years after [n]), and three years are added to
    [rr_years_sum]. *)
Theorem recession_pass_continues (rnd : nat -> Z) (st st' : rr_state) :
  draws_ok rnd ->
  0 <= rr_n st < Z.of_nat MAX_YEARS ->
  0 <= rr_years_sum st < 2 ^ 31 - 3 ->
  recession_pass rnd st = (st', false) ->
  exists r q : Z,
    1 <= r <= 3 /\ 8 <= q <= 10 /\
    rr_growth st'
      = <[Z.to_nat (rr_n st + r + 1) := half_rebound (rnd (rr_drawn st))]>
          (<[Z.to_nat (rr_n st + r) := half_rebound (rnd (rr_drawn st))]>
             (<[Z.to_nat (rr_n st) := recession_rate (rnd (rr_drawn st))]>
                (rr_growth st))) /\
    rr_n st' = rr_n st + r + 1 + q /\
    rr_n st' < Z.of_nat MAX_YEARS + 10 /\
    rr_years_sum st' = rr_years_sum st + 3 /\
    rr_drawn st' = (rr_drawn st + 3)%nat.
Proof.
  intros Hrnd Hn Hs Hpass.
  destruct (recession_pass_shape rnd st Hrnd Hn Hs) as (Hr & Hq & Heq).
  cbv zeta in Hr, Hq, Heq. rewrite Heq in Hpass. clear Heq.
  set (r := 1 + Z.rem (rnd (rr_drawn st + 1)%nat) 3) in *.
  set (q := 8 + Z.rem (rnd (rr_drawn st + 2)%nat) 3) in *.
  destruct (rr_n st + r >=? Z.of_nat MAX_YEARS) eqn:Hb1; [discriminate |].
  destruct (rr_n st + r + 1 >=? Z.of_nat MAX_YEARS) eqn:Hb2; [discriminate |].
  rewrite Z.geb_leb, Z.leb_gt in Hb2.
  injection Hpass as <-. exists r, q. cbn [rr_growth rr_n rr_years_sum rr_drawn].
  split; [done |]. split; [done |]. split; [done |]. split; [done |].
  split; [lia |]. done.
Qed.

Lemma recession_pass_continues_witness :
  exists r q : Z,
    1 <= r <= 3 /\ 8 <= q <= 10 /\
    rr_n (fst (recession_pass rnd_const
                 (mk_rr (replicate MAX_YEARS (of_Z 0)) 0 0 1)))
      = r + 1 + q.
Proof.
  destruct (recession_pass_continues rnd_const
              (mk_rr (replicate MAX_YEARS (of_Z 0)) 0 0 1)
              (fst (recession_pass rnd_const
                      (mk_rr (replicate MAX_YEARS (of_Z 0)) 0 0 1))))
    as (r & q & Hr & Hq & _ & Hn & _).
  - intros k. unfold rnd_const, RANDOM_NUM_MIN, RANDOM_NUM_MAX. lia.
  - vm_compute. split; [discriminate | reflexivity].
  - vm_compute. split; [discriminate | reflexivity].
  - vm_compute. reflexivity.
  - exists r, q. split; [exact Hr |]. split; [exact Hq | exact Hn].
Defined.

(** ** The years of the randomized curve *)

(** The [while] loop from a state in which [p] passes went through
    without a [break]: each of them added three years to [rr_years_sum]
    and moved [n] forward by at least ten. *)
Lemma recession_loop_years rnd :
  draws_ok rnd ->
  forall fuel st p,
    0 <= p <= 5 ->
    rr_years_sum st = 3 * p ->
    10 * p <= rr_n st < 2 ^ 31 ->
    length (rr_growth st) = MAX_YEARS ->
    Forall (fun x => rate_ok x = true) (rr_growth st) ->
    Z.of_nat MAX_YEARS <= rr_n st + Z.of_nat fuel ->
    exists st',
      recession_loop fuel rnd st = Some st' /\
      length (rr_growth st') = MAX_YEARS /\
      Forall (fun x => rate_ok x = true) (rr_growth st') /\
      rr_years_sum st <= rr_years_sum st' <= 15 /\
      (rr_n st < Z.of_nat MAX_YEARS -> rr_years_sum st < rr_years_sum st').
Proof.
  intros Hrnd. induction fuel as [| fuel IH]; intros st p Hp Hs Hn Hlen Hok Hfuel.
  - exists st. cbn [recession_loop].
    rewrite to_size_t_small, Hlen by lia.
    rewrite (proj2 (Z.ltb_ge _ _)) by lia.
    split; [done |]. split; [done |]. split; [done |]. lia.
  - cbn [recession_loop]. rewrite to_size_t_small, Hlen by lia.
    destruct (rr_n st <? Z.of_nat MAX_YEARS) eqn:Hlt.
    + apply Z.ltb_lt in Hlt.
      destruct (recession_pass_shape rnd st Hrnd ltac:(lia) ltac:(lia))
        as (Hr & Hq & Heq).
      cbv zeta in Hr, Hq, Heq. rewrite Heq. clear Heq.
      pose proof (recession_rate_ok _ (Hrnd (rr_drawn st))) as Hrate.
      pose proof (half_rebound_ok _ (Hrnd (rr_drawn st))) as Hhalf.
      set (r := 1 + Z.rem (rnd (rr_drawn st + 1)%nat) 3) in *.
      set (q := 8 + Z.rem (rnd (rr_drawn st + 2)%nat) 3) in *.
      unfold MAX_YEARS in *. change (Z.of_nat 50) with 50 in *.
      destruct (rr_n st + r >=? 50) eqn:Hb1.
      { eexists. split; [reflexivity |]. cbn [rr_growth rr_years_sum].
        rewrite length_insert. split; [done |].
        split; [by apply Forall_insert | lia]. }
      destruct (rr_n st + r + 1 >=? 50) eqn:Hb2.
      { eexists. split; [reflexivity |]. cbn [rr_growth rr_years_sum].
        rewrite !length_insert. split; [done |].
        split; [by repeat apply Forall_insert | lia]. }
      rewrite Z.geb_leb, Z.leb_gt in Hb1, Hb2.
      match goal with
      | |- context [recession_loop fuel rnd ?s] =>
          destruct (IH s (p + 1)) as (st' & Hloop & Hlen' & Hok' & Hs' & _)
      end.
      { lia. }
      { cbn [rr_years_sum]. lia. }
      { cbn [rr_n]. lia. }
      { cbn [rr_growth]. rewrite !length_insert. exact Hlen. }
      { cbn [rr_growth]. repeat apply Forall_insert; [exact Hok | done ..]. }
      { cbn [rr_n]. lia. }
      exists st'. cbn [rr_years_sum] in Hs'.
      split; [exact Hloop |]. split; [done |]. split; [done |]. lia.
    + apply Z.ltb_ge in Hlt. exists st.
      split; [done |]. split; [done |]. split; [done |]. lia.
Qed.

Lemma clear_curve_ok (growth_common : list float32) :
  Forall (fun x => rate_ok x = true)
    (fold_left (fun g n => <[n := of_Z 0]> g)
       (seq 0 (length growth_common)) growth_common).
Proof.
  destruct (fold_inserts_spec (fun _ : nat => of_Z 0)
              (seq 0 (length growth_common)) growth_common) as [Hl Hk].
  cbv zeta in Hl, Hk. apply Forall_lookup. intros k x Hx.
  rewrite Hk in Hx.
  destruct (decide (k < length growth_common)%nat) as [Hk' | Hk'].
  - rewrite decide_True in Hx by (rewrite elem_of_seq; lia).
    by injection Hx as <-.
  - rewrite decide_False in Hx by lia.
    apply lookup_lt_Some in Hx. lia.
Qed.

(** X12.  With draws in range the [while] loop of
    [scenarioRecessionRandomized] ends, and it ends with between 1 and
    15 years counted in [rr_years_sum]: the divisor
    [MAX_YEARS - rr_years_sum] of the average of the remaining years
    lies between 35 and 49, and that average is a positive finite
    number. *)
Theorem recession_years_bound (rnd : nat -> Z) (growth_common : list float32) :
  draws_ok rnd ->
  length growth_common = MAX_YEARS ->
  exists st : rr_state,
    recession_loop recession_fuel rnd
      (mk_rr
         (fold_left (fun g n => <[n := of_Z 0]> g)
            (seq 0 (length growth_common)) growth_common)
         (wrap32 (to_unsigned (rnd 0%nat) mod RECESSION_START_MOD)) 0 1)
      = Some st /\
    1 <= rr_years_sum st <= 15 /\
    35 <= to_unsigned (Z.of_nat MAX_YEARS - rr_years_sum st) <= 49 /\
    is_finite (remaining_growth_avg (rr_years_sum st)) = true /\
    flt (of_Z 0) (remaining_growth_avg (rr_years_sum st)) = true.
Proof.
  intros Hrnd Hlen.
  assert (H0 : wrap32 (to_unsigned (rnd 0%nat) mod RECESSION_START_MOD) = 0)
    by (unfold RECESSION_START_MOD; by rewrite Z.mod_1_r).
  rewrite H0.
  pose proof (clear_curve_ok growth_common) as Hok.
  pose proof (clear_curve_length (seq 0 (length growth_common)) growth_common)
    as Hlen0.
  rewrite Hlen in Hlen0 at 2.
  set (g0 := fold_left _ _ growth_common) in *. clearbody g0.
  destruct (recession_loop_years rnd Hrnd recession_fuel (mk_rr g0 0 0 1) 0)
    as (st & Hloop & _ & _ & Hs & Hpos);
    [lia | reflexivity | cbn; lia | exact Hlen0 | exact Hok
    | cbn; unfold recession_fuel; lia |].
  cbn [rr_n rr_years_sum] in Hs, Hpos.
  specialize (Hpos ltac:(unfold MAX_YEARS; lia)).
  exists st. split; [exact Hloop |]. split; [lia |].
  unfold MAX_YEARS. change (Z.of_nat 50) with 50.
  rewrite to_unsigned_small by lia. split; [lia |].
  pose proof (range_cases
    (fun rr => is_finite (remaining_growth_avg rr)
               && flt (of_Z 0) (remaining_growth_avg rr))
    1 15 ltac:(by vm_compute) (rr_years_sum st) ltac:(lia)) as H.
  cbv beta in H. by apply andb_true_iff in H.
Qed.

Lemma recession_years_bound_witness :
  exists st : rr_state,
    recession_loop recession_fuel rnd_const
      (mk_rr (replicate MAX_YEARS (of_Z 0)) 0 0 1) = Some st /\
    1 <= rr_years_sum st <= 15.
Proof.
  destruct (recession_years_bound rnd_const (replicate MAX_YEARS (of_Z 0)))
    as (st & Hloop & Hs & _).
  - intros k. unfold rnd_const, RANDOM_NUM_MIN, RANDOM_NUM_MAX. lia.
  - reflexivity.
  - exists st. split; [exact Hloop | exact Hs].
Defined.

Lemma fill_year_eq rnd rr (g : list float32) (k n : nat) :
  fill_year rnd rr (g, k) n
  = if feq (get1 (of_Z 0) g n) (of_Z 0)
    then (<[n := ordinary_rate rr (rnd k)]> g, S k) else (g, k).
Proof. reflexivity. Qed.

(** The last loop: it keeps the rates in range, and afterwards no year
    it went through is left with the rate 0. *)
Lemma fill_years_rates rnd rr (l : list nat) :
  draws_ok rnd ->
  1 <= rr <= 15 ->
  forall (g : list float32) (k : nat),
    Forall (fun x => rate_ok x = true) g ->
    let g' := fst (fold_left (fill_year rnd rr) l (g, k)) in
    Forall (fun x => rate_ok x = true) g' /\
    forall j, j ∈ l -> (j < length g)%nat ->
      feq (get1 (of_Z 0) g' j) (of_Z 0) = false.
Proof.
  intros Hrnd Hrr.
  induction l as [| n l IH]; intros g k Hok; cbn [fold_left].
  - split; [done |]. intros j Hj. by apply elem_of_nil in Hj.
  - rewrite fill_year_eq.
    destruct (feq (get1 (of_Z 0) g n) (of_Z 0)) eqn:Hn.
    + destruct (ordinary_rate_ok rr (rnd k) Hrr (Hrnd k)) as (Ho & _ & Hnz).
      destruct (IH (<[n := ordinary_rate rr (rnd k)]> g) (S k))
        as [Hok' Hnz']; [by apply Forall_insert |].
      cbv zeta in Hok', Hnz'. cbv zeta. split; [exact Hok' |].
      intros j Hj Hlt. destruct (decide (j ∈ l)) as [Hin | Hnot].
      * apply Hnz'; [done |]. by rewrite length_insert.
      * apply elem_of_cons in Hj as [-> | Hj]; [| done].
        rewrite fill_years_keep; rewrite get1_insert_eq by done; done.
    + destruct (IH g k Hok) as [Hok' Hnz']. cbv zeta in Hok', Hnz'. cbv zeta.
      split; [exact Hok' |].
      intros j Hj Hlt. destruct (decide (j ∈ l)) as [Hin | Hnot].
      * by apply Hnz'.
      * apply elem_of_cons in Hj as [-> | Hj]; [| done].
        by rewrite fill_years_keep.
Qed.

(** X13.  With draws in range [scenarioRecessionRandomized] returns a
    curve of [MAX_YEARS] entries in which every year has a rate: a
    finite number that is not 0, is not below [RECESSION_MIN] and, when
    negative, is not above [RECESSION_MAX]. *)
Theorem randomized_curve_rates (rnd : nat -> Z) (growth_common : list float32) :
  draws_ok rnd ->
  length growth_common = MAX_YEARS ->
  exists g : list float32,
    scenarioRecessionRandomized rnd growth_common = Some g /\
    length g = MAX_YEARS /\
    forall n, (n < MAX_YEARS)%nat ->
      rate_ok (get1 (of_Z 0) g n) = true /\
      feq (get1 (of_Z 0) g n) (of_Z 0) = false.
Proof.
  intros Hrnd Hlen. unfold scenarioRecessionRandomized.
  assert (H0 : wrap32 (to_unsigned (rnd 0%nat) mod RECESSION_START_MOD) = 0)
    by (unfold RECESSION_START_MOD; by rewrite Z.mod_1_r).
  rewrite H0.
  pose proof (clear_curve_ok growth_common) as Hok.
  pose proof (clear_curve_length (seq 0 (length growth_common)) growth_common)
    as Hlen0.
  rewrite Hlen in Hlen0 at 2.
  set (g0 := fold_left _ _ growth_common) in *. clearbody g0.
  destruct (recession_loop_years rnd Hrnd recession_fuel (mk_rr g0 0 0 1) 0)
    as (st & Hloop & Hlen' & Hok' & Hs & Hpos);
    [lia | reflexivity | cbn; lia | exact Hlen0 | exact Hok
    | cbn; unfold recession_fuel; lia |].
  cbn [rr_n rr_years_sum] in Hs, Hpos.
  specialize (Hpos ltac:(unfold MAX_YEARS; lia)).
  rewrite Hloop.
  destruct (fill_years_rates rnd (rr_years_sum st)
              (seq 0 (length (rr_growth st))) Hrnd ltac:(lia)
              (rr_growth st) (rr_drawn st) Hok') as [Hfin Hnz].
  cbv zeta in Hfin, Hnz.
  eexists. split; [reflexivity |].
  rewrite fill_years_length. split; [exact Hlen' |].
  intros n Hn. split.
  - rewrite Forall_lookup in Hfin. unfold get1.
    match goal with
    | |- context [?g !! n] => destruct (g !! n) as [x |] eqn:Hx
    end; [exact (Hfin n x Hx) | by vm_compute].
  - apply Hnz; [apply elem_of_seq |]; lia.
Qed.

Lemma randomized_curve_rates_witness :
  exists g : list float32,
    scenarioRecessionRandomized rnd_const (replicate MAX_YEARS (of_Z 0))
      = Some g /\
    length g = MAX_YEARS.
Proof.
  destruct (randomized_curve_rates rnd_const (replicate MAX_YEARS (of_Z 0)))
    as (g & Hg & Hlen & _).
  - intros k. unfold rnd_const, RANDOM_NUM_MIN, RANDOM_NUM_MAX. lia.
  - reflexivity.
  - exists g. split; [exact Hg | exact Hlen].
Defined.

(** With draws in range the randomized scenario returns a curve. *)
Lemma scenarioRecessionRandomized_returns rnd (growth_common : list float32) :
  draws_ok rnd ->
  length growth_common = MAX_YEARS ->
  exists g : list float32,
    scenarioRecessionRandomized rnd growth_common = Some g /\
    length g = MAX_YEARS.
Proof.
  intros Hrnd Hlen. unfold scenarioRecessionRandomized.
  assert (H0 : wrap32 (to_unsigned (rnd 0%nat) mod RECESSION_START_MOD) = 0)
    by (unfold RECESSION_START_MOD; by rewrite Z.mod_1_r).
  rewrite H0.
  pose proof (clear_curve_length (seq 0 (length growth_common)) growth_common)
    as Hlen0.
  rewrite Hlen in Hlen0 at 2.
  set (g0 := fold_left _ _ growth_common) in *. clearbody g0.
  destruct (recession_loop_spec rnd Hrnd recession_fuel (mk_rr g0 0 0 1))
    as (st & Hloop & Hlen' & _);
    [cbn; lia | exact Hlen0 | cbn; unfold recession_fuel; lia |].
  rewrite Hloop. eexists. split; [reflexivity |].
  by rewrite fill_years_length.
Qed.

(** X14.  With the option [RECESSION_RANDOMIZED] and draws in range,
    [populateGrowthCurves] returns: the randomized scenario yields a
    curve of [MAX_YEARS] entries, and the growth rate of an account in a
    year is that year's entry times the account's stock ratio, which is
    at most 1.0.  Nothing is written to [std::cerr] and no other data
    member changes. *)
Theorem populate_randomized_curves (rnd : nat -> Z) (a : Asset) :
  draws_ok rnd ->
  dims_ok a ->
  exists (common : list float32) (a' : Asset),
    scenarioRecessionRandomized rnd (replicate MAX_YEARS (of_Z 0))
      = Some common /\
    length common = MAX_YEARS /\
    populateGrowthCurves rnd RECESSION_RANDOMIZED a = Some (a', []) /\
    set_growthRate_ (growthRate_ a) a' = a /\
    forall c n, (c < MAX_ACCOUNTS)%nat -> (n < MAX_YEARS)%nat ->
      growthRate_at a' c n
        = fmul (get1 (of_Z 0) common n) (guessed_stock_ratio a c)
      /\ fle (guessed_stock_ratio a c) (lit 1.0) = true.
Proof.
  intros Hrnd Hd.
  destruct (scenarioRecessionRandomized_returns rnd
              (replicate MAX_YEARS (of_Z 0)) Hrnd)
    as (common & Hsc & Hlen); [apply length_replicate |].
  unfold populateGrowthCurves.
  change (RECESSION_RANDOMIZED =? CONSTANT) with false.
  change (RECESSION_RANDOMIZED =? PREDEFINED_YEAR0_LOSS) with false.
  change (RECESSION_RANDOMIZED =? RECESSION_RANDOMIZED) with true.
  cbn [negb]. cbv iota. rewrite Hsc.
  destruct (scale_growth_spec common a) as (Hs & _ & He);
    [by destruct Hd as (Hd&_) | exact Hlen |].
  exists common. eexists. split; [reflexivity |]. split; [exact Hlen |].
  split; [reflexivity |]. split; [exact Hs |].
  intros c n Hc Hn. split; [by apply He | apply guessed_stock_ratio_le_one].
Qed.

Lemma populate_randomized_curves_witness :
  exists a' : Asset,
    populateGrowthCurves rnd_const RECESSION_RANDOMIZED Asset_ctor
      = Some (a', []).
Proof.
  destruct (populate_randomized_curves rnd_const Asset_ctor)
    as (common & a' & _ & _ & H & _).
  - intros k. unfold rnd_const, RANDOM_NUM_MIN, RANDOM_NUM_MAX. lia.
  - dims_tac.
  - exists a'. exact H.
Defined.

(** ** Arrays written cell by cell *)

Lemma length_tabulate {A : Type} n (f : nat -> A) : length (tabulate n f) = n.
Proof. unfold tabulate. by rewrite length_map, length_seq. Qed.

Lemma get1_tabulate {A : Type} (d : A) n (f : nat -> A) i :
  (i < n)%nat -> get1 d (tabulate n f) i = f i.
Proof.
  intros Hi. unfold get1, tabulate. rewrite list_lookup_fmap.
  by rewrite lookup_seq_lt.
Qed.

Section TabulateFacts.
Context {A : Type}.
Implicit Types (d : A) (l : list A) (m : list (list A)).

Lemma list_ext_get1 d l l' n :
  length l = n -> length l' = n ->
  (forall i, (i < n)%nat -> get1 d l i = get1 d l' i) -> l = l'.
Proof.
  intros Hl Hl' H. apply list_eq. intros i.
  destruct (decide (i < n)%nat) as [Hi | Hi].
  - specialize (H i Hi). unfold get1 in H.
    destruct (lookup_lt_is_Some_2 l i ltac:(lia)) as [x Hx].
    destruct (lookup_lt_is_Some_2 l' i ltac:(lia)) as [x' Hx'].
    rewrite Hx, Hx' in *. cbn in H. by subst.
  - rewrite !(proj2 (lookup_ge_None _ _)); [done | lia | lia].
Qed.

Lemma matrix_ext d m m' rows cols :
  dims2 m rows cols -> dims2 m' rows cols ->
  (forall c i, (c < rows)%nat -> (i < cols)%nat ->
     get2 d m c i = get2 d m' c i) ->
  m = m'.
Proof.
  intros Hm Hm' H. apply list_eq. intros c.
  destruct (decide (c < rows)%nat) as [Hc | Hc].
  - destruct (dims2_lookup _ _ _ _ Hm Hc) as (row & Hrow & Hlen).
    destruct (dims2_lookup _ _ _ _ Hm' Hc) as (row' & Hrow' & Hlen').
    rewrite Hrow, Hrow'. f_equal.
    apply (list_ext_get1 d _ _ cols Hlen Hlen'). intros i Hi.
    specialize (H c i Hc Hi). unfold get2 in H.
    by rewrite Hrow, Hrow' in H.
  - destruct Hm as [Hm _], Hm' as [Hm' _].
    rewrite !(proj2 (lookup_ge_None _ _)); [done | lia | lia].
Qed.

Lemma dims2_tabulate2 rows cols (f : nat -> nat -> A) :
  dims2 (tabulate2 rows cols f) rows cols.
Proof.
  split; [unfold tabulate2; apply length_tabulate |].
  apply Forall_forall. intros row Hrow. unfold tabulate2, tabulate in Hrow.
  apply list_elem_of_fmap in Hrow as (c & -> & _).
  by rewrite length_map, length_seq.
Qed.

Lemma get2_tabulate2 d rows cols (f : nat -> nat -> A) c i :
  (c < rows)%nat -> (i < cols)%nat -> get2 d (tabulate2 rows cols f) c i = f c i.
Proof.
  intros Hc Hi. unfold get2, tabulate2, tabulate.
  rewrite list_lookup_fmap, lookup_seq_lt by done. cbn.
  rewrite list_lookup_fmap, lookup_seq_lt by done. done.
Qed.

(** A loop over the rows [lc] that writes, in column [i], a value that
    the writes to column [i] do not change. *)
Lemma fold_col_spec d (rows cols : nat) (i : nat)
    (h : list (list A) -> nat -> A) (lc : list nat) :
  (forall m c c' x, h (set2 m c' i x) c = h m c) ->
  forall m,
    let m' := fold_left (fun m c => set2 m c i (h m c)) lc m in
    (dims2 m rows cols -> dims2 m' rows cols) /\
    (forall c j, c ∉ lc \/ j ≠ i -> get2 d m' c j = get2 d m c j) /\
    (dims2 m rows cols ->
     forall c, c ∈ lc -> (c < rows)%nat -> (i < cols)%nat ->
       get2 d m' c i = h m c).
Proof.
  intros Hh. induction lc as [| c0 lc IH]; intros m; cbn [fold_left].
  - split; [done |]. split; [done |]. intros _ c Hc. by apply elem_of_nil in Hc.
  - destruct (IH (set2 m c0 i (h m c0))) as (Hd & Hf & He).
    cbv zeta in Hd, Hf, He. cbv zeta.
    split; [| split].
    + intros Hm. by apply Hd, dims2_set2.
    + intros c j Hcj. rewrite Hf.
      * apply get2_set2_ne. destruct Hcj as [Hc | Hj]; [left | right].
        -- intros ->. apply Hc. by left.
        -- done.
      * destruct Hcj as [Hc | Hj]; [left | by right].
        intros Hin. apply Hc. by right.
    + intros Hm c Hc Hlt Hi. destruct (decide (c ∈ lc)) as [Hin | Hnot].
      * rewrite He by (done || by apply dims2_set2). apply Hh.
      * apply elem_of_cons in Hc as [-> | Hc]; [| done].
        rewrite Hf by (by left). by eapply get2_set2_eq.
Qed.

(** The loops of lines 266-272 on one array: for every year of [ly],
    none of them year 0, and every account of [lc], the cell is set to
    the account's cell of year 0. *)
Lemma copy_years_spec d (rows cols : nat) (lc ly : list nat) :
  (forall i, i ∈ ly -> i ≠ 0%nat) ->
  forall m,
    let m' :=
      fold_left
        (fun m i => fold_left (fun m c => set2 m c i (get2 d m c 0)) lc m)
        ly m in
    (dims2 m rows cols -> dims2 m' rows cols) /\
    (forall c j, c ∉ lc \/ j ∉ ly -> get2 d m' c j = get2 d m c j) /\
    (dims2 m rows cols ->
     forall c j, c ∈ lc -> j ∈ ly -> (c < rows)%nat -> (j < cols)%nat ->
       get2 d m' c j = get2 d m c 0).
Proof.
  induction ly as [| i ly IH]; intros Hly m; cbn [fold_left].
  - split; [done |]. split; [done |].
    intros _ c j _ Hj. by apply elem_of_nil in Hj.
  - assert (Hi : i ≠ 0%nat) by (apply Hly; by left).
    destruct (fold_col_spec d rows cols i (fun m c => get2 d m c 0) lc
                ltac:(intros; apply get2_set2_ne; right; done) m)
      as (Hd1 & Hf1 & He1).
    cbv zeta in Hd1, Hf1, He1.
    set (m1 := fold_left (fun m c => set2 m c i (get2 d m c 0)) lc m) in *.
    clearbody m1.
    destruct (IH (fun j Hj => Hly j (list_elem_of_further _ _ _ Hj)) m1)
      as (Hd & Hf & He).
    cbv zeta in Hd, Hf, He. cbv zeta. split; [| split].
    + auto.
    + intros c j Hcj. rewrite Hf.
      * apply Hf1. destruct Hcj as [Hc | Hj]; [by left | right].
        intros ->. apply Hj. by left.
      * destruct Hcj as [Hc | Hj]; [by left | right].
        intros Hin. apply Hj. by right.
    + intros Hm c j Hc Hj Hlt Hlt'. destruct (decide (j ∈ ly)) as [Hin | Hnot].
      * rewrite He by auto. apply Hf1. by right.
      * apply elem_of_cons in Hj as [-> | Hj]; [| done].
        rewrite Hf by (by right). by apply He1.
Qed.

(** The same for an array of one row (lines 282-283). *)
Lemma copy_first_spec d (ly : list nat) :
  (forall i, i ∈ ly -> i ≠ 0%nat) ->
  forall l,
    let l' := fold_left (fun l i => <[i := get1 d l 0]> l) ly l in
    length l' = length l /\
    (forall j, j ∉ ly -> get1 d l' j = get1 d l j) /\
    (forall j, j ∈ ly -> (j < length l)%nat -> get1 d l' j = get1 d l 0).
Proof.
  induction ly as [| i ly IH]; intros Hly l; cbn [fold_left].
  - split; [done |]. split; [done |]. intros j Hj. by apply elem_of_nil in Hj.
  - assert (Hi : i ≠ 0%nat) by (apply Hly; by left).
    destruct (IH (fun j Hj => Hly j (list_elem_of_further _ _ _ Hj))
                (<[i := get1 d l 0]> l)) as (Hlen & Hf & He).
    cbv zeta in Hlen, Hf, He. cbv zeta. rewrite length_insert in Hlen, He.
    split; [done |]. split.
    + intros j Hj. apply not_elem_of_cons in Hj as [Hne Hj].
      rewrite Hf by done. by apply get1_insert_ne.
    + intros j Hj Hlt. destruct (decide (j ∈ ly)) as [Hin | Hnot].
      * rewrite He by done. by apply get1_insert_ne.
      * apply elem_of_cons in Hj as [-> | Hj]; [| done].
        rewrite Hf by done. by apply get1_insert_eq.
Qed.

End TabulateFacts.

(** A data member of the state after a loop, from what one pass does to
    that data member. *)
Lemma field_fold {S F K : Type} (proj : S -> F) (step : S -> K -> S)
    (g : F -> K -> F) (l : list K) :
  (forall s k, proj (step s k) = g (proj s) k) ->
  forall s, proj (fold_left step l s) = fold_left g l (proj s).
Proof.
  intros H. induction l as [| k l IH]; intros s; cbn [fold_left]; [done |].
  by rewrite IH, H.
Qed.

(** ** [initializeFromUserData]: the state it leaves *)

Lemma Asset_eq (a b : Asset) :
  kept_by_years a = kept_by_years b ->
  value_ a = value_ b ->
  availability_ a = availability_ b ->
  expense_ a = expense_ b ->
  distribution_ a = distribution_ b ->
  inflation_ a = inflation_ b ->
  a = b.
Proof.
  destruct a, b. unfold kept_by_years. cbn. intros H -> -> -> -> ->.
  by injection H as -> -> -> -> -> -> -> -> -> -> -> -> ->.
Qed.

Lemma fold_left_const {S K : Type} (l : list K) (s : S) :
  fold_left (fun x _ => x) l s = s.
Proof. by induction l. Qed.

(** *** The loop over the years *)

Lemma kept_init_year_account user i a c :
  kept_by_years (init_year_account user i a c) = kept_by_years a.
Proof.
  unfold init_year_account. cbv zeta. by destruct (_ <? _).
Qed.

Lemma kept_init_year user a i :
  kept_by_years (init_year user a i) = kept_by_years a.
Proof.
  unfold init_year. cbv zeta.
  set (a1 := fold_left (init_year_account user i) (seq 0 MAX_ACCOUNTS) a).
  transitivity (kept_by_years a1); [reflexivity |]. subst a1.
  rewrite (field_fold kept_by_years (init_year_account user i) (fun x _ => x))
    by (intros; apply kept_init_year_account).
  apply fold_left_const.
Qed.

Lemma value_init_year_account user i a c :
  value_ (init_year_account user i a c)
  = set2 (value_ a) c i (get2 0 (value_ a) c 0).
Proof. unfold init_year_account. cbv zeta. by destruct (_ <? _). Qed.

Lemma distribution_init_year_account user i a c :
  distribution_ (init_year_account user i a c)
  = set2 (distribution_ a) c i (get2 0 (distribution_ a) c 0).
Proof. unfold init_year_account. cbv zeta. by destruct (_ <? _). Qed.

Lemma expense_init_year_account user i a c :
  expense_ (init_year_account user i a c) = expense_ a.
Proof. unfold init_year_account. cbv zeta. by destruct (_ <? _). Qed.

Lemma inflation_init_year_account user i a c :
  inflation_ (init_year_account user i a c) = inflation_ a.
Proof. unfold init_year_account. cbv zeta. by destruct (_ <? _). Qed.

Lemma value_init_year user a i :
  value_ (init_year user a i)
  = fold_left (fun m c => set2 m c i (get2 0 m c 0)) (seq 0 MAX_ACCOUNTS)
      (value_ a).
Proof.
  unfold init_year. cbv zeta.
  set (a1 := fold_left (init_year_account user i) (seq 0 MAX_ACCOUNTS) a).
  transitivity (value_ a1); [reflexivity |]. subst a1.
  apply (field_fold value_). intros. apply value_init_year_account.
Qed.

Lemma distribution_init_year user a i :
  distribution_ (init_year user a i)
  = fold_left (fun m c => set2 m c i (get2 0 m c 0)) (seq 0 MAX_ACCOUNTS)
      (distribution_ a).
Proof.
  unfold init_year. cbv zeta.
  set (a1 := fold_left (init_year_account user i) (seq 0 MAX_ACCOUNTS) a).
  transitivity (distribution_ a1); [reflexivity |]. subst a1.
  apply (field_fold distribution_). intros. apply distribution_init_year_account.
Qed.

Lemma expense_init_year user a i :
  expense_ (init_year user a i) = <[i := get1 0 (expense_ a) 0]> (expense_ a).
Proof.
  unfold init_year. cbv zeta.
  set (a1 := fold_left (init_year_account user i) (seq 0 MAX_ACCOUNTS) a).
  assert (H : expense_ a1 = expense_ a).
  { subst a1.
    rewrite (field_fold expense_ (init_year_account user i) (fun x _ => x))
      by (intros; apply expense_init_year_account).
    apply fold_left_const. }
  transitivity (<[i := get1 0 (expense_ a1) 0]> (expense_ a1));
    [reflexivity | by rewrite H].
Qed.

Lemma inflation_init_year user a i :
  inflation_ (init_year user a i)
  = <[i := get1 fzero (inflation_ a) 0]> (inflation_ a).
Proof.
  unfold init_year. cbv zeta.
  set (a1 := fold_left (init_year_account user i) (seq 0 MAX_ACCOUNTS) a).
  assert (H : inflation_ a1 = inflation_ a).
  { subst a1.
    rewrite (field_fold inflation_ (init_year_account user i) (fun x _ => x))
      by (intros; apply inflation_init_year_account).
    apply fold_left_const. }
  transitivity (<[i := get1 fzero (inflation_ a1) 0]> (inflation_ a1));
    [reflexivity | by rewrite H].
Qed.

(** *** The scalars and year 0 *)

Lemma init_year0_unfold user a :
  exists a2 : Asset,
    a2 = fold_left (init_account user) (seq 0 MAX_ACCOUNTS)
           (set_cashReserve_ 0 (set_fundLongevity_ 0 a)) /\
    init_year0 user a
    = snd (addCashReserve CASH_RESERVE INDIVIDUAL_INDEX 0
             (clearCashReserve
                (set_availability_at R401K_INDEX 0 false
                   (set_availability_at IRA_INDEX 0 false
                      (set_availability_at ROTH_INDEX 0 false
                         (set_availability_at INDIVIDUAL_INDEX 0 true
                            (set_inflation_
                               (<[0%nat := initialInflation user]>
                                  (inflation_ a2))
                               (set_yearsTillRetirement_
                                  (yearsTillRetirement user)
                                  (set_contributionR401k_
                                     (contributionR401k user)
                                     (set_contributionIra_
                                        (contributionIra user)
                                        (set_contributionRoth_
                                           (contributionRoth user)
                                           (set_takehomeIncome_
                                              (takehomeIncome user)
                                              (set_expense_
                                                 (<[0%nat :=
                                                      initialExpense user]>
                                                    (expense_ a2))
                                                 a2))))))))))))).
Proof. eexists. split; reflexivity. Qed.

(** The state before the loop over the years, from the state [a2] after
    the first loop over the accounts. *)
Lemma init_year0_fields user a :
  exists a2 : Asset,
    a2 = fold_left (init_account user) (seq 0 MAX_ACCOUNTS)
           (set_cashReserve_ 0 (set_fundLongevity_ 0 a)) /\
    kept_by_years (init_year0 user a)
    = (fundLongevity_ a2, 0, growthRate_ a2, name_ a2,
       yearsTillRetirement user, yearsTillWithdrawal_ a2,
       yearsTillPension_ a2, takehomeIncome user, contributionRoth user,
       contributionIra user, contributionR401k user, pensionEstimate_ a2,
       growthRateAvg_ a2) /\
    value_ (init_year0 user a)
    = (if get2 0 (value_ a2) INDIVIDUAL_INDEX 0 >? CASH_RESERVE
       then set2 (value_ a2) INDIVIDUAL_INDEX 0
              (wrap64 (get2 0 (value_ a2) INDIVIDUAL_INDEX 0 - CASH_RESERVE))
       else value_ a2) /\
    distribution_ (init_year0 user a) = distribution_ a2 /\
    expense_ (init_year0 user a)
    = <[0%nat := initialExpense user]> (expense_ a2) /\
    inflation_ (init_year0 user a)
    = <[0%nat := initialInflation user]> (inflation_ a2).
Proof.
  destruct (init_year0_unfold user a) as (a2 & Ha2 & ->).
  exists a2. split; [exact Ha2 |]. clear Ha2. unfold addCashReserve.
  match goal with
  | |- context [value_at ?x INDIVIDUAL_INDEX 0 >? CASH_RESERVE] =>
      change (value_at x INDIVIDUAL_INDEX 0)
        with (get2 0 (value_ a2) INDIVIDUAL_INDEX 0)
  end.
  destruct (get2 0 (value_ a2) INDIVIDUAL_INDEX 0 >? CASH_RESERVE);
    (split; [cbn [snd]; unfold kept_by_years; f_equal |]);
    (split; [reflexivity |]); (split; [reflexivity |]); (split; reflexivity).
Qed.

(** What the first loop over the accounts does not write. *)
Lemma init_accounts_kept user (l : list nat) a :
  let a' := fold_left (init_account user) l a in
  fundLongevity_ a' = fundLongevity_ a /\
  growthRate_ a' = growthRate_ a /\
  yearsTillWithdrawal_ a' = yearsTillWithdrawal_ a /\
  yearsTillPension_ a' = yearsTillPension_ a /\
  pensionEstimate_ a' = pensionEstimate_ a /\
  expense_ a' = expense_ a /\
  inflation_ a' = inflation_ a.
Proof.
  cbv zeta.
  rewrite (field_fold fundLongevity_ (init_account user) (fun x _ => x))
    by reflexivity.
  rewrite (field_fold growthRate_ (init_account user) (fun x _ => x))
    by reflexivity.
  rewrite (field_fold yearsTillWithdrawal_ (init_account user) (fun x _ => x))
    by reflexivity.
  rewrite (field_fold yearsTillPension_ (init_account user) (fun x _ => x))
    by reflexivity.
  rewrite (field_fold pensionEstimate_ (init_account user) (fun x _ => x))
    by reflexivity.
  rewrite (field_fold expense_ (init_account user) (fun x _ => x))
    by reflexivity.
  rewrite (field_fold inflation_ (init_account user) (fun x _ => x))
    by reflexivity.
  rewrite !fold_left_const. done.
Qed.

(** What the first loop over the accounts writes. *)
Lemma init_accounts_written user (l : list nat) a :
  let a' := fold_left (init_account user) l a in
  name_ a'
    = fold_left (fun nm c => <[c := get1 EmptyString (name user) c]> nm) l
        (name_ a) /\
  growthRateAvg_ a'
    = fold_left (fun g c => <[c := get1 fzero (rate user) c]> g) l
        (growthRateAvg_ a) /\
  value_ a'
    = fold_left (fun m c => set2 m c 0 (get1 0 (value user) c)) l (value_ a) /\
  distribution_ a'
    = fold_left (fun m c => set2 m c 0 0) l (distribution_ a).
Proof.
  cbv zeta. split_and!.
  - by apply (field_fold name_).
  - by apply (field_fold growthRateAvg_).
  - by apply (field_fold value_).
  - by apply (field_fold distribution_).
Qed.

(** A loop that writes [f c] to every entry of a list of [n] entries. *)
Lemma fold_inserts_tabulate {A : Type} (f : nat -> A) (n : nat) (l : list A) :
  length l = n ->
  fold_left (fun g c => <[c := f c]> g) (seq 0 n) l = tabulate n f.
Proof.
  intros Hlen. destruct (fold_inserts_spec f (seq 0 n) l) as [Hl Hk].
  cbv zeta in Hl, Hk. apply list_eq. intros k. rewrite Hk.
  unfold tabulate. rewrite list_lookup_fmap.
  destruct (decide (k < n)%nat) as [Hlt | Hge].
  - rewrite decide_True by (rewrite elem_of_seq; lia).
    by rewrite lookup_seq_lt.
  - rewrite decide_False by lia.
    rewrite lookup_seq_ge by lia. apply lookup_ge_None. lia.
Qed.

(** *** The closed form *)

Lemma years_not_zero : forall i, i ∈ seq 1 (MAX_YEARS - 1) -> i ≠ 0%nat.
Proof. intros i Hi. apply elem_of_seq in Hi. lia. Qed.

Lemma year_cases (j : nat) :
  (j < MAX_YEARS)%nat -> j = 0%nat \/ j ∈ seq 1 (MAX_YEARS - 1).
Proof.
  intros Hj. destruct j as [| j]; [by left | right].
  apply elem_of_seq. unfold MAX_YEARS in *. lia.
Qed.

Lemma zero_not_year : 0%nat ∉ seq 1 (MAX_YEARS - 1).
Proof. rewrite elem_of_seq. lia. Qed.

(** The first loop over the accounts, from a state with its arrays. *)
Lemma init_accounts_closed user a :
  dims_ok a ->
  let a2 :=
    fold_left (init_account user) (seq 0 MAX_ACCOUNTS)
      (set_cashReserve_ 0 (set_fundLongevity_ 0 a)) in
  (fundLongevity_ a2 = 0 /\
   growthRate_ a2 = growthRate_ a /\
   yearsTillWithdrawal_ a2 = yearsTillWithdrawal_ a /\
   yearsTillPension_ a2 = yearsTillPension_ a /\
   pensionEstimate_ a2 = pensionEstimate_ a /\
   expense_ a2 = expense_ a /\
   inflation_ a2 = inflation_ a) /\
  name_ a2 = tabulate MAX_ACCOUNTS (get1 EmptyString (name user)) /\
  growthRateAvg_ a2 = tabulate MAX_ACCOUNTS (get1 fzero (rate user)) /\
  (dims2 (value_ a2) MAX_ACCOUNTS MAX_YEARS /\
   forall c, (c < MAX_ACCOUNTS)%nat ->
     get2 0 (value_ a2) c 0 = get1 0 (value user) c) /\
  (dims2 (distribution_ a2) MAX_ACCOUNTS MAX_YEARS /\
   forall c, (c < MAX_ACCOUNTS)%nat -> get2 0 (distribution_ a2) c 0 = 0).
Proof.
  intros (_ & Hn & Hv & _ & _ & Hdi & Hg & _).
  pose proof (init_accounts_kept user (seq 0 MAX_ACCOUNTS)
                (set_cashReserve_ 0 (set_fundLongevity_ 0 a))) as Hk.
  pose proof (init_accounts_written user (seq 0 MAX_ACCOUNTS)
                (set_cashReserve_ 0 (set_fundLongevity_ 0 a))) as Hw.
  cbv zeta in Hk, Hw. cbv zeta.
  revert Hk Hw.
  generalize (fold_left (init_account user) (seq 0 MAX_ACCOUNTS)
                (set_cashReserve_ 0 (set_fundLongevity_ 0 a))).
  intros a2 Hk (Hwn & Hwg & Hwv & Hwd).
  split; [exact Hk |].
  change (name_ (set_cashReserve_ 0 (set_fundLongevity_ 0 a)))
    with (name_ a) in Hwn.
  change (growthRateAvg_ (set_cashReserve_ 0 (set_fundLongevity_ 0 a)))
    with (growthRateAvg_ a) in Hwg.
  change (value_ (set_cashReserve_ 0 (set_fundLongevity_ 0 a)))
    with (value_ a) in Hwv.
  change (distribution_ (set_cashReserve_ 0 (set_fundLongevity_ 0 a)))
    with (distribution_ a) in Hwd.
  split; [rewrite Hwn; by apply fold_inserts_tabulate |].
  split; [rewrite Hwg; by apply fold_inserts_tabulate |].
  split.
  - rewrite Hwv.
    destruct (fold_col_spec 0 MAX_ACCOUNTS MAX_YEARS 0
                (fun _ c => get1 0 (value user) c) (seq 0 MAX_ACCOUNTS)
                ltac:(done) (value_ a)) as (Hd' & _ & He').
    cbv zeta in Hd', He'. split; [by apply Hd' |].
    intros c Hc. apply He'; auto using elem_of_accounts.
    unfold MAX_YEARS. lia.
  - rewrite Hwd.
    destruct (fold_col_spec 0 MAX_ACCOUNTS MAX_YEARS 0
                (fun _ _ => 0) (seq 0 MAX_ACCOUNTS)
                ltac:(done) (distribution_ a)) as (Hd' & _ & He').
    cbv zeta in Hd', He'. split; [by apply Hd' |].
    intros c Hc. apply He'; auto using elem_of_accounts.
    unfold MAX_YEARS. lia.
Qed.

Lemma init_value_closed user a :
  dims_ok a ->
  value_ (initializeFromUserData user a)
  = tabulate2 MAX_ACCOUNTS MAX_YEARS (fun c _ => year0_value user c).
Proof.
  intros Hd. unfold initializeFromUserData.
  rewrite (field_fold value_ (init_year user)
             (fun m i =>
                fold_left (fun m c => set2 m c i (get2 0 m c 0))
                  (seq 0 MAX_ACCOUNTS) m))
    by (intros; apply value_init_year).
  destruct (init_year0_fields user a) as (a2 & Ha2 & _ & Hv & _).
  destruct (init_accounts_closed user a Hd) as (_ & _ & _ & [Hdv Hcv] & _).
  cbv zeta in Hdv, Hcv. rewrite <- Ha2 in Hdv, Hcv. clear Ha2.
  assert (H0 : dims2 (value_ (init_year0 user a)) MAX_ACCOUNTS MAX_YEARS /\
               forall c, (c < MAX_ACCOUNTS)%nat ->
                 get2 0 (value_ (init_year0 user a)) c 0 = year0_value user c).
  { rewrite Hv.
    rewrite (Hcv INDIVIDUAL_INDEX) by (unfold MAX_ACCOUNTS, INDIVIDUAL_INDEX; lia).
    split.
    - destruct (get1 0 (value user) INDIVIDUAL_INDEX >? CASH_RESERVE);
        [by apply dims2_set2 | done].
    - intros c Hc. unfold year0_value. cbv zeta.
      destruct (decide (c = INDIVIDUAL_INDEX)) as [-> | Hne].
      + rewrite Nat.eqb_refl. cbn [andb].
        destruct (get1 0 (value user) INDIVIDUAL_INDEX >? CASH_RESERVE);
          [| by apply Hcv].
        apply (get2_set2_eq _ _ MAX_ACCOUNTS MAX_YEARS);
          [done | done | unfold MAX_YEARS; lia].
      + rewrite (proj2 (Nat.eqb_neq _ _)) by done. cbn [andb].
        destruct (get1 0 (value user) INDIVIDUAL_INDEX >? CASH_RESERVE);
          [rewrite get2_set2_ne by (left; done) |]; by apply Hcv. }
  destruct H0 as [Hd0 Hc0].
  destruct (copy_years_spec 0 MAX_ACCOUNTS MAX_YEARS (seq 0 MAX_ACCOUNTS)
              (seq 1 (MAX_YEARS - 1)) years_not_zero
              (value_ (init_year0 user a))) as (Hd' & Hf' & He').
  cbv zeta in Hd', Hf', He'.
  apply (matrix_ext 0 _ _ MAX_ACCOUNTS MAX_YEARS);
    [by apply Hd' | apply dims2_tabulate2 |].
  intros c j Hc Hj. rewrite get2_tabulate2 by done.
  destruct (year_cases j Hj) as [-> | Hin].
  - rewrite Hf' by (right; apply zero_not_year). by apply Hc0.
  - rewrite He' by auto using elem_of_accounts. by apply Hc0.
Qed.

Lemma init_distribution_closed user a :
  dims_ok a ->
  distribution_ (initializeFromUserData user a)
  = tabulate2 MAX_ACCOUNTS MAX_YEARS (fun _ _ => 0).
Proof.
  intros Hd. unfold initializeFromUserData.
  rewrite (field_fold distribution_ (init_year user)
             (fun m i =>
                fold_left (fun m c => set2 m c i (get2 0 m c 0))
                  (seq 0 MAX_ACCOUNTS) m))
    by (intros; apply distribution_init_year).
  destruct (init_year0_fields user a) as (a2 & Ha2 & _ & _ & Hdi & _).
  destruct (init_accounts_closed user a Hd) as (_ & _ & _ & _ & [Hdd Hcd]).
  cbv zeta in Hdd, Hcd. rewrite <- Ha2 in Hdd, Hcd. clear Ha2.
  rewrite Hdi.
  destruct (copy_years_spec 0 MAX_ACCOUNTS MAX_YEARS (seq 0 MAX_ACCOUNTS)
              (seq 1 (MAX_YEARS - 1)) years_not_zero
              (distribution_ a2)) as (Hd' & Hf' & He').
  cbv zeta in Hd', Hf', He'.
  apply (matrix_ext 0 _ _ MAX_ACCOUNTS MAX_YEARS);
    [by apply Hd' | apply dims2_tabulate2 |].
  intros c j Hc Hj. rewrite get2_tabulate2 by done.
  destruct (year_cases j Hj) as [-> | Hin].
  - rewrite Hf' by (right; apply zero_not_year). by apply Hcd.
  - rewrite He' by auto using elem_of_accounts. by apply Hcd.
Qed.

Lemma init_expense_closed user a :
  dims_ok a ->
  expense_ (initializeFromUserData user a)
  = tabulate MAX_YEARS (fun _ => initialExpense user).
Proof.
  intros Hd. unfold initializeFromUserData.
  rewrite (field_fold expense_ (init_year user)
             (fun l i => <[i := get1 0 l 0]> l))
    by (intros; apply expense_init_year).
  destruct (init_year0_fields user a) as (a2 & Ha2 & _ & _ & _ & He & _).
  destruct (init_accounts_closed user a Hd)
    as ((_ & _ & _ & _ & _ & He2 & _) & _).
  cbv zeta in He2. rewrite <- Ha2 in He2. clear Ha2.
  rewrite He, He2.
  assert (Hlen : length (expense_ a) = MAX_YEARS)
    by (by destruct Hd as (_&_&_&_&H&_)).
  destruct (copy_first_spec 0 (seq 1 (MAX_YEARS - 1)) years_not_zero
              (<[0%nat := initialExpense user]> (expense_ a)))
    as (Hl' & Hf' & He').
  cbv zeta in Hl', Hf', He'. rewrite length_insert in Hl', He'.
  assert (H0 : get1 0 (<[0%nat := initialExpense user]> (expense_ a)) 0
               = initialExpense user)
    by (apply get1_insert_eq; rewrite Hlen; unfold MAX_YEARS; lia).
  apply (list_ext_get1 0 _ _ MAX_YEARS);
    [by rewrite Hl' | apply length_tabulate |].
  intros j Hj. rewrite get1_tabulate by done.
  destruct (year_cases j Hj) as [-> | Hin].
  - rewrite Hf' by apply zero_not_year. done.
  - rewrite He' by (done || lia). done.
Qed.

Lemma init_inflation_closed user a :
  dims_ok a ->
  inflation_ (initializeFromUserData user a)
  = tabulate MAX_YEARS (fun _ => initialInflation user).
Proof.
  intros Hd. unfold initializeFromUserData.
  rewrite (field_fold inflation_ (init_year user)
             (fun l i => <[i := get1 fzero l 0]> l))
    by (intros; apply inflation_init_year).
  destruct (init_year0_fields user a) as (a2 & Ha2 & _ & _ & _ & _ & Hi).
  destruct (init_accounts_closed user a Hd)
    as ((_ & _ & _ & _ & _ & _ & Hi2) & _).
  cbv zeta in Hi2. rewrite <- Ha2 in Hi2. clear Ha2.
  rewrite Hi, Hi2.
  assert (Hlen : length (inflation_ a) = MAX_YEARS)
    by (by destruct Hd as (_&_&_&_&_&_&_&H)).
  destruct (copy_first_spec fzero (seq 1 (MAX_YEARS - 1)) years_not_zero
              (<[0%nat := initialInflation user]> (inflation_ a)))
    as (Hl' & Hf' & He').
  cbv zeta in Hl', Hf', He'. rewrite length_insert in Hl', He'.
  assert (H0 : get1 fzero (<[0%nat := initialInflation user]> (inflation_ a)) 0
               = initialInflation user)
    by (apply get1_insert_eq; rewrite Hlen; unfold MAX_YEARS; lia).
  apply (list_ext_get1 fzero _ _ MAX_YEARS);
    [by rewrite Hl' | apply length_tabulate |].
  intros j Hj. rewrite get1_tabulate by done.
  destruct (year_cases j Hj) as [-> | Hin].
  - rewrite Hf' by apply zero_not_year. done.
  - rewrite He' by (done || lia). done.
Qed.

Lemma init_availability_cells user a :
  dims_ok a ->
  let a' := initializeFromUserData user a in
  dims2 (availability_ a') MAX_ACCOUNTS MAX_YEARS /\
  forall c j, (c < MAX_ACCOUNTS)%nat -> (j < MAX_YEARS)%nat ->
    availability_at a' c j
    = match j with
      | O => (c =? INDIVIDUAL_INDEX)%nat
      | S _ => later_flag user c j
      end.
Proof.
  intros Hd. pose proof (init_year0_flags user a Hd) as H15.
  unfold initializeFromUserData.
  set (a15 := init_year0 user a) in *. clearbody a15.
  destruct (init_years_flags user (seq 1 (MAX_YEARS - 1))
              ltac:(intros y Hy; apply elem_of_seq in Hy;
                    unfold MAX_YEARS in *; lia)
              a15 H15) as ((Hd' & _) & He & Hf).
  cbv zeta in Hd', He, Hf. cbv zeta.
  set (a' := fold_left (init_year user) (seq 1 (MAX_YEARS - 1)) a15) in *.
  clearbody a'. split; [exact Hd' |].
  intros c j Hc Hj.
  destruct H15 as (_ & H0 & H1 & H2 & H3).
  destruct (year_cases j Hj) as [-> | Hin].
  - rewrite Hf by apply zero_not_year.
    unfold MAX_ACCOUNTS in Hc.
    destruct c as [| [| [| [| c]]]]; try lia; done.
  - destruct j as [| j]; [by apply zero_not_year in Hin |].
    by apply He.
Qed.

Lemma init_availability_closed user a :
  dims_ok a ->
  availability_ (initializeFromUserData user a)
  = tabulate2 MAX_ACCOUNTS MAX_YEARS
      (fun c i =>
         match i with
         | O => (c =? INDIVIDUAL_INDEX)%nat
         | S _ => later_flag user c i
         end).
Proof.
  intros Hd. destruct (init_availability_cells user a Hd) as [Hd' Hc'].
  cbv zeta in Hd', Hc'. revert Hd' Hc'.
  generalize (initializeFromUserData user a). intros a' Hd' Hc'.
  unfold availability_at in Hc'.
  apply (matrix_ext false _ _ MAX_ACCOUNTS MAX_YEARS);
    [exact Hd' | apply dims2_tabulate2 |].
  intros c j Hc Hj. rewrite get2_tabulate2 by done.
  by apply Hc'.
Qed.

(** The fields of the state that the loop over the years keeps. *)
Lemma init_kept_closed user a :
  dims_ok a ->
  kept_by_years (initializeFromUserData user a)
  = (0, 0, growthRate_ a,
     tabulate MAX_ACCOUNTS (get1 EmptyString (name user)),
     yearsTillRetirement user, yearsTillWithdrawal_ a, yearsTillPension_ a,
     takehomeIncome user, contributionRoth user, contributionIra user,
     contributionR401k user, pensionEstimate_ a,
     tabulate MAX_ACCOUNTS (get1 fzero (rate user))).
Proof.
  intros Hd. unfold initializeFromUserData.
  rewrite (field_fold kept_by_years (init_year user) (fun x _ => x))
    by (intros; apply kept_init_year).
  rewrite fold_left_const.
  destruct (init_year0_fields user a) as (a2 & Ha2 & Hk & _).
  destruct (init_accounts_closed user a Hd)
    as ((H1 & H2 & H3 & H4 & H5 & _) & H6 & H7 & _).
  cbv zeta in H1, H2, H3, H4, H5, H6, H7.
  rewrite <- Ha2 in H1, H2, H3, H4, H5, H6, H7. clear Ha2.
  rewrite Hk, H1, H2, H3, H4, H5, H6, H7. reflexivity.
Qed.

(** The state [initializeFromUserData] leaves is [initialized]. *)
Lemma initializeFromUserData_closed user a :
  dims_ok a -> initializeFromUserData user a = initialized user a.
Proof.
  intros Hd. apply Asset_eq.
  - rewrite init_kept_closed by done. reflexivity.
  - rewrite init_value_closed by done. reflexivity.
  - rewrite init_availability_closed by done. reflexivity.
  - rewrite init_expense_closed by done. reflexivity.
  - rewrite init_distribution_closed by done. reflexivity.
  - rewrite init_inflation_closed by done. reflexivity.
Qed.

Lemma dims_ok_initialized user a : dims_ok a -> dims_ok (initialized user a).
Proof.
  intros (Hg & _). unfold dims_ok, initialized.
  cbn [growthRate_ name_ value_ availability_ expense_ distribution_
       growthRateAvg_ inflation_].
  split; [exact Hg |]. split; [apply length_tabulate |].
  split; [apply dims2_tabulate2 |]. split; [apply dims2_tabulate2 |].
  split; [apply length_tabulate |]. split; [apply dims2_tabulate2 |].
  split; apply length_tabulate.
Qed.

(** X15.  After [initializeFromUserData] the state holds the profile:
    the scalars are those of [user], the fund longevity and the cash
    reserve are 0, and in every year every account has its starting
    value and no distribution, the expense is the starting expense and
    the inflation the starting inflation; the growth rates are untouched
    and every array keeps its size.  ([CASH_RESERVE] being 0, the call of
    [addCashReserve] leaves the Individual account's value as it is.) *)
Theorem initializeFromUserData_profile
    (user : UserData) (a : Asset) (c i : nat) :
  dims_ok a ->
  in_long (get1 0 (value user) INDIVIDUAL_INDEX) ->
  (c < MAX_ACCOUNTS)%nat -> (i < MAX_YEARS)%nat ->
  let a' := initializeFromUserData user a in
  dims_ok a' /\
  fundLongevity_ a' = 0 /\ cashReserve_ a' = 0 /\
  yearsTillRetirement_ a' = yearsTillRetirement user /\
  takehomeIncome_ a' = takehomeIncome user /\
  contributionRoth_ a' = contributionRoth user /\
  contributionIra_ a' = contributionIra user /\
  contributionR401k_ a' = contributionR401k user /\
  get1 EmptyString (name_ a') c = get1 EmptyString (name user) c /\
  growthRateAvg_at a' c = get1 fzero (rate user) c /\
  value_at a' c i = get1 0 (value user) c /\
  distribution_at a' c i = 0 /\
  expense_at a' i = initialExpense user /\
  inflation_at a' i = initialInflation user /\
  growthRate_ a' = growthRate_ a.
Proof.
  intros Hd Hv Hc Hi. cbv zeta.
  rewrite initializeFromUserData_closed by done.
  split; [by apply dims_ok_initialized |].
  unfold growthRateAvg_at, value_at, distribution_at, expense_at, inflation_at,
    initialized.
  cbn [fundLongevity_ cashReserve_ yearsTillRetirement_ takehomeIncome_
       contributionRoth_ contributionIra_ contributionR401k_ name_
       growthRateAvg_ value_ distribution_ expense_ inflation_ growthRate_].
  rewrite !get2_tabulate2, !get1_tabulate by done.
  split_and!; try reflexivity.
  unfold year0_value, CASH_RESERVE. cbv zeta.
  destruct (_ && _) eqn:Hb; [| done].
  apply andb_true_iff in Hb as [Hb _]. apply Nat.eqb_eq in Hb. subst c.
  rewrite Z.sub_0_r. by apply wrap64_id.
Qed.

Lemma initializeFromUserData_profile_witness :
  value_at (initializeFromUserData plain_user Asset_ctor) ROTH_INDEX 7 = 12500.
Proof.
  destruct (initializeFromUserData_profile plain_user Asset_ctor ROTH_INDEX 7)
    as (_ & _ & _ & _ & _ & _ & _ & _ & _ & _ & H & _).
  - dims_tac.
  - vm_compute. split; discriminate.
  - unfold MAX_ACCOUNTS, ROTH_INDEX. lia.
  - unfold MAX_YEARS. lia.
  - exact H.
Defined.

(** ** [runSim]: one iteration does not depend on the one before *)

Lemma recession_pass_length rnd st :
  length (rr_growth (fst (recession_pass rnd st))) = length (rr_growth st).
Proof.
  unfold recession_pass. cbv zeta.
  destruct (_ >=? _); [cbn; by rewrite length_insert |].
  destruct (_ >=? _); cbn; by rewrite !length_insert.
Qed.

Lemma recession_loop_length rnd (fuel : nat) :
  forall st st',
    recession_loop fuel rnd st = Some st' ->
    length (rr_growth st') = length (rr_growth st).
Proof.
  induction fuel as [| fuel IH]; intros st st'; cbn [recession_loop].
  - destruct (_ <? _); [discriminate | by intros [= <-]].
  - destruct (_ <? _); [| by intros [= <-]].
    pose proof (recession_pass_length rnd st) as Hp.
    destruct (recession_pass rnd st) as [st1 broke]. cbn [fst] in Hp.
    destruct broke; [intros [= <-]; done |].
    intros H. by rewrite (IH _ _ H).
Qed.

Lemma scenarioRecessionRandomized_length rnd (growth_common g : list float32) :
  scenarioRecessionRandomized rnd growth_common = Some g ->
  length g = length growth_common.
Proof.
  unfold scenarioRecessionRandomized. cbv zeta.
  destruct (recession_loop _ _ _) as [st |] eqn:Hloop; [| discriminate].
  intros [= <-]. rewrite fill_years_length.
  rewrite (recession_loop_length _ _ _ _ Hloop). cbn [rr_growth].
  apply clear_curve_length.
Qed.

(** Two states with the same data apart from the growth rates that have
    all their growth rates overwritten alike are the same state. *)
Lemma growth_overwritten (a b a' b' : Asset) :
  set_growthRate_ (growthRate_ a) b = a ->
  set_growthRate_ (growthRate_ a) a' = a ->
  set_growthRate_ (growthRate_ b) b' = b ->
  dims2 (growthRate_ a') MAX_ACCOUNTS MAX_YEARS ->
  dims2 (growthRate_ b') MAX_ACCOUNTS MAX_YEARS ->
  (forall c n, (c < MAX_ACCOUNTS)%nat -> (n < MAX_YEARS)%nat ->
     growthRate_at a' c n = growthRate_at b' c n) ->
  a' = b'.
Proof.
  intros Hab Ha Hb Hda Hdb Hcells.
  assert (Hg : growthRate_ a' = growthRate_ b')
    by (by apply (matrix_ext fzero _ _ MAX_ACCOUNTS MAX_YEARS)).
  rewrite <- (set_growthRate_same a'), <- (set_growthRate_same b'), Hg.
  rewrite <- (set_growthRate_set _ (growthRate_ a) a'), Ha.
  rewrite <- (set_growthRate_set _ (growthRate_ b) b'), Hb.
  rewrite <- Hab. by rewrite set_growthRate_set.
Qed.

Lemma scale_growth_overwrites (common : list float32) (a b : Asset) :
  length common = MAX_YEARS ->
  dims2 (growthRate_ a) MAX_ACCOUNTS MAX_YEARS ->
  dims2 (growthRate_ b) MAX_ACCOUNTS MAX_YEARS ->
  set_growthRate_ (growthRate_ a) b = a ->
  scale_growth common a = scale_growth common b.
Proof.
  intros Hlen Hda Hdb Hab.
  destruct (scale_growth_spec common a Hda Hlen) as (Hsa & Hda' & Hca).
  destruct (scale_growth_spec common b Hdb Hlen) as (Hsb & Hdb' & Hcb).
  apply (growth_overwritten a b); try done.
  intros c n Hc Hn. rewrite Hca, Hcb by done.
  by rewrite (guessed_stock_ratio_ext a b c (growthRateAvg_kept _ _ Hab)).
Qed.

Lemma populate_constant_overwrites (a b : Asset) :
  dims2 (growthRate_ a) MAX_ACCOUNTS MAX_YEARS ->
  dims2 (growthRate_ b) MAX_ACCOUNTS MAX_YEARS ->
  set_growthRate_ (growthRate_ a) b = a ->
  populate_constant a = populate_constant b.
Proof.
  intros Hda Hdb Hab.
  destruct (populate_constant_spec a Hda) as (Hsa & Hda' & Hca).
  destruct (populate_constant_spec b Hdb) as (Hsb & Hdb' & Hcb).
  apply (growth_overwritten a b); try done.
  intros c n Hc Hn. rewrite Hca, Hcb by done.
  unfold growthRateAvg_at. by rewrite (growthRateAvg_kept _ _ Hab).
Qed.

(** [populateGrowthCurves] overwrites every growth rate: what the rates
    were before has no effect on the state it leaves. *)
Lemma populateGrowthCurves_overwrites rnd opt (a b : Asset) :
  dims2 (growthRate_ a) MAX_ACCOUNTS MAX_YEARS ->
  dims2 (growthRate_ b) MAX_ACCOUNTS MAX_YEARS ->
  set_growthRate_ (growthRate_ a) b = a ->
  populateGrowthCurves rnd opt a = populateGrowthCurves rnd opt b.
Proof.
  intros Hda Hdb Hab. unfold populateGrowthCurves. cbv zeta.
  destruct (opt =? CONSTANT) eqn:H0; cbn [negb].
  { by rewrite (populate_constant_overwrites a b). }
  destruct (opt =? PREDEFINED_YEAR0_LOSS) eqn:H1.
  { rewrite scenarioPredefinedYear0Loss_eq by apply length_replicate.
    by rewrite (scale_growth_overwrites RECESSION_YEAR0_LOSS a b eq_refl). }
  destruct (opt =? RECESSION_RANDOMIZED) eqn:H2.
  { destruct (scenarioRecessionRandomized rnd (replicate MAX_YEARS (of_Z 0)))
      as [g |] eqn:Hg; [| done].
    assert (Hlen : length g = MAX_YEARS).
    { rewrite (scenarioRecessionRandomized_length _ _ _ Hg).
      apply length_replicate. }
    by rewrite (scale_growth_overwrites g a b Hlen). }
  by rewrite (scale_growth_overwrites _ a b (length_replicate _ _)).
Qed.

(** *** The data members no function assigns *)

Lemma unassigned_addCashReserve cash c n a :
  unassigned_members (snd (addCashReserve cash c n a)) = unassigned_members a.
Proof. unfold addCashReserve. by destruct (_ >? _). Qed.

Lemma unassigned_retire i a :
  unassigned_members (retire i a) = unassigned_members a.
Proof. unfold retire. by destruct (_ =? _). Qed.

Lemma unassigned_cashPolicy i a :
  unassigned_members (cashPolicy i a) = unassigned_members a.
Proof.
  unfold cashPolicy. destruct (_ && _); [done |].
  destruct (_ && _); [apply unassigned_addCashReserve | done].
Qed.

Lemma unassigned_shortfall i net total a a' :
  shortfall i net total a = Some a' ->
  unassigned_members a' = unassigned_members a.
Proof.
  unfold shortfall. destruct (_ >? _); [| by intros [= <-]].
  destruct (_ <? _); [by intros [= <-] | discriminate].
Qed.

Lemma unassigned_distribute_account i pct a c :
  unassigned_members (distribute_account i pct a c) = unassigned_members a.
Proof. unfold distribute_account. cbv zeta. by destruct (_ <? _)%nat. Qed.

Lemma unassigned_distribute i pct a :
  unassigned_members (distribute i pct a) = unassigned_members a.
Proof.
  unfold distribute.
  rewrite (field_fold unassigned_members (distribute_account i pct)
             (fun x _ => x))
    by (intros; apply unassigned_distribute_account).
  apply fold_left_const.
Qed.

Lemma unassigned_contribute i contribution a :
  unassigned_members (contribute i contribution a) = unassigned_members a.
Proof. unfold contribute. by destruct (_ && _). Qed.

Lemma unassigned_inflate_expense i a :
  unassigned_members (inflate_expense i a) = unassigned_members a.
Proof. unfold inflate_expense. by destruct (_ <? _)%nat. Qed.

Lemma unassigned_inflate_reserve i a :
  unassigned_members (inflate_reserve i a) = unassigned_members a.
Proof. unfold inflate_reserve. by destruct (_ >? _). Qed.

Lemma unassigned_year_body i a :
  match year_body i a with
  | Continue a' | Break a' => unassigned_members a' = unassigned_members a
  end.
Proof.
  unfold year_body. cbv zeta.
  assert (H1 : unassigned_members (before_check i a) = unassigned_members a)
    by (unfold before_check; by rewrite unassigned_cashPolicy, unassigned_retire).
  destruct (shortfall _ _ _ _) as [a2 |] eqn:Hs; [| done].
  unfold after_check.
  by rewrite unassigned_inflate_reserve, unassigned_inflate_expense,
    unassigned_contribute, unassigned_distribute,
    (unassigned_shortfall _ _ _ _ _ Hs).
Qed.

Lemma unassigned_year_loop (remaining : nat) :
  forall i a,
    unassigned_members (snd (year_loop remaining i a)) = unassigned_members a.
Proof.
  induction remaining as [| k IH]; intros i a; cbn [year_loop]; [done |].
  pose proof (unassigned_year_body i a) as H.
  destruct (year_body i a) as [a' | a']; [by rewrite IH | done].
Qed.

Lemma unassigned_calculateN a :
  unassigned_members (calculateN a) = unassigned_members a.
Proof.
  unfold calculateN. pose proof (unassigned_year_loop MAX_YEARS 0 a) as H.
  by destruct (year_loop MAX_YEARS 0 a).
Qed.

Lemma dims_ok_growth a a' :
  set_growthRate_ (growthRate_ a) a' = a ->
  dims2 (growthRate_ a') MAX_ACCOUNTS MAX_YEARS ->
  dims_ok a -> dims_ok a'.
Proof.
  intros Hs Hd (_ & H). split; [exact Hd |]. rewrite <- Hs in H. exact H.
Qed.

(** [populateGrowthCurves] writes the growth rates and nothing else. *)
Lemma populateGrowthCurves_frame rnd opt a a' err :
  dims2 (growthRate_ a) MAX_ACCOUNTS MAX_YEARS ->
  populateGrowthCurves rnd opt a = Some (a', err) ->
  set_growthRate_ (growthRate_ a) a' = a /\
  dims2 (growthRate_ a') MAX_ACCOUNTS MAX_YEARS.
Proof.
  intros Hd. unfold populateGrowthCurves. cbv zeta.
  destruct (opt =? CONSTANT) eqn:H0; cbn [negb].
  { intros [= <- _]. by destruct (populate_constant_spec a Hd) as (? & ? & _). }
  destruct (opt =? PREDEFINED_YEAR0_LOSS) eqn:H1.
  { rewrite scenarioPredefinedYear0Loss_eq by apply length_replicate.
    intros [= <- _].
    by destruct (scale_growth_spec RECESSION_YEAR0_LOSS a Hd eq_refl)
      as (? & ? & _). }
  destruct (opt =? RECESSION_RANDOMIZED) eqn:H2.
  { destruct (scenarioRecessionRandomized rnd (replicate MAX_YEARS (of_Z 0)))
      as [g |] eqn:Hg; [| discriminate].
    assert (Hlen : length g = MAX_YEARS).
    { rewrite (scenarioRecessionRandomized_length _ _ _ Hg).
      apply length_replicate. }
    intros [= <- _].
    by destruct (scale_growth_spec g a Hd Hlen) as (? & ? & _). }
  intros [= <- _].
  by destruct (scale_growth_spec _ a Hd (length_replicate MAX_YEARS (of_Z 0)))
    as (? & ? & _).
Qed.

Lemma initialized_ext user a b :
  unassigned_members a = unassigned_members b ->
  set_growthRate_ (growthRate_ (initialized user a)) (initialized user b)
  = initialized user a.
Proof. unfold unassigned_members, initialized. by intros [= -> -> ->]. Qed.

(** The iteration of [runSim] from two states that differ in what
    [initializeFromUserData] and [populateGrowthCurves] overwrite. *)
Lemma runSim_iteration_ext rnd user opt (a b : Asset) :
  dims_ok a -> dims_ok b ->
  unassigned_members a = unassigned_members b ->
  runSim_iteration rnd user opt a = runSim_iteration rnd user opt b.
Proof.
  intros Ha Hb Hab. unfold runSim_iteration. cbv zeta.
  rewrite !initializeFromUserData_closed by done.
  pose proof (dims_ok_initialized user a Ha) as (Hda & _).
  pose proof (dims_ok_initialized user b Hb) as (Hdb & _).
  pose proof (initialized_ext user a b Hab) as Hext.
  revert Hda Hdb Hext.
  generalize (initialized user a) (initialized user b). intros a1 b1 Hda Hdb Hext.
  by rewrite (populateGrowthCurves_overwrites rnd opt a1 b1 Hda Hdb Hext).
Qed.

(** X16.  An iteration of the loop of [runSim] does not depend on the
    iteration before: it gives the same result from every state with
    arrays of the declared sizes and the same values of the three data
    members no function assigns; and the state an iteration leaves is
    such a state, so that the next iteration gives, for the same draws,
    what it would have given in place of this one. *)
Theorem runSim_iteration_no_carry_over
    (rnd : nat -> Z) (user : UserData) (opt : ModelOption) (a : Asset) :
  dims_ok a ->
  (forall b, dims_ok b -> unassigned_members b = unassigned_members a ->
     runSim_iteration rnd user opt b = runSim_iteration rnd user opt a) /\
  (forall longevity a' err,
     runSim_iteration rnd user opt a = Some (longevity, a', err) ->
     dims_ok a' /\ unassigned_members a' = unassigned_members a /\
     forall rnd',
       runSim_iteration rnd' user opt a' = runSim_iteration rnd' user opt a).
Proof.
  intros Ha. split.
  - intros b Hb Hab. by apply runSim_iteration_ext.
  - intros longevity a' err Hrun.
    unfold runSim_iteration in Hrun. cbv zeta in Hrun.
    rewrite initializeFromUserData_closed in Hrun by done.
    pose proof (dims_ok_initialized user a Ha) as Hd1.
    assert (Hu1 : unassigned_members (initialized user a)
                  = unassigned_members a) by reflexivity.
    revert Hd1 Hu1 Hrun. generalize (initialized user a).
    intros a1 Hd1 Hu1 Hrun.
    destruct (populateGrowthCurves rnd opt a1) as [[a2 err2] |] eqn:Hp;
      [| discriminate].
    injection Hrun as _ <- _.
    destruct (populateGrowthCurves_frame rnd opt a1 a2 err2
                ltac:(by destruct Hd1 as (?&_)) Hp) as [Hs2 Hd2].
    assert (Hd3 : dims_ok (calculateN a2))
      by (by apply dims_ok_calculateN, (dims_ok_growth a1 a2)).
    assert (Hu3 : unassigned_members (calculateN a2) = unassigned_members a).
    { rewrite unassigned_calculateN, <- Hu1, <- Hs2. reflexivity. }
    split; [exact Hd3 |]. split; [exact Hu3 |].
    intros rnd'. apply runSim_iteration_ext; [exact Hd3 | exact Ha | exact Hu3].
Qed.

Lemma runSim_iteration_no_carry_over_witness :
  runSim_iteration rnd_const plain_user CONSTANT ConstantNoGrowthModel
  = runSim_iteration rnd_const plain_user CONSTANT Asset_ctor.
Proof.
  destruct (runSim_iteration_no_carry_over rnd_const plain_user CONSTANT
              Asset_ctor) as [H _].
  - dims_tac.
  - apply H; [dims_tac | reflexivity].
Defined.

(** ** [runSim] and [groupResultsAndDisplay] *)

Lemma sum_insert (l : list Z) (i : nat) (x : Z) :
  (i < length l)%nat ->
  fold_right Z.add 0 (<[i := x]> l) = fold_right Z.add 0 l - get1 0 l i + x.
Proof.
  revert i. induction l as [| y l IH]; intros i Hi; [cbn in Hi; lia |].
  destruct i as [| i].
  - change (fold_right Z.add 0 (x :: l)
            = fold_right Z.add 0 (y :: l) - y + x).
    cbn [fold_right]. lia.
  - change (fold_right Z.add 0 (y :: <[i := x]> l)
            = fold_right Z.add 0 (y :: l) - get1 0 l i + x).
    cbn [fold_right]. cbn [length] in Hi. rewrite IH by lia. lia.
Qed.

Lemma bin_of_range (r : Z) :
  0 <= r <= Z.of_nat MAX_YEARS ->
  bin_of r = r / RESULT_BINS_WIDTH /\
  0 <= bin_of r < Z.of_nat BINS_COUNT.
Proof.
  intros Hr. unfold bin_of, MAX_YEARS, RESULT_BINS_WIDTH in *.
  change (Z.of_nat BINS_COUNT) with 6. change (Z.of_nat 50) with 50 in Hr.
  rewrite to_unsigned_small by lia.
  assert (0 <= r / 10 < 6)
    by (split; [apply Z.div_pos; lia | apply Z.div_lt_upper_bound; lia]).
  rewrite wrap32_small by lia. lia.
Qed.

Lemma count_result_in (bins : list Z) (r : Z) :
  0 <= bin_of r < Z.of_nat (length bins) ->
  0 <= get1 0 bins (Z.to_nat (bin_of r)) < 2 ^ 32 - 1 ->
  count_result bins r
  = <[Z.to_nat (bin_of r) := get1 0 bins (Z.to_nat (bin_of r)) + 1]> bins.
Proof.
  intros Hb Hc. unfold count_result. cbv zeta.
  rewrite (proj2 (andb_true_iff _ _))
    by (split; [apply Z.leb_le | apply Z.ltb_lt]; lia).
  by rewrite to_unsigned_small by lia.
Qed.

(** The loop of lines 46-49 over the iterations of [l]. *)
Lemma count_results_spec (results : list Z) (l : list nat) :
  (forall iter, iter ∈ l -> 0 <= get1 0 results iter <= Z.of_nat MAX_YEARS) ->
  forall bins0,
    length bins0 = BINS_COUNT ->
    (forall b, 0 <= get1 0 bins0 b /\
               get1 0 bins0 b + Z.of_nat (length l) < 2 ^ 32) ->
    let bins :=
      fold_left (fun bins iter => count_result bins (get1 0 results iter))
        l bins0 in
    length bins = BINS_COUNT /\
    fold_right Z.add 0 bins = fold_right Z.add 0 bins0 + Z.of_nat (length l) /\
    forall b,
      get1 0 bins b
      = get1 0 bins0 b
        + Z.of_nat
            (length
               (filter
                  (fun iter =>
                     get1 0 results iter / RESULT_BINS_WIDTH = Z.of_nat b)
                  l)).
Proof.
  induction l as [| iter l IH]; intros Hres bins0 Hlen Hb; cbn [fold_left].
  - split; [done |]. split; [cbn; lia |]. intros b. cbn. lia.
  - destruct (bin_of_range (get1 0 results iter)) as [Hbin Hrange];
      [apply Hres; by left |].
    pose (k := Z.to_nat (bin_of (get1 0 results iter))).
    assert (Hk : (k < length bins0)%nat) by (rewrite Hlen; lia).
    destruct (Hb k) as [Hk0 Hk1]. cbn [length] in Hk1.
    rewrite count_result_in by (fold k; lia). fold k.
    destruct (IH (fun j Hj => Hres j (list_elem_of_further _ _ _ Hj))
                (<[k := get1 0 bins0 k + 1]> bins0)) as (Hlen' & Hsum & Hcnt).
    { by rewrite length_insert. }
    { intros b. destruct (decide (b = k)) as [-> | Hne].
      - rewrite get1_insert_eq by done. lia.
      - rewrite get1_insert_ne by done. destruct (Hb b). cbn [length] in *.
        lia. }
    cbv zeta in Hlen', Hsum, Hcnt. cbv zeta.
    split; [exact Hlen' |]. split.
    + rewrite Hsum, sum_insert by done. cbn [length]. lia.
    + intros b. rewrite Hcnt. rewrite filter_cons.
      destruct (decide (b = k)) as [-> | Hne].
      * rewrite get1_insert_eq by done.
        rewrite decide_True by (subst k; lia). cbn [length]. lia.
      * rewrite get1_insert_ne by done.
        rewrite decide_False by (subst k; lia). done.
Qed.

Lemma get1_replicate_zero (n b : nat) : get1 0 (replicate n 0) b = 0.
Proof.
  unfold get1. destruct (decide (b < n)%nat).
  - by rewrite lookup_replicate_2.
  - by rewrite (proj2 (lookup_ge_None _ _)) by (rewrite length_replicate; lia).
Qed.

Lemma resultsBins_spec (results : list Z) :
  (forall iter, (iter < ITERATIONS)%nat ->
     0 <= get1 0 results iter <= Z.of_nat MAX_YEARS) ->
  length (resultsBins results) = BINS_COUNT /\
  fold_right Z.add 0 (resultsBins results) = Z.of_nat ITERATIONS /\
  forall b,
    get1 0 (resultsBins results) b = Z.of_nat (runs_in_bin results b).
Proof.
  intros Hres.
  destruct (count_results_spec results (seq 0 ITERATIONS)
              ltac:(intros iter Hi; apply Hres; apply elem_of_seq in Hi; lia)
              (replicate BINS_COUNT 0) ltac:(apply length_replicate))
    as (Hlen & Hsum & Hcnt).
  { intros b. rewrite get1_replicate_zero, length_seq.
    unfold ITERATIONS. lia. }
  cbv zeta in Hlen, Hsum, Hcnt. unfold resultsBins.
  split; [exact Hlen |]. split.
  - rewrite Hsum, length_seq. by vm_compute.
  - intros b. rewrite Hcnt, get1_replicate_zero. done.
Qed.

Lemma populateGrowthCurves_returns rnd opt a :
  (opt = RECESSION_RANDOMIZED -> draws_ok rnd) ->
  exists a' err,
    populateGrowthCurves rnd opt a = Some (a', err) /\
    (opt = CONSTANT \/ opt = PREDEFINED_YEAR0_LOSS \/
     opt = RECESSION_RANDOMIZED -> err = []).
Proof.
  intros Hrnd. unfold populateGrowthCurves. cbv zeta.
  destruct (opt =? CONSTANT) eqn:H0; cbn [negb].
  { eexists _, _. split; [reflexivity | done]. }
  destruct (opt =? PREDEFINED_YEAR0_LOSS) eqn:H1.
  { eexists _, _. split; [reflexivity | done]. }
  destruct (opt =? RECESSION_RANDOMIZED) eqn:H2.
  { apply Z.eqb_eq in H2.
    destruct (scenarioRecessionRandomized_returns rnd
                (replicate MAX_YEARS (of_Z 0)) (Hrnd H2))
      as (g & -> & _); [apply length_replicate |].
    eexists _, _. split; [reflexivity | done]. }
  eexists _, _. split; [reflexivity |].
  apply Z.eqb_neq in H0, H1, H2. intros [? | [? | ?]]; done.
Qed.

Lemma populateGrowthCurves_no_draws rnd rnd' opt a :
  opt ≠ RECESSION_RANDOMIZED ->
  populateGrowthCurves rnd opt a = populateGrowthCurves rnd' opt a.
Proof.
  intros Hopt. unfold populateGrowthCurves. cbv zeta.
  destruct (opt =? CONSTANT); [done |].
  destruct (opt =? PREDEFINED_YEAR0_LOSS); [done |].
  by rewrite (proj2 (Z.eqb_neq _ _) Hopt).
Qed.

(** An iteration of the loop of [runSim] returns, with a fund longevity
    between 0 and [MAX_YEARS]. *)
Lemma runSim_iteration_returns rnd user opt a :
  dims_ok a ->
  (opt = RECESSION_RANDOMIZED -> draws_ok rnd) ->
  exists longevity a' err,
    runSim_iteration rnd user opt a = Some (longevity, a', err) /\
    longevity = fundLongevity_ a' /\
    0 <= longevity <= Z.of_nat MAX_YEARS /\
    dims_ok a' /\
    (opt = CONSTANT \/ opt = PREDEFINED_YEAR0_LOSS \/
     opt = RECESSION_RANDOMIZED -> err = []).
Proof.
  intros Ha Hrnd. unfold runSim_iteration. cbv zeta.
  rewrite initializeFromUserData_closed by done.
  pose proof (dims_ok_initialized user a Ha) as Hd1. revert Hd1.
  generalize (initialized user a). intros a1 Hd1.
  destruct (populateGrowthCurves_returns rnd opt a1 Hrnd)
    as (a2 & err & Hp & Herr).
  rewrite Hp.
  destruct (populateGrowthCurves_frame rnd opt a1 a2 err
              ltac:(by destruct Hd1 as (?&_)) Hp) as [Hs2 Hd2].
  eexists _, _, _. split; [reflexivity |]. split; [reflexivity |].
  split; [| split; [by apply dims_ok_calculateN, (dims_ok_growth a1 a2) | done]].
  unfold getFundLongevity.
  pose proof (year_loop_index MAX_YEARS 0 a2) as H. unfold calculateN.
  destruct (year_loop MAX_YEARS 0 a2) as [i a3]. cbn in *. lia.
Qed.

(** The loop of [runSim]: every iteration stores a fund longevity
    between 0 and [MAX_YEARS] in its entry of [results]. *)
Lemma runSim_loop_spec rnd user opt (iters : nat) :
  (opt = RECESSION_RANDOMIZED -> forall k, draws_ok (rnd k)) ->
  forall iter a results,
    dims_ok a ->
    (iter + iters <= length results)%nat ->
    exists results' a' err,
      runSim_loop iters iter rnd user opt a results = Some (results', a', err) /\
      length results' = length results /\
      dims_ok a' /\
      (forall j, (iter <= j < iter + iters)%nat ->
         0 <= get1 0 results' j <= Z.of_nat MAX_YEARS) /\
      (forall j, (j < iter)%nat -> get1 0 results' j = get1 0 results j) /\
      (iters = 0%nat -> a' = a) /\
      ((0 < iters)%nat ->
       get1 0 results' (iter + iters - 1) = fundLongevity_ a') /\
      (opt = CONSTANT \/ opt = PREDEFINED_YEAR0_LOSS \/
       opt = RECESSION_RANDOMIZED -> err = []).
Proof.
  intros Hrnd. induction iters as [| iters IH]; intros iter a results Ha Hlen;
    cbn [runSim_loop].
  - eexists _, _, _. split; [reflexivity |]. split; [done |]. split; [done |].
    split; [intros j Hj; lia |]. split; [done |]. split; [done |].
    split; [lia | done].
  - destruct (runSim_iteration_returns (rnd iter) user opt a Ha
                (fun H => Hrnd H iter))
      as (l & a1 & err & -> & Hl & Hrange & Ha1 & Herr).
    destruct (IH (S iter) a1 (<[iter := l]> results) Ha1)
      as (results' & a' & errs & -> & Hlen' & Ha' & Hnew & Hold & Hzero
          & Hlast & Herrs).
    { rewrite length_insert. lia. }
    rewrite length_insert in Hlen'.
    eexists _, _, _. split; [reflexivity |]. split; [done |]. split; [done |].
    assert (Hiter : get1 0 results' iter = l).
    { rewrite Hold by lia. apply get1_insert_eq. lia. }
    split; [| split; [| split; [| split]]].
    + intros j Hj. destruct (decide (j = iter)) as [-> | Hne].
      * by rewrite Hiter.
      * apply Hnew. lia.
    + intros j Hj. rewrite Hold by lia. apply get1_insert_ne. lia.
    + lia.
    + intros _. destruct iters as [| iters].
      * replace (iter + 1 - 1)%nat with iter by lia.
        by rewrite Hiter, (Hzero eq_refl).
      * replace (iter + S (S iters) - 1)%nat
          with (S iter + S iters - 1)%nat by lia.
        apply Hlast. lia.
    + intros Hopt. by rewrite (Herr Hopt), (Herrs Hopt).
Qed.

(** X17.  [runSim] with the randomized option and draws in range: each
    of the [ITERATIONS] iterations stores a fund longevity between 0 and
    [MAX_YEARS]; every bin index is inside [resultsBins], whose
    [BINS_COUNT] counts add up to [ITERATIONS]; bin [b] counts the
    iterations whose longevity divided by [RESULT_BINS_WIDTH] is [b], so
    the last bin counts the runs in which the fund lasted all
    [MAX_YEARS] years; nothing is written to [std::cerr]. *)
Theorem runSim_randomized_bins
    (rnd : nat -> nat -> Z) (user : UserData) (results : list Z) :
  (forall k, draws_ok (rnd k)) ->
  length results = ITERATIONS ->
  exists (results' : list Z) (a' : Asset) (bins : list Z),
    runSim_loop ITERATIONS 0 rnd user RECESSION_RANDOMIZED Asset_ctor results
      = Some (results', a', []) /\
    (forall iter, (iter < ITERATIONS)%nat ->
       0 <= get1 0 results' iter <= Z.of_nat MAX_YEARS /\
       0 <= bin_of (get1 0 results' iter) < Z.of_nat BINS_COUNT) /\
    runSim rnd user RECESSION_RANDOMIZED results = Some (Binned bins, []) /\
    length bins = BINS_COUNT /\
    fold_right Z.add 0 bins = Z.of_nat ITERATIONS /\
    (forall b, get1 0 bins b = Z.of_nat (runs_in_bin results' b)) /\
    (forall iter, (iter < ITERATIONS)%nat ->
       bin_of (get1 0 results' iter) = Z.of_nat BINS_COUNT - 1 <->
       get1 0 results' iter = Z.of_nat MAX_YEARS).
Proof.
  intros Hrnd Hlen.
  destruct (runSim_loop_spec rnd user RECESSION_RANDOMIZED ITERATIONS
              (fun _ => Hrnd) 0%nat Asset_ctor results)
    as (results' & a' & err & Hloop & Hlen' & _ & Hnew & _ & _ & _ & Herr).
  { dims_tac. }
  { rewrite Hlen. cbn. lia. }
  rewrite Herr in Hloop by auto.
  assert (Hres : forall iter, (iter < ITERATIONS)%nat ->
            0 <= get1 0 results' iter <= Z.of_nat MAX_YEARS)
    by (intros iter Hi; apply Hnew; lia).
  destruct (resultsBins_spec results' Hres) as (Hbl & Hsum & Hcnt).
  exists results', a', (resultsBins results').
  split; [exact Hloop |]. split.
  { intros iter Hi. split; [by apply Hres |]. by apply bin_of_range, Hres. }
  split.
  { unfold runSim. cbv zeta.
    change (RECESSION_RANDOMIZED =? RECESSION_RANDOMIZED) with true. cbv iota.
    by rewrite Hloop. }
  split; [exact Hbl |]. split; [exact Hsum |]. split; [exact Hcnt |].
  intros iter Hi. specialize (Hres iter Hi).
  destruct (bin_of_range _ Hres) as [-> _].
  unfold RESULT_BINS_WIDTH, MAX_YEARS in *.
  change (Z.of_nat BINS_COUNT) with 6. change (Z.of_nat 50) with 50 in *.
  split; intros H.
  - pose proof (Z.mul_div_le (get1 0 results' iter) 10 ltac:(lia)). lia.
  - rewrite H. reflexivity.
Qed.

Lemma runSim_randomized_bins_witness :
  exists bins : list Z,
    runSim (fun _ => rnd_const) plain_user RECESSION_RANDOMIZED
      (replicate ITERATIONS 0) = Some (Binned bins, []) /\
    fold_right Z.add 0 bins = Z.of_nat ITERATIONS.
Proof.
  destruct (runSim_randomized_bins (fun _ => rnd_const) plain_user
              (replicate ITERATIONS 0))
    as (results' & a' & bins & _ & _ & Hrun & _ & Hsum & _).
  - intros _ k. unfold rnd_const, RANDOM_NUM_MIN, RANDOM_NUM_MAX. lia.
  - apply length_replicate.
  - exists bins. split; [exact Hrun | exact Hsum].
Defined.

(** X18.  [runSim] with the constant or the predefined option runs one
    iteration from a freshly constructed [Asset] and reports its fund
    longevity, a number between 0 and [MAX_YEARS]; the report depends
    neither on the random source nor on what the array [results] held,
    and nothing is written to [std::cerr]. *)
Theorem runSim_single (rnd : nat -> nat -> Z) (user : UserData)
    (opt : ModelOption) :
  opt = CONSTANT \/ opt = PREDEFINED_YEAR0_LOSS ->
  exists (longevity : Z) (a' : Asset),
    runSim_iteration (rnd 0%nat) user opt Asset_ctor
      = Some (longevity, a', []) /\
    0 <= longevity <= Z.of_nat MAX_YEARS /\
    forall rnd' results',
      runSim rnd' user opt results' = Some (Simple longevity, []).
Proof.
  intros Hopt.
  assert (Hnr : opt ≠ RECESSION_RANDOMIZED)
    by (destruct Hopt as [-> | ->]; discriminate).
  assert (Hd : dims_ok Asset_ctor) by dims_tac.
  destruct (runSim_iteration_returns (rnd 0%nat) user opt Asset_ctor Hd)
    as (l & a1 & err & Hit & Hl & Hrange & _ & Herr); [done |].
  rewrite Herr in Hit by tauto. clear Herr err.
  exists l, a1. split; [exact Hit |]. split; [exact Hrange |].
  intros rnd' results'. unfold runSim. cbv zeta.
  rewrite (proj2 (Z.eqb_neq _ _) Hnr). cbn [runSim_loop].
  assert (Hit' : runSim_iteration (rnd' 0%nat) user opt Asset_ctor
                 = Some (l, a1, [])).
  { rewrite <- Hit. unfold runSim_iteration. cbv zeta.
    by rewrite (populateGrowthCurves_no_draws (rnd' 0%nat) (rnd 0%nat)). }
  rewrite Hit'. unfold getFundLongevity. rewrite <- Hl.
  by destruct Hopt as [-> | ->].
Qed.

Lemma runSim_single_witness :
  exists longevity : Z,
    runSim (fun _ => rnd_const) plain_user CONSTANT (replicate ITERATIONS 0)
      = Some (Simple longevity, []).
Proof.
  destruct (runSim_single (fun _ => rnd_const) plain_user CONSTANT)
    as (l & a' & _ & _ & H).
  - by left.
  - exists l. apply H.
Defined.

(** ** The first year of a run *)

Lemma cashPolicy_year_0 a : cashPolicy 0 a = a.
Proof. reflexivity. Qed.

Lemma retire_arrays i a :
  availability_ (retire i a) = availability_ a /\
  value_ (retire i a) = value_ a /\
  takehomeIncome_ (retire i a)
  = (if Z.of_nat i =? yearsTillRetirement_ a then 0 else takehomeIncome_ a).
Proof. unfold retire. by destruct (_ =? _). Qed.

(** The distributable total when the Individual account alone is
    available. *)
Lemma distributable_total_individual i a :
  availability_at a INDIVIDUAL_INDEX i = true ->
  availability_at a ROTH_INDEX i = false ->
  availability_at a IRA_INDEX i = false ->
  availability_at a R401K_INDEX i = false ->
  in_long (value_at a INDIVIDUAL_INDEX i) ->
  distributable_total i a = value_at a INDIVIDUAL_INDEX i.
Proof.
  intros H0 H1 H2 H3 Hv. unfold distributable_total.
  change (seq 0 MAX_ACCOUNTS)
    with [INDIVIDUAL_INDEX; ROTH_INDEX; IRA_INDEX; R401K_INDEX].
  cbn [fold_left]. rewrite H0, H1, H2, H3. by apply wrap64_id.
Qed.

Lemma year_loop_step remaining i a :
  year_loop (S remaining) i a
  = match year_body i a with
    | Break a' => (i, a')
    | Continue a' => year_loop remaining (S i) a'
    end.
Proof. reflexivity. Qed.

(** The state [calculateN] starts from in an iteration of [runSim]. *)
Lemma year0_of_initialized user a a2 :
  set_growthRate_ (growthRate_ (initialized user a)) a2 = initialized user a ->
  cashReserve_ a2 = 0 /\
  yearsTillRetirement_ a2 = yearsTillRetirement user /\
  takehomeIncome_ a2 = takehomeIncome user /\
  expense_at a2 0 = initialExpense user /\
  value_at a2 INDIVIDUAL_INDEX 0 = year0_value user INDIVIDUAL_INDEX /\
  availability_at a2 INDIVIDUAL_INDEX 0 = true /\
  availability_at a2 ROTH_INDEX 0 = false /\
  availability_at a2 IRA_INDEX 0 = false /\
  availability_at a2 R401K_INDEX 0 = false.
Proof.
  intros Hs.
  assert (Hc : cashReserve_ a2 = cashReserve_ (initialized user a))
    by (by rewrite <- Hs).
  assert (Hy : yearsTillRetirement_ a2
               = yearsTillRetirement_ (initialized user a))
    by (by rewrite <- Hs).
  assert (Ht : takehomeIncome_ a2 = takehomeIncome_ (initialized user a))
    by (by rewrite <- Hs).
  assert (He : expense_ a2 = expense_ (initialized user a))
    by (by rewrite <- Hs).
  assert (Hv : value_ a2 = value_ (initialized user a)) by (by rewrite <- Hs).
  assert (Ha : availability_ a2 = availability_ (initialized user a))
    by (by rewrite <- Hs).
  unfold expense_at, value_at, availability_at.
  rewrite Hc, Hy, Ht, He, Hv, Ha. unfold initialized.
  cbn [cashReserve_ yearsTillRetirement_ takehomeIncome_ expense_ value_
       availability_].
  rewrite get1_tabulate by (unfold MAX_YEARS; lia).
  rewrite !get2_tabulate2
    by (unfold MAX_ACCOUNTS, MAX_YEARS, INDIVIDUAL_INDEX, ROTH_INDEX,
          IRA_INDEX, R401K_INDEX; lia).
  by split_and!.
Qed.

(** X21.  The fund fails in year 0 exactly when the year's net expense
    exceeds the starting value of the Individual account: in an
    iteration of [runSim] the fund longevity is 0 if and only if the
    starting expense less the take-home income (no income when the year
    of retirement is 0), if positive, is larger than that value.  The
    other accounts, closed in year 0, and the growth rates play no
    part. *)
Theorem fund_fails_in_year_0
    (rnd : nat -> Z) (user : UserData) (opt : ModelOption) (a : Asset)
    (longevity : Z) (a' : Asset) (err : list string) :
  dims_ok a ->
  in_int (initialExpense user) ->
  in_int (takehomeIncome user) ->
  in_long (get1 0 (value user) INDIVIDUAL_INDEX) ->
  runSim_iteration rnd user opt a = Some (longevity, a', err) ->
  let income :=
    if yearsTillRetirement user =? 0 then 0 else takehomeIncome user in
  longevity = 0 <->
  Z.max (initialExpense user - income) 0
    > get1 0 (value user) INDIVIDUAL_INDEX.
Proof.
  intros Ha HE HT HV Hrun. cbv zeta.
  unfold runSim_iteration in Hrun. cbv zeta in Hrun.
  rewrite initializeFromUserData_closed in Hrun by done.
  pose proof (dims_ok_initialized user a Ha) as (Hd1 & _).
  destruct (populateGrowthCurves rnd opt (initialized user a))
    as [[a2 err2] |] eqn:Hp; [| discriminate].
  destruct (populateGrowthCurves_frame rnd opt _ a2 err2 Hd1 Hp) as [Hs2 _].
  destruct (year0_of_initialized user a a2 Hs2)
    as (Hc & Hy & Ht & He & Hv & H0 & H1 & H2 & H3).
  clear Hp Hs2 Hd1. injection Hrun as <- _ _.
  assert (Hv0 : year0_value user INDIVIDUAL_INDEX
                = get1 0 (value user) INDIVIDUAL_INDEX).
  { unfold year0_value, CASH_RESERVE. cbv zeta. rewrite Z.sub_0_r.
    rewrite wrap64_id by done. by destruct (_ && _). }
  rewrite Hv0 in Hv. clear Hv0.
  (* the state at the shortfall check of year 0 *)
  pose proof (before_check_no_reserve 0 a2 Hc) as [Hc3 He3].
  assert (Hb : before_check 0 a2 = retire 0 a2)
    by (unfold before_check; apply cashPolicy_year_0).
  destruct (retire_arrays 0 a2) as (Hra & Hrv & Hrt).
  rewrite <- Hb in Hra, Hrv, Hrt.
  assert (Htotal : distributable_total 0 (before_check 0 a2)
                   = get1 0 (value user) INDIVIDUAL_INDEX).
  { assert (Hv3 : value_at (before_check 0 a2) INDIVIDUAL_INDEX 0
                   = get1 0 (value user) INDIVIDUAL_INDEX)
      by (unfold value_at; rewrite Hrv; exact Hv).
    rewrite distributable_total_individual;
      [exact Hv3 | unfold availability_at; by rewrite Hra ..
      | by rewrite Hv3]. }
  assert (Hnet : net_expense 0 (before_check 0 a2)
                 = Z.max (initialExpense user
                          - (if yearsTillRetirement user =? 0 then 0
                             else takehomeIncome user)) 0).
  { unfold net_expense, expense_at. rewrite He3, Hrt, Hy, Ht.
    fold (expense_at a2 0). rewrite He.
    change (Z.of_nat 0) with 0. rewrite (Z.eqb_sym 0).
    rewrite wrap64_id; [done |].
    unfold in_int, in_long, INT_MIN, INT_MAX, LONG_MIN, LONG_MAX in *.
    destruct (yearsTillRetirement user =? 0); lia. }
  unfold getFundLongevity, calculateN.
  change MAX_YEARS with (S 49). rewrite year_loop_step.
  unfold year_body. cbv zeta.
  rewrite (shortfall_no_reserve 0 _ Hc3), Htotal, Hnet.
  set (net := Z.max _ 0). set (v := get1 0 (value user) INDIVIDUAL_INDEX).
  destruct (net >? v) eqn:Hgt.
  - cbn [fundLongevity_ set_fundLongevity_]. change (Z.of_nat 0) with 0.
    apply Z.gtb_lt in Hgt. split; [lia | done].
  - match goal with
    | |- context [year_loop 49 1 ?b] =>
        pose proof (year_loop_index 49 1 b) as Hidx;
        destruct (year_loop 49 1 b) as [i b']
    end.
    cbn [fst] in Hidx. cbn [fundLongevity_ set_fundLongevity_].
    assert (Hle : net <= v)
      by (destruct (Z.gtb_spec net v); [discriminate | lia]).
    split; lia.
Qed.

Lemma fund_fails_in_year_0_witness :
  50 = 0 <-> Z.max (1000 - 0) 0 > 12500.
Proof.
  eapply (fund_fails_in_year_0 rnd_const plain_user CONSTANT Asset_ctor 50).
  - dims_tac.
  - vm_compute. split; discriminate.
  - vm_compute. split; discriminate.
  - vm_compute. split; discriminate.
  - vm_compute. reflexivity.
Defined.

(** ** [userDataWithinBounds] *)

Lemma b2n_le_1 (b : bool) : (Nat.b2n b <= 1)%nat.
Proof. by destruct b; cbn; lia. Qed.

Lemma b2n_zero (b : bool) : Nat.b2n b = 0%nat <-> b = false.
Proof. by destruct b. Qed.

Lemma report_counted bad line st n :
  counted st n -> (n < 100)%nat ->
  counted (report bad line st) (n + Nat.b2n bad).
Proof.
  intros (H1 & H2 & H3) Hn. unfold report, counted.
  destruct bad; cbn [fst snd Nat.b2n].
  - rewrite H1, to_unsigned_small by lia.
    rewrite length_app, H2. cbn [length]. lia.
  - rewrite Nat.add_0_r. done.
Qed.

(** The loop over the accounts of [l]. *)
Lemma accounts_counted user (l : list nat) :
  forall st n,
    counted st n -> (n + 2 * length l < 100)%nat ->
    let m := fold_right Nat.add 0%nat (map (account_out_of_bounds user) l) in
    counted (fold_left (account_bounds user) l st) (n + m) /\
    (m <= 2 * length l)%nat /\
    (m = 0%nat <->
     forall c, c ∈ l ->
       0 <= get1 0 (value user) c /\
       outside_float (get1 fzero (rate user) c) MAX_AVG_GROWTH = false).
Proof.
  induction l as [| c l IH]; intros st n Hst Hn; cbn [fold_left map fold_right].
  - cbv zeta. rewrite Nat.add_0_r. split; [done |]. split; [cbn; lia |].
    split; [| done]. intros _ c Hc. by apply elem_of_nil in Hc.
  - cbn [length] in Hn. unfold account_bounds at 2. cbv zeta.
    set (m := fold_right Nat.add 0%nat (map (account_out_of_bounds user) l)).
    unfold account_out_of_bounds.
    set (b1 := get1 0 (value user) c <? 0).
    set (b2 := outside_float (get1 fzero (rate user) c) MAX_AVG_GROWTH).
    pose proof (b2n_le_1 b1) as Hb1. pose proof (b2n_le_1 b2) as Hb2.
    match goal with
    | |- context [report b2 ?l2 (report b1 ?l1 st)] =>
        pose proof (report_counted b1 l1 st n Hst ltac:(lia)) as H1;
        pose proof (report_counted b2 l2 _ _ H1 ltac:(lia)) as H2
    end.
    match type of H2 with
    | counted ?s _ => destruct (IH s _ H2 ltac:(lia)) as (Hm & Hle & Hiff)
    end.
    fold m in Hm, Hle, Hiff.
    split; [by rewrite !Nat.add_assoc |]. split; [cbn [length]; lia |].
    split.
    + intros H0 c' Hc'.
      assert (Hz1 : Nat.b2n b1 = 0%nat) by lia.
      assert (Hz2 : Nat.b2n b2 = 0%nat) by lia.
      apply b2n_zero in Hz1, Hz2.
      apply elem_of_cons in Hc' as [-> | Hc'].
      * split; [by apply Z.ltb_ge | done].
      * apply Hiff; [lia | done].
    + intros H.
      destruct (H c ltac:(by left)) as [Hv Hr].
      assert (Hm0 : m = 0%nat)
        by (apply Hiff; intros c' Hc'; apply H; by right).
      subst b1 b2. rewrite (proj2 (Z.ltb_ge _ _) Hv), Hr, Hm0. done.
Qed.

(** The ten tests after the loop. *)
Lemma reports_counted b1 b2 b3 b4 b5 b6 b7 b8 b9 b10
    l1 l2 l3 l4 l5 l6 l7 l8 l9 l10 st n :
  counted st n -> (n < 50)%nat ->
  counted
    (report b10 l10
       (report b9 l9
          (report b8 l8
             (report b7 l7
                (report b6 l6
                   (report b5 l5
                      (report b4 l4
                         (report b3 l3 (report b2 l2 (report b1 l1 st))))))))))
    (n + Nat.b2n b1 + Nat.b2n b2 + Nat.b2n b3 + Nat.b2n b4 + Nat.b2n b5
     + Nat.b2n b6 + Nat.b2n b7 + Nat.b2n b8 + Nat.b2n b9 + Nat.b2n b10).
Proof.
  intros Hst Hn.
  pose proof (b2n_le_1 b1). pose proof (b2n_le_1 b2). pose proof (b2n_le_1 b3).
  pose proof (b2n_le_1 b4). pose proof (b2n_le_1 b5). pose proof (b2n_le_1 b6).
  pose proof (b2n_le_1 b7). pose proof (b2n_le_1 b8). pose proof (b2n_le_1 b9).
  repeat (apply report_counted; [| lia]). exact Hst.
Qed.

(** X19.  [userDataWithinBounds] returns [true] exactly when every
    tested number is within its bounds, and exactly when it writes no
    line to [std::cerr].  It writes one line for each number out of
    bounds: the lines on [std::cerr] are as many as the tests the
    profile fails, at most 18; and when there are any, one line on
    [std::cout] gives that count.  (A rate or inflation that is not a
    number is neither below 0 nor above its bound, and passes.) *)
Theorem userDataWithinBounds_spec (user : UserData)
    (pensionEstimate yearsTillWithdrawal yearsTillPension : Z) :
  let result :=
    userDataWithinBounds user pensionEstimate yearsTillWithdrawal
      yearsTillPension in
  let ok := fst (fst result) in
  let cerr := snd (fst result) in
  let cout := snd result in
  let n :=
    out_of_bounds user pensionEstimate yearsTillWithdrawal yearsTillPension in
  (ok = true <->
   within_bounds user pensionEstimate yearsTillWithdrawal yearsTillPension) /\
  (ok = true <-> cerr = []) /\
  (ok = true <-> n = 0%nat) /\
  length cerr = n /\
  (n <= 18)%nat /\
  cout =
    (if ok then []
     else [("Please correct these " ++ decimal (Z.of_nat n)
            ++ " out-of-bounds number(s) in your user_profile.ini file.")
           %string]).
Proof.
  cbv zeta. unfold userDataWithinBounds, out_of_bounds. cbv zeta.
  destruct (accounts_counted user (seq 0 MAX_ACCOUNTS) (0, []) 0%nat)
    as (Hm & Hle & Hiff).
  { unfold counted. cbn. lia. }
  { rewrite length_seq. unfold MAX_ACCOUNTS. lia. }
  rewrite length_seq in Hle.
  set (m := fold_right Nat.add 0%nat
              (map (account_out_of_bounds user) (seq 0 MAX_ACCOUNTS))) in *.
  change (2 * MAX_ACCOUNTS)%nat with 8%nat in Hle.
  clearbody m.
  set (st0 := fold_left (account_bounds user) (seq 0 MAX_ACCOUNTS) (0, [])) in *.
  clearbody st0.
  set (b1 := initialExpense user <? 0).
  set (b2 := takehomeIncome user <? 0).
  set (b3 := outside (contributionRoth user) MAX_ROTH_CONTRIBUTION).
  set (b4 := outside (contributionIra user) MAX_IRA_CONTRIBUTION).
  set (b5 := outside (contributionR401k user) MAX_R401K_CONTRIBUTION).
  set (b6 := pensionEstimate <? 0).
  set (b7 := outside_float (initialInflation user) MAX_AVG_INFLATION).
  set (b8 := outside (yearsTillRetirement user) (Z.of_nat MAX_YEARS)).
  set (b9 := outside yearsTillWithdrawal (Z.of_nat MAX_YEARS)).
  set (b10 := outside yearsTillPension (Z.of_nat MAX_YEARS)).
  match goal with
  | |- context [report b10 ?l10 (report b9 ?l9 (report b8 ?l8 (report b7 ?l7
         (report b6 ?l6 (report b5 ?l5 (report b4 ?l4 (report b3 ?l3
         (report b2 ?l2 (report b1 ?l1 st0)))))))))] =>
      pose proof (reports_counted b1 b2 b3 b4 b5 b6 b7 b8 b9 b10
                    l1 l2 l3 l4 l5 l6 l7 l8 l9 l10 st0 (0 + m) Hm ltac:(lia))
        as Hst;
      set (st10 := report b10 l10 (report b9 l9 (report b8 l8 (report b7 l7
         (report b6 l6 (report b5 l5 (report b4 l4 (report b3 l3
         (report b2 l2 (report b1 l1 st0)))))))))) in *
  end.
  clearbody st10. cbn [fst snd].
  change (0 + m)%nat with m in Hst.
  set (N := (m + Nat.b2n b1 + Nat.b2n b2 + Nat.b2n b3 + Nat.b2n b4
             + Nat.b2n b5 + Nat.b2n b6 + Nat.b2n b7 + Nat.b2n b8
             + Nat.b2n b9 + Nat.b2n b10)%nat) in *.
  destruct Hst as (Hfst & Hlen & _). rewrite Hfst, Hlen.
  pose proof (b2n_le_1 b1) as Hle1. pose proof (b2n_le_1 b2) as Hle2.
  pose proof (b2n_le_1 b3) as Hle3. pose proof (b2n_le_1 b4) as Hle4.
  pose proof (b2n_le_1 b5) as Hle5. pose proof (b2n_le_1 b6) as Hle6.
  pose proof (b2n_le_1 b7) as Hle7. pose proof (b2n_le_1 b8) as Hle8.
  pose proof (b2n_le_1 b9) as Hle9. pose proof (b2n_le_1 b10) as Hle10.
  assert (HN : (Z.of_nat N =? 0) = true <-> N = 0%nat)
    by (rewrite Z.eqb_eq; lia).
  split; [| split; [| split; [| split; [| split]]]].
  - rewrite HN. unfold within_bounds. split.
    + intros HN0.
      assert (Hz : m = 0%nat /\ Nat.b2n b1 = 0%nat /\ Nat.b2n b2 = 0%nat /\
                   Nat.b2n b3 = 0%nat /\ Nat.b2n b4 = 0%nat /\
                   Nat.b2n b5 = 0%nat /\ Nat.b2n b6 = 0%nat /\
                   Nat.b2n b7 = 0%nat /\ Nat.b2n b8 = 0%nat /\
                   Nat.b2n b9 = 0%nat /\ Nat.b2n b10 = 0%nat)
        by (subst N; lia).
      destruct Hz as (Hm0 & H1' & H2' & H3' & H4' & H5' & H6' & H7' & H8' & H9'
                      & H10').
      apply b2n_zero in H1', H2', H3', H4', H5', H6', H7', H8', H9', H10'.
      subst b1 b2 b6. apply Z.ltb_ge in H1', H2', H6'.
      split; [| by split_and!].
      intros c Hc. apply Hiff; [done | by apply elem_of_accounts].
    + intros (Hacc & H1' & H2' & H3' & H4' & H5' & H6' & H7' & H8' & H9' & H10').
      assert (Hm0 : m = 0%nat).
      { apply Hiff. intros c Hc. apply Hacc. apply elem_of_seq in Hc. lia. }
      apply Z.ltb_ge in H1', H2', H6'.
      subst N b1 b2 b3 b4 b5 b6 b7 b8 b9 b10.
      rewrite Hm0, H1', H2', H3', H4', H5', H6', H7', H8', H9', H10'. done.
  - rewrite HN. rewrite <- Hlen. split.
    + intros HN0. by apply nil_length_inv.
    + by intros ->.
  - exact HN.
  - reflexivity.
  - subst N. lia.
  - destruct (Z.of_nat N =? 0); done.
Qed.

(** A profile that fails three tests: a negative starting value of the
    Roth account, a negative expense and a 401(k) contribution over its
    bound give three lines and the count 3. *)
Example test_userDataWithinBounds_three :
  let user :=
    mkUserData ["Individual"; "Roth"; "IRA"; "401k"]%string
      [12500; -1; 12500; 12500] [of_Z 0; of_Z 0; of_Z 0; of_Z 0]
      (-5) 0 0 0 100001 (of_Z 0) 0 in
  out_of_bounds user 0 0 0 = 3%nat /\
  userDataWithinBounds user 0 0 0
  = (false,
     ["ERROR: starting value for Roth must be non-negative";
      "ERROR: current annual expense must be non-negative";
      "ERROR: IRA contribution  must be non-negative and less than 100000"],
     ["Please correct these 3 out-of-bounds number(s) in your user_profile.ini file."])
    %string.
Proof. vm_compute. split; reflexivity. Qed.

Example test_userDataWithinBounds_plain :
  userDataWithinBounds plain_user 0 0 0 = (true, [], []).
Proof. vm_compute. reflexivity. Qed.

Lemma accounts_within user (l : list nat) (st : Z * list string) :
  (forall c, c ∈ l ->
     0 <= get1 0 (value user) c /\
     outside_float (get1 fzero (rate user) c) MAX_AVG_GROWTH = false) ->
  fold_left (account_bounds user) l st = st.
Proof.
  revert st. induction l as [| c l IH]; intros st H; cbn [fold_left]; [done |].
  destruct (H c ltac:(by left)) as [Hv Hr].
  unfold account_bounds at 2. cbv zeta.
  rewrite (proj2 (Z.ltb_ge _ _) Hv), Hr. unfold report.
  apply IH. intros c' Hc'. apply H. by right.
Qed.

(** X20.  An out-of-bounds 401(k) contribution is reported with the
    line of the IRA contribution: for a profile otherwise within bounds,
    the output of [userDataWithinBounds] is the same whether the IRA or
    the 401(k) contribution is the number [x] out of bounds, one line on
    [std::cerr] and the count 1 on [std::cout]. *)
Theorem r401k_reported_as_ira (user : UserData)
    (pensionEstimate yearsTillWithdrawal yearsTillPension x : Z) :
  within_bounds user pensionEstimate yearsTillWithdrawal yearsTillPension ->
  outside x MAX_R401K_CONTRIBUTION = true ->
  userDataWithinBounds (with_contributionR401k x user) pensionEstimate
    yearsTillWithdrawal yearsTillPension
  = userDataWithinBounds (with_contributionIra x user) pensionEstimate
      yearsTillWithdrawal yearsTillPension /\
  exists line : string,
    userDataWithinBounds (with_contributionR401k x user) pensionEstimate
      yearsTillWithdrawal yearsTillPension
    = (false, [line],
       [("Please correct these " ++ decimal 1
         ++ " out-of-bounds number(s) in your user_profile.ini file.")
        %string]).
Proof.
  intros (Hacc & H1 & H2 & H3 & H4 & H5 & H6 & H7 & H8 & H9 & H10) Hx.
  apply Z.ltb_ge in H1, H2, H6.
  assert (Hr : userDataWithinBounds (with_contributionR401k x user)
                 pensionEstimate yearsTillWithdrawal yearsTillPension
               = (false,
                  [("ERROR: IRA contribution "
                    ++ " must be non-negative and less than "
                    ++ decimal MAX_R401K_CONTRIBUTION)%string],
                  [("Please correct these " ++ decimal 1
                    ++ " out-of-bounds number(s) in your user_profile.ini file.")
                   %string])).
  { unfold userDataWithinBounds. cbv zeta.
    rewrite accounts_within
      by (intros c Hc; apply Hacc; apply elem_of_seq in Hc; lia).
    cbn [initialExpense takehomeIncome contributionRoth contributionIra
         contributionR401k initialInflation yearsTillRetirement
         with_contributionR401k].
    rewrite H1, H2, H3, H4, Hx, H6, H7, H8, H9, H10. reflexivity. }
  assert (Hi : userDataWithinBounds (with_contributionIra x user)
                 pensionEstimate yearsTillWithdrawal yearsTillPension
               = (false,
                  [("ERROR: IRA contribution "
                    ++ " must be non-negative and less than "
                    ++ decimal MAX_IRA_CONTRIBUTION)%string],
                  [("Please correct these " ++ decimal 1
                    ++ " out-of-bounds number(s) in your user_profile.ini file.")
                   %string])).
  { unfold userDataWithinBounds. cbv zeta.
    rewrite accounts_within
      by (intros c Hc; apply Hacc; apply elem_of_seq in Hc; lia).
    cbn [initialExpense takehomeIncome contributionRoth contributionIra
         contributionR401k initialInflation yearsTillRetirement
         with_contributionIra].
    rewrite H1, H2, H3, H5, H6, H7, H8, H9, H10.
    change MAX_IRA_CONTRIBUTION with MAX_R401K_CONTRIBUTION.
    rewrite Hx. reflexivity. }
  split; [by rewrite Hr, Hi |]. eexists. exact Hr.
Qed.

Lemma r401k_reported_as_ira_witness :
  userDataWithinBounds (with_contributionR401k (-1) plain_user) 0 0 0
  = userDataWithinBounds (with_contributionIra (-1) plain_user) 0 0 0.
Proof.
  apply r401k_reported_as_ira.
  - unfold within_bounds. split.
    + intros c Hc. unfold MAX_ACCOUNTS in Hc.
      destruct c as [| [| [| [| c]]]]; try lia; vm_compute; split; congruence.
    + vm_compute. repeat split; congruence.
  - reflexivity.
Defined.

(** ** [trim] *)

Lemma is_space_at_spec (s : list ascii) (i : nat) :
  is_space_at s i = true <-> s !! i = Some space.
Proof.
  unfold is_space_at. destruct (s !! i) as [c |]; [| done].
  rewrite Ascii.eqb_eq. split; [by intros -> | by intros [= ->]].
Qed.

Lemma trim_front_spec (s : list ascii) (end_ : nat) (fuel : nat) :
  forall start,
    (start <= end_)%nat -> (end_ - start <= fuel)%nat ->
    let r := trim_front fuel s start end_ in
    (start <= r <= end_)%nat /\
    (forall j, (start <= j < r)%nat -> s !! j = Some space) /\
    (r = end_ \/ s !! r ≠ Some space).
Proof.
  induction fuel as [| fuel IH]; intros start Hle Hfuel; cbn [trim_front].
  - cbv zeta. split; [lia |]. split; [intros j Hj; lia | left; lia].
  - destruct (start <? end_)%nat eqn:Hlt; cbn [andb].
    + apply Nat.ltb_lt in Hlt.
      destruct (is_space_at s start) eqn:Hsp;
        [apply is_space_at_spec in Hsp
        | assert (s !! start ≠ Some space)
            by (rewrite <- is_space_at_spec; congruence)].
      * destruct (IH (S start) ltac:(lia) ltac:(lia)) as (Hr & Hsps & Hstop).
        cbv zeta in Hr, Hsps, Hstop. cbv zeta. split; [lia |]. split; [| done].
        intros j Hj. destruct (decide (j = start)) as [-> | Hne]; [done |].
        apply Hsps. lia.
      * cbv zeta. split; [lia |]. split; [intros j Hj; lia | by right].
    + apply Nat.ltb_ge in Hlt. cbv zeta. split; [lia |].
      split; [intros j Hj; lia | left; lia].
Qed.

Lemma trim_back_spec (s : list ascii) (start : nat) (fuel : nat) :
  forall end_,
    (start <= end_)%nat -> (end_ - start <= fuel)%nat ->
    let r := trim_back fuel s start end_ in
    (start <= r <= end_)%nat /\
    (forall j, (r < j <= end_)%nat -> s !! j = Some space) /\
    (r = start \/ s !! r ≠ Some space).
Proof.
  induction fuel as [| fuel IH]; intros end_ Hle Hfuel; cbn [trim_back].
  - cbv zeta. split; [lia |]. split; [intros j Hj; lia | left; lia].
  - destruct (start <? end_)%nat eqn:Hlt; cbn [andb].
    + apply Nat.ltb_lt in Hlt.
      destruct (is_space_at s end_) eqn:Hsp;
        [apply is_space_at_spec in Hsp
        | assert (s !! end_ ≠ Some space)
            by (rewrite <- is_space_at_spec; congruence)].
      * destruct (IH (end_ - 1)%nat ltac:(lia) ltac:(lia))
          as (Hr & Hsps & Hstop).
        cbv zeta in Hr, Hsps, Hstop. cbv zeta. split; [lia |]. split; [| done].
        intros j Hj. destruct (decide (j = end_)) as [-> | Hne]; [done |].
        apply Hsps. lia.
      * cbv zeta. split; [lia |]. split; [intros j Hj; lia | by right].
    + apply Nat.ltb_ge in Hlt. cbv zeta. split; [lia |].
      split; [intros j Hj; lia | left; lia].
Qed.

(** [trim] on a string that is not empty. *)
Lemma trim_spec (s : list ascii) :
  s ≠ [] ->
  exists start end_ : nat,
    (start <= end_ < length s)%nat /\
    trim s = Some (take (end_ - start + 1) (drop start s)) /\
    (forall j, (j < start)%nat -> s !! j = Some space) /\
    (forall j, (end_ < j < length s)%nat -> s !! j = Some space) /\
    ((start < end_)%nat ->
     s !! start ≠ Some space /\ s !! end_ ≠ Some space).
Proof.
  intros Hs. destruct s as [| c s]; [done |]. unfold trim. cbv zeta.
  set (t := c :: s) in *. assert (Hlen : (0 < length t)%nat) by (cbn; lia).
  clearbody t.
  destruct (trim_front_spec t (length t - 1) (length t) 0%nat)
    as (Hr & Hsps & Hstop); [lia | lia |].
  cbv zeta in Hr, Hsps, Hstop.
  set (start := trim_front (length t) t 0 (length t - 1)) in *. clearbody start.
  destruct (trim_back_spec t start (length t) (length t - 1)%nat)
    as (He & Hspe & Hstope); [lia | lia |].
  cbv zeta in He, Hspe, Hstope.
  set (end_ := trim_back (length t) t start (length t - 1)) in *.
  clearbody end_.
  exists start, end_. split; [lia |]. split; [done |].
  split; [intros j Hj; apply Hsps; lia |].
  split; [intros j Hj; apply Hspe; lia |].
  intros Hlt. split.
  - destruct Hstop as [-> | H]; [lia | done].
  - destruct Hstope as [-> | H]; [lia | done].
Qed.

Lemma all_spaces_lookup (l : list ascii) :
  (forall j, (j < length l)%nat -> l !! j = Some space) ->
  l = replicate (length l) space.
Proof.
  intros H. apply list_eq. intros j.
  destruct (decide (j < length l)%nat) as [Hj | Hj].
  - rewrite H by done. symmetry. by apply lookup_replicate_2.
  - rewrite !(proj2 (lookup_ge_None _ _)); [done | | lia].
    rewrite length_replicate. lia.
Qed.

(** X22.  [trim] on a string that is not empty returns a part of it
    that is not empty: the string is the result between two runs of
    spaces; a result of more than one character neither begins nor ends
    with a space (a string of spaces alone gives one space, not the
    empty string); and [trim] leaves its own result as it is. *)
Theorem trim_result (s : list ascii) :
  s ≠ [] ->
  exists (t : list ascii) (before after : nat),
    trim s = Some t /\
    t ≠ [] /\
    s = replicate before space ++ t ++ replicate after space /\
    ((1 < length t)%nat ->
     t !! 0%nat ≠ Some space /\ t !! (length t - 1)%nat ≠ Some space) /\
    trim t = Some t.
Proof.
  intros Hs.
  destruct (trim_spec s Hs) as (start & end_ & Hr & Ht & Hpre & Hpost & Hends).
  set (t := take (end_ - start + 1) (drop start s)) in *.
  assert (Hlt : length t = (end_ - start + 1)%nat).
  { subst t. rewrite length_take, length_drop. lia. }
  assert (Hget : forall j, (j < length t)%nat -> t !! j = s !! (start + j)%nat).
  { intros j Hj. subst t. rewrite lookup_take_lt by lia.
    by rewrite lookup_drop. }
  assert (Hne : t ≠ []) by (intros H; rewrite H in Hlt; cbn in Hlt; lia).
  assert (Hfirst : (1 < length t)%nat ->
            t !! 0%nat ≠ Some space /\ t !! (length t - 1)%nat ≠ Some space).
  { intros H1. destruct (Hends ltac:(lia)) as [Hs1 Hs2].
    rewrite !Hget by lia. rewrite Nat.add_0_r.
    replace (start + (length t - 1))%nat with end_ by lia. done. }
  exists t, start, (length s - end_ - 1)%nat.
  split; [exact Ht |]. split; [exact Hne |]. split; [| split; [exact Hfirst |]].
  - rewrite <- (take_drop start s) at 1. f_equal.
    + rewrite (all_spaces_lookup (take start s)).
      * rewrite length_take. f_equal. lia.
      * intros j Hj. rewrite length_take in Hj.
        rewrite lookup_take_lt by lia. apply Hpre. lia.
    + rewrite <- (take_drop (end_ - start + 1) (drop start s)) at 1.
      fold t. f_equal. rewrite drop_drop.
      rewrite (all_spaces_lookup (drop _ s)).
      * rewrite length_drop. f_equal. lia.
      * intros j Hj. rewrite length_drop in Hj. rewrite lookup_drop.
        apply Hpost. lia.
  - destruct (trim_spec t Hne)
      as (start' & end' & Hr' & Ht' & Hpre' & Hpost' & _).
    rewrite Ht'.
    assert (H0 : start' = 0%nat).
    { destruct (decide (1 < length t)%nat) as [H1 | H1]; [| lia].
      destruct (decide (start' = 0%nat)) as [| Hpos]; [done |].
      destruct (Hfirst H1) as [Hf _]. exfalso. apply Hf, Hpre'. lia. }
    assert (He : end' = (length t - 1)%nat).
    { destruct (decide (1 < length t)%nat) as [H1 | H1]; [| lia].
      destruct (decide (end' = (length t - 1)%nat)) as [| Hlast]; [done |].
      destruct (Hfirst H1) as [_ Hl]. exfalso. apply Hl, Hpost'. lia. }
    subst start' end'. rewrite drop_0, Nat.sub_0_r.
    f_equal. apply take_ge. lia.
Qed.

Lemma trim_result_witness :
  exists t : list ascii,
    trim (list_ascii_of_string "  Cost-of-living ") = Some t /\
    trim t = Some t.
Proof.
  destruct (trim_result (list_ascii_of_string "  Cost-of-living "))
    as (t & _ & _ & Ht & _ & _ & _ & Hidem).
  - discriminate.
  - exists t. split; [exact Ht | exact Hidem].
Defined.

Example test_trim :
  trim (list_ascii_of_string "  Cost-of-living ")
    = Some (list_ascii_of_string "Cost-of-living") /\
  trim (list_ascii_of_string "   ") = Some (list_ascii_of_string " ").
Proof. by vm_compute. Qed.

(** ** [clArgParser] *)

Lemma List_last_cons {A : Type} (x d : A) (l : list A) :
  List.last (x :: l) d = List.last l x.
Proof.
  revert x d. induction l as [| y l IH]; intros x d; [done |].
  change (List.last (x :: y :: l) d) with (List.last (y :: l) d).
  by rewrite !IH.
Qed.

Section ClArgParserFacts.

Variable valid_user : string -> bool.
Variable file_exists : string -> bool.

(** The loop reaches the end of the arguments exactly when they are
    pairs [--user <name>] with valid names; the file is that of the last
    name. *)
Lemma parse_arguments_returns (args : list string) :
  forall (filename f : string) (cout cerr : list string),
    parse_arguments valid_user args filename = (Returns f, cout, cerr) <->
    exists names : list string,
      args = user_arguments names /\
      Forall (fun n => valid_user n = true) names /\
      f = List.last (map profile_file names) filename /\
      cout = [] /\ cerr = [].
Proof.
  induction args as [args IH] using (induction_ltof1 _ (@length string)).
  unfold ltof in IH. intros filename f cout cerr.
  destruct args as [| arg [| name rest]].
  - cbn [parse_arguments]. split.
    + intros [= <- <- <-]. exists []. by split_and!.
    + intros (names & Ha & _ & -> & -> & ->).
      destruct names as [| n names]; [done | discriminate].
  - cbn [parse_arguments]. unfold other_argument. split.
    + destruct (String.eqb arg "--help"); discriminate.
    + intros (names & Ha & _).
      destruct names as [| n [| n' names]]; discriminate.
  - cbn [parse_arguments].
    destruct (String.eqb arg "--user") eqn:Harg.
    + apply String.eqb_eq in Harg. subst arg.
      destruct (valid_user name) eqn:Hvalid; cbn [negb].
      * rewrite (IH rest ltac:(cbn; lia)). split.
        -- intros (names & -> & Hall & -> & -> & ->).
           exists (name :: names). split; [done |].
           split; [by constructor |].
           cbn [map]. by rewrite List_last_cons.
        -- intros (names & Ha & Hall & -> & -> & ->).
           destruct names as [| n names]; [discriminate |].
           injection Ha as -> ->. apply Forall_cons in Hall as [_ Hall].
           exists names. cbn [map]. by rewrite List_last_cons.
      * split; [discriminate |].
        intros (names & Ha & Hall & _).
        destruct names as [| n names]; [discriminate |].
        injection Ha as -> _. apply Forall_cons in Hall as [Hn _]. congruence.
    + unfold other_argument. split.
      * destruct (String.eqb arg "--help"); discriminate.
      * intros (names & Ha & _).
        destruct names as [| n names]; [discriminate |].
        injection Ha as -> _. by rewrite String.eqb_refl in Harg.
Qed.

(** The loop ends in [exit(0)] exactly when, after pairs
    [--user <name>] with valid names, the argument [--help] comes. *)
Lemma parse_arguments_help (args : list string) :
  forall (filename : string) (cout cerr : list string),
    parse_arguments valid_user args filename = (Exits 0, cout, cerr) <->
    exists (names rest : list string),
      args = user_arguments names ++ "--help"%string :: rest /\
      Forall (fun n => valid_user n = true) names /\
      cout = welcome /\ cerr = [].
Proof.
  induction args as [args IH] using (induction_ltof1 _ (@length string)).
  unfold ltof in IH. intros filename cout cerr.
  assert (Hother : forall arg rest,
            arg ≠ "--user"%string \/ rest = [] ->
            other_argument arg = (Exits 0, cout, cerr) <->
            exists names rest',
              arg :: rest = user_arguments names ++ "--help"%string :: rest' /\
              Forall (fun n => valid_user n = true) names /\
              cout = welcome /\ cerr = []).
  { intros arg rest Harg. unfold other_argument.
    destruct (String.eqb arg "--help") eqn:Hhelp.
    - apply String.eqb_eq in Hhelp. subst arg. split.
      + intros [= <- <-]. exists [], rest. by split_and!.
      + by intros (_ & _ & _ & _ & -> & ->).
    - split; [discriminate |].
      intros (names & rest' & Ha & _).
      destruct names as [| n names].
      + injection Ha as -> _. by rewrite String.eqb_refl in Hhelp.
      + injection Ha as -> Hrest. destruct Harg as [Harg | ->]; [done |].
        destruct names; discriminate. }
  destruct args as [| arg [| name rest]].
  - cbn [parse_arguments]. split; [discriminate |].
    intros (names & rest & Ha & _). destruct names; discriminate.
  - cbn [parse_arguments]. apply Hother. by right.
  - cbn [parse_arguments].
    destruct (String.eqb arg "--user") eqn:Harg.
    + apply String.eqb_eq in Harg. subst arg.
      destruct (valid_user name) eqn:Hvalid; cbn [negb].
      * rewrite (IH rest ltac:(cbn; lia)). split.
        -- intros (names & rest' & -> & Hall & -> & ->).
           exists (name :: names), rest'. split; [done |].
           split; [by constructor | done].
        -- intros (names & rest' & Ha & Hall & -> & ->).
           destruct names as [| n names]; [discriminate |].
           injection Ha as -> ->. apply Forall_cons in Hall as [_ Hall].
           by exists names, rest'.
      * split; [discriminate |].
        intros (names & rest' & Ha & Hall & _).
        destruct names as [| n names]; [discriminate |].
        injection Ha as -> _. apply Forall_cons in Hall as [Hn _]. congruence.
    + apply Hother. left. intros ->. by rewrite String.eqb_refl in Harg.
Qed.

(** X23.  [clArgParser] returns, rather than calling [exit], exactly
    when the arguments are pairs [--user <name>] with names the regular
    expression accepts and the profile file of the last name (of [demo]
    when there is no argument) exists; [params.filename] is then that
    file, the welcome message was written once and [std::cerr] is
    empty.  It calls [exit(0)] exactly when such pairs are followed by
    [--help].  A [--user] that follows such pairs as the last argument
    is reported as an unknown option. *)
Theorem clArgParser_outcomes (args : list string) :
  (forall f cout cerr,
     clArgParser valid_user file_exists args = (Returns f, cout, cerr) <->
     exists names : list string,
       args = user_arguments names /\
       Forall (fun n => valid_user n = true) names /\
       f = List.last (map profile_file names) default_filename /\
       file_exists f = true /\
       cout = welcome /\ cerr = []) /\
  (forall cout cerr,
     clArgParser valid_user file_exists args = (Exits 0, cout, cerr) <->
     exists (names rest : list string),
       args = user_arguments names ++ "--help"%string :: rest /\
       Forall (fun n => valid_user n = true) names /\
       cout = welcome ++ welcome /\ cerr = []) /\
  (forall names : list string,
     Forall (fun n => valid_user n = true) names ->
     clArgParser valid_user file_exists
       (user_arguments names ++ ["--user"%string])
     = (Exits 1, welcome, ["Unknown option: --user"%string])).
Proof.
  assert (Hret : forall args f cout cerr,
     clArgParser valid_user file_exists args = (Returns f, cout, cerr) <->
     exists names : list string,
       args = user_arguments names /\
       Forall (fun n => valid_user n = true) names /\
       f = List.last (map profile_file names) default_filename /\
       file_exists f = true /\
       cout = welcome /\ cerr = []).
  { clear args. intros args f cout cerr. unfold clArgParser.
    pose proof (parse_arguments_returns args default_filename) as Hp.
    destruct (parse_arguments valid_user args default_filename)
      as [[[f0 | code] cout0] cerr0].
    - specialize (Hp f0 cout0 cerr0).
      destruct (proj1 Hp eq_refl) as (names & Ha & Hall & Hf & -> & ->).
      rewrite !app_nil_r.
      destruct (file_exists f0) eqn:Hex; cbn [negb].
      + split.
        * intros [= <- <- <-]. exists names. by split_and!.
        * intros (names' & Ha' & _ & Hf' & _ & -> & ->).
          do 2 f_equal. subst f f0.
          assert (Hn : names' = names); [| by subst].
          clear -Ha Ha'. subst args. revert names' Ha'.
          induction names as [| n names IH]; intros [| n' names'] H;
            try discriminate; [done |].
          injection H as -> H. f_equal. by apply IH.
      + split; [discriminate |].
        intros (names' & Ha' & _ & Hf' & Hex' & _).
        assert (Hn : names' = names).
        { clear -Ha Ha'. subst args. revert names' Ha'.
          induction names as [| n names IH]; intros [| n' names'] H;
            try discriminate; [done |].
          injection H as -> H. f_equal. by apply IH. }
        subst. congruence.
    - split; [discriminate |].
      intros (names & Ha & Hall & Hf & _).
      assert (Hp' := proj2 (Hp (List.last (map profile_file names)
                                  default_filename) [] [])
                       ltac:(exists names; by split_and!)).
      discriminate. }
  split; [apply Hret |]. split.
  - intros cout cerr. unfold clArgParser.
    pose proof (parse_arguments_help args default_filename) as Hp.
    destruct (parse_arguments valid_user args default_filename)
      as [[[f0 | code] cout0] cerr0].
    + destruct (negb (file_exists f0)).
      * split; [discriminate |].
        intros (names & rest & Ha & Hall & _).
        assert (Hp' := proj2 (Hp welcome [])
                         ltac:(exists names, rest; by split_and!)).
        discriminate.
      * split; [discriminate |].
        intros (names & rest & Ha & Hall & _).
        assert (Hp' := proj2 (Hp welcome [])
                         ltac:(exists names, rest; by split_and!)).
        discriminate.
    + split.
      * intros [= -> <- <-].
        destruct (proj1 (Hp cout0 cerr0) eq_refl)
          as (names & rest & Ha & Hall & -> & ->).
        exists names, rest. by split_and!.
      * intros (names & rest & Ha & Hall & -> & ->).
        assert (Hp' := proj2 (Hp welcome [])
                         ltac:(exists names, rest; by split_and!)).
        by injection Hp' as -> -> ->.
  - intros names Hall. unfold clArgParser.
    assert (Hp : forall filename,
              parse_arguments valid_user
                (user_arguments names ++ ["--user"%string]) filename
              = (Exits 1, [], ["Unknown option: --user"%string])).
    { induction Hall as [| n names Hn _ IH]; intros filename; [done |].
      change (user_arguments (n :: names) ++ ["--user"%string])
        with ("--user"%string :: n
              :: (user_arguments names ++ ["--user"%string])).
      cbn [parse_arguments]. rewrite String.eqb_refl, Hn. cbn [negb].
      apply IH. }
    rewrite Hp. by rewrite app_nil_r.
Qed.

End ClArgParserFacts.

Lemma clArgParser_outcomes_witness :
  clArgParser (fun _ => true) (fun _ => true)
    ["--user"; "demo"; "--user"]%string
  = (Exits 1, welcome, ["Unknown option: --user"%string]).
Proof.
  apply (proj2 (proj2 (clArgParser_outcomes (fun _ => true) (fun _ => true)
                         [])) ["demo"%string]).
  repeat constructor.
Defined.

(** ** The sign of the scaled growth rates *)

Lemma binary_round_aux_side s m e l :
  on_side s (binary_round_aux prec emax s m e l).
Proof.
  unfold binary_round_aux.
  destruct (shr_fexp prec emax m e l) as [mrs' e'].
  destruct (shr_fexp prec emax _ e' loc_Exact) as [mrs'' e''].
  destruct (shr_m mrs''); [done | | done].
  by destruct (Z.leb e'' (emax - prec)).
Qed.

Lemma on_side_not_positive x : on_side true x -> flt (of_Z 0) x = false.
Proof. by destruct x as [[] | [] | | [] m e]. Qed.

Lemma on_side_not_negative x : on_side false x -> flt x (of_Z 0) = false.
Proof. by destruct x as [[] | [] | | [] m e]. Qed.

Lemma negative_on_side x : flt x (of_Z 0) = true -> on_side true x.
Proof. by destruct x as [[] | [] | | [] m e]. Qed.

Lemma positive_on_side x : flt (of_Z 0) x = true -> on_side false x.
Proof. by destruct x as [[] | [] | | [] m e]. Qed.

(** The product stays on the side of its first factor when the second
    is not negative. *)
Lemma fmul_side (x r : float32) (s : bool) :
  on_side s x -> on_side false r -> on_side s (fmul x r).
Proof.
  destruct x as [sx | sx | | sx mx ex], r as [sr | sr | | sr mr er];
    unfold fmul, SFmul; cbn [on_side]; intros Hx Hr; subst;
    rewrite ?xorb_false_r; try done.
  apply binary_round_aux_side.
Qed.

(** The stock ratio of an account whose average growth rate is not
    negative is a number that is not negative. *)
Lemma guessed_stock_ratio_side a c :
  flt (growthRateAvg_at a c) (of_Z 0) = false ->
  on_side false (guessed_stock_ratio a c) /\
  guessed_stock_ratio a c ≠ S754_nan.
Proof.
  intros Hr. unfold guessed_stock_ratio. cbv zeta.
  set (r := growthRateAvg_at a c) in *. clearbody r.
  assert (Hd : on_side false (fdiv r STOCK_GROWTH_AVG)).
  { destruct r as [sr | sr | | sr mr er]; try done.
    - destruct sr; [discriminate | done].
    - destruct sr; [discriminate |].
      unfold fdiv, STOCK_GROWTH_AVG.
      change (lit 0.113) with (S754_finite false 15166603 (-27)).
      unfold SFdiv.
      destruct (SFdiv_core_binary prec emax (Z.pos mr) er 15166603 (-27))
        as [[mz ez] lz].
      apply binary_round_aux_side. }
  destruct (fle (fdiv r STOCK_GROWTH_AVG) (lit 1.0)) eqn:Hle.
  - split; [done |]. intros H. by rewrite H in Hle.
  - split; [by vm_compute | discriminate].
Qed.

(** The growth rates [populateGrowthCurves] leaves with an option other
    than [CONSTANT]: the curve of the option's scenario, scaled by the
    stock ratios. *)
Lemma populateGrowthCurves_scaled rnd opt a a' err :
  dims2 (growthRate_ a) MAX_ACCOUNTS MAX_YEARS ->
  opt ≠ CONSTANT ->
  populateGrowthCurves rnd opt a = Some (a', err) ->
  exists common : list float32,
    length common = MAX_YEARS /\
    (opt = PREDEFINED_YEAR0_LOSS -> common = RECESSION_YEAR0_LOSS) /\
    (opt = RECESSION_RANDOMIZED ->
     scenarioRecessionRandomized rnd (replicate MAX_YEARS (of_Z 0))
     = Some common) /\
    (opt ≠ PREDEFINED_YEAR0_LOSS -> opt ≠ RECESSION_RANDOMIZED ->
     common = replicate MAX_YEARS (of_Z 0)) /\
    forall c n, (c < MAX_ACCOUNTS)%nat -> (n < MAX_YEARS)%nat ->
      growthRate_at a' c n
      = fmul (get1 (of_Z 0) common n) (guessed_stock_ratio a c).
Proof.
  intros Hd Hopt. unfold populateGrowthCurves. cbv zeta.
  rewrite (proj2 (Z.eqb_neq _ _) Hopt). cbn [negb].
  destruct (opt =? PREDEFINED_YEAR0_LOSS) eqn:H1.
  { apply Z.eqb_eq in H1.
    rewrite scenarioPredefinedYear0Loss_eq by apply length_replicate.
    intros [= <- _]. exists RECESSION_YEAR0_LOSS.
    split; [done |]. split; [done |].
    split; [intros H2; rewrite H1 in H2; discriminate |].
    split; [done |].
    by destruct (scale_growth_spec RECESSION_YEAR0_LOSS a Hd eq_refl)
      as (_ & _ & ?). }
  apply Z.eqb_neq in H1.
  destruct (opt =? RECESSION_RANDOMIZED) eqn:H2.
  { destruct (scenarioRecessionRandomized rnd (replicate MAX_YEARS (of_Z 0)))
      as [g |] eqn:Hg; [| discriminate].
    assert (Hlen : length g = MAX_YEARS).
    { rewrite (scenarioRecessionRandomized_length _ _ _ Hg).
      apply length_replicate. }
    apply Z.eqb_eq in H2.
    intros [= <- _]. exists g. split; [done |]. split; [done |].
    split; [done |]. split; [done |].
    by destruct (scale_growth_spec g a Hd Hlen) as (_ & _ & ?). }
  apply Z.eqb_neq in H2.
  intros [= <- _]. exists (replicate MAX_YEARS (of_Z 0)).
  split; [apply length_replicate |]. split; [done |].
  split; [done |]. split; [done |].
  by destruct (scale_growth_spec _ a Hd (length_replicate MAX_YEARS (of_Z 0)))
    as (_ & _ & ?).
Qed.

(** Year 0 of the randomized curve is the recession year of the second
    draw. *)
Lemma scenarioRecessionRandomized_year_0 rnd (growth_common g : list float32) :
  draws_ok rnd ->
  length growth_common = MAX_YEARS ->
  scenarioRecessionRandomized rnd growth_common = Some g ->
  get1 (of_Z 0) g 0 = recession_rate (rnd 1%nat).
Proof.
  intros Hrnd Hlen. unfold scenarioRecessionRandomized.
  assert (H0 : wrap32 (to_unsigned (rnd 0%nat) mod RECESSION_START_MOD) = 0)
    by (unfold RECESSION_START_MOD; by rewrite Z.mod_1_r).
  rewrite H0.
  set (g0 := fold_left _ _ growth_common).
  assert (Hlen0 : length g0 = MAX_YEARS)
    by (subst g0; by rewrite clear_curve_length).
  clearbody g0.
  destruct (recession_loop_spec rnd Hrnd recession_fuel (mk_rr g0 0 0 1))
    as (st & Hloop & Hlen' & _ & Hrate).
  { cbn. lia. }
  { exact Hlen0. }
  { cbn. unfold recession_fuel. lia. }
  rewrite Hloop. cbn [rr_n rr_drawn] in Hrate.
  specialize (Hrate ltac:(unfold MAX_YEARS; lia)).
  change (Z.to_nat 0) with 0%nat in Hrate.
  destruct (recession_rate_range (rnd 1%nat) (Hrnd 1%nat))
    as (_ & _ & _ & Hnz).
  intros [= <-]. by rewrite fill_years_keep; rewrite Hrate.
Qed.

(** X24.  Scaling keeps the sign of the common curve.  With an option
    other than [CONSTANT], the growth rates [populateGrowthCurves]
    leaves are the curve of the option's scenario (the predefined table,
    the curve [scenarioRecessionRandomized] returns, or the zeroed curve
    for an unrecognized option) times the account's stock ratio.  For an
    account whose average growth rate is not negative (as
    [userDataWithinBounds] demands), the growth rate of a year in which
    that curve has a loss is not positive, and the growth rate of a year
    in which it has a gain is not negative.  Year 0 is a loss year of
    the predefined curve and, with draws in range, of the randomized
    one, so the growth rate of year 0 is then never positive. *)
Theorem scaled_growth_keeps_sign
    (rnd : nat -> Z) (opt : ModelOption) (a a' : Asset) (err : list string)
    (c : nat) :
  dims_ok a ->
  (c < MAX_ACCOUNTS)%nat ->
  opt ≠ CONSTANT ->
  flt (growthRateAvg_at a c) (of_Z 0) = false ->
  populateGrowthCurves rnd opt a = Some (a', err) ->
  exists common : list float32,
    (opt = PREDEFINED_YEAR0_LOSS -> common = RECESSION_YEAR0_LOSS) /\
    (opt = RECESSION_RANDOMIZED ->
     scenarioRecessionRandomized rnd (replicate MAX_YEARS (of_Z 0))
     = Some common) /\
    (opt ≠ PREDEFINED_YEAR0_LOSS -> opt ≠ RECESSION_RANDOMIZED ->
     common = replicate MAX_YEARS (of_Z 0)) /\
    length common = MAX_YEARS /\
    (forall n, (n < MAX_YEARS)%nat ->
       growthRate_at a' c n
       = fmul (get1 (of_Z 0) common n) (guessed_stock_ratio a c) /\
       (flt (get1 (of_Z 0) common n) (of_Z 0) = true ->
        flt (of_Z 0) (growthRate_at a' c n) = false) /\
       (flt (of_Z 0) (get1 (of_Z 0) common n) = true ->
        flt (growthRate_at a' c n) (of_Z 0) = false)) /\
    (opt = PREDEFINED_YEAR0_LOSS \/ (opt = RECESSION_RANDOMIZED /\ draws_ok rnd) ->
     flt (get1 (of_Z 0) common 0) (of_Z 0) = true /\
     flt (of_Z 0) (growthRate_at a' c 0) = false).
Proof.
  intros Hd Hc Hopt Hrate Hp.
  destruct (populateGrowthCurves_scaled rnd opt a a' err
              ltac:(by destruct Hd as (?&_)) Hopt Hp)
    as (common & Hlen & Htable & Hrandom & Hzero & Hcells).
  destruct (guessed_stock_ratio_side a c Hrate) as [Hside _].
  assert (Hsign : forall n, (n < MAX_YEARS)%nat ->
            (flt (get1 (of_Z 0) common n) (of_Z 0) = true ->
             flt (of_Z 0) (growthRate_at a' c n) = false) /\
            (flt (of_Z 0) (get1 (of_Z 0) common n) = true ->
             flt (growthRate_at a' c n) (of_Z 0) = false)).
  { intros n Hn. rewrite (Hcells c n Hc Hn). split; intros Hx.
    - apply on_side_not_positive, fmul_side; [| done].
      by apply negative_on_side.
    - apply on_side_not_negative, fmul_side; [| done].
      by apply positive_on_side. }
  exists common. split; [exact Htable |]. split; [exact Hrandom |].
  split; [exact Hzero |]. split; [exact Hlen |]. split.
  - intros n Hn. split; [by apply Hcells | by apply Hsign].
  - intros Hloss.
    assert (H0 : flt (get1 (of_Z 0) common 0) (of_Z 0) = true).
    { destruct Hloss as [Hpre | [Hran Hrnd]].
      - rewrite (Htable Hpre). by vm_compute.
      - rewrite (scenarioRecessionRandomized_year_0 rnd _ common Hrnd
                   (length_replicate MAX_YEARS (of_Z 0)) (Hrandom Hran)).
        by destruct (recession_rate_range (rnd 1%nat) (Hrnd 1%nat))
          as (_ & _ & ? & _). }
    split; [exact H0 |].
    by apply (Hsign 0%nat); [unfold MAX_YEARS; lia |].
Qed.

(** The hypotheses of [scaled_growth_keeps_sign] hold for the state of
    [growing_user] with the randomized option and the source that always
    draws 50: the Individual account, with an average growth rate of
    0.05, gets the rate of year 0 of the randomized curve, -0.3, times
    its stock ratio, a loss. *)
Lemma scaled_growth_keeps_sign_witness :
  exists (a' : Asset) (err : list string),
    populateGrowthCurves rnd_const RECESSION_RANDOMIZED
      (initializeFromUserData growing_user Asset_ctor) = Some (a', err) /\
    flt (of_Z 0) (growthRate_at a' INDIVIDUAL_INDEX 0) = false /\
    growthRate_at a' INDIVIDUAL_INDEX 0
    = fmul (recession_rate 50)
        (guessed_stock_ratio (initializeFromUserData growing_user Asset_ctor)
           INDIVIDUAL_INDEX) /\
    flt (fmul (recession_rate 50)
           (guessed_stock_ratio (initializeFromUserData growing_user Asset_ctor)
              INDIVIDUAL_INDEX)) (of_Z 0) = true.
Proof.
  destruct (populateGrowthCurves rnd_const RECESSION_RANDOMIZED
              (initializeFromUserData growing_user Asset_ctor))
    as [[a' err] |] eqn:Hp; [| vm_compute in Hp; discriminate].
  exists a', err. split; [reflexivity |].
  assert (Hrnd : draws_ok rnd_const)
    by (intros k; unfold rnd_const, RANDOM_NUM_MIN, RANDOM_NUM_MAX; lia).
  destruct (scaled_growth_keeps_sign rnd_const RECESSION_RANDOMIZED
              (initializeFromUserData growing_user Asset_ctor) a' err
              INDIVIDUAL_INDEX)
    as (common & _ & Hrandom & _ & _ & Hcells & Hloss).
  - dims_tac.
  - unfold MAX_ACCOUNTS, INDIVIDUAL_INDEX. lia.
  - discriminate.
  - vm_compute. reflexivity.
  - exact Hp.
  - destruct (Hloss (or_intror (conj eq_refl Hrnd))) as [_ H0].
    destruct (Hcells 0%nat ltac:(unfold MAX_YEARS; lia)) as (Hcell & _).
    split; [exact H0 |]. split; [| vm_compute; reflexivity].
    rewrite Hcell. f_equal.
    specialize (Hrandom eq_refl). vm_compute in Hrandom.
    injection Hrandom as <-. vm_compute. reflexivity.
Defined.

(** ** The contribution step *)

Lemma income_addCashReserve cash c n a :
  income_members (snd (addCashReserve cash c n a)) = income_members a /\
  inflation_ (snd (addCashReserve cash c n a)) = inflation_ a.
Proof. unfold addCashReserve. by destruct (_ >? _). Qed.

Lemma income_cashPolicy i a :
  income_members (cashPolicy i a) = income_members a /\
  inflation_ (cashPolicy i a) = inflation_ a.
Proof.
  unfold cashPolicy. destruct (_ && _); [done |].
  destruct (_ && _); [apply income_addCashReserve | done].
Qed.

Lemma income_before_check i a :
  Z.of_nat i ≠ yearsTillRetirement_ a ->
  income_members (before_check i a) = income_members a /\
  inflation_ (before_check i a) = inflation_ a.
Proof.
  intros Hne. unfold before_check, retire.
  rewrite (proj2 (Z.eqb_neq _ _) Hne). apply income_cashPolicy.
Qed.

Lemma income_shortfall i net total a a' :
  shortfall i net total a = Some a' ->
  income_members a' = income_members a /\ inflation_ a' = inflation_ a.
Proof.
  unfold shortfall. destruct (_ >? _); [| by intros [= <-]].
  destruct (_ <? _); [by intros [= <-] | discriminate].
Qed.

Lemma income_distribute_account i pct a c :
  income_members (distribute_account i pct a c) = income_members a.
Proof. unfold distribute_account. cbv zeta. by destruct (_ <? _)%nat. Qed.

Lemma inflation_distribute_account i pct a c :
  inflation_ (distribute_account i pct a c) = inflation_ a.
Proof. unfold distribute_account. cbv zeta. by destruct (_ <? _)%nat. Qed.

Lemma income_distribute i pct a :
  income_members (distribute i pct a) = income_members a /\
  inflation_ (distribute i pct a) = inflation_ a.
Proof.
  unfold distribute. split.
  - rewrite (field_fold income_members (distribute_account i pct)
               (fun x _ => x))
      by (intros; apply income_distribute_account).
    apply fold_left_const.
  - rewrite (field_fold inflation_ (distribute_account i pct) (fun x _ => x))
      by (intros; apply inflation_distribute_account).
    apply fold_left_const.
Qed.

(** The four additions of the contribution step. *)
Lemma add_values_spec i x0 x1 x2 x3 a c :
  dims_ok a -> (c < MAX_ACCOUNTS)%nat -> (i + 1 < MAX_YEARS)%nat ->
  let a4 :=
    add_value R401K_INDEX i x3
      (add_value IRA_INDEX i x2
         (add_value ROTH_INDEX i x1 (add_value INDIVIDUAL_INDEX i x0 a))) in
  dims_ok a4 /\
  income_members a4 = income_members a /\
  inflation_ a4 = inflation_ a /\
  value_at a4 c (i + 1)
  = wrap64
      (value_at a c (i + 1)
       + (if (c =? INDIVIDUAL_INDEX)%nat then x0
          else if (c =? ROTH_INDEX)%nat then x1
          else if (c =? IRA_INDEX)%nat then x2
          else if (c =? R401K_INDEX)%nat then x3
          else 0)).
Proof.
  intros Hd Hc Hi. cbv zeta.
  split; [by repeat apply dims_ok_add_value |].
  split; [reflexivity |]. split; [reflexivity |].
  assert (Hstep : forall c0 x b,
            dims_ok b -> (c0 < MAX_ACCOUNTS)%nat ->
            value_at (add_value c0 i x b) c (i + 1)
            = if decide (c = c0) then wrap64 (value_at b c (i + 1) + x)
              else value_at b c (i + 1)).
  { intros c0 x b Hb Hc0. unfold add_value, value_at.
    cbn [value_ set_value_]. destruct (decide (c = c0)) as [-> | Hne].
    - apply (get2_set2_eq _ _ MAX_ACCOUNTS MAX_YEARS); [| done | done].
      by destruct Hb as (_&_&?&_).
    - apply get2_set2_ne. left. congruence. }
  rewrite !Hstep
    by (repeat apply dims_ok_add_value; try done;
        unfold MAX_ACCOUNTS, INDIVIDUAL_INDEX, ROTH_INDEX, IRA_INDEX,
          R401K_INDEX; lia).
  unfold MAX_ACCOUNTS, INDIVIDUAL_INDEX, ROTH_INDEX, IRA_INDEX, R401K_INDEX
    in *.
  destruct c as [| [| [| [| c]]]]; try lia; reflexivity.
Qed.

(** The contribution step of a year before retirement. *)
Lemma contribute_spec i x a c :
  dims_ok a -> (c < MAX_ACCOUNTS)%nat -> (i + 1 < MAX_YEARS)%nat ->
  Z.of_nat i < yearsTillRetirement_ a ->
  value_at (contribute i x a) c (i + 1)
  = wrap64
      (value_at a c (i + 1)
       + (if (c =? INDIVIDUAL_INDEX)%nat then x
          else if (c =? ROTH_INDEX)%nat then contributionRoth_ a
          else if (c =? IRA_INDEX)%nat then contributionIra_ a
          else if (c =? R401K_INDEX)%nat then contributionR401k_ a
          else 0)) /\
  income_members (contribute i x a)
  = (inflate i a (takehomeIncome_ a), inflate i a (contributionRoth_ a),
     inflate i a (contributionIra_ a), inflate i a (contributionR401k_ a)).
Proof.
  intros Hd Hc Hi Hret. unfold contribute.
  rewrite (proj2 (Z.ltb_lt _ _) Hret), (proj2 (Nat.ltb_lt _ _) Hi).
  cbn [andb]. cbv zeta.
  destruct (add_values_spec i x (contributionRoth_ a) (contributionIra_ a)
              (contributionR401k_ a) a c Hd Hc Hi) as (_ & _ & _ & Hv).
  cbv zeta in Hv. split; [exact Hv | reflexivity].
Qed.

Lemma income_tail i a :
  income_members (inflate_reserve i (inflate_expense i a)) = income_members a.
Proof.
  unfold inflate_reserve, inflate_expense.
  destruct (i + 1 <? MAX_YEARS)%nat; by destruct (_ >? _).
Qed.

(** X25.  The contribution step.  In a year [i] before the year of
    retirement whose body runs to its end, with [i + 1 < MAX_YEARS], the
    next-year value of every account is its projected value plus the
    year's contribution.  The projected value is the one of the growth
    projection, on the account's value at the shortfall check, the
    withdrawal the year stores for it and its growth rate; the
    contribution is the income left after the expense for the Individual
    account, and the Roth, IRA and 401(k) contributions for the other
    three.  The take-home income and the three contributions of the next
    year are this year's, inflated by the year's inflation. *)
Theorem contribution_step (i : nat) (a a' : Asset) (c : nat) :
  dims_ok a ->
  (c < MAX_ACCOUNTS)%nat ->
  (i + 1 < MAX_YEARS)%nat ->
  Z.of_nat i < yearsTillRetirement_ a ->
  year_body i a = Continue a' ->
  value_at a' c (i + 1)
  = wrap64
      (to_long
         (fmul
            (of_Z (wrap64 (value_at (before_check i a) c i
                           - distribution_at a' c i)))
            (fadd (of_Z 1) (growthRate_at a c i)))
       + contribution_to i (before_check i a) c) /\
  contribution_to i (before_check i a) c
  = (if (c =? INDIVIDUAL_INDEX)%nat
     then Z.max (wrap64 (takehomeIncome_ a
                         - expense_at (before_check i a) i)) 0
     else if (c =? ROTH_INDEX)%nat then contributionRoth_ a
     else if (c =? IRA_INDEX)%nat then contributionIra_ a
     else contributionR401k_ a) /\
  income_members a'
  = (inflate i a (takehomeIncome_ a), inflate i a (contributionRoth_ a),
     inflate i a (contributionIra_ a), inflate i a (contributionR401k_ a)).
Proof.
  intros Hd Hc Hi Hret Hbody. unfold year_body in Hbody.
  assert (Hne : Z.of_nat i ≠ yearsTillRetirement_ a) by lia.
  destruct (income_before_check i a Hne) as [Hinc1 Hinf1].
  pose proof (same_inputs_before_check i a) as (_&_&Hg1&_&_&Hy1&_).
  pose proof (dims_ok_before_check i a Hd) as Hd1.
  set (a1 := before_check i a) in *.
  set (total := distributable_total i a1) in *.
  set (net := net_expense i a1) in *.
  destruct (shortfall i net total a1) as [a2 |] eqn:Hs; [| discriminate].
  injection Hbody as <-.
  destruct (income_shortfall _ _ _ _ _ Hs) as [Hinc2 Hinf2].
  pose proof (same_inputs_shortfall _ _ _ _ _ Hs) as (_&_&Hg2&_&_&Hy2&_).
  destruct (shortfall_cells _ _ _ _ _ Hs) as [Hv2 _].
  pose proof (dims_ok_shortfall _ _ _ _ _ Hs Hd1) as Hd2.
  destruct (income_distribute i (distribution_percentage net total) a2)
    as [Hinc3 Hinf3].
  pose proof (same_inputs_distribute i (distribution_percentage net total) a2)
    as (_&_&_&_&_&Hy3&_).
  pose proof (dims_ok_distribute i (distribution_percentage net total) a2 Hd2)
    as Hd3.
  destruct (distribute_spec i (distribution_percentage net total) a2 c
              Hd2 Hc ltac:(lia)) as (_&Hvd&_&Hgd&Hproj).
  specialize (Hproj Hi).
  set (d := distribute i (distribution_percentage net total) a2) in *.
  assert (Hinc : income_members d = income_members a) by congruence.
  assert (Hinf : inflation_ d = inflation_ a) by congruence.
  assert (Hy : Z.of_nat i < yearsTillRetirement_ d) by (rewrite Hy3, Hy2, Hy1; lia).
  destruct (contribute_spec i (contribution_individual i a1) d c Hd3 Hc Hi Hy)
    as [Hval Hincome].
  unfold income_members in Hinc. injection Hinc as Ht Hr Hir Hk.
  assert (Hinfl : forall x, inflate i d x = inflate i a x)
    by (intros x; unfold inflate, inflation_at; by rewrite Hinf).
  assert (Hdist : distribution_at
                    (after_check i net total (contribution_individual i a1) a2)
                    c i = distribution_at d c i).
  { unfold after_check, distribution_at. fold d.
    by rewrite distribution_after_loop. }
  assert (Hcell : value_at d c i = value_at a1 c i)
    by (rewrite Hvd; unfold value_at; by rewrite Hv2).
  assert (Hrate : growthRate_at d c i = growthRate_at a c i)
    by (rewrite Hgd; unfold growthRate_at; by rewrite Hg2, Hg1).
  split; [| split].
  - rewrite Hdist, <- Hcell, <- Hrate, <- Hproj.
    unfold after_check. fold d. rewrite inflate_tail_value, Hval.
    unfold contribution_to. rewrite Hr, Hir, Hk.
    unfold income_members in Hinc1. injection Hinc1 as _ -> -> ->.
    unfold MAX_ACCOUNTS, INDIVIDUAL_INDEX, ROTH_INDEX, IRA_INDEX, R401K_INDEX
      in *.
    by destruct c as [| [| [| [| c]]]].
  - unfold contribution_to, contribution_individual.
    unfold income_members in Hinc1. injection Hinc1 as -> -> -> ->.
    unfold MAX_ACCOUNTS, INDIVIDUAL_INDEX, ROTH_INDEX, IRA_INDEX, R401K_INDEX
      in *.
    destruct c as [| [| [| [| c]]]]; try lia; reflexivity.
  - unfold after_check. fold d. rewrite income_tail, Hincome.
    by rewrite !Hinfl, Ht, Hr, Hir, Hk.
Qed.

(** The hypotheses of [contribution_step] hold in year 0 of a profile
    with an income of 2,000, an expense of 1,000, an IRA contribution of
    500 and retirement in year 10: the IRA account goes from 12,500 to
    13,000 and the Individual account from 12,500 to 13,500. *)
Lemma contribution_step_witness :
  let a :=
    initializeFromUserData
      (with_contributionIra 500
         (mkUserData (name plain_user) (value plain_user) (rate plain_user)
            1000 2000 0 0 0 (of_Z 0) 10))
      Asset_ctor in
  let a' := match year_body 0 a with Continue x | Break x => x end in
  value_at a' IRA_INDEX 1 = 13000 /\
  value_at a' INDIVIDUAL_INDEX 1 = 13500.
Proof.
  cbv zeta. split.
  - destruct (contribution_step 0
                (initializeFromUserData
                   (with_contributionIra 500
                      (mkUserData (name plain_user) (value plain_user)
                         (rate plain_user) 1000 2000 0 0 0 (of_Z 0) 10))
                   Asset_ctor)
                (match year_body 0 (initializeFromUserData
                              (with_contributionIra 500
                                 (mkUserData (name plain_user) (value plain_user)
                                    (rate plain_user) 1000 2000 0 0 0
                                    (of_Z 0) 10))
                              Asset_ctor)
                 with Continue x | Break x => x end) IRA_INDEX)
      as (H & _ & _).
    + dims_tac.
    + unfold MAX_ACCOUNTS, IRA_INDEX. lia.
    + unfold MAX_YEARS. lia.
    + vm_compute. reflexivity.
    + vm_compute. reflexivity.
    + etransitivity; [exact H |]. vm_compute. reflexivity.
  - vm_compute. reflexivity.
Defined.

(** ** Amounts a [float] holds exactly *)

Lemma digits2_pos_lower (p : positive) :
  2 ^ (Z.pos (digits2_pos p) - 1) <= Z.pos p.
Proof.
  induction p as [p IH | p IH |]; cbn [digits2_pos].
  - rewrite Pos2Z.inj_succ.
    replace (Z.succ (Z.pos (digits2_pos p)) - 1)
      with (Z.succ (Z.pos (digits2_pos p) - 1)) by lia.
    rewrite Z.pow_succ_r by lia. lia.
  - rewrite Pos2Z.inj_succ.
    replace (Z.succ (Z.pos (digits2_pos p)) - 1)
      with (Z.succ (Z.pos (digits2_pos p) - 1)) by lia.
    rewrite Z.pow_succ_r by lia. lia.
  - cbn. lia.
Qed.

Lemma digits2_pos_small (p : positive) :
  Z.pos p < 2 ^ 24 -> Z.pos (digits2_pos p) <= 24.
Proof.
  intros Hp. pose proof (digits2_pos_lower p) as Hl.
  destruct (Z_le_gt_dec (Z.pos (digits2_pos p)) 24) as [| Hgt]; [done |].
  assert (2 ^ 24 <= 2 ^ (Z.pos (digits2_pos p) - 1))
    by (apply Z.pow_le_mono_r; lia).
  lia.
Qed.

Lemma digits2_pos_iter (p k : positive) :
  digits2_pos (Pos.iter xO p k) = (digits2_pos p + k)%positive.
Proof.
  induction k as [| k IH] using Pos.peano_ind.
  - cbn. lia.
  - rewrite Pos.iter_succ. cbn [digits2_pos]. rewrite IH. lia.
Qed.

Lemma Zpos_iter (p k : positive) :
  Z.pos (Pos.iter xO p k) = Z.pos p * 2 ^ Z.pos k.
Proof.
  induction k as [| k IH] using Pos.peano_ind.
  - cbn. lia.
  - rewrite Pos.iter_succ, Pos2Z.inj_xO, IH, Pos2Z.inj_succ.
    rewrite Z.pow_succ_r by lia. lia.
Qed.

(** A mantissa of 24 digits needs no rounding. *)
Lemma binary_round_aux_exact (s : bool) (m : positive) (e : Z) :
  Z.pos (digits2_pos m) = 24 -> -149 <= e <= 104 ->
  binary_round_aux prec emax s (Z.pos m) e loc_Exact = S754_finite s m e.
Proof.
  intros Hd He. unfold binary_round_aux, shr_fexp.
  cbn [Zdigits2 shr_record_of_loc]. rewrite Hd.
  assert (Hf : fexp prec emax (24 + e) - e = 0)
    by (unfold fexp, emin, prec, emax; lia).
  rewrite Hf. cbn [shr shr_m loc_of_shr_record round_nearest_even Zdigits2
                   shr_record_of_loc].
  rewrite Hd, Hf. cbn [shr shr_m].
  unfold emax, prec. by rewrite (proj2 (Z.leb_le _ _)) by lia.
Qed.

(** The product of such a mantissa with [2 ^ 23] is rounded back to it. *)
Lemma binary_round_aux_shifted (s : bool) (m : positive) (e : Z) :
  Z.pos (digits2_pos m) = 24 -> -149 <= e <= 104 ->
  binary_round_aux prec emax s (Z.pos (m * 8388608)) (e + -23) loc_Exact
  = S754_finite s m e.
Proof.
  intros Hd He. rewrite Pos.mul_comm.
  change (8388608 * m)%positive with (Pos.iter xO m 23).
  unfold binary_round_aux, shr_fexp.
  cbn [Zdigits2 shr_record_of_loc]. rewrite digits2_pos_iter.
  assert (Hf : fexp prec emax (Z.pos (digits2_pos m + 23) + (e + -23))
               - (e + -23) = 23)
    by (unfold fexp, emin, prec, emax; lia).
  rewrite Hf. cbn [shr].
  change (SpecFloat.iter_pos shr_1 23
            {| shr_m := Z.pos (Pos.iter xO m 23);
               shr_r := false; shr_s := false |})
    with {| shr_m := Z.pos m; shr_r := false; shr_s := false |}.
  cbn [shr_m loc_of_shr_record round_nearest_even Zdigits2].
  rewrite Hd.
  assert (Hf' : fexp prec emax (24 + (e + -23 + 23)) - (e + -23 + 23) = 0)
    by (unfold fexp, emin, prec, emax; lia).
  rewrite Hf'. cbn [shr shr_m].
  unfold emax, prec. rewrite (proj2 (Z.leb_le _ _)) by lia.
  f_equal. lia.
Qed.

(** The [float] of a positive amount below [2 ^ 24]. *)
Lemma binary_round_small (s : bool) (p : positive) :
  Z.pos p < 2 ^ 24 ->
  exists (m : positive) (e : Z),
    binary_round prec emax s p 0 = S754_finite s m e /\
    Z.pos (digits2_pos m) = 24 /\ -23 <= e <= 0 /\
    trunc (S754_finite s m e) = Some (cond_Zopp s (Z.pos p)).
Proof.
  intros Hp. pose proof (digits2_pos_small p Hp) as Hd.
  unfold binary_round, shl_align.
  assert (Hf : fexp prec emax (Z.pos (digits2_pos p) + 0)
               = Z.pos (digits2_pos p) - 24)
    by (unfold fexp, emin, prec, emax; lia).
  rewrite Hf.
  destruct (Z.eq_dec (Z.pos (digits2_pos p)) 24) as [H24 | Hlt].
  - assert (Hz : Z.pos (digits2_pos p) - 24 - 0 = 0) by lia.
    rewrite Hz. cbv beta iota.
    exists p, 0. rewrite binary_round_aux_exact by (done || lia).
    by split_and!; try lia.
  - set (k := Z.to_pos (24 - Z.pos (digits2_pos p))).
    assert (Hk : Z.pos (digits2_pos p) - 24 - 0 = Z.neg k) by (subst k; lia).
    rewrite Hk. cbv beta iota.
    assert (Hdk : Z.pos (digits2_pos (Pos.iter xO p k)) = 24)
      by (rewrite digits2_pos_iter; subst k; lia).
    exists (Pos.iter xO p k), (Z.pos (digits2_pos p) - 24).
    rewrite binary_round_aux_exact by (done || lia).
    split; [done |]. split; [done |]. split; [lia |].
    unfold trunc.
    replace (Z.pos (digits2_pos p) - 24) with (Z.neg k) by lia.
    rewrite Zpos_iter, Z.div_mul by lia. done.
Qed.

(** An amount below [2 ^ 24] in size survives the conversion to [float],
    the product with [1 + 0] and the conversion back. *)
Lemma float_keeps_small (x : Z) :
  - 2 ^ 24 < x < 2 ^ 24 ->
  to_long (fmul (of_Z x) (fadd (of_Z 1) (of_Z 0))) = x.
Proof.
  intros Hx.
  change (fadd (of_Z 1) (of_Z 0)) with (S754_finite false 8388608 (-23)).
  unfold of_Z, binary_normalize. destruct x as [| p | p].
  - reflexivity.
  - destruct (binary_round_small false p ltac:(lia)) as (m & e & -> & Hd & He & Ht).
    unfold fmul, SFmul. cbn [xorb].
    rewrite binary_round_aux_shifted by (done || lia).
    unfold to_long, to_signed. rewrite Ht. cbn [cond_Zopp].
    unfold LONG_MIN, LONG_MAX. lia.
  - destruct (binary_round_small true p ltac:(lia)) as (m & e & -> & Hd & He & Ht).
    unfold fmul, SFmul. cbn [xorb].
    rewrite binary_round_aux_shifted by (done || lia).
    unfold to_long, to_signed. rewrite Ht. cbn [cond_Zopp].
    unfold LONG_MIN, LONG_MAX. lia.
Qed.

(** ** The closed form of a run without growth, income and loss *)

Lemma retire_no_income i a : no_income a -> retire i a = a.
Proof.
  intros (Ht & Hr & Hi & Hk). unfold retire.
  destruct (_ =? _); [| done].
  destruct a. cbn in *. by subst.
Qed.

Lemma cashPolicy_idle i a :
  cashReserve_ a = 0 ->
  growthRate_at a INDIVIDUAL_INDEX (i - 1) = of_Z 0 ->
  cashPolicy i a = a.
Proof.
  intros Hr Hg. unfold cashPolicy. rewrite Hr, Hg.
  change (0 >? 0) with false. change (flt (of_Z 0) (of_Z 0)) with false.
  by rewrite !andb_false_r.
Qed.

Lemma before_check_idle i a :
  no_growth_no_income a -> cashReserve_ a = 0 -> before_check i a = a.
Proof.
  intros (Hg & _ & Hinc) Hr. unfold before_check.
  rewrite retire_no_income by done. by apply cashPolicy_idle.
Qed.

Lemma distributable_total_all i a :
  always_available a -> (i < MAX_YEARS)%nat ->
  (forall c, (c < MAX_ACCOUNTS)%nat -> 0 <= value_at a c i < 2 ^ 24) ->
  distributable_total i a = total_value i a /\
  0 <= total_value i a < 2 ^ 26.
Proof.
  intros Hav Hi Hv. unfold always_available in Hav.
  unfold distributable_total, total_value, MAX_ACCOUNTS in *.
  cbn [seq fold_left].
  rewrite !Hav by lia.
  pose proof (Hv 0%nat ltac:(lia)). pose proof (Hv 1%nat ltac:(lia)).
  pose proof (Hv 2%nat ltac:(lia)). pose proof (Hv 3%nat ltac:(lia)).
  repeat match goal with
         | |- context [wrap64 (?x + ?y)] =>
             lazymatch x with
             | context [wrap64] => fail
             | _ => rewrite (wrap64_id (x + y))
                      by (unfold in_long, LONG_MIN, LONG_MAX; lia)
             end
         end.
  lia.
Qed.

Lemma inflate_zero i a : inflate i a 0 = 0.
Proof.
  unfold inflate. change (of_Z 0) with (S754_zero false).
  by destruct (fadd _ _) as [[] | [] | | [] m e].
Qed.

Lemma no_income_contribute i x a : no_income a -> no_income (contribute i x a).
Proof.
  intros (Ht & Hr & Hi & Hk). unfold contribute.
  destruct (_ && _); [| done]. cbv zeta. unfold no_income.
  cbn [takehomeIncome_ contributionRoth_ contributionIra_ contributionR401k_
       set_takehomeIncome_ set_contributionRoth_ set_contributionIra_
       set_contributionR401k_ add_value set_value_].
  rewrite Ht, Hr, Hi, Hk. by rewrite !inflate_zero.
Qed.

Lemma no_income_tail i a :
  no_income a -> no_income (inflate_reserve i (inflate_expense i a)).
Proof.
  unfold inflate_reserve, inflate_expense.
  destruct (_ <? _)%nat; by destruct (_ >? _).
Qed.

(** A contribution step without income or contributions adds nothing. *)
Lemma contribute_nothing i a c :
  dims_ok a -> no_income a -> (c < MAX_ACCOUNTS)%nat ->
  in_long (value_at a c (i + 1)) ->
  value_at (contribute i 0 a) c (i + 1) = value_at a c (i + 1).
Proof.
  intros Hd (Ht & Hr & Hi & Hk) Hc Hv. unfold contribute.
  destruct (Z.of_nat i <? yearsTillRetirement_ a); [| done].
  destruct (i + 1 <? MAX_YEARS)%nat eqn:Hlt; [| done].
  apply Nat.ltb_lt in Hlt. cbn [andb]. cbv zeta.
  destruct (add_values_spec i 0 (contributionRoth_ a) (contributionIra_ a)
              (contributionR401k_ a) a c Hd Hc Hlt) as (_ & _ & _ & Hval).
  cbv zeta in Hval.
  change (value_at
            (add_value R401K_INDEX i (contributionR401k_ a)
               (add_value IRA_INDEX i (contributionIra_ a)
                  (add_value ROTH_INDEX i (contributionRoth_ a)
                     (add_value INDIVIDUAL_INDEX i 0 a)))) c (i + 1)
          = value_at a c (i + 1)).
  rewrite Hval, Hr, Hi, Hk.
  replace (if (c =? INDIVIDUAL_INDEX)%nat then 0
           else if (c =? ROTH_INDEX)%nat then 0
           else if (c =? IRA_INDEX)%nat then 0
           else if (c =? R401K_INDEX)%nat then 0 else 0) with 0
    by (by repeat destruct (_ =? _)%nat).
  rewrite Z.add_0_r. by apply wrap64_id.
Qed.

Lemma expense_distribute i pct a : expense_ (distribute i pct a) = expense_ a.
Proof.
  unfold distribute. generalize (seq 0 MAX_ACCOUNTS). intros l. revert a.
  induction l as [| c l IH]; intros a; cbn [fold_left]; [done |].
  rewrite IH. unfold distribute_account. by destruct (_ <? _)%nat.
Qed.

Lemma expense_contribute i x a : expense_ (contribute i x a) = expense_ a.
Proof. unfold contribute. by destruct (_ && _). Qed.

(** The year after a year of the run: what a body that runs to its end
    leaves for the next year. *)
Lemma closed_form_year (E : Z) i a :
  dims_ok a -> no_growth_no_income a -> cashReserve_ a = 0 ->
  (i + 1 < MAX_YEARS)%nat ->
  expense_at a i = E -> 0 < E < 2 ^ 24 ->
  forall net total,
    let a' := after_check i net total 0 a in
    expense_at a' (i + 1) = E /\
    forall c, (c < MAX_ACCOUNTS)%nat ->
      0 <= distribution_at a' c i <= value_at a c i ->
      value_at a c i < 2 ^ 24 ->
      value_at a' c (i + 1) = value_at a c i - distribution_at a' c i.
Proof.
  intros Hd (Hg & Hinf & Hinc) Hres Hi HE HEr net total a'.
  subst a'. unfold after_check.
  set (d := distribute i (distribution_percentage net total) a).
  assert (Hdd : dims_ok d) by (by apply dims_ok_distribute).
  assert (Hid : no_income d) by (by apply no_income_distribute).
  pose proof (same_inputs_distribute i (distribution_percentage net total) a)
    as (_ & _ & _ & _ & Hinfd & _). fold d in Hinfd.
  split.
  - unfold inflate_reserve.
    set (b := inflate_expense i (contribute i 0 d)).
    assert (Hb : expense_at b (i + 1) = E).
    { subst b. unfold inflate_expense. rewrite (proj2 (Nat.ltb_lt _ _) Hi).
      unfold expense_at at 1. cbn [expense_ set_expense_].
      unfold get1. rewrite list_lookup_insert_eq.
      2:{ rewrite expense_contribute. subst d. rewrite expense_distribute.
          destruct Hd as (_&_&_&_&Hl&_). rewrite Hl. lia. }
      cbn [default]. unfold inflate, inflation_at, expense_at.
      pose proof (same_inputs_contribute i 0 d) as (_ & _ & _ & _ & Hinfc & _).
      rewrite Hinfc, Hinfd, expense_contribute. subst d.
      rewrite expense_distribute.
      fold (expense_at a i). fold (inflation_at a i). rewrite Hinf, HE.
      apply float_keeps_small. lia. }
    by destruct (_ >? _).
  - intros c Hc Hdist Hv. rewrite inflate_tail_value.
    destruct (distribute_spec i (distribution_percentage net total) a c
                Hd Hc ltac:(lia)) as (_ & Hvd & _ & Hgd & Hproj).
    fold d in Hvd, Hgd, Hproj. specialize (Hproj Hi).
    assert (Hdist' : distribution_at
                       (inflate_reserve i (inflate_expense i (contribute i 0 d)))
                       c i = distribution_at d c i)
      by (unfold distribution_at; by rewrite distribution_after_loop).
    rewrite Hdist' in *.
    assert (Hnext : value_at d c (i + 1) = value_at a c i - distribution_at d c i).
    { rewrite Hproj, Hvd, Hgd, Hg.
      rewrite wrap64_id by (unfold in_long, LONG_MIN, LONG_MAX; lia).
      apply float_keeps_small. lia. }
    rewrite contribute_nothing; try done.
    rewrite Hnext. unfold in_long, LONG_MIN, LONG_MAX. lia.
Qed.

Lemma within_values_spec i a a' :
  within_values i a a' = true ->
  (forall c, (c < MAX_ACCOUNTS)%nat ->
     0 <= distribution_at a' c i <= value_at a c i) /\
  withdrawn i a' <= expense_at a i.
Proof.
  unfold within_values. intros [Hall Hsum]%andb_true_iff.
  split; [| by apply Z.leb_le].
  intros c Hc. rewrite forallb_forall in Hall.
  specialize (Hall c ltac:(apply in_seq; lia)).
  apply andb_true_iff in Hall as [H1 H2].
  apply Z.leb_le in H1, H2. lia.
Qed.

(** One year of the run: the loop is left when the expense exceeds the
    total, and otherwise the body leaves the invariant for the next year
    and a total that is the old one less the withdrawals. *)
Lemma closed_form_step (T0 E : Z) i a :
  0 < E < 2 ^ 24 -> (i < MAX_YEARS)%nat ->
  closed_form_invariant T0 E i a ->
  (E > total_value i a /\ year_body i a = Break a) \/
  (E <= total_value i a /\
   exists a',
     year_body i a = Continue a' /\
     (within_values i a a' = true ->
      closed_form_invariant T0 E (S i) a' /\
      ((S i < MAX_YEARS)%nat ->
       total_value (S i) a' = total_value i a - withdrawn i a'))).
Proof.
  intros HE Hi (Hd & Hng & Hres & Hav & Hyear).
  destruct (Hyear Hi) as (Hexp & Hval & Htot).
  destruct (distributable_total_all i a Hav Hi Hval) as [Hdt Hrange].
  pose proof Hng as (Hg & Hinf & Ht & Hr & Hir & Hk).
  assert (Hinc : no_income a) by done.
  assert (Hnet : net_expense i a = E).
  { unfold net_expense. rewrite Hexp, Ht, Z.sub_0_r.
    rewrite wrap64_id by (unfold in_long, LONG_MIN, LONG_MAX; lia). lia. }
  assert (Hci : contribution_individual i a = 0).
  { unfold contribution_individual. rewrite Hexp, Ht.
    rewrite wrap64_id by (unfold in_long, LONG_MIN, LONG_MAX; lia). lia. }
  assert (Hbody : year_body i a
                  = if E >? total_value i a then Break a
                    else Continue (after_check i E (total_value i a) 0 a)).
  { unfold year_body. rewrite before_check_idle by done. cbv zeta.
    rewrite shortfall_no_reserve by done. rewrite Hnet, Hdt, Hci.
    by destruct (E >? total_value i a). }
  destruct (E >? total_value i a) eqn:Hgt.
  { left. split; [by apply Z.gtb_gt | done]. }
  right. assert (Hle : E <= total_value i a).
  { pose proof (Zgt_cases E (total_value i a)) as Hc. rewrite Hgt in Hc. lia. }
  split; [exact Hle |]. eexists. split; [exact Hbody |].
  intros [Hcells Hsum]%within_values_spec.
  set (a' := after_check i E (total_value i a) 0 a) in *.
  pose proof (dims_ok_year_body i a Hd) as Hd'.
  pose proof (same_inputs_year_body i a) as Hsame.
  rewrite Hbody in Hd', Hsame.
  destruct Hsame as (_ & Hav' & Hg' & _ & Hinf' & _ & _).
  assert (Hinc' : no_income a').
  { subst a'. unfold after_check.
    by apply no_income_tail, no_income_contribute, no_income_distribute. }
  assert (Hnext : (S i < MAX_YEARS)%nat ->
            expense_at a' (S i) = E /\
            (forall c, (c < MAX_ACCOUNTS)%nat ->
               value_at a' c (S i) = value_at a c i - distribution_at a' c i)).
  { intros Hi1.
    destruct (closed_form_year E i a Hd Hng Hres ltac:(lia) Hexp HE
                E (total_value i a)) as [He' Hv'].
    fold a' in He', Hv'. replace (i + 1)%nat with (S i) in * by lia.
    split; [exact He' |]. intros c Hc.
    apply Hv'; [done | by apply Hcells | by apply Hval]. }
  split.
  - split; [exact Hd' |]. split.
    { destruct Hinc' as (? & ? & ? & ?). unfold no_growth_no_income.
      split_and!; try done.
      - intros c j. unfold growthRate_at. rewrite Hg'. apply Hg.
      - intros j. unfold inflation_at. rewrite Hinf'. apply Hinf. }
    split; [by apply cashReserve_after_check |].
    split.
    { intros c j Hc Hj. unfold availability_at. rewrite Hav'.
      by apply Hav. }
    intros Hi1. destruct (Hnext Hi1) as [He' Hv'].
    split; [exact He' |]. split.
    + intros c Hc. rewrite (Hv' c Hc).
      pose proof (Hcells c Hc). pose proof (Hval c Hc). lia.
    + unfold total_value, MAX_ACCOUNTS in *. cbn [seq fold_left] in *.
      rewrite !Hv' by lia.
      unfold withdrawn, MAX_ACCOUNTS in Hsum. cbn [seq fold_left] in Hsum.
      rewrite Hexp in Hsum. lia.
  - intros Hi1. destruct (Hnext Hi1) as [_ Hv'].
    unfold total_value, withdrawn, MAX_ACCOUNTS in *. cbn [seq fold_left] in *.
    rewrite !Hv' by lia. lia.
Qed.

(** The year loop of the run, from year [i] on. *)
Lemma closed_form_loop (T0 E : Z) :
  0 < E < 2 ^ 24 ->
  forall remaining i a,
    (i + remaining = MAX_YEARS)%nat ->
    closed_form_invariant T0 E i a ->
    every_year within_values remaining i a = true ->
    Z.min (T0 / E) (Z.of_nat MAX_YEARS)
    <= Z.of_nat (fst (year_loop remaining i a)) /\
    (Z.of_nat i * E <= T0 ->
     ((i < MAX_YEARS)%nat -> total_value i a = T0 - Z.of_nat i * E) ->
     every_year paid_in_full remaining i a = true ->
     Z.of_nat (fst (year_loop remaining i a))
     = Z.min (T0 / E) (Z.of_nat MAX_YEARS)).
Proof.
  intros HE. induction remaining as [| remaining IH]; intros i a Hi Hinv Hw.
  - cbn [year_loop fst]. split; [lia |]. intros Hlow _ _.
    assert (Z.of_nat MAX_YEARS <= T0 / E)
      by (apply Z.div_le_lower_bound; lia).
    lia.
  - assert (Hlt : (i < MAX_YEARS)%nat) by lia.
    pose proof Hinv as (_ & _ & _ & _ & Hyear).
    destruct (Hyear Hlt) as (Hexp & _ & Htot).
    rewrite year_loop_step.
    destruct (closed_form_step T0 E i a HE Hlt Hinv)
      as [[Hgt Hbody] | (Hle & a' & Hbody & Hnext)]; rewrite Hbody.
    + cbn [fst].
      assert (Hup : T0 / E < Z.of_nat i + 1)
        by (apply Z.div_lt_upper_bound; lia).
      split; [lia |]. intros Hlow Hexact _.
      assert (Z.of_nat i <= T0 / E) by (apply Z.div_le_lower_bound; lia).
      lia.
    + cbn [every_year] in Hw. rewrite Hbody in Hw.
      apply andb_true_iff in Hw as [Hw Hrest].
      destruct (Hnext Hw) as [Hinv' Htot'].
      destruct (IH (S i) a' ltac:(lia) Hinv' Hrest) as [Hlower Hequal].
      split; [exact Hlower |]. intros Hlow Hexact Hpaid.
      cbn [every_year] in Hpaid. rewrite Hbody in Hpaid.
      apply andb_true_iff in Hpaid as [Hp Hpaid].
      unfold paid_in_full in Hp. apply Z.eqb_eq in Hp. rewrite Hexp in Hp.
      specialize (Hexact Hlt).
      apply Hequal; [lia | | exact Hpaid].
      intros Hi1. rewrite (Htot' Hi1). lia.
Qed.

(** C3.  The closed form, without the loss to truncation.  For every
    initial state without growth, inflation, income and contributions,
    with an empty cash reserve, every account available in every year,
    every account holding at least 0 and less than [2 ^ 24] and a
    positive expense below [2 ^ 24], and in which the withdrawals of
    every year stay within the accounts' values and add up to no more
    than the year's expense: the fund longevity of [calculateN] is at
    least the closed form [min (floor (total / expense)) MAX_YEARS] and
    at most [MAX_YEARS]; and it is the closed form when in every year
    the withdrawals add up to the year's expense, so that nothing is
    lost to truncation. *)
Theorem closed_form_without_loss (a0 : Asset) :
  dims_ok a0 ->
  no_growth_no_income a0 ->
  cashReserve_ a0 = 0 ->
  always_available a0 ->
  small_amounts a0 ->
  every_year within_values MAX_YEARS 0 a0 = true ->
  closed_form_longevity a0 <= fundLongevity_ (calculateN a0)
    <= Z.of_nat MAX_YEARS /\
  (every_year paid_in_full MAX_YEARS 0 a0 = true ->
   fundLongevity_ (calculateN a0) = closed_form_longevity a0).
Proof.
  intros Hd Hng Hres Hav [Hval Hexp] Hw.
  assert (Hinv : closed_form_invariant (total_initial_value a0)
                   (expense_at a0 0) 0 a0).
  { split; [done |]. split; [done |]. split; [done |]. split; [done |].
    intros _. split; [done |]. split; [done |].
    change (total_value 0 a0) with (total_initial_value a0). lia. }
  destruct (closed_form_loop (total_initial_value a0) (expense_at a0 0) Hexp
              MAX_YEARS 0%nat a0 eq_refl Hinv Hw) as [Hlower Hequal].
  pose proof (year_loop_index MAX_YEARS 0 a0) as Hindex.
  destruct (distributable_total_all 0 a0 Hav ltac:(unfold MAX_YEARS; lia) Hval)
    as [_ Hrange].
  change (total_value 0 a0) with (total_initial_value a0) in Hrange.
  unfold calculateN, closed_form_longevity.
  destruct (year_loop MAX_YEARS 0 a0) as [j a'].
  cbn [fst fundLongevity_ set_fundLongevity_] in *.
  split; [lia |]. intros Hpaid.
  apply Hequal; [lia | | exact Hpaid]. intros _.
  change (total_value 0 a0) with (total_initial_value a0). lia.
Qed.

(** The premises of the closed form hold of four equal accounts. *)
Lemma equal_accounts_premises (v y : Z) :
  0 <= v < 2 ^ 24 -> 0 < y < 2 ^ 24 ->
  dims_ok (equal_accounts v y) /\
  no_growth_no_income (equal_accounts v y) /\
  cashReserve_ (equal_accounts v y) = 0 /\
  always_available (equal_accounts v y) /\
  small_amounts (equal_accounts v y).
Proof.
  intros Hv Hy. split; [dims_tac |].
  split; [by apply no_growth_no_income_ctor |]. split; [reflexivity |].
  split.
  - intros c i Hc Hi. unfold availability_at, equal_accounts, all_available.
    cbn [availability_ set_availability_]. unfold get2.
    rewrite lookup_replicate_2 by done. cbn [mbind option_bind].
    by rewrite lookup_replicate_2.
  - split; [| exact Hy].
    intros c Hc. unfold MAX_ACCOUNTS in Hc.
    destruct c as [| [| [| [| c]]]]; try lia; exact Hv.
Qed.

(** The hypotheses of [closed_form_without_loss] hold of the profile of
    the unit test, four accounts of 12,500 and an expense of 1,000,
    whose closed form is the horizon, 50 years; and of four accounts of
    4,000 with the same expense, which lose nothing to truncation and
    last the 16 years of the closed form. *)
Lemma closed_form_without_loss_witness :
  fundLongevity_ (calculateN ConstantNoGrowthModel) = 50 /\
  fundLongevity_ (calculateN (equal_accounts 4000 1000)) = 16.
Proof.
  split.
  - destruct (equal_accounts_premises 12500 1000 ltac:(lia) ltac:(lia))
      as (Hd & Hng & Hres & Hav & Hsmall).
    destruct (closed_form_without_loss ConstantNoGrowthModel
                Hd Hng Hres Hav Hsmall) as [[Hlow Hhigh] _].
    + vm_compute. reflexivity.
    + change (closed_form_longevity ConstantNoGrowthModel) with 50 in Hlow.
      change (Z.of_nat MAX_YEARS) with 50 in Hhigh. lia.
  - destruct (equal_accounts_premises 4000 1000 ltac:(lia) ltac:(lia))
      as (Hd & Hng & Hres & Hav & Hsmall).
    destruct (closed_form_without_loss (equal_accounts 4000 1000)
                Hd Hng Hres Hav Hsmall) as [_ Hequal].
    + vm_compute. reflexivity.
    + rewrite Hequal by (vm_compute; reflexivity).
      vm_compute. reflexivity.
Defined.

(** The closed form needs every account to be available: with the
    accounts of the profile of the unit test locked until a retirement
    in year 20, the Individual account alone pays, for 12 years. *)
Example closed_form_needs_availability :
  let a :=
    available_from 20
      (set_initial_values [12500; 12500; 12500; 12500]
         (set_expense0 1000 (set_yearsTillRetirement_ 20 Asset_ctor))) in
  no_growth_no_income a /\
  closed_form_longevity a = 50 /\
  fundLongevity_ (calculateN a) = 12.
Proof.
  cbv zeta. split; [by apply no_growth_no_income_ctor |].
  vm_compute. by split.
Qed.

(** It needs amounts a [float] holds exactly: an account of
    50,331,647 and an expense of [2 ^ 24] lose nothing to truncation,
    but the value left after year 0, 33,554,431, is stored as
    33,554,432, and the fund lasts 3 years, not [floor (total / expense)
    = 2]. *)
Example closed_form_needs_small_amounts :
  let a :=
    all_available
      (set_initial_values [50331647; 0; 0; 0]
         (set_expense0 16777216 Asset_ctor)) in
  no_growth_no_income a /\
  every_year within_values MAX_YEARS 0 a = true /\
  every_year paid_in_full MAX_YEARS 0 a = true /\
  value_at (calculateN a) INDIVIDUAL_INDEX 1 = 33554432 /\
  closed_form_longevity a = 2 /\
  fundLongevity_ (calculateN a) = 3.
Proof.
  cbv zeta. split; [by apply no_growth_no_income_ctor |].
  vm_compute. by split_and!.
Qed.

(** And it needs an empty cash reserve: with a reserve of 500, four
    accounts of 250 and an expense of 600 last 2 years, not
    [floor (1000 / 600) = 1]. *)
Example closed_form_needs_empty_reserve :
  let a := set_cashReserve_ 500 (equal_accounts 250 600) in
  no_growth_no_income a /\
  closed_form_longevity a = 1 /\
  fundLongevity_ (calculateN a) = 2.
Proof.
  cbv zeta. split; [by apply no_growth_no_income_ctor |].
  vm_compute. by split.
Qed.

(** ** [calculateN] stays inside its arrays *)

Section CheckedAccess.
Context {A : Type}.
Implicit Types (a : list (list A)) (l : list A).

Lemma read1_get1 d l i : (i < length l)%nat -> read1 l i = Some (get1 d l i).
Proof.
  intros Hi. unfold read1, get1.
  by destruct (lookup_lt_is_Some_2 l i Hi) as [x ->].
Qed.

Lemma write1_insert l i x :
  (i < length l)%nat -> write1 l i x = Some (<[i := x]> l).
Proof. intros Hi. unfold write1. by rewrite (proj2 (Nat.ltb_lt _ _) Hi). Qed.

Lemma read2_get2 d a rows cols c i :
  dims2 a rows cols -> (c < rows)%nat -> (i < cols)%nat ->
  read2 a c i = Some (get2 d a c i).
Proof.
  intros Hd Hc Hi. unfold read2, get2.
  destruct (dims2_lookup _ _ _ _ Hd Hc) as (row & -> & Hlen).
  cbn [mbind option_bind].
  by destruct (lookup_lt_is_Some_2 row i ltac:(lia)) as [x ->].
Qed.

Lemma write2_set2 a rows cols c i x :
  dims2 a rows cols -> (c < rows)%nat -> (i < cols)%nat ->
  write2 a c i x = Some (set2 a c i x).
Proof.
  intros Hd Hc Hi. unfold write2.
  destruct (dims2_lookup _ _ _ _ Hd Hc) as (row & -> & Hlen).
  cbn [mbind option_bind]. by rewrite (proj2 (Nat.ltb_lt _ _)) by lia.
Qed.
End CheckedAccess.

Lemma useCashReserve_checked_ok i a :
  dims_ok a -> (i < MAX_YEARS)%nat ->
  useCashReserve_checked i a = Some (useCashReserve i a).
Proof.
  intros (_&_&_&_&He&_) Hi. unfold useCashReserve_checked, useCashReserve.
  rewrite (read1_get1 0) by lia. cbn [mbind option_bind].
  by rewrite write1_insert by lia.
Qed.

Lemma addCashReserve_checked_ok cash c n a :
  dims_ok a -> (c < MAX_ACCOUNTS)%nat -> (n < MAX_YEARS)%nat ->
  addCashReserve_checked cash c n a = Some (addCashReserve cash c n a).
Proof.
  intros (_&_&Hv&_) Hc Hn. unfold addCashReserve_checked, addCashReserve.
  rewrite (read2_get2 0 _ _ _ _ _ Hv Hc Hn). cbn [mbind option_bind].
  fold (value_at a c n). destruct (value_at a c n >? cash); [| done].
  cbv zeta. cbn [value_ set_cashReserve_].
  rewrite (read2_get2 0 _ _ _ _ _ Hv Hc Hn). cbn [mbind option_bind].
  by rewrite (write2_set2 _ _ _ _ _ _ Hv Hc Hn).
Qed.

Lemma cashPolicy_checked_ok i a :
  dims_ok a -> (i < MAX_YEARS)%nat ->
  cashPolicy_checked i a = Some (cashPolicy i a).
Proof.
  intros Hd Hi. unfold cashPolicy_checked, cashPolicy.
  destruct (0 <? i)%nat eqn:H0; [| done]. apply Nat.ltb_lt in H0.
  pose proof Hd as (Hg&_).
  assert (Hc : (INDIVIDUAL_INDEX < MAX_ACCOUNTS)%nat) by (cbv; lia).
  assert (Hi' : (i - 1 < MAX_YEARS)%nat) by lia.
  rewrite (read2_get2 fzero _ _ _ _ _ Hg Hc Hi').
  cbn [mbind option_bind andb]. fold (growthRate_at a INDIVIDUAL_INDEX (i - 1)).
  destruct (flt (growthRate_at a INDIVIDUAL_INDEX (i - 1)) (of_Z 0)
            && (cashReserve_ a >? 0)).
  { by apply useCashReserve_checked_ok. }
  destruct (flt (of_Z 0) (growthRate_at a INDIVIDUAL_INDEX (i - 1))
            && (cashReserve_ a =? 0)); [| done].
  rewrite addCashReserve_checked_ok; [done | done | | done].
  unfold MAX_ACCOUNTS, INDIVIDUAL_INDEX. lia.
Qed.

Lemma distributable_total_checked_ok i a :
  dims_ok a -> (i < MAX_YEARS)%nat ->
  distributable_total_checked i a = Some (distributable_total i a).
Proof.
  intros (_&_&Hv&Ha&_) Hi.
  unfold distributable_total_checked, distributable_total.
  assert (Hl : forall c, c ∈ seq 0 MAX_ACCOUNTS -> (c < MAX_ACCOUNTS)%nat)
    by (intros c Hc; apply elem_of_seq in Hc; lia).
  revert Hl. generalize (seq 0 MAX_ACCOUNTS) 0.
  intros l. induction l as [| c l IH]; intros t Hl; cbn [fold_left]; [done |].
  assert (Hc : (c < MAX_ACCOUNTS)%nat) by (apply Hl; by left).
  cbn [mbind option_bind].
  rewrite (read2_get2 false _ _ _ _ _ Ha Hc Hi). cbn [mbind option_bind].
  fold (availability_at a c i).
  destruct (availability_at a c i).
  - rewrite (read2_get2 0 _ _ _ _ _ Hv Hc Hi). cbn [mbind option_bind].
    apply IH. intros c' Hc'. apply Hl. by right.
  - apply IH. intros c' Hc'. apply Hl. by right.
Qed.

Lemma net_expense_checked_ok i a :
  dims_ok a -> (i < MAX_YEARS)%nat ->
  net_expense_checked i a = Some (net_expense i a) /\
  contribution_individual_checked i a = Some (contribution_individual i a).
Proof.
  intros (_&_&_&_&He&_) Hi.
  unfold net_expense_checked, contribution_individual_checked.
  by rewrite (read1_get1 0) by lia.
Qed.

Lemma shortfall_checked_ok i net total a :
  dims_ok a -> (i < MAX_YEARS)%nat ->
  shortfall_checked i net total a = Some (shortfall i net total a).
Proof.
  intros Hd Hi. unfold shortfall_checked, shortfall.
  destruct (net >? total); [| done].
  destruct (net <? _); [| done].
  by rewrite useCashReserve_checked_ok.
Qed.

Lemma distribute_account_checked_ok i pct a c :
  dims_ok a -> (c < MAX_ACCOUNTS)%nat -> (i < MAX_YEARS)%nat ->
  distribute_account_checked i pct a c = Some (distribute_account i pct a c).
Proof.
  intros (Hg&_&Hv&Ha&_&Hdist&_) Hc Hi.
  unfold distribute_account_checked, distribute_account.
  rewrite (read2_get2 false _ _ _ _ _ Ha Hc Hi). cbn [mbind option_bind].
  fold (availability_at a c i).
  set (d := if availability_at a c i
            then to_long (fmul (of_Z (value_at a c i)) pct) else 0).
  assert (Hread : (if availability_at a c i
                   then read2 (value_ a) c i
                        ≫= fun v => Some (to_long (fmul (of_Z v) pct))
                   else Some 0) = Some d).
  { subst d. destruct (availability_at a c i); [| done].
    by rewrite (read2_get2 0 _ _ _ _ _ Hv Hc Hi). }
  rewrite Hread. cbn [mbind option_bind].
  rewrite (write2_set2 _ _ _ _ _ _ Hdist Hc Hi). cbn [mbind option_bind].
  cbv zeta. destruct (i + 1 <? MAX_YEARS)%nat eqn:Hi1; [| done].
  apply Nat.ltb_lt in Hi1.
  cbn [value_ distribution_ growthRate_ set_distribution_].
  rewrite (read2_get2 0 _ _ _ _ _ Hv Hc Hi). cbn [mbind option_bind].
  rewrite (read2_get2 0 _ _ _ _ _ (dims2_set2 _ _ _ c i d Hdist) Hc Hi).
  cbn [mbind option_bind].
  rewrite (read2_get2 fzero _ _ _ _ _ Hg Hc Hi). cbn [mbind option_bind].
  by rewrite (write2_set2 _ _ _ _ _ _ Hv Hc Hi1).
Qed.

Lemma distribute_checked_ok i pct a :
  dims_ok a -> (i < MAX_YEARS)%nat ->
  distribute_checked i pct a = Some (distribute i pct a).
Proof.
  intros Hd Hi. unfold distribute_checked, distribute.
  assert (Hl : forall c, c ∈ seq 0 MAX_ACCOUNTS -> (c < MAX_ACCOUNTS)%nat)
    by (intros c Hc; apply elem_of_seq in Hc; lia).
  revert Hl a Hd. generalize (seq 0 MAX_ACCOUNTS).
  intros l. induction l as [| c l IH]; intros Hl a Hd; cbn [fold_left]; [done |].
  assert (Hc : (c < MAX_ACCOUNTS)%nat) by (apply Hl; by left).
  cbn [mbind option_bind]. rewrite distribute_account_checked_ok by done.
  apply IH; [intros c' Hc'; apply Hl; by right |].
  by apply dims_ok_distribute_account.
Qed.

Lemma add_value_checked_ok c i x a :
  dims_ok a -> (c < MAX_ACCOUNTS)%nat -> (i + 1 < MAX_YEARS)%nat ->
  add_value_checked c i x a = Some (add_value c i x a).
Proof.
  intros (_&_&Hv&_) Hc Hi. unfold add_value_checked, add_value.
  rewrite (read2_get2 0 _ _ _ _ _ Hv Hc Hi). cbn [mbind option_bind].
  by rewrite (write2_set2 _ _ _ _ _ _ Hv Hc Hi).
Qed.

Lemma inflate_checked_ok i a x :
  dims_ok a -> (i < MAX_YEARS)%nat ->
  inflate_checked i a x = Some (inflate i a x).
Proof.
  intros (_&_&_&_&_&_&_&Hinf) Hi. unfold inflate_checked, inflate.
  by rewrite (read1_get1 fzero) by lia.
Qed.

Lemma contribute_checked_ok i x a :
  dims_ok a -> (i < MAX_YEARS)%nat ->
  contribute_checked i x a = Some (contribute i x a).
Proof.
  intros Hd Hi. unfold contribute_checked, contribute.
  destruct (Z.of_nat i <? yearsTillRetirement_ a); [| done].
  destruct (i + 1 <? MAX_YEARS)%nat eqn:Hi1; [| done].
  apply Nat.ltb_lt in Hi1. cbn [andb]. cbv zeta.
  assert (H0 : (INDIVIDUAL_INDEX < MAX_ACCOUNTS)%nat) by (cbv; lia).
  assert (H1 : (ROTH_INDEX < MAX_ACCOUNTS)%nat) by (cbv; lia).
  assert (H2 : (IRA_INDEX < MAX_ACCOUNTS)%nat) by (cbv; lia).
  assert (H3 : (R401K_INDEX < MAX_ACCOUNTS)%nat) by (cbv; lia).
  rewrite add_value_checked_ok by done. cbn [mbind option_bind].
  set (a1 := add_value INDIVIDUAL_INDEX i x a).
  assert (Hd1 : dims_ok a1) by (by apply dims_ok_add_value).
  rewrite add_value_checked_ok by done. cbn [mbind option_bind].
  set (a2 := add_value ROTH_INDEX i (contributionRoth_ a1) a1).
  assert (Hd2 : dims_ok a2) by (by apply dims_ok_add_value).
  rewrite add_value_checked_ok by done. cbn [mbind option_bind].
  set (a3 := add_value IRA_INDEX i (contributionIra_ a2) a2).
  assert (Hd3 : dims_ok a3) by (by apply dims_ok_add_value).
  rewrite add_value_checked_ok by done. cbn [mbind option_bind].
  set (a4 := add_value R401K_INDEX i (contributionR401k_ a3) a3).
  assert (Hd4 : dims_ok a4) by (by apply dims_ok_add_value).
  clearbody a4. clear a1 a2 a3 Hd1 Hd2 Hd3.
  rewrite inflate_checked_ok by done. cbn [mbind option_bind].
  set (a5 := set_contributionRoth_ _ a4).
  assert (Hd5 : dims_ok a5) by (by apply dims_ok_set_contributionRoth).
  clearbody a5.
  rewrite inflate_checked_ok by done. cbn [mbind option_bind].
  set (a6 := set_contributionIra_ _ a5).
  assert (Hd6 : dims_ok a6) by (by apply dims_ok_set_contributionIra).
  clearbody a6.
  rewrite inflate_checked_ok by done. cbn [mbind option_bind].
  set (a7 := set_contributionR401k_ _ a6).
  assert (Hd7 : dims_ok a7) by (by apply dims_ok_set_contributionR401k).
  clearbody a7.
  by rewrite inflate_checked_ok by done.
Qed.

Lemma inflate_expense_checked_ok i a :
  dims_ok a -> (i < MAX_YEARS)%nat ->
  inflate_expense_checked i a = Some (inflate_expense i a).
Proof.
  intros Hd Hi. unfold inflate_expense_checked, inflate_expense.
  destruct (i + 1 <? MAX_YEARS)%nat eqn:Hi1; [| done].
  apply Nat.ltb_lt in Hi1. pose proof Hd as (_&_&_&_&He&_).
  rewrite (read1_get1 0) by lia. cbn [mbind option_bind].
  rewrite inflate_checked_ok by done. cbn [mbind option_bind].
  by rewrite write1_insert by lia.
Qed.

Lemma inflate_reserve_checked_ok i a :
  dims_ok a -> (i < MAX_YEARS)%nat ->
  inflate_reserve_checked i a = Some (inflate_reserve i a).
Proof.
  intros (_&_&_&_&_&_&_&Hinf) Hi.
  unfold inflate_reserve_checked, inflate_reserve.
  destruct (cashReserve_ a >? 0); [| done].
  by rewrite (read1_get1 fzero) by lia.
Qed.

Lemma year_body_checked_ok i a :
  dims_ok a -> (i < MAX_YEARS)%nat ->
  year_body_checked i a = Some (year_body i a).
Proof.
  intros Hd Hi. unfold year_body_checked, year_body.
  assert (Hd1 : dims_ok (before_check i a)) by (by apply dims_ok_before_check).
  unfold before_check in *.
  rewrite cashPolicy_checked_ok by first [done | by apply dims_ok_retire].
  cbn [mbind option_bind].
  set (a1 := cashPolicy i (retire i a)) in *. clearbody a1.
  rewrite distributable_total_checked_ok by done. cbn [mbind option_bind].
  destruct (net_expense_checked_ok i a1 Hd1 Hi) as [-> ->].
  cbn [mbind option_bind].
  rewrite shortfall_checked_ok by done. cbn [mbind option_bind]. cbv zeta.
  destruct (shortfall i (net_expense i a1) (distributable_total i a1) a1)
    as [a2 |] eqn:Hs; [| done].
  pose proof (dims_ok_shortfall _ _ _ _ _ Hs Hd1) as Hd2.
  unfold after_check.
  rewrite distribute_checked_ok by done. cbn [mbind option_bind].
  set (d := distribute i _ a2).
  assert (Hdd : dims_ok d) by (by apply dims_ok_distribute). clearbody d.
  rewrite contribute_checked_ok by done. cbn [mbind option_bind].
  set (b := contribute i _ d).
  assert (Hdb : dims_ok b) by (by apply dims_ok_contribute). clearbody b.
  rewrite inflate_expense_checked_ok by done. cbn [mbind option_bind].
  by rewrite inflate_reserve_checked_ok
    by first [done | by apply dims_ok_inflate_expense].
Qed.

Lemma year_loop_checked_ok remaining :
  forall i a,
    dims_ok a -> (i + remaining <= MAX_YEARS)%nat ->
    year_loop_checked remaining i a = Some (year_loop remaining i a).
Proof.
  induction remaining as [| remaining IH]; intros i a Hd Hi; [done |].
  cbn [year_loop_checked]. rewrite year_loop_step.
  rewrite year_body_checked_ok by (done || lia). cbn [mbind option_bind].
  pose proof (dims_ok_year_body i a Hd) as Hd'.
  destruct (year_body i a) as [a' | a']; [| done].
  apply IH; [done | lia].
Qed.

(** X7.  [calculateN] makes no access outside an array.  Started on
    arrays of their declared sizes, the run in which every read and
    every write of an array element is checked against the array's
    bounds completes every year it reaches and gives the state of
    [calculateN], whose arrays again have their declared sizes. *)
Theorem calculateN_in_bounds (a0 : Asset) :
  dims_ok a0 ->
  calculateN_checked a0 = Some (calculateN a0) /\
  (forall i a, reaches a0 i a -> (i < MAX_YEARS)%nat ->
     dims_ok a /\ year_body_checked i a = Some (year_body i a)) /\
  dims_ok (calculateN a0).
Proof.
  intros H0. split; [| split; [| by apply dims_ok_calculateN]].
  - unfold calculateN_checked, calculateN.
    rewrite year_loop_checked_ok by (done || lia). cbn [mbind option_bind].
    by destruct (year_loop MAX_YEARS 0 a0).
  - intros i a Hr Hi.
    assert (Hd : dims_ok a).
    { clear Hi. induction Hr as [| j b b' _ IH _ Hb]; [done |].
      pose proof (dims_ok_year_body j b IH) as H. by rewrite Hb in H. }
    split; [exact Hd | by apply year_body_checked_ok].
Qed.

(** The hypothesis of [calculateN_in_bounds] holds of the state of a
    profile with growth, inflation and retirement in year 0, whose fund
    lasts 31 years. *)
Lemma calculateN_in_bounds_witness :
  exists a : Asset,
    calculateN_checked (initializeFromUserData growing_user Asset_ctor)
    = Some a /\ fundLongevity_ a = 31.
Proof.
  destruct (calculateN_in_bounds (initializeFromUserData growing_user Asset_ctor))
    as (H & _ & _).
  - dims_tac.
  - eexists. split; [exact H |]. vm_compute. reflexivity.
Defined.

(** The checks are those of the declared sizes: on an [expense_] of 49
    entries the checked run completes the years 0 to 47 and fails in
    year 48, at the write of [expense_[49]]. *)
Example calculateN_checked_short_array :
  let a := set_expense_ (replicate 49 1000) ConstantNoGrowthModel in
  calculateN_checked a = None /\
  exists b,
    year_loop_checked 48 0 a = Some (48%nat, b) /\
    year_body_checked 48 b = None.
Proof.
  cbv zeta. split; [vm_compute; reflexivity |].
  destruct (year_loop_checked 48 0
              (set_expense_ (replicate 49 1000) ConstantNoGrowthModel))
    as [[j b] |] eqn:E; [| vm_compute in E; discriminate].
  assert (Hj : j = 48%nat).
  { assert (H : fst <$> year_loop_checked 48 0
                  (set_expense_ (replicate 49 1000) ConstantNoGrowthModel)
                = Some 48%nat) by (vm_compute; reflexivity).
    rewrite E in H. cbn in H. congruence. }
  subst j. exists b. split; [done |].
  assert (H : year_loop_checked 48 0
                (set_expense_ (replicate 49 1000) ConstantNoGrowthModel)
              ≫= (fun r : nat * Asset => year_body_checked 48 (snd r)) = None)
    by (vm_compute; reflexivity).
  rewrite E in H. exact H.
Qed.
